(** * The swap-in/swap-out scheduler of nbla/lms/swap_in_out_scheduler.cpp

    A shallow embedding of [SwapInOutScheduler]: the access trace, the
    recorder and the tracer callbacks, the planner ([schedule] and the
    functions it calls) and the executor steps, followed by the properties
    of the specification that are settled on them.

    Conventions.
    - [size_t] values are [Z] with the wrap-around modulo [2^64] written out
      where the source adds, subtracts or multiplies them.
    - [int] cursors ([head], [fid], [order_idx]) are [Z]; traces are taken
      shorter than [2^31] records, so no cursor wraps.
    - A [weak_ptr<SyncedArray>] or [SyncedArrayPtr] is the address of the
      array it designates, a [Z]; whether [lock()] still yields the array is
      a question put to the tensor store.
    - Every [unordered_map] of the source is read through [operator[]]
      only, so a missing key reads as the default value of its type.
    - References into [order] (the schedules, [swapped_out_r]) are indices
      into [order]. *)

From stdpp Require Import gmap strings list.
From Stdlib Require Import ZArith Lia.

Local Open Scope Z_scope.

(** ** Errors *)

(** Modelled from the spec: the error kinds of section 7. The declaration
    of [error_code] is not part of the sources; the scheduler names four of
    its members, [error_code::unclassified], [error_code::type],
    [error_code::memory] and [error_code::target_specific_async].  The
    specification lists a fifth kind, exhaustion, which no [NBLA_ERROR] of
    the file names. *)
Module error_code.
Inductive t := unclassified | type | memory | target_specific_async | exhaustion.
End error_code.

(** The outcome of a call: it returns, it throws [NBLA_ERROR(e, _)], or it
    reads or writes outside a vector, which C++ leaves undefined. *)
Inductive result (A : Type) : Type :=
| Ok (a : A)
| Err (e : error_code.t)
| Undefined.

Arguments Ok {A} a.
Arguments Err {A} e.
Arguments Undefined {A}.

Definition bind {A B} (m : result A) (k : A -> result B) : result B :=
  match m with
  | Ok a => k a
  | Err e => Err e
  | Undefined => Undefined
  end.

Notation "'do' x <- m ;; k" := (bind m (fun x => k))
  (at level 10, x name, m at level 99, k at level 200).
Notation "'do' ' p <- m ;; k" := (bind m (fun p => k))
  (at level 10, p pattern, m at level 99, k at level 200).

(** ** Data model *)

Module RecTag.
Inductive t := GETCAST | CLEAR.

#[global] Instance eq_dec : EqDecision t.
Proof. solve_decision. Defined.
End RecTag.

Module SyncedArrayCallbackTag.
Inductive t := GET | CAST | CLEAR.
End SyncedArrayCallbackTag.

(** [Context]: the scheduler reads [array_class] and passes the context to
    [get_array_key_from_context]; [device_id] is the other component of
    that key. *)
Record Context := { array_class : string; device_id : string }.

#[global] Instance Context_eq_dec : EqDecision Context.
Proof. solve_decision. Defined.

Abbreviation dtypes := Z (only parsing).
Abbreviation SyncedArrayPtr := Z (only parsing).

Module RecType.
Record t := mk {
  tag : RecTag.t;
  synced_array_id : Z;
  sawptr : SyncedArrayPtr;
  size : Z;
  dtype : dtypes;
  ctx : Context;
  preclear : bool;
  swapped_out : bool;
  swapped_out_bytes : Z;
  no_need_swap_out : bool }.

Definition put_sawptr v s :=
  {| tag := tag s; synced_array_id := synced_array_id s; sawptr := v; size := size s;
     dtype := dtype s; ctx := ctx s; preclear := preclear s; swapped_out := swapped_out
     s; swapped_out_bytes := swapped_out_bytes s; no_need_swap_out := no_need_swap_out s |}.

Definition put_preclear v s :=
  {| tag := tag s; synced_array_id := synced_array_id s; sawptr := sawptr s; size :=
     size s; dtype := dtype s; ctx := ctx s; preclear := v; swapped_out := swapped_out
     s; swapped_out_bytes := swapped_out_bytes s; no_need_swap_out := no_need_swap_out s |}.

Definition put_swapped_out v s :=
  {| tag := tag s; synced_array_id := synced_array_id s; sawptr := sawptr s; size :=
     size s; dtype := dtype s; ctx := ctx s; preclear := preclear s; swapped_out := v;
     swapped_out_bytes := swapped_out_bytes s; no_need_swap_out := no_need_swap_out s |}.

Definition put_swapped_out_bytes v s :=
  {| tag := tag s; synced_array_id := synced_array_id s; sawptr := sawptr s; size :=
     size s; dtype := dtype s; ctx := ctx s; preclear := preclear s; swapped_out :=
     swapped_out s; swapped_out_bytes := v; no_need_swap_out := no_need_swap_out s |}.

Definition put_no_need_swap_out v s :=
  {| tag := tag s; synced_array_id := synced_array_id s; sawptr := sawptr s; size :=
     size s; dtype := dtype s; ctx := ctx s; preclear := preclear s; swapped_out :=
     swapped_out s; swapped_out_bytes := swapped_out_bytes s; no_need_swap_out := v |}.
End RecType.

(** [unordered_map<K, bool>::operator[]]: a key never written reads [false]. *)
Definition flag (m : gmap Z bool) (k : Z) : bool := default false (m !! k).

(** [vector<T>::operator[]] on [order]: outside the vector the read is
    undefined. *)
Definition at_ {A} (v : list A) (i : Z) : result A :=
  if decide (0 <= i) then
    match v !! Z.to_nat i with
    | Some x => Ok x
    | None => Undefined
    end
  else Undefined.

(** [order[i] = r]. *)
Definition store_at {A} (v : list A) (i : Z) (x : A) : list A :=
  <[Z.to_nat i := x]> v.

(** [size_t] arithmetic. *)
Definition wrap (x : Z) : Z := x mod 2 ^ 64.

(** [synced_array_id_mapper], an [unordered_map<SyncedArrayPtr, unsigned int>]:
    kept as its lookup and its [size()], the two things the recorder asks
    of it, so that a map of [2^32] arrays is a value one can write down. *)
Module IdMapper.
Record t := { find : SyncedArrayPtr -> option Z; size : Z }.
Definition clear : t := {| find := fun _ => None; size := 0 |}.
(** [m[p] = id] for a [p] that [find] does not know. *)
Definition insert (p : SyncedArrayPtr) (id : Z) (m : t) : t :=
  {| find := fun q => if decide (q = p) then Some id else find m q;
     size := size m + 1 |}.
End IdMapper.

(** The function [synced_array_callback] forwards to. *)
Inductive Callback := synced_array_callback_recorder_ | synced_array_callback_tracer_.

(** The members of [SwapInOutScheduler].  [callback_func] is the slot of the
    process-wide [SyncedArrayCallback] singleton: the copy of
    [synced_array_callback] installed in it, if any. *)
Record SwapInOutScheduler := {
  host_ctx : Context;
  device_ctx : Context;
  max_bytes_swap_in : Z;
  max_bytes_swap_out : Z;
  order : list RecType.t;
  wrong_ordered : list RecType.t;
  func_block_ends : list Z;
  order_idx : Z;
  func_idx : Z;
  tail : Z;
  used_bytes_swap_out : Z;
  first_iter : bool;
  iter_count : Z;
  synced_array_id_mapper : IdMapper.t;
  synced_array_id_to_order_idx : gmap Z (list Z);
  precleared : gmap Z bool;
  swapped_out : gmap Z bool;
  swapped_out_r : gmap Z Z;
  swap_in_schedule : gmap Z (list Z);
  swap_out_schedule : gmap Z (list Z);
  wait_schedule : gmap Z (list Z);
  synced_array_callback : Callback;
  callback_func : option Callback }.

Definition put_order v s :=
  {| host_ctx := host_ctx s; device_ctx := device_ctx s; max_bytes_swap_in :=
     max_bytes_swap_in s; max_bytes_swap_out := max_bytes_swap_out s; order := v;
     wrong_ordered := wrong_ordered s; func_block_ends := func_block_ends s; order_idx
     := order_idx s; func_idx := func_idx s; tail := tail s; used_bytes_swap_out :=
     used_bytes_swap_out s; first_iter := first_iter s; iter_count := iter_count s;
     synced_array_id_mapper := synced_array_id_mapper s; synced_array_id_to_order_idx :=
     synced_array_id_to_order_idx s; precleared := precleared s; swapped_out :=
     swapped_out s; swapped_out_r := swapped_out_r s; swap_in_schedule :=
     swap_in_schedule s; swap_out_schedule := swap_out_schedule s; wait_schedule :=
     wait_schedule s; synced_array_callback := synced_array_callback s; callback_func :=
     callback_func s |}.

Definition put_wrong_ordered v s :=
  {| host_ctx := host_ctx s; device_ctx := device_ctx s; max_bytes_swap_in :=
     max_bytes_swap_in s; max_bytes_swap_out := max_bytes_swap_out s; order := order s;
     wrong_ordered := v; func_block_ends := func_block_ends s; order_idx := order_idx s;
     func_idx := func_idx s; tail := tail s; used_bytes_swap_out := used_bytes_swap_out
     s; first_iter := first_iter s; iter_count := iter_count s; synced_array_id_mapper
     := synced_array_id_mapper s; synced_array_id_to_order_idx :=
     synced_array_id_to_order_idx s; precleared := precleared s; swapped_out :=
     swapped_out s; swapped_out_r := swapped_out_r s; swap_in_schedule :=
     swap_in_schedule s; swap_out_schedule := swap_out_schedule s; wait_schedule :=
     wait_schedule s; synced_array_callback := synced_array_callback s; callback_func :=
     callback_func s |}.

Definition put_func_block_ends v s :=
  {| host_ctx := host_ctx s; device_ctx := device_ctx s; max_bytes_swap_in :=
     max_bytes_swap_in s; max_bytes_swap_out := max_bytes_swap_out s; order := order s;
     wrong_ordered := wrong_ordered s; func_block_ends := v; order_idx := order_idx s;
     func_idx := func_idx s; tail := tail s; used_bytes_swap_out := used_bytes_swap_out
     s; first_iter := first_iter s; iter_count := iter_count s; synced_array_id_mapper
     := synced_array_id_mapper s; synced_array_id_to_order_idx :=
     synced_array_id_to_order_idx s; precleared := precleared s; swapped_out :=
     swapped_out s; swapped_out_r := swapped_out_r s; swap_in_schedule :=
     swap_in_schedule s; swap_out_schedule := swap_out_schedule s; wait_schedule :=
     wait_schedule s; synced_array_callback := synced_array_callback s; callback_func :=
     callback_func s |}.

Definition put_order_idx v s :=
  {| host_ctx := host_ctx s; device_ctx := device_ctx s; max_bytes_swap_in :=
     max_bytes_swap_in s; max_bytes_swap_out := max_bytes_swap_out s; order := order s;
     wrong_ordered := wrong_ordered s; func_block_ends := func_block_ends s; order_idx
     := v; func_idx := func_idx s; tail := tail s; used_bytes_swap_out :=
     used_bytes_swap_out s; first_iter := first_iter s; iter_count := iter_count s;
     synced_array_id_mapper := synced_array_id_mapper s; synced_array_id_to_order_idx :=
     synced_array_id_to_order_idx s; precleared := precleared s; swapped_out :=
     swapped_out s; swapped_out_r := swapped_out_r s; swap_in_schedule :=
     swap_in_schedule s; swap_out_schedule := swap_out_schedule s; wait_schedule :=
     wait_schedule s; synced_array_callback := synced_array_callback s; callback_func :=
     callback_func s |}.

Definition put_func_idx v s :=
  {| host_ctx := host_ctx s; device_ctx := device_ctx s; max_bytes_swap_in :=
     max_bytes_swap_in s; max_bytes_swap_out := max_bytes_swap_out s; order := order s;
     wrong_ordered := wrong_ordered s; func_block_ends := func_block_ends s; order_idx
     := order_idx s; func_idx := v; tail := tail s; used_bytes_swap_out :=
     used_bytes_swap_out s; first_iter := first_iter s; iter_count := iter_count s;
     synced_array_id_mapper := synced_array_id_mapper s; synced_array_id_to_order_idx :=
     synced_array_id_to_order_idx s; precleared := precleared s; swapped_out :=
     swapped_out s; swapped_out_r := swapped_out_r s; swap_in_schedule :=
     swap_in_schedule s; swap_out_schedule := swap_out_schedule s; wait_schedule :=
     wait_schedule s; synced_array_callback := synced_array_callback s; callback_func :=
     callback_func s |}.

Definition put_tail v s :=
  {| host_ctx := host_ctx s; device_ctx := device_ctx s; max_bytes_swap_in :=
     max_bytes_swap_in s; max_bytes_swap_out := max_bytes_swap_out s; order := order s;
     wrong_ordered := wrong_ordered s; func_block_ends := func_block_ends s; order_idx
     := order_idx s; func_idx := func_idx s; tail := v; used_bytes_swap_out :=
     used_bytes_swap_out s; first_iter := first_iter s; iter_count := iter_count s;
     synced_array_id_mapper := synced_array_id_mapper s; synced_array_id_to_order_idx :=
     synced_array_id_to_order_idx s; precleared := precleared s; swapped_out :=
     swapped_out s; swapped_out_r := swapped_out_r s; swap_in_schedule :=
     swap_in_schedule s; swap_out_schedule := swap_out_schedule s; wait_schedule :=
     wait_schedule s; synced_array_callback := synced_array_callback s; callback_func :=
     callback_func s |}.

Definition put_used_bytes_swap_out v s :=
  {| host_ctx := host_ctx s; device_ctx := device_ctx s; max_bytes_swap_in :=
     max_bytes_swap_in s; max_bytes_swap_out := max_bytes_swap_out s; order := order s;
     wrong_ordered := wrong_ordered s; func_block_ends := func_block_ends s; order_idx
     := order_idx s; func_idx := func_idx s; tail := tail s; used_bytes_swap_out := v;
     first_iter := first_iter s; iter_count := iter_count s; synced_array_id_mapper :=
     synced_array_id_mapper s; synced_array_id_to_order_idx :=
     synced_array_id_to_order_idx s; precleared := precleared s; swapped_out :=
     swapped_out s; swapped_out_r := swapped_out_r s; swap_in_schedule :=
     swap_in_schedule s; swap_out_schedule := swap_out_schedule s; wait_schedule :=
     wait_schedule s; synced_array_callback := synced_array_callback s; callback_func :=
     callback_func s |}.

Definition put_first_iter v s :=
  {| host_ctx := host_ctx s; device_ctx := device_ctx s; max_bytes_swap_in :=
     max_bytes_swap_in s; max_bytes_swap_out := max_bytes_swap_out s; order := order s;
     wrong_ordered := wrong_ordered s; func_block_ends := func_block_ends s; order_idx
     := order_idx s; func_idx := func_idx s; tail := tail s; used_bytes_swap_out :=
     used_bytes_swap_out s; first_iter := v; iter_count := iter_count s;
     synced_array_id_mapper := synced_array_id_mapper s; synced_array_id_to_order_idx :=
     synced_array_id_to_order_idx s; precleared := precleared s; swapped_out :=
     swapped_out s; swapped_out_r := swapped_out_r s; swap_in_schedule :=
     swap_in_schedule s; swap_out_schedule := swap_out_schedule s; wait_schedule :=
     wait_schedule s; synced_array_callback := synced_array_callback s; callback_func :=
     callback_func s |}.

Definition put_iter_count v s :=
  {| host_ctx := host_ctx s; device_ctx := device_ctx s; max_bytes_swap_in :=
     max_bytes_swap_in s; max_bytes_swap_out := max_bytes_swap_out s; order := order s;
     wrong_ordered := wrong_ordered s; func_block_ends := func_block_ends s; order_idx
     := order_idx s; func_idx := func_idx s; tail := tail s; used_bytes_swap_out :=
     used_bytes_swap_out s; first_iter := first_iter s; iter_count := v;
     synced_array_id_mapper := synced_array_id_mapper s; synced_array_id_to_order_idx :=
     synced_array_id_to_order_idx s; precleared := precleared s; swapped_out :=
     swapped_out s; swapped_out_r := swapped_out_r s; swap_in_schedule :=
     swap_in_schedule s; swap_out_schedule := swap_out_schedule s; wait_schedule :=
     wait_schedule s; synced_array_callback := synced_array_callback s; callback_func :=
     callback_func s |}.

Definition put_synced_array_id_mapper v s :=
  {| host_ctx := host_ctx s; device_ctx := device_ctx s; max_bytes_swap_in :=
     max_bytes_swap_in s; max_bytes_swap_out := max_bytes_swap_out s; order := order s;
     wrong_ordered := wrong_ordered s; func_block_ends := func_block_ends s; order_idx
     := order_idx s; func_idx := func_idx s; tail := tail s; used_bytes_swap_out :=
     used_bytes_swap_out s; first_iter := first_iter s; iter_count := iter_count s;
     synced_array_id_mapper := v; synced_array_id_to_order_idx :=
     synced_array_id_to_order_idx s; precleared := precleared s; swapped_out :=
     swapped_out s; swapped_out_r := swapped_out_r s; swap_in_schedule :=
     swap_in_schedule s; swap_out_schedule := swap_out_schedule s; wait_schedule :=
     wait_schedule s; synced_array_callback := synced_array_callback s; callback_func :=
     callback_func s |}.

Definition put_synced_array_id_to_order_idx v s :=
  {| host_ctx := host_ctx s; device_ctx := device_ctx s; max_bytes_swap_in :=
     max_bytes_swap_in s; max_bytes_swap_out := max_bytes_swap_out s; order := order s;
     wrong_ordered := wrong_ordered s; func_block_ends := func_block_ends s; order_idx
     := order_idx s; func_idx := func_idx s; tail := tail s; used_bytes_swap_out :=
     used_bytes_swap_out s; first_iter := first_iter s; iter_count := iter_count s;
     synced_array_id_mapper := synced_array_id_mapper s; synced_array_id_to_order_idx :=
     v; precleared := precleared s; swapped_out := swapped_out s; swapped_out_r :=
     swapped_out_r s; swap_in_schedule := swap_in_schedule s; swap_out_schedule :=
     swap_out_schedule s; wait_schedule := wait_schedule s; synced_array_callback :=
     synced_array_callback s; callback_func := callback_func s |}.

Definition put_precleared v s :=
  {| host_ctx := host_ctx s; device_ctx := device_ctx s; max_bytes_swap_in :=
     max_bytes_swap_in s; max_bytes_swap_out := max_bytes_swap_out s; order := order s;
     wrong_ordered := wrong_ordered s; func_block_ends := func_block_ends s; order_idx
     := order_idx s; func_idx := func_idx s; tail := tail s; used_bytes_swap_out :=
     used_bytes_swap_out s; first_iter := first_iter s; iter_count := iter_count s;
     synced_array_id_mapper := synced_array_id_mapper s; synced_array_id_to_order_idx :=
     synced_array_id_to_order_idx s; precleared := v; swapped_out := swapped_out s;
     swapped_out_r := swapped_out_r s; swap_in_schedule := swap_in_schedule s;
     swap_out_schedule := swap_out_schedule s; wait_schedule := wait_schedule s;
     synced_array_callback := synced_array_callback s; callback_func := callback_func s |}.

Definition put_swapped_out v s :=
  {| host_ctx := host_ctx s; device_ctx := device_ctx s; max_bytes_swap_in :=
     max_bytes_swap_in s; max_bytes_swap_out := max_bytes_swap_out s; order := order s;
     wrong_ordered := wrong_ordered s; func_block_ends := func_block_ends s; order_idx
     := order_idx s; func_idx := func_idx s; tail := tail s; used_bytes_swap_out :=
     used_bytes_swap_out s; first_iter := first_iter s; iter_count := iter_count s;
     synced_array_id_mapper := synced_array_id_mapper s; synced_array_id_to_order_idx :=
     synced_array_id_to_order_idx s; precleared := precleared s; swapped_out := v;
     swapped_out_r := swapped_out_r s; swap_in_schedule := swap_in_schedule s;
     swap_out_schedule := swap_out_schedule s; wait_schedule := wait_schedule s;
     synced_array_callback := synced_array_callback s; callback_func := callback_func s |}.

Definition put_swapped_out_r v s :=
  {| host_ctx := host_ctx s; device_ctx := device_ctx s; max_bytes_swap_in :=
     max_bytes_swap_in s; max_bytes_swap_out := max_bytes_swap_out s; order := order s;
     wrong_ordered := wrong_ordered s; func_block_ends := func_block_ends s; order_idx
     := order_idx s; func_idx := func_idx s; tail := tail s; used_bytes_swap_out :=
     used_bytes_swap_out s; first_iter := first_iter s; iter_count := iter_count s;
     synced_array_id_mapper := synced_array_id_mapper s; synced_array_id_to_order_idx :=
     synced_array_id_to_order_idx s; precleared := precleared s; swapped_out :=
     swapped_out s; swapped_out_r := v; swap_in_schedule := swap_in_schedule s;
     swap_out_schedule := swap_out_schedule s; wait_schedule := wait_schedule s;
     synced_array_callback := synced_array_callback s; callback_func := callback_func s |}.

Definition put_swap_in_schedule v s :=
  {| host_ctx := host_ctx s; device_ctx := device_ctx s; max_bytes_swap_in :=
     max_bytes_swap_in s; max_bytes_swap_out := max_bytes_swap_out s; order := order s;
     wrong_ordered := wrong_ordered s; func_block_ends := func_block_ends s; order_idx
     := order_idx s; func_idx := func_idx s; tail := tail s; used_bytes_swap_out :=
     used_bytes_swap_out s; first_iter := first_iter s; iter_count := iter_count s;
     synced_array_id_mapper := synced_array_id_mapper s; synced_array_id_to_order_idx :=
     synced_array_id_to_order_idx s; precleared := precleared s; swapped_out :=
     swapped_out s; swapped_out_r := swapped_out_r s; swap_in_schedule := v;
     swap_out_schedule := swap_out_schedule s; wait_schedule := wait_schedule s;
     synced_array_callback := synced_array_callback s; callback_func := callback_func s |}.

Definition put_swap_out_schedule v s :=
  {| host_ctx := host_ctx s; device_ctx := device_ctx s; max_bytes_swap_in :=
     max_bytes_swap_in s; max_bytes_swap_out := max_bytes_swap_out s; order := order s;
     wrong_ordered := wrong_ordered s; func_block_ends := func_block_ends s; order_idx
     := order_idx s; func_idx := func_idx s; tail := tail s; used_bytes_swap_out :=
     used_bytes_swap_out s; first_iter := first_iter s; iter_count := iter_count s;
     synced_array_id_mapper := synced_array_id_mapper s; synced_array_id_to_order_idx :=
     synced_array_id_to_order_idx s; precleared := precleared s; swapped_out :=
     swapped_out s; swapped_out_r := swapped_out_r s; swap_in_schedule :=
     swap_in_schedule s; swap_out_schedule := v; wait_schedule := wait_schedule s;
     synced_array_callback := synced_array_callback s; callback_func := callback_func s |}.

Definition put_wait_schedule v s :=
  {| host_ctx := host_ctx s; device_ctx := device_ctx s; max_bytes_swap_in :=
     max_bytes_swap_in s; max_bytes_swap_out := max_bytes_swap_out s; order := order s;
     wrong_ordered := wrong_ordered s; func_block_ends := func_block_ends s; order_idx
     := order_idx s; func_idx := func_idx s; tail := tail s; used_bytes_swap_out :=
     used_bytes_swap_out s; first_iter := first_iter s; iter_count := iter_count s;
     synced_array_id_mapper := synced_array_id_mapper s; synced_array_id_to_order_idx :=
     synced_array_id_to_order_idx s; precleared := precleared s; swapped_out :=
     swapped_out s; swapped_out_r := swapped_out_r s; swap_in_schedule :=
     swap_in_schedule s; swap_out_schedule := swap_out_schedule s; wait_schedule := v;
     synced_array_callback := synced_array_callback s; callback_func := callback_func s |}.

Definition put_synced_array_callback v s :=
  {| host_ctx := host_ctx s; device_ctx := device_ctx s; max_bytes_swap_in :=
     max_bytes_swap_in s; max_bytes_swap_out := max_bytes_swap_out s; order := order s;
     wrong_ordered := wrong_ordered s; func_block_ends := func_block_ends s; order_idx
     := order_idx s; func_idx := func_idx s; tail := tail s; used_bytes_swap_out :=
     used_bytes_swap_out s; first_iter := first_iter s; iter_count := iter_count s;
     synced_array_id_mapper := synced_array_id_mapper s; synced_array_id_to_order_idx :=
     synced_array_id_to_order_idx s; precleared := precleared s; swapped_out :=
     swapped_out s; swapped_out_r := swapped_out_r s; swap_in_schedule :=
     swap_in_schedule s; swap_out_schedule := swap_out_schedule s; wait_schedule :=
     wait_schedule s; synced_array_callback := v; callback_func := callback_func s |}.

Definition put_callback_func v s :=
  {| host_ctx := host_ctx s; device_ctx := device_ctx s; max_bytes_swap_in :=
     max_bytes_swap_in s; max_bytes_swap_out := max_bytes_swap_out s; order := order s;
     wrong_ordered := wrong_ordered s; func_block_ends := func_block_ends s; order_idx
     := order_idx s; func_idx := func_idx s; tail := tail s; used_bytes_swap_out :=
     used_bytes_swap_out s; first_iter := first_iter s; iter_count := iter_count s;
     synced_array_id_mapper := synced_array_id_mapper s; synced_array_id_to_order_idx :=
     synced_array_id_to_order_idx s; precleared := precleared s; swapped_out :=
     swapped_out s; swapped_out_r := swapped_out_r s; swap_in_schedule :=
     swap_in_schedule s; swap_out_schedule := swap_out_schedule s; wait_schedule :=
     wait_schedule s; synced_array_callback := synced_array_callback s; callback_func :=
     v |}.

(** The locals of [schedule] that its callees take by reference. *)
Record Queue := {
  head : Z;
  used_bytes_swap_in : Z;
  synced_array_counts : gmap Z (gmap Z Z) }.

(** [synced_array_counts[id]] and [synced_array_counts[id][dtype]]. *)
Definition counts_of (c : gmap Z (gmap Z Z)) (id : Z) : gmap Z Z :=
  default ∅ (c !! id).

Definition count (c : gmap Z (gmap Z Z)) (id : Z) (d : dtypes) : Z :=
  default 0 (counts_of c id !! d).

Definition put_count (c : gmap Z (gmap Z Z)) (id : Z) (d : dtypes) (n : Z)
  : gmap Z (gmap Z Z) :=
  <[id := <[d := n]> (counts_of c id)]> c.

Definition accumulate_counts (count_map : gmap Z Z) : Z :=
  fold_left (fun value p => value + p.2) (map_to_list count_map) 0.

Definition put_head v (q : Queue) :=
  {| head := v; used_bytes_swap_in := used_bytes_swap_in q;
     synced_array_counts := synced_array_counts q |}.

Definition put_used_bytes_swap_in v (q : Queue) :=
  {| head := head q; used_bytes_swap_in := v;
     synced_array_counts := synced_array_counts q |}.

Definition put_synced_array_counts v (q : Queue) :=
  {| head := head q; used_bytes_swap_in := used_bytes_swap_in q;
     synced_array_counts := v |}.

(** How a [while] or [for] body leaves: on to the next round, or [break]. *)
Inductive flow (A : Type) : Type :=
| Continue (a : A)
| Break (a : A).

Arguments Continue {A} a.
Arguments Break {A} a.

(** The calls the scheduler makes on the tensor store and the device. *)
Inductive AsyncFlag := NONE | ASYNC | UNSAFE | ASYNC_UNSAFE.

Inductive Call :=
| call_cast (p : SyncedArrayPtr) (dtype : dtypes) (ctx : Context) (write_only : bool)
    (async_flags : AsyncFlag)
| call_get (p : SyncedArrayPtr) (dtype : dtypes) (ctx : Context) (async_flags : AsyncFlag)
| call_clear (p : SyncedArrayPtr)
| call_synchronize (ctx : Context).

(** The function of the scheduler a call is made from. *)
Inductive Site :=
| in_swap_in
| in_swap_out_first_iter
| in_wait_for_swap_out_first_iter
| in_swap_out_scheduled
| in_wait_for_swap_out_scheduled
| in_swap_out_wrong_order
| in_finalize.

(** A counted [for] loop, [for (i = first; i < last; i++)], whose body does
    not write [i] or [last].  The rounds are counted in binary, so that the
    loop can be run whatever bound the program reads. *)
Fixpoint for_rounds {X} (body : Z -> X -> result X) (p : positive) (i : Z) (x : X)
  : result X :=
  match p with
  | xH => body i x
  | xO p' =>
    do x' <- for_rounds body p' i x ;;
    for_rounds body p' (i + Z.pos p') x'
  | xI p' =>
    do x0 <- body i x ;;
    do x' <- for_rounds body p' (i + 1) x0 ;;
    for_rounds body p' (i + 1 + Z.pos p') x'
  end.

Definition for_loop {X} (body : Z -> X -> result X) (first last : Z) (x : X)
  : result X :=
  match last - first with
  | Z.pos p => for_rounds body p first x
  | _ => Ok x
  end.

(** The same loop with its rounds counted one by one. *)
Fixpoint for_nat {X} (body : Z -> X -> result X) (n : nat) (i : Z) (x : X) : result X :=
  match n with
  | O => Ok x
  | S n' => do x' <- body i x ;; for_nat body n' (i + 1) x'
  end.

Section Scheduler.

(** [sizeof_dtype] is declared outside the file. *)
Variable sizeof_dtype : dtypes -> Z.

(** What a read of [func_block_ends] outside the vector yields: [None] when
    the run is lost there, [Some v] when the memory beside the vector holds
    [v].  C++ leaves the read undefined; everything proved below holds for
    every [oob]. *)
Variable oob : Z -> option Z.

Definition func_block_ends_at (s : SwapInOutScheduler) (i : Z) : result Z :=
  match (if decide (0 <= i) then func_block_ends s !! Z.to_nat i else None) with
  | Some e => Ok e
  | None => match oob i with Some e => Ok e | None => Undefined end
  end.

(** ** The planner *)

(** [schedule_preclear]: the loop with [i] running from [n - 1] down to 0. *)
Fixpoint schedule_preclear_loop (n : nat) (ord : list RecType.t)
    (clear_flag : gmap Z bool) : list RecType.t * gmap Z bool :=
  match n with
  | O => (ord, clear_flag)
  | S i =>
    match ord !! i with
    | None => (ord, clear_flag)
    | Some r =>
      match RecType.tag r with
      | RecTag.CLEAR =>
        schedule_preclear_loop i ord
          (<[RecType.synced_array_id r := true]> clear_flag)
      | RecTag.GETCAST =>
        schedule_preclear_loop i
          (<[i := RecType.put_preclear
                    (flag clear_flag (RecType.synced_array_id r)) r]> ord)
          (<[RecType.synced_array_id r := false]> clear_flag)
      end
    end
  end.

Definition schedule_preclear (s : SwapInOutScheduler) : SwapInOutScheduler :=
  put_order (schedule_preclear_loop (length (order s)) (order s) ∅).1 s.

(** The bytes of one array in each dtype of [count_map], in the order the
    map is walked. *)
Definition bytes_of_types (size : Z) (count_map : gmap Z Z) : list Z :=
  (fun it => wrap (size * sizeof_dtype it.1)) <$> map_to_list count_map.

Definition add_bytes (used : Z) (bs : list Z) : Z :=
  fold_left (fun u array_bytes => wrap (u + array_bytes)) bs used.

Definition sub_bytes (used : Z) (bs : list Z) : Z :=
  fold_left (fun u array_bytes => wrap (u - array_bytes)) bs used.

(** The state of the loop of [schedule_swap_in]: the scheduler, the queue,
    the local [host_uses_this_synced_array] and the local [schedule]. *)
Record SwapIn := {
  si_this : SwapInOutScheduler;
  si_queue : Queue;
  host_uses_this_synced_array : gmap Z bool;
  si_schedule : list Z }.

(** Lines 322-328: the eviction planned for this array is called off. *)
Definition cancel_swap_out (s : SwapInOutScheduler) (id : Z)
  : result SwapInOutScheduler :=
  if flag (swapped_out s) id then
    match swapped_out_r s !! id with
    | None => Undefined
    | Some j =>
      do rj <- at_ (order s) j ;;
      Ok (put_swapped_out (<[id := false]> (swapped_out s))
            (put_order (store_at (order s) j (RecType.put_no_need_swap_out true rj)) s))
    end
  else Ok s.

Definition schedule_swap_in_body (x : SwapIn) : result (flow SwapIn) :=
  let s := si_this x in
  let q := si_queue x in
  do r <- at_ (order s) (head q) ;;
  match RecType.tag r with
  | RecTag.CLEAR =>
    Ok (Continue {| si_this := s; si_queue := put_head (head q + 1) q;
                    host_uses_this_synced_array := host_uses_this_synced_array x;
                    si_schedule := si_schedule x |})
  | RecTag.GETCAST =>
    let id := RecType.synced_array_id r in
    if decide (array_class (RecType.ctx r) = array_class (device_ctx s)) then
      let next_array_bytes := wrap (RecType.size r * sizeof_dtype (RecType.dtype r)) in
      if decide (wrap (used_bytes_swap_in q + next_array_bytes)
                 > wrap (max_bytes_swap_in s - max_bytes_swap_out s))
      then Ok (Break x)
      else
        let c := count (synced_array_counts q) id (RecType.dtype r) in
        let first := bool_decide (c = 0) in
        let fetch := first && negb (flag (host_uses_this_synced_array x) id) in
        do s' <- (if fetch then cancel_swap_out s id else Ok s) ;;
        Ok (Continue
          {| si_this := s';
             si_queue :=
               {| head := head q + 1;
                  used_bytes_swap_in :=
                    if first then wrap (used_bytes_swap_in q + next_array_bytes)
                    else used_bytes_swap_in q;
                  synced_array_counts :=
                    put_count (synced_array_counts q) id (RecType.dtype r) (c + 1) |};
             host_uses_this_synced_array := host_uses_this_synced_array x;
             si_schedule :=
               if fetch then si_schedule x ++ [head q] else si_schedule x |})
    else if decide (array_class (RecType.ctx r) = array_class (host_ctx s)) then
      Ok (Continue
        {| si_this := s; si_queue := put_head (head q + 1) q;
           host_uses_this_synced_array := <[id := true]> (host_uses_this_synced_array x);
           si_schedule := si_schedule x |})
    else Err error_code.type
  end.

(** [while (head < order.size())]; every round that does not [break] moves
    [head] on, so [length order] rounds are enough. *)
Fixpoint schedule_swap_in_loop (fuel : nat) (x : SwapIn) : result SwapIn :=
  if decide (head (si_queue x) < Z.of_nat (length (order (si_this x)))) then
    match fuel with
    | O => Ok x
    | S fuel' =>
      do y <- schedule_swap_in_body x ;;
      match y with
      | Continue x' => schedule_swap_in_loop fuel' x'
      | Break x' => Ok x'
      end
    end
  else Ok x.

Definition schedule_swap_in (s : SwapInOutScheduler) (q : Queue) : result SwapIn :=
  schedule_swap_in_loop (length (order s))
    {| si_this := s; si_queue := q; host_uses_this_synced_array := ∅; si_schedule := [] |}.

(** The state of the loop of [schedule_swap_out]. *)
Record SwapOut := {
  so_this : SwapInOutScheduler;
  so_queue : Queue;
  so_schedule : list Z }.

Definition schedule_swap_out_body (i : Z) (x : SwapOut) : result SwapOut :=
  let s := so_this x in
  let q := so_queue x in
  do r <- at_ (order s) i ;;
  match RecType.tag r with
  | RecTag.CLEAR => Ok x
  | RecTag.GETCAST =>
    let id := RecType.synced_array_id r in
    if decide (array_class (RecType.ctx r) = array_class (device_ctx s)) then
      let count_map := counts_of (synced_array_counts q) id in
      let bs := bytes_of_types (RecType.size r) count_map in
      let last := bool_decide (accumulate_counts count_map = 1) in
      let evict := last && negb (RecType.preclear r) in
      let r' :=
        if evict then
          RecType.put_swapped_out_bytes (add_bytes 0 bs) (RecType.put_swapped_out true r)
        else r in
      let s' :=
        if evict then
          put_used_bytes_swap_out (add_bytes (used_bytes_swap_out s) bs)
            (put_swapped_out_r (<[id := i]> (swapped_out_r s))
               (put_swapped_out (<[id := true]> (swapped_out s))
                  (put_order (store_at (order s) i r') s)))
        else s in
      Ok {| so_this := s';
            so_queue :=
              {| head := head q;
                 used_bytes_swap_in :=
                   if last then sub_bytes (used_bytes_swap_in q) bs
                   else used_bytes_swap_in q;
                 synced_array_counts :=
                   put_count (synced_array_counts q) id (RecType.dtype r)
                     (count (synced_array_counts q) id (RecType.dtype r) - 1) |};
            so_schedule := if last then so_schedule x ++ [i] else so_schedule x |}
    else if decide (array_class (RecType.ctx r) = array_class (host_ctx s)) then Ok x
    else Err error_code.type
  end.

Definition schedule_swap_out (s : SwapInOutScheduler) (q : Queue) (fid : Z)
  : result SwapOut :=
  do first <- func_block_ends_at s (fid - 1) ;;
  do last <- func_block_ends_at s fid ;;
  for_loop schedule_swap_out_body (wrap first) last
    {| so_this := s; so_queue := q; so_schedule := [] |}.

Definition schedule_wait_for_swap_out_impl (x : SwapInOutScheduler * list Z)
  : result (SwapInOutScheduler * list Z) :=
  let '(s, schedule) := x in
  do r <- at_ (order s) (tail s) ;;
  let s1 := put_tail (tail s + 1) s in
  if RecType.swapped_out r then
    Ok (put_swapped_out (<[RecType.synced_array_id r := false]> (swapped_out s1))
          (put_used_bytes_swap_out
             (wrap (used_bytes_swap_out s1 - RecType.swapped_out_bytes r))
             (put_order
                (store_at (order s1) (tail s)
                   (RecType.put_swapped_out_bytes 0 (RecType.put_swapped_out false r)))
                s1)),
        schedule ++ [tail s])
  else Ok (s1, schedule).

(** [while (used_bytes_swap_out > max_bytes_swap_out)].  Every round moves
    [tail] on and reads [order[tail]], so the loop has returned or left the
    vector after [length order + 1] rounds. *)
Fixpoint schedule_wait_for_swap_out_loop (fuel : nat)
    (x : SwapInOutScheduler * list Z) : result (SwapInOutScheduler * list Z) :=
  if decide (used_bytes_swap_out x.1 > max_bytes_swap_out x.1) then
    match fuel with
    | O => Undefined
    | S fuel' =>
      do x' <- schedule_wait_for_swap_out_impl x ;;
      schedule_wait_for_swap_out_loop fuel' x'
    end
  else Ok x.

Definition schedule_wait_for_swap_out (s : SwapInOutScheduler)
  : result (SwapInOutScheduler * list Z) :=
  schedule_wait_for_swap_out_loop (S (length (order s))) (s, []).

(** [while (tail < order.size())]. *)
Fixpoint schedule_wait_for_all_swap_out_loop (fuel : nat)
    (x : SwapInOutScheduler * list Z) : result (SwapInOutScheduler * list Z) :=
  if decide (tail x.1 < Z.of_nat (length (order x.1))) then
    match fuel with
    | O => Ok x
    | S fuel' =>
      do x' <- schedule_wait_for_swap_out_impl x ;;
      schedule_wait_for_all_swap_out_loop fuel' x'
    end
  else Ok x.

Definition schedule_wait_for_all_swap_out (s : SwapInOutScheduler)
  : result (SwapInOutScheduler * list Z) :=
  schedule_wait_for_all_swap_out_loop (length (order s)) (s, []).

(** One round of the loop of [schedule], split at the three calls so that
    the state between two of them can be named. *)
Definition plan_swap_in (fid : Z) (x : SwapInOutScheduler * Queue)
  : result (SwapInOutScheduler * Queue) :=
  do y <- schedule_swap_in x.1 x.2 ;;
  let s := put_swap_in_schedule (<[fid := si_schedule y]> (swap_in_schedule (si_this y)))
             (si_this y) in
  do e <- func_block_ends_at s fid ;;
  if decide (head (si_queue y) < e) then Err error_code.memory
  else Ok (s, si_queue y).

Definition plan_swap_out (fid : Z) (x : SwapInOutScheduler * Queue)
  : result (SwapInOutScheduler * Queue) :=
  do y <- schedule_swap_out x.1 x.2 fid ;;
  Ok (put_swap_out_schedule (<[fid := so_schedule y]> (swap_out_schedule (so_this y)))
        (so_this y),
      so_queue y).

Definition plan_wait (fid : Z) (x : SwapInOutScheduler * Queue)
  : result (SwapInOutScheduler * Queue) :=
  do y <- schedule_wait_for_swap_out x.1 ;;
  Ok (put_wait_schedule (<[fid := y.2]> (wait_schedule y.1)) y.1, x.2).

Definition schedule_round (fid : Z) (x : SwapInOutScheduler * Queue)
  : result (SwapInOutScheduler * Queue) :=
  do x1 <- plan_swap_in fid x ;;
  do x2 <- plan_swap_out fid x1 ;;
  plan_wait fid x2.

Definition last_function (s : SwapInOutScheduler) : Z :=
  wrap (Z.of_nat (length (func_block_ends s)) - 1).

Definition schedule_start (s : SwapInOutScheduler) : SwapInOutScheduler * Queue :=
  (schedule_preclear s,
   {| head := 0; used_bytes_swap_in := 0; synced_array_counts := ∅ |}).

Definition schedule (s : SwapInOutScheduler) : result SwapInOutScheduler :=
  do x <- for_loop schedule_round 0 (last_function s) (schedule_start s) ;;
  do y <- schedule_wait_for_all_swap_out x.1 ;;
  Ok (put_wait_schedule (<[wrap (last_function s - 1) := y.2]> (wait_schedule y.1)) y.1).

(** ** The tensor store *)

(** [SyncedArray] is outside the file.  The scheduler asks it five things
    and calls [cast], [get] and [clear] on it; what those calls do to the
    store is left to [perform]. *)
Variable Store : Type.
Variable lock : Store -> SyncedArrayPtr -> bool.
Variable get_num_arrays : Store -> SyncedArrayPtr -> Z.
Variable array_dtype : Store -> SyncedArrayPtr -> dtypes.
Variable array_size : Store -> SyncedArrayPtr -> Z.
Variable head_array_class : Store -> SyncedArrayPtr -> string.
Variable perform : Call -> Store -> Store.

(** The scheduler together with the store it acts on and the calls it has
    issued, each with the function that issued it and the position in
    [order] (or in [wrong_ordered]) of the record it was issued for. *)
Record World := {
  this : SwapInOutScheduler;
  arrays : Store;
  issued : list (Site * Z * Call) }.

Definition with_this (f : SwapInOutScheduler -> SwapInOutScheduler) (w : World) : World :=
  {| this := f (this w); arrays := arrays w; issued := issued w |}.

Definition issue (site : Site) (i : Z) (c : Call) (w : World) : World :=
  {| this := this w; arrays := perform c (arrays w);
     issued := issued w ++ [(site, i, c)] |}.

(** A range-based [for] over a schedule. *)
Fixpoint for_each {A} (body : A -> World -> result World) (l : list A) (w : World)
  : result World :=
  match l with
  | [] => Ok w
  | a :: l' => do w' <- body a w ;; for_each body l' w'
  end.

(** [unordered_map<int, ScheduleType>::operator[]]. *)
Definition schedule_of (m : gmap Z (list Z)) (k : Z) : list Z := default [] (m !! k).

(** ** The executor *)

Definition init (s : SwapInOutScheduler) : SwapInOutScheduler :=
  put_swapped_out ∅
    (put_synced_array_id_mapper IdMapper.clear
       (put_precleared ∅
          (put_wrong_ordered []
             (put_func_idx 0
                (put_order_idx 0
                   (put_used_bytes_swap_out 0
                      (put_tail 0 s))))))).

Definition swap_in (w : World) : result World :=
  for_each
    (fun j w =>
       do r <- at_ (order (this w)) j ;;
       if lock (arrays w) (RecType.sawptr r) then
         Ok (issue in_swap_in j
               (call_get (RecType.sawptr r) (RecType.dtype r) (RecType.ctx r) ASYNC_UNSAFE) w)
       else Ok w)
    (schedule_of (swap_in_schedule (this w)) (func_idx (this w) - 1)) w.

Definition swap_out_first_iter_body (i : Z) (w : World) : result World :=
  let s := this w in
  do r <- at_ (order s) i ;;
  match RecType.tag r with
  | RecTag.CLEAR => Ok w
  | RecTag.GETCAST =>
    if decide (array_class (RecType.ctx r) = array_class (device_ctx s)) then
      let p := RecType.sawptr r in
      if lock (arrays w) p && bool_decide (get_num_arrays (arrays w) p > 0) then
        let w1 := issue in_swap_out_first_iter i
                    (call_cast p (array_dtype (arrays w) p) (host_ctx s) false ASYNC_UNSAFE) w in
        let array_bytes :=
          wrap (array_size (arrays w1) p * sizeof_dtype (array_dtype (arrays w1) p)) in
        Ok (with_this
              (fun s =>
                 put_order
                   (store_at (order s) i
                      (RecType.put_swapped_out_bytes array_bytes
                         (RecType.put_swapped_out true r)))
                   (put_used_bytes_swap_out (wrap (used_bytes_swap_out s + array_bytes)) s))
              w1)
      else Ok w
    else if decide (array_class (RecType.ctx r) = array_class (host_ctx s)) then Ok w
    else Err error_code.type
  end.

Definition swap_out_first_iter (w : World) : result World :=
  do first <- func_block_ends_at (this w) (func_idx (this w) - 1) ;;
  do last <- func_block_ends_at (this w) (func_idx (this w)) ;;
  for_loop swap_out_first_iter_body first last w.

Definition wait_for_swap_out_first_iter_impl (w : World) : result World :=
  let s := this w in
  do r <- at_ (order s) (tail s) ;;
  let w1 := with_this (put_tail (tail s + 1)) w in
  match RecType.tag r with
  | RecTag.CLEAR => Ok w1
  | RecTag.GETCAST =>
    let p := RecType.sawptr r in
    if RecType.swapped_out r then
      let w2 :=
        if lock (arrays w1) p
           && bool_decide (head_array_class (arrays w1) p = array_class (host_ctx s))
           && bool_decide (get_num_arrays (arrays w1) p > 0)
        then issue in_wait_for_swap_out_first_iter (tail s)
               (call_get p (array_dtype (arrays w1) p) (host_ctx s) UNSAFE) w1
        else w1 in
      Ok (with_this
            (fun s1 =>
               put_used_bytes_swap_out
                 (wrap (used_bytes_swap_out s1 - RecType.swapped_out_bytes r))
                 (put_order
                    (store_at (order s1) (tail s)
                       (RecType.put_swapped_out_bytes 0 (RecType.put_swapped_out false r)))
                    s1))
            w2)
    else Ok w1
  end.

Fixpoint wait_for_swap_out_first_iter_loop (fuel : nat) (w : World) : result World :=
  if decide (used_bytes_swap_out (this w) > max_bytes_swap_out (this w)) then
    match fuel with
    | O => Undefined
    | S fuel' =>
      do w' <- wait_for_swap_out_first_iter_impl w ;;
      wait_for_swap_out_first_iter_loop fuel' w'
    end
  else Ok w.

Definition wait_for_swap_out_first_iter (w : World) : result World :=
  wait_for_swap_out_first_iter_loop (S (length (order (this w)))) w.

Fixpoint wait_for_all_swap_out_loop (fuel : nat) (w : World) : result World :=
  if decide (tail (this w) < Z.of_nat (length (order (this w)))) then
    match fuel with
    | O => Ok w
    | S fuel' =>
      do w' <- wait_for_swap_out_first_iter_impl w ;;
      wait_for_all_swap_out_loop fuel' w'
    end
  else Ok w.

Definition wait_for_all_swap_out (w : World) : result World :=
  wait_for_all_swap_out_loop (length (order (this w))) w.

Definition swap_out_scheduled_body (j : Z) (w : World) : result World :=
  do r <- at_ (order (this w)) j ;;
  let p := RecType.sawptr r in
  if lock (arrays w) p then
    if RecType.preclear r then
      Ok (with_this (fun s => put_precleared (<[p := true]> (precleared s)) s)
            (issue in_swap_out_scheduled j (call_clear p) w))
    else if negb (RecType.no_need_swap_out r) then
      Ok (issue in_swap_out_scheduled j
            (call_cast p (array_dtype (arrays w) p) (host_ctx (this w)) false ASYNC_UNSAFE) w)
    else Ok w
  else Ok w.

Definition swap_out_scheduled (w : World) : result World :=
  for_each swap_out_scheduled_body
    (schedule_of (swap_out_schedule (this w)) (func_idx (this w) - 1)) w.

Definition wait_for_swap_out_scheduled_body (j : Z) (w : World) : result World :=
  do r <- at_ (order (this w)) j ;;
  if RecType.no_need_swap_out r then Ok w
  else
    let p := RecType.sawptr r in
    if lock (arrays w) p
       && bool_decide (head_array_class (arrays w) p = array_class (host_ctx (this w)))
       && bool_decide (get_num_arrays (arrays w) p > 0)
    then Ok (issue in_wait_for_swap_out_scheduled j
               (call_get p (array_dtype (arrays w) p) (host_ctx (this w)) UNSAFE) w)
    else Ok w.

Definition wait_for_swap_out_scheduled (w : World) : result World :=
  for_each wait_for_swap_out_scheduled_body
    (schedule_of (wait_schedule (this w)) (func_idx (this w) - 1)) w.

Definition swap_out (w : World) : result World :=
  if first_iter (this w) then
    do w1 <- swap_out_first_iter w ;; wait_for_swap_out_first_iter w1
  else
    do w1 <- swap_out_scheduled w ;; wait_for_swap_out_scheduled w1.

Definition swap_out_step (w : World) : result World :=
  let w0 :=
    if first_iter (this w) then
      with_this (fun s => put_func_block_ends (func_block_ends s ++ [order_idx s]) s) w
    else w in
  do w1 <- swap_out w0 ;;
  do e <- func_block_ends_at (this w1) (func_idx (this w1)) ;;
  if decide (order_idx (this w1) < e) then Ok (with_this (put_order_idx e) w1)
  else Ok w1.

Definition swap_in_step (w : World) : result World :=
  let w1 := with_this (fun s => put_func_idx (func_idx s + 1) s) w in
  if first_iter (this w1) then Ok w1 else swap_in w1.

Definition set_synced_array_callback (w : World) : World :=
  with_this (fun s => put_callback_func (Some (synced_array_callback s)) s) w.

Definition unset_synced_array_callback (w : World) : World :=
  with_this (put_callback_func None) w.

Definition pre_callback (w : World) : result World :=
  let w0 := unset_synced_array_callback w in
  do w1 <- (if decide (func_idx (this w0) > 0) then swap_out_step w0 else Ok w0) ;;
  do w2 <- swap_in_step w1 ;;
  Ok (set_synced_array_callback w2).

Definition swap_out_wrong_order_body (i : nat) (r : RecType.t) (w : World) : result World :=
  match RecType.tag r with
  | RecTag.CLEAR => Ok w
  | RecTag.GETCAST =>
    if decide (array_class (RecType.ctx r) = array_class (device_ctx (this w))) then
      let p := RecType.sawptr r in
      if lock (arrays w) p && bool_decide (get_num_arrays (arrays w) p > 0) then
        Ok (issue in_swap_out_wrong_order (Z.of_nat i)
              (call_cast p (RecType.dtype r) (host_ctx (this w)) false NONE) w)
      else Ok w
    else if decide (array_class (RecType.ctx r) = array_class (host_ctx (this w))) then Ok w
    else Err error_code.type
  end.

Definition swap_out_wrong_order (w : World) : result World :=
  for_each (fun ir => swap_out_wrong_order_body ir.1 ir.2)
    (imap pair (wrong_ordered (this w))) w.

Definition finalize (w : World) : result World :=
  do w1 <- (if decide (func_idx (this w) > 0) then swap_out_step w else Ok w) ;;
  do w2 <- swap_out_wrong_order w1 ;;
  do w3 <- wait_for_all_swap_out w2 ;;
  do w4 <- (if first_iter (this w3) then
              do s <- schedule (init (this w3)) ;;
              Ok {| this := s; arrays := arrays w3; issued := issued w3 |}
            else Ok w3) ;;
  let w5 := issue in_finalize 0 (call_synchronize (device_ctx (this w4))) w4 in
  Ok (with_this
        (fun s =>
           put_iter_count (iter_count s + 1)
             (put_first_iter false
                (put_synced_array_callback synced_array_callback_tracer_ s)))
        w5).

Definition start_scheduling (w : World) : result World :=
  Ok (set_synced_array_callback (with_this init w)).

Definition end_scheduling (w : World) : result World :=
  finalize (unset_synced_array_callback w).

Definition reset (w : World) : result World :=
  Ok (with_this
        (fun s => put_synced_array_callback synced_array_callback_recorder_
                    (put_order [] (init s)))
        w).

(** ** The callbacks *)

(** [get_array_key_from_context] is declared outside the file. *)
Variable get_array_key_from_context : Context -> string.

Definition get_tag (func_name : SyncedArrayCallbackTag.t) (write_only : bool) : RecTag.t :=
  match func_name with
  | SyncedArrayCallbackTag.GET => RecTag.GETCAST
  | SyncedArrayCallbackTag.CAST => RecTag.GETCAST
  | SyncedArrayCallbackTag.CLEAR => RecTag.CLEAR
  end.

(** [std::numeric_limits<unsigned int>::max()]. *)
Definition UINT_MAX : Z := 2 ^ 32 - 1.

(** [synced_array_id_to_order_idx[id].push_back(i)]. *)
Definition push_order_idx (m : gmap Z (list Z)) (id i : Z) : gmap Z (list Z) :=
  <[id := default [] (m !! id) ++ [i]]> m.

Definition synced_array_callback_recorder (saptr : SyncedArrayPtr)
    (func_name : SyncedArrayCallbackTag.t) (dtype : dtypes) (ctx : Context)
    (write_only : bool) (w : World) : result World :=
  let s := this w in
  if decide (func_idx s = 0) then Ok w
  else
    let tag := get_tag func_name write_only in
    if decide (IdMapper.size (synced_array_id_mapper s) > UINT_MAX) then
      Err error_code.unclassified
    else
      let mapper :=
        match IdMapper.find (synced_array_id_mapper s) saptr with
        | Some _ => synced_array_id_mapper s
        | None =>
          let next_id := IdMapper.size (synced_array_id_mapper s) mod 2 ^ 32 in
          IdMapper.insert saptr next_id (synced_array_id_mapper s)
        end in
      match IdMapper.find mapper saptr with
      | None => Undefined
      | Some id =>
        Ok (with_this
              (fun s =>
                 put_order_idx (order_idx s + 1)
                   (put_synced_array_id_to_order_idx
                      (push_order_idx (synced_array_id_to_order_idx s) id (order_idx s))
                      (put_order
                         (order s ++
                            [RecType.mk tag id saptr (array_size (arrays w) saptr) dtype ctx
                               false false 0 false])
                         (put_synced_array_id_mapper mapper s))))
              w)
      end.

(** [order[i].sawptr = saptr] for every [i] of the list; a write outside
    [order] is undefined. *)
Fixpoint replace_sawptr (saptr : SyncedArrayPtr) (idxs : list Z) (ord : list RecType.t)
  : result (list RecType.t) :=
  match idxs with
  | [] => Ok ord
  | i :: idxs' =>
    do r <- at_ ord i ;;
    replace_sawptr saptr idxs' (store_at ord i (RecType.put_sawptr saptr r))
  end.

Definition synced_array_callback_tracer (saptr : SyncedArrayPtr)
    (func_name : SyncedArrayCallbackTag.t) (dtype : dtypes) (ctx : Context)
    (write_only : bool) (w : World) : result World :=
  let s := this w in
  if decide (func_idx s = 0) then Ok w
  else
    let tag := get_tag func_name write_only in
    do s1 <- (if flag (precleared s) saptr then
                match tag with
                | RecTag.CLEAR => Ok (put_precleared (<[saptr := false]> (precleared s)) s)
                | RecTag.GETCAST => Err error_code.target_specific_async
                end
              else Ok s) ;;
    do rec <- at_ (order s1) (order_idx s1) ;;
    let rec_saptr :=
      if lock (arrays w) (RecType.sawptr rec) then Some (RecType.sawptr rec) else None in
    do e <- func_block_ends_at s1 (func_idx s1) ;;
    let same_but_saptr :=
      bool_decide (tag = RecType.tag rec)
      && bool_decide (Some saptr <> rec_saptr)
      && bool_decide (dtype = RecType.dtype rec)
      && bool_decide (get_array_key_from_context ctx
                      = get_array_key_from_context (RecType.ctx rec)) in
    let differs :=
      bool_decide (tag <> RecType.tag rec)
      || bool_decide (Some saptr <> rec_saptr)
      || bool_decide (dtype <> RecType.dtype rec)
      || bool_decide (get_array_key_from_context ctx
                      <> get_array_key_from_context (RecType.ctx rec)) in
    do s2 <-
      (if bool_decide (order_idx s1 < e) && same_but_saptr then
         do ord <- replace_sawptr saptr
                     (default [] (synced_array_id_to_order_idx s1
                                    !! RecType.synced_array_id rec))
                     (order s1) ;;
         Ok (put_order ord s1)
       else if bool_decide (order_idx s1 >= e)
               || (bool_decide (order_idx s1 < e) && differs) then
         Ok (put_wrong_ordered
               (wrong_ordered s1 ++
                  [RecType.mk tag 0 saptr (array_size (arrays w) saptr) dtype ctx
                     false false 0 false])
               s1)
       else Ok s1) ;;
    Ok {| this := put_order_idx (order_idx s2 + 1) s2;
          arrays := arrays w; issued := issued w |}.

(** ** The interface *)

(** What the graph runtime and the arrays do to the scheduler: the calls
    of the interface, an access to an array (which reaches the installed
    callback), and a change of the tensor store made by the functions of
    the graph. *)
Inductive Op :=
| op_start_scheduling
| op_end_scheduling
| op_reset
| op_pre_function_callback
| op_post_function_callback
| op_pre_update_callback
| op_post_update_callback
| op_access (saptr : SyncedArrayPtr) (func_name : SyncedArrayCallbackTag.t)
    (dtype : dtypes) (ctx : Context) (write_only : bool)
| op_store (a : Store).

Definition step (o : Op) (w : World) : result World :=
  match o with
  | op_start_scheduling => start_scheduling w
  | op_end_scheduling => end_scheduling w
  | op_reset => reset w
  | op_pre_function_callback => pre_callback w
  | op_post_function_callback => Ok w
  | op_pre_update_callback => pre_callback w
  | op_post_update_callback => Ok w
  | op_access saptr func_name dtype ctx write_only =>
    match callback_func (this w) with
    | None => Ok w
    | Some synced_array_callback_recorder_ =>
      synced_array_callback_recorder saptr func_name dtype ctx write_only w
    | Some synced_array_callback_tracer_ =>
      synced_array_callback_tracer saptr func_name dtype ctx write_only w
    end
  | op_store a => Ok {| this := this w; arrays := a; issued := issued w |}
  end.

Fixpoint run (ops : list Op) (w : World) : result World :=
  match ops with
  | [] => Ok w
  | o :: ops' => do w' <- step o w ;; run ops' w'
  end.

(** ** Reading the trace *)

(** The first event on array [id] in [rs], and whether it is a [CLEAR]. *)
Definition first_event (id : Z) (rs : list RecType.t) : option RecType.t :=
  List.find (fun r => bool_decide (RecType.synced_array_id r = id)) rs.

(** The next event on array [id] later in the trace than position [i]. *)
Definition next_event (ord : list RecType.t) (i : nat) (id : Z) : option RecType.t :=
  first_event id (drop (S i) ord).

Definition is_clear (o : option RecType.t) : bool :=
  match o with
  | Some r => bool_decide (RecType.tag r = RecTag.CLEAR)
  | None => false
  end.

(** What [schedule_preclear] makes of the record at position [j]. *)
Definition preclear_mark (ord : list RecType.t) (j : nat) (r : RecType.t) : RecType.t :=
  match RecType.tag r with
  | RecTag.GETCAST =>
    RecType.put_preclear (is_clear (next_event ord j (RecType.synced_array_id r))) r
  | RecTag.CLEAR => r
  end.

(** The three schedules of a scheduler. *)
Definition schedules (s : SwapInOutScheduler) : gmap Z (list Z) * gmap Z (list Z) * gmap Z (list Z) :=
  (swap_in_schedule s, swap_out_schedule s, wait_schedule s).

(** The planner has run: [first_iter] is off and the schedules are [k]. *)
Definition planned (k : gmap Z (list Z) * gmap Z (list Z) * gmap Z (list Z)) (w : World) : Prop :=
  first_iter (this w) = false /\ schedules (this w) = k.

(** ** Reading the index of the trace *)

(** [synced_array_id_to_order_idx[id]]. *)
Definition order_idxs (s : SwapInOutScheduler) (id : Z) : list Z :=
  default [] (synced_array_id_to_order_idx s !! id).

(** The index lists, for every ID, the positions in [order] of the records
    of that ID and nothing else: what the recorder builds. *)
Definition index_exact (s : SwapInOutScheduler) : Prop :=
  forall id i,
    i ∈ order_idxs s id
    <-> 0 <= i /\ exists r, order s !! Z.to_nat i = Some r /\ RecType.synced_array_id r = id.

(** The records of one ID refer to one array. *)
Definition one_handle (ord : list RecType.t) : Prop :=
  forall r1 r2, r1 ∈ ord -> r2 ∈ ord ->
    RecType.synced_array_id r1 = RecType.synced_array_id r2 ->
    RecType.sawptr r1 = RecType.sawptr r2.

(** The trace with the array of every record of [id] replaced by [saptr]. *)
Definition substitute (saptr : SyncedArrayPtr) (id : Z) (ord : list RecType.t)
  : list RecType.t :=
  (fun r => if bool_decide (RecType.synced_array_id r = id)
            then RecType.put_sawptr saptr r else r) <$> ord.

(** An access as the callback receives it. *)
Record Access := {
  a_saptr : SyncedArrayPtr;
  a_func_name : SyncedArrayCallbackTag.t;
  a_dtype : dtypes;
  a_ctx : Context;
  a_write_only : bool }.

Definition op_of (a : Access) : Op :=
  op_access (a_saptr a) (a_func_name a) (a_dtype a) (a_ctx a) (a_write_only a).

(** The access agrees with the record in tag, dtype and context key. *)
Definition same_event (a : Access) (r : RecType.t) : Prop :=
  get_tag (a_func_name a) (a_write_only a) = RecType.tag r
  /\ a_dtype a = RecType.dtype r
  /\ get_array_key_from_context (a_ctx a) = get_array_key_from_context (RecType.ctx r).

(** The array of the access is not one the executor has precleared, or the
    access is the CLEAR that the preclear anticipated. *)
Definition not_precleared (s : SwapInOutScheduler) (a : Access) : Prop :=
  flag (precleared s) (a_saptr a) = true ->
  get_tag (a_func_name a) (a_write_only a) = RecTag.CLEAR.

(** The records the next [n] events are compared with. *)
Definition expected (s : SwapInOutScheduler) (n : nat) : list RecType.t :=
  take n (drop (Z.to_nat (order_idx s)) (order s)).

(** The trace with the array of every record whose ID is in [ids] replaced
    by the array [hnd] gives for the ID. *)
Definition rehandle (hnd : Z -> SyncedArrayPtr) (ids : list Z) (ord : list RecType.t)
  : list RecType.t :=
  (fun r => if bool_decide (RecType.synced_array_id r ∈ ids)
            then RecType.put_sawptr (hnd (RecType.synced_array_id r)) r else r) <$> ord.

(** ** Reading the plan *)

(** What of a record the planner never writes. *)
Definition static (r : RecType.t) : RecTag.t * Z * Z * dtypes * Context :=
  (RecType.tag r, RecType.synced_array_id r, RecType.size r, RecType.dtype r,
   RecType.ctx r).

(** A GETCAST to the device class, and one to the host class (the branch
    of the planner that the device class does not take). *)
Definition on_device (s : SwapInOutScheduler) (r : RecType.t) : Prop :=
  RecType.tag r = RecTag.GETCAST
  /\ array_class (RecType.ctx r) = array_class (device_ctx s).

Definition on_host (s : SwapInOutScheduler) (r : RecType.t) : Prop :=
  RecType.tag r = RecTag.GETCAST
  /\ array_class (RecType.ctx r) <> array_class (device_ctx s)
  /\ array_class (RecType.ctx r) = array_class (host_ctx s).

(** The bytes of the array of a record in the dtype of the record. *)
Definition bytes_of (r : RecType.t) : Z := RecType.size r * sizeof_dtype (RecType.dtype r).

(** The points of the loop of [schedule] between its three calls. *)
Inductive point :=
| at_top (fid : Z)
| after_swap_in (fid : Z)
| after_swap_out (fid : Z).

(** The states [schedule] goes through when it plans [s]. *)
Inductive planning (s : SwapInOutScheduler) : point -> SwapInOutScheduler * Queue -> Prop :=
| planning_start : planning s (at_top 0) (schedule_start s)
| planning_swap_in fid x x' :
    planning s (at_top fid) x ->
    fid < last_function s ->
    plan_swap_in fid x = Ok x' ->
    planning s (after_swap_in fid) x'
| planning_swap_out fid x x' :
    planning s (after_swap_in fid) x ->
    plan_swap_out fid x = Ok x' ->
    planning s (after_swap_out fid) x'
| planning_wait fid x x' :
    planning s (after_swap_out fid) x ->
    plan_wait fid x = Ok x' ->
    planning s (at_top (fid + 1)) x'.

(** The budget and the trace [schedule] may be given: a budget below
    [2^63] split as the constructor splits it, nothing awaiting eviction
    (as [init] leaves it), arrays below [2^63] bytes, and every array used
    on the device in one dtype and one size. *)
Record plannable (s : SwapInOutScheduler) : Prop := {
  plannable_budget : 0 <= max_bytes_swap_in s < 2 ^ 63;
  plannable_half : max_bytes_swap_out s = max_bytes_swap_in s / 2;
  plannable_init : used_bytes_swap_out s = 0;
  plannable_bytes :
    forall r, r ∈ order s -> on_device s r -> 0 <= bytes_of r < 2 ^ 63;
  plannable_one_type :
    forall r1 r2, r1 ∈ order s -> r2 ∈ order s -> on_device s r1 -> on_device s r2 ->
      RecType.synced_array_id r1 = RecType.synced_array_id r2 ->
      RecType.dtype r1 = RecType.dtype r2 /\ RecType.size r1 = RecType.size r2 }.

(** Sums over a list. *)
Definition sum_with {A} (f : A -> Z) (l : list A) : Z :=
  foldr (fun a acc => f a + acc) 0 l.

#[global] Instance on_device_dec s r : Decision (on_device s r).
Proof. unfold on_device. apply _. Defined.

#[global] Instance on_host_dec s r : Decision (on_host s r).
Proof. unfold on_host. apply _. Defined.

(** The IDs of the arrays the trace uses on the device. *)
Definition device_ids (s : SwapInOutScheduler) : list Z :=
  remove_dups (RecType.synced_array_id <$> filter (on_device s) (order s)).

(** The first record that uses array [id] on the device. *)
Definition first_use (s : SwapInOutScheduler) (id : Z) : option RecType.t :=
  List.find (fun r => bool_decide (on_device s r /\ RecType.synced_array_id r = id))
    (order s).

(** The bytes array [id] holds on the device according to the counts: its
    bytes if its count is positive, nothing otherwise. *)
Definition resident_bytes_of (s : SwapInOutScheduler) (c : gmap Z (gmap Z Z)) (id : Z) : Z :=
  match first_use s id with
  | Some r => if bool_decide (0 < count c id (RecType.dtype r)) then bytes_of r else 0
  | None => 0
  end.

Definition resident_bytes (s : SwapInOutScheduler) (c : gmap Z (gmap Z Z)) : Z :=
  sum_with (resident_bytes_of s c) (device_ids s).

(** The bytes of the device records among the first [h] of the trace, each
    record counted. *)
Definition device_bytes (s : SwapInOutScheduler) (r : RecType.t) : Z :=
  if decide (on_device s r) then bytes_of r else 0.

Definition scanned_bytes (s : SwapInOutScheduler) (h : Z) : Z :=
  sum_with (device_bytes s) (take (Z.to_nat h) (order s)).

(** What the planner keeps true of the scheduler and the queue while it
    plans [s0]. *)
Record planner_inv (s0 s : SwapInOutScheduler) (q : Queue) : Prop := {
  inv_static : static <$> order s = static <$> order s0;
  inv_device_ctx : device_ctx s = device_ctx s0;
  inv_host_ctx : host_ctx s = host_ctx s0;
  inv_max_in : max_bytes_swap_in s = max_bytes_swap_in s0;
  inv_max_out : max_bytes_swap_out s = max_bytes_swap_out s0;
  inv_ends : func_block_ends s = func_block_ends s0;
  inv_keys :
    forall id d, is_Some (counts_of (synced_array_counts q) id !! d) ->
      exists r, r ∈ order s0 /\ on_device s0 r
                /\ RecType.synced_array_id r = id /\ RecType.dtype r = d;
  inv_resident : used_bytes_swap_in q = resident_bytes s0 (synced_array_counts q);
  inv_head : 0 <= head q;
  inv_scanned : used_bytes_swap_in q <= scanned_bytes s0 (head q);
  inv_cap : used_bytes_swap_in q <= max_bytes_swap_in s0 - max_bytes_swap_out s0;
  inv_out : 0 <= used_bytes_swap_out s }.

(** ** Reading the host pins *)

(** A GETCAST to the host class on array [id] lies in [order[a .. b)]. *)
Definition host_use (s : SwapInOutScheduler) (a b : Z) (id : Z) : Prop :=
  exists j r, a <= j < b /\ order s !! Z.to_nat j = Some r
              /\ on_host s r /\ RecType.synced_array_id r = id.

(** ** Reading the blocks of the trace *)

(** Whether a record is a use of array [id] on the device in dtype [d], and
    the number of such uses among the first [h] records. *)
Definition uses (s : SwapInOutScheduler) (id : Z) (d : dtypes) (r : RecType.t) : Z :=
  if decide (on_device s r /\ RecType.synced_array_id r = id /\ RecType.dtype r = d)
  then 1 else 0.

Definition scanned_uses (s : SwapInOutScheduler) (id : Z) (d : dtypes) (h : Z) : Z :=
  sum_with (uses s id d) (take (Z.to_nat h) (order s)).

(** The counts of the queue are those of the records in [order[t .. head)]. *)
Definition window_counts (s : SwapInOutScheduler) (t : Z) (q : Queue) : Prop :=
  forall id d,
    count (synced_array_counts q) id d
    = scanned_uses s id d (head q) - scanned_uses s id d t.

(** The records of function [fid] are [order[block_start .. block_end)];
    the first function starts at 0. *)
Definition block_end (s : SwapInOutScheduler) (fid : Z) : Z :=
  default 0 (func_block_ends s !! Z.to_nat fid).

Definition block_start (s : SwapInOutScheduler) (fid : Z) : Z :=
  if decide (fid <= 0) then 0 else block_end s (fid - 1).

(** The bytes of the device records of function [fid], each record
    counted. *)
Definition block_bytes (s : SwapInOutScheduler) (fid : Z) : Z :=
  scanned_bytes s (block_end s fid) - scanned_bytes s (block_start s fid).

(** The ends of the blocks the planner can walk: the vector is not empty,
    its entries are positions of the trace and do not decrease, and the
    first block starts at 0: either the first end is 0, so that the first
    block is empty wherever the read of [func_block_ends[-1]] says it
    starts, or that read yields 0.  Trace and vector have sizes that
    [size_t] holds. *)
Record valid_ends (s : SwapInOutScheduler) : Prop := {
  ends_first : func_block_ends s !! 0%nat = Some 0 \/ oob (-1) = Some 0;
  ends_nonempty : func_block_ends s <> [];
  ends_nonneg : forall e, e ∈ func_block_ends s -> 0 <= e;
  ends_sorted :
    forall i e e', func_block_ends s !! i = Some e ->
                   func_block_ends s !! S i = Some e' -> e <= e';
  ends_inside : forall e, e ∈ func_block_ends s -> e <= Z.of_nat (length (order s));
  ends_size : Z.of_nat (length (func_block_ends s)) < 2 ^ 64;
  order_size : Z.of_nat (length (order s)) < 2 ^ 64 }.

(** Where the eviction scan stands at a point of the loop of [schedule]. *)
Definition front (s : SwapInOutScheduler) (pt : point) : Z :=
  match pt with
  | at_top fid => block_start s fid
  | after_swap_in fid => block_start s fid
  | after_swap_out fid => block_end s fid
  end.

(** ** Reading the rounds of the planner *)

(** The state at the top of round [n] of the loop of [schedule]. *)
Definition top (s : SwapInOutScheduler) (n : nat) : result (SwapInOutScheduler * Queue) :=
  for_nat schedule_round n 0 (schedule_start s).

(** [head] when the prefetch scan of function [fid] has returned, and when
    it starts. *)
Definition scan_end (s : SwapInOutScheduler) (fid : Z) : Z :=
  match bind (top s (Z.to_nat fid)) (plan_swap_in fid) with
  | Ok x => head x.2
  | _ => 0
  end.

Definition scan_start (s : SwapInOutScheduler) (fid : Z) : Z :=
  if decide (fid <= 0) then 0 else scan_end s (fid - 1).

(** [head] at a point of the loop of [schedule]. *)
Definition scan_head (s : SwapInOutScheduler) (pt : point) : Z :=
  match pt with
  | at_top fid => scan_start s fid
  | after_swap_in fid => scan_end s fid
  | after_swap_out fid => scan_end s fid
  end.

(** Position [j] is prefetched by the scan of function [fid]: the scan
    passes it, it is a GETCAST to the device, no use of its array in its
    dtype is in the queue before it, and the scan has passed no GETCAST of
    its array to the host. *)
Definition prefetched (s : SwapInOutScheduler) (fid : Z) (j : Z) : Prop :=
  scan_start s fid <= j < scan_end s fid
  /\ exists r,
       order s !! Z.to_nat j = Some r /\ on_device s r
       /\ scanned_uses s (RecType.synced_array_id r) (RecType.dtype r) j
          - scanned_uses s (RecType.synced_array_id r) (RecType.dtype r) (block_start s fid)
          = 0
       /\ ~ host_use s (scan_start s fid) j (RecType.synced_array_id r).

(** Position [i] is evicted by function [fid]: it is in the block of the
    function, it is a GETCAST to the device, and it is the one use of its
    array left in the queue. *)
Definition evicted (s : SwapInOutScheduler) (fid : Z) (i : Z) : Prop :=
  block_start s fid <= i < block_end s fid
  /\ exists r,
       order s !! Z.to_nat i = Some r /\ on_device s r
       /\ scanned_uses s (RecType.synced_array_id r) (RecType.dtype r) (scan_end s fid)
          - scanned_uses s (RecType.synced_array_id r) (RecType.dtype r) i
          = 1.

(** The schedule maps are those of [s]. *)
Definition same_schedules (s s' : SwapInOutScheduler) : Prop :=
  swap_in_schedule s' = swap_in_schedule s
  /\ swap_out_schedule s' = swap_out_schedule s.

(** The rounds whose prefetch schedule, and whose eviction schedule, are
    written at a point of the loop of [schedule]. *)
Definition rounds_in (pt : point) : Z :=
  match pt with
  | at_top fid => fid
  | after_swap_in fid => fid + 1
  | after_swap_out fid => fid + 1
  end.

Definition rounds_out (pt : point) : Z :=
  match pt with
  | at_top fid => fid
  | after_swap_in fid => fid
  | after_swap_out fid => fid + 1
  end.

(** The schedules of the first [n_in] and [n_out] functions hold, once
    each, the prefetched and the evicted positions; the other entries of
    the maps are those of [s]. *)
Record schedules_inv (s : SwapInOutScheduler) (n_in n_out : Z) (s' : SwapInOutScheduler)
  : Prop := {
  inv_prefetched :
    forall fid, 0 <= fid < n_in ->
      NoDup (schedule_of (swap_in_schedule s') fid)
      /\ forall j, j ∈ schedule_of (swap_in_schedule s') fid <-> prefetched s fid j;
  inv_swap_in_other :
    forall fid, ~ 0 <= fid < n_in -> swap_in_schedule s' !! fid = swap_in_schedule s !! fid;
  inv_evicted :
    forall fid, 0 <= fid < n_out ->
      NoDup (schedule_of (swap_out_schedule s') fid)
      /\ forall i, i ∈ schedule_of (swap_out_schedule s') fid <-> evicted s fid i;
  inv_swap_out_other :
    forall fid, ~ 0 <= fid < n_out ->
      swap_out_schedule s' !! fid = swap_out_schedule s !! fid }.

(** ** Reading the calls *)

(** The calls [w'] has issued beyond those of [w] satisfy [P], and the
    trace is the same. *)
Definition issued_since (P : Site * Z * Call -> Prop) (w w' : World) : Prop :=
  order (this w') = order (this w)
  /\ exists new, issued w' = issued w ++ new /\ Forall P new.

(** A [cast] call. *)
Definition is_cast (c : Call) : bool :=
  match c with call_cast _ _ _ _ _ => true | _ => false end.

(** What the planner reads of [s] and never writes is the same in [s']:
    the trace up to the planner's flags, the contexts, the budget and the
    ends of the blocks. *)
Definition same_plan_input (s s' : SwapInOutScheduler) : Prop :=
  static <$> order s' = static <$> order s
  /\ device_ctx s' = device_ctx s
  /\ host_ctx s' = host_ctx s
  /\ max_bytes_swap_in s' = max_bytes_swap_in s
  /\ max_bytes_swap_out s' = max_bytes_swap_out s
  /\ func_block_ends s' = func_block_ends s.

(** ** The adapter for double-buffered inputs *)

(** The members [dali_sawptrs], two pairs of arrays, and
    [dali_saptr_idxs], two IDs, that [use_dali] reads and writes. *)
Record Dali := {
  dali_sawptrs : (SyncedArrayPtr * SyncedArrayPtr) * (SyncedArrayPtr * SyncedArrayPtr);
  dali_saptr_idxs : Z * Z }.

(** [a[i]] for an array of two. *)
Definition pick {A} (i : Z) (a : A * A) : result A :=
  if decide (i = 0) then Ok a.1 else if decide (i = 1) then Ok a.2 else Undefined.

(** Lines 104-109: the ID of the first record whose array is [saptr];
    [dali_saptr_idxs[i]] keeps its value [old] when there is none. *)
Definition find_dali_id (a : Store) (saptr : SyncedArrayPtr) (ord : list RecType.t) (old : Z)
  : Z :=
  match
    List.find (fun r => lock a (RecType.sawptr r) && bool_decide (RecType.sawptr r = saptr))
      ord
  with
  | Some r => RecType.synced_array_id r
  | None => old
  end.

(** The loops that switch the recorded arrays of the two IDs to the pair
    [b], the first ID first. *)
Definition switch_dali (b : SyncedArrayPtr * SyncedArrayPtr) (idxs : Z * Z)
    (s : SwapInOutScheduler) : result SwapInOutScheduler :=
  do ord0 <- replace_sawptr b.1 (order_idxs s idxs.1) (order s) ;;
  do ord1 <- replace_sawptr b.2 (order_idxs s idxs.2) ord0 ;;
  Ok (put_order ord1 s).

(** [use_dali]; a batch is given as the arrays of its two [NdArray]s. *)
Definition use_dali (data_batches : list (SyncedArrayPtr * SyncedArrayPtr)) (d : Dali)
    (w : World) : result (Dali * World) :=
  match data_batches with
  | [] => Err error_code.unclassified
  | _ :: _ :: _ => Err error_code.unclassified
  | [xt] =>
    let s := this w in
    if decide (iter_count s = 0) then
      Ok ({| dali_sawptrs := (xt, (dali_sawptrs d).2);
             dali_saptr_idxs := dali_saptr_idxs d |}, w)
    else if decide (iter_count s = 1) then
      let first := (dali_sawptrs d).1 in
      if negb (lock (arrays w) first.1) then Err error_code.unclassified
      else
        let id0 := find_dali_id (arrays w) first.1 (order s) (dali_saptr_idxs d).1 in
        if negb (lock (arrays w) first.2) then Err error_code.unclassified
        else
          let id1 := find_dali_id (arrays w) first.2 (order s) (dali_saptr_idxs d).2 in
          do s' <- switch_dali xt (id0, id1) s ;;
          Ok ({| dali_sawptrs := (first, xt); dali_saptr_idxs := (id0, id1) |},
              {| this := s'; arrays := arrays w; issued := issued w |})
    else
      do b <- pick (Z.rem (iter_count s) 2) (dali_sawptrs d) ;;
      do s' <- switch_dali b (dali_saptr_idxs d) s ;;
      Ok (d, {| this := s'; arrays := arrays w; issued := issued w |})
  end.

(** The arrays of the two IDs after a switch to the pair [b]: the second
    loop runs last, so it decides for an ID that is both. *)
Definition switched (b : SyncedArrayPtr * SyncedArrayPtr) (idxs : Z * Z) (r : RecType.t)
  : RecType.t :=
  if bool_decide (RecType.synced_array_id r = idxs.2) then RecType.put_sawptr b.2 r
  else if bool_decide (RecType.synced_array_id r = idxs.1) then RecType.put_sawptr b.1 r
  else r.

(** An array has one ID in the trace. *)
Definition one_id (ord : list RecType.t) : Prop :=
  forall r1 r2, r1 ∈ ord -> r2 ∈ ord ->
    RecType.sawptr r1 = RecType.sawptr r2 ->
    RecType.synced_array_id r1 = RecType.synced_array_id r2.

(** ** Reading the ID map *)

(** The ID map and the trace agree: the IDs handed out are below the size
    of the map, no two arrays have one ID, and every record carries the ID
    the map has for its array. *)
Definition ids_exact (s : SwapInOutScheduler) : Prop :=
  let m := synced_array_id_mapper s in
  0 <= IdMapper.size m
  /\ (forall p id, IdMapper.find m p = Some id -> 0 <= id < IdMapper.size m)
  /\ (forall p q id, IdMapper.find m p = Some id -> IdMapper.find m q = Some id -> p = q)
  /\ (forall r, r ∈ order s ->
        IdMapper.find m (RecType.sawptr r) = Some (RecType.synced_array_id r)).

(** ** Reading a run *)

(** The calls made between [start_scheduling] and [end_scheduling]. *)
Definition inside_iteration (o : Op) : bool :=
  match o with
  | op_start_scheduling | op_end_scheduling | op_reset => false
  | _ => true
  end.

Definition is_pre_callback (o : Op) : bool :=
  match o with
  | op_pre_function_callback | op_pre_update_callback => true
  | _ => false
  end.

Definition is_access (o : Op) : bool :=
  match o with
  | op_access _ _ _ _ _ => true
  | _ => false
  end.

(** ** Reading what the planner keeps *)

(** What the recorder wrote of a record: the planner writes the other
    four fields only. *)
Definition recorded_part (r : RecType.t)
  : RecTag.t * Z * SyncedArrayPtr * Z * dtypes * Context :=
  (RecType.tag r, RecType.synced_array_id r, RecType.sawptr r, RecType.size r,
   RecType.dtype r, RecType.ctx r).

(** The members of the scheduler other than the trace, the three
    schedules, [tail], [used_bytes_swap_out], [swapped_out] and
    [swapped_out_r]. *)
Definition unplanned (s : SwapInOutScheduler) :=
  (host_ctx s, device_ctx s, max_bytes_swap_in s, max_bytes_swap_out s, wrong_ordered s,
   func_block_ends s, order_idx s, func_idx s, first_iter s, iter_count s,
   synced_array_id_mapper s, synced_array_id_to_order_idx s, precleared s,
   synced_array_callback s, callback_func s).

Definition planner_frame (s s' : SwapInOutScheduler) : Prop :=
  recorded_part <$> order s' = recorded_part <$> order s /\ unplanned s' = unplanned s.

(** A [get] or [cast] on an array class that is neither the device's nor
    the host's. *)
Definition off_device (s : SwapInOutScheduler) (r : RecType.t) : Prop :=
  RecType.tag r = RecTag.GETCAST
  /\ array_class (RecType.ctx r) <> array_class (device_ctx s)
  /\ array_class (RecType.ctx r) <> array_class (host_ctx s).

(** ** Replaying the trace *)

(** The access a record was recorded for ([get] and [cast] leave the same
    record). *)
Definition access_of (r : RecType.t) : Op :=
  op_access (RecType.sawptr r)
    (match RecType.tag r with
     | RecTag.GETCAST => SyncedArrayCallbackTag.GET
     | RecTag.CLEAR => SyncedArrayCallbackTag.CLEAR
     end)
    (RecType.dtype r) (RecType.ctx r) false.

(** ** Reading a record and the scheduler field by field *)

(** The fields of a record other than its array. *)
Definition but_sawptr (r : RecType.t) :=
  (RecType.tag r, RecType.synced_array_id r, RecType.size r, RecType.dtype r,
   RecType.ctx r, RecType.preclear r, RecType.swapped_out r,
   RecType.swapped_out_bytes r, RecType.no_need_swap_out r).

(** The members of the scheduler other than the trace. *)
Definition but_order (s : SwapInOutScheduler) :=
  (unplanned s, tail s, used_bytes_swap_out s, swapped_out s, swapped_out_r s,
   swap_in_schedule s, swap_out_schedule s, wait_schedule s).

(** [id] is the ID [use_dali] remembers for the array [saptr]: that of the
    first record whose array is alive and is [saptr], or [old] when the
    trace has no such record. *)
Definition first_id_of (a : Store) (saptr : SyncedArrayPtr) (ord : list RecType.t)
    (old id : Z) : Prop :=
  (exists j r,
     ord !! j = Some r
     /\ lock a (RecType.sawptr r) = true /\ RecType.sawptr r = saptr
     /\ RecType.synced_array_id r = id
     /\ forall j' r', (j' < j)%nat -> ord !! j' = Some r' ->
          ~ (lock a (RecType.sawptr r') = true /\ RecType.sawptr r' = saptr))
  \/ ((forall r, r ∈ ord ->
         ~ (lock a (RecType.sawptr r) = true /\ RecType.sawptr r = saptr))
      /\ id = old).

(** ** Reading a traced run *)

(** The access meets a record below the bound the tracer tests, agrees
    with it in tag, dtype and context key, is not precleared, and carries
    the array [hnd] gives for the ID of that record. *)
Definition event_agrees (hnd : Z -> SyncedArrayPtr) (a : Access) (w : World) : Prop :=
  let s := this w in
  func_idx s <> 0
  /\ not_precleared s a
  /\ 0 <= order_idx s
  /\ exists rec e,
       order s !! Z.to_nat (order_idx s) = Some rec
       /\ func_block_ends_at s (func_idx s) = Ok e
       /\ order_idx s < e
       /\ same_event a rec
       /\ a_saptr a = hnd (RecType.synced_array_id rec).

(** A run of callbacks, accesses and changes of the store, inside one
    iteration, in which every access agrees with the record it meets when
    it is made. *)
Fixpoint stream_agrees (hnd : Z -> SyncedArrayPtr) (ops : list Op) (w : World) : Prop :=
  match ops with
  | [] => True
  | o :: ops' =>
    match o with
    | op_access saptr func_name dtype ctx write_only =>
      event_agrees hnd
        {| a_saptr := saptr; a_func_name := func_name; a_dtype := dtype; a_ctx := ctx;
           a_write_only := write_only |} w
    | op_start_scheduling | op_end_scheduling | op_reset => False
    | _ => True
    end
    /\ forall w', step o w = Ok w' -> stream_agrees hnd ops' w'
  end.

(** The IDs of the records the accesses of a run meet. *)
Fixpoint met_ids (ops : list Op) (w : World) : list Z :=
  match ops with
  | [] => []
  | o :: ops' =>
    (if is_access o then
       match order (this w) !! Z.to_nat (order_idx (this w)) with
       | Some rec => [RecType.synced_array_id rec]
       | None => []
       end
     else [])
    ++ match step o w with
       | Ok w' => met_ids ops' w'
       | _ => []
       end
  end.

(** * Properties *)

(** ** Preclear marking *)

Lemma first_event_cons id r rs :
  first_event id (r :: rs)
  = if bool_decide (RecType.synced_array_id r = id) then Some r else first_event id rs.
Proof. reflexivity. Qed.

Lemma schedule_preclear_loop_length n ord cf :
  length (schedule_preclear_loop n ord cf).1 = length ord.
Proof.
  revert ord cf. induction n as [|i IH]; intros ord cf; simpl; [done|].
  destruct (ord !! i) as [r|]; [|done].
  destruct (RecType.tag r); rewrite IH; [by rewrite length_insert|done].
Qed.

(** The loop invariant: positions below [n] are untouched, positions from
    [n] on are marked, and [clear_flag] tells for every array whether its
    first event from [n] on is a [CLEAR]. *)
Lemma schedule_preclear_loop_spec ord0 n :
  (n <= length ord0)%nat ->
  forall ord cf,
    length ord = length ord0 ->
    (forall j, (j < n)%nat -> ord !! j = ord0 !! j) ->
    (forall j r0, (n <= j)%nat -> ord0 !! j = Some r0 ->
                  ord !! j = Some (preclear_mark ord0 j r0)) ->
    (forall id, flag cf id = is_clear (first_event id (drop n ord0))) ->
    forall j r0, ord0 !! j = Some r0 ->
      (schedule_preclear_loop n ord cf).1 !! j = Some (preclear_mark ord0 j r0).
Proof.
  induction n as [|i IH]; intros Hn ord cf Hlen Hlow Hhigh Hcf j r0 Hj.
  - simpl. apply Hhigh; [lia|done].
  - simpl.
    destruct (lookup_lt_is_Some_2 ord0 i) as [ri Hri]; [lia|].
    rewrite (Hlow i) by lia. rewrite Hri.
    assert (Hdrop : drop i ord0 = ri :: drop (S i) ord0) by by apply drop_S.
    destruct (RecType.tag ri) eqn:Htag.
    + apply IH; [lia| |..|done].
      * by rewrite length_insert.
      * intros k Hk. rewrite list_lookup_insert_ne by lia. apply Hlow; lia.
      * intros k rk Hk Hrk. destruct (decide (k = i)) as [->|Hne].
        -- rewrite list_lookup_insert_eq by lia.
           assert (rk = ri) as -> by congruence.
           unfold preclear_mark, next_event. rewrite Htag, Hcf. done.
        -- rewrite list_lookup_insert_ne by lia. apply Hhigh; [lia|done].
      * intros id. rewrite Hdrop, first_event_cons. unfold flag.
        case_bool_decide as Hid.
        -- subst id. rewrite lookup_insert_eq. simpl. by rewrite Htag.
        -- rewrite lookup_insert_ne by done. apply Hcf.
    + apply IH; [lia|done| |..|done].
      * intros k Hk. apply Hlow; lia.
      * intros k rk Hk Hrk. destruct (decide (k = i)) as [->|Hne].
        -- rewrite (Hlow i) by lia. rewrite Hri.
           assert (rk = ri) as -> by congruence.
           unfold preclear_mark. by rewrite Htag.
        -- apply Hhigh; [lia|done].
      * intros id. rewrite Hdrop, first_event_cons. unfold flag.
        case_bool_decide as Hid.
        -- subst id. rewrite lookup_insert_eq. simpl. by rewrite Htag.
        -- rewrite lookup_insert_ne by done. apply Hcf.
Qed.

Lemma schedule_preclear_order s j :
  order (schedule_preclear s) !! j = preclear_mark (order s) j <$> order s !! j.
Proof.
  unfold schedule_preclear. cbn [order put_order].
  destruct (order s !! j) as [r0|] eqn:Hj; simpl.
  - apply schedule_preclear_loop_spec; try done.
    + intros k rk Hk Hrk. apply lookup_lt_Some in Hrk. lia.
    + intros id. rewrite drop_all. done.
  - apply lookup_ge_None. rewrite schedule_preclear_loop_length.
    by apply lookup_ge_None.
Qed.

(** C3, as amended: after [schedule_preclear], a GETCAST record has
    [preclear = true] exactly when the next event later in the trace on the
    same [synced_array_id] is a CLEAR; a CLEAR record keeps the [preclear]
    it was recorded with, whatever follows it; nothing else of a record
    changes. *)
Theorem C3_preclear_marks_getcast s i r :
  order (schedule_preclear s) !! i = Some r ->
  exists r0,
    order s !! i = Some r0
    /\ r = RecType.put_preclear (RecType.preclear r) r0
    /\ (RecType.tag r = RecTag.GETCAST ->
        (RecType.preclear r = true
         <-> exists r', next_event (order s) i (RecType.synced_array_id r) = Some r'
                        /\ RecType.tag r' = RecTag.CLEAR))
    /\ (RecType.tag r = RecTag.CLEAR -> RecType.preclear r = RecType.preclear r0).
Proof.
  rewrite schedule_preclear_order. intros Hr.
  destruct (order s !! i) as [r0|] eqn:Hi; simpl in Hr; [|done].
  injection Hr as <-. exists r0. split; [done|].
  unfold preclear_mark. destruct (RecType.tag r0) eqn:Htag; cbn.
  - rewrite Htag. split; [by destruct r0|]. split; [|done]. intros _.
    destruct (next_event (order s) i (RecType.synced_array_id r0)) as [r'|]; simpl.
    + rewrite bool_decide_eq_true. split; [by eauto|]. by intros (? & [= <-] & ?).
    + split; [done|]. by intros (? & ? & ?).
  - rewrite Htag. split; [by destruct r0|]. done.
Qed.

(** ** The recorder *)

(** C9, as amended: inside a function ([func_idx > 0]) the recorder throws
    exactly when more than [UINT_MAX] arrays already have an ID, before it
    assigns another ID or appends a record; the error it throws is
    [error_code::unclassified], the code has no kind of its own for it. *)
Theorem C9_recorder_too_many_arrays saptr func_name dtype ctx write_only w :
  func_idx (this w) <> 0 ->
  (synced_array_callback_recorder saptr func_name dtype ctx write_only w
   = Err error_code.unclassified
   <-> IdMapper.size (synced_array_id_mapper (this w)) > UINT_MAX).
Proof.
  intros Hf. unfold synced_array_callback_recorder.
  destruct (decide (func_idx (this w) = 0)) as [|_]; [done|].
  destruct (decide (IdMapper.size (synced_array_id_mapper (this w)) > UINT_MAX))
    as [Hbig|Hsmall]; [done|].
  split; [|done]. intros H. exfalso.
  destruct (IdMapper.find (synced_array_id_mapper (this w)) saptr) as [id|] eqn:Hfind.
  - by rewrite Hfind in H.
  - cbn in H. by rewrite decide_True in H.
Qed.

(** ** Cancelled evictions *)

Lemma for_each_invariant {A} (P : World -> Prop) (body : A -> World -> result World) l :
  (forall a w w', P w -> body a w = Ok w' -> P w') ->
  forall w w', P w -> for_each body l w = Ok w' -> P w'.
Proof.
  intros Hbody. induction l as [|a l IH]; intros w w' HP; simpl.
  - by intros [= <-].
  - destruct (body a w) as [w1| |] eqn:Hb; simpl; [|done..].
    apply IH. by eapply Hbody.
Qed.

Lemma issued_since_refl P w : issued_since P w w.
Proof. split; [done|]. exists []. by rewrite app_nil_r. Qed.

Lemma issued_since_issue P w w' site i c :
  issued_since P w w' -> P (site, i, c) -> issued_since P w (issue site i c w').
Proof.
  intros [Hord (new & Hnew & HP)] Hc. split; [done|].
  exists (new ++ [(site, i, c)]). cbn. rewrite Hnew, app_assoc. split; [done|].
  apply Forall_app. by split; [|constructor].
Qed.

Lemma issued_since_this P w w' f :
  issued_since P w w' -> order (f (this w')) = order (this w') ->
  issued_since P w (with_this f w').
Proof. intros [Hord Hnew] Hf. split; [cbn; congruence|done]. Qed.

(** C6: a record whose [no_need_swap_out] is set is not cast to the host by
    [swap_out_scheduled] and gets no call at all, so no [get] on the host,
    from [wait_for_swap_out_scheduled]. *)
Theorem C6_cancelled_eviction_is_not_executed w j r :
  0 <= j ->
  order (this w) !! Z.to_nat j = Some r ->
  RecType.no_need_swap_out r = true ->
  (forall w', swap_out_scheduled w = Ok w' ->
     issued_since (fun x => x.1.2 = j -> is_cast x.2 = false) w w')
  /\ (forall w', wait_for_swap_out_scheduled w = Ok w' ->
        issued_since (fun x => x.1.2 <> j) w w').
Proof.
  intros Hj Hr Hno. split; intros w'.
  - unfold swap_out_scheduled.
    apply (for_each_invariant
             (issued_since (fun x => x.1.2 = j -> is_cast x.2 = false) w));
      [|apply issued_since_refl].
    clear w'. intros i w1 w' Hinv. unfold swap_out_scheduled_body.
    destruct (at_ (order (this w1)) i) as [ri| |] eqn:Hi; simpl; [|done..].
    destruct (lock (arrays w1) (RecType.sawptr ri)); [|by intros [= <-]].
    destruct (RecType.preclear ri).
    { intros [= <-]. apply issued_since_this; [|done].
      by apply issued_since_issue. }
    destruct (RecType.no_need_swap_out ri) eqn:Hni; simpl; [by intros [= <-]|].
    intros [= <-]. apply issued_since_issue; [done|]. cbn. intros ->.
    exfalso. unfold at_ in Hi. rewrite decide_True in Hi by done.
    destruct Hinv as [Hord _]. rewrite Hord, Hr in Hi. congruence.
  - unfold wait_for_swap_out_scheduled.
    apply (for_each_invariant (issued_since (fun x => x.1.2 <> j) w));
      [|apply issued_since_refl].
    clear w'. intros i w1 w' Hinv. unfold wait_for_swap_out_scheduled_body.
    destruct (at_ (order (this w1)) i) as [ri| |] eqn:Hi; simpl; [|done..].
    destruct (RecType.no_need_swap_out ri) eqn:Hni; [by intros [= <-]|].
    match goal with |- context [if ?b then _ else _] => destruct b end;
      [|by intros [= <-]].
    intros [= <-]. apply issued_since_issue; [done|]. cbn. intros ->.
    unfold at_ in Hi. rewrite decide_True in Hi by done.
    destruct Hinv as [Hord _]. rewrite Hord, Hr in Hi. congruence.
Qed.

(** ** The schedules after the first iteration *)

Ltac split_result H :=
  match type of H with
  | bind ?m _ = Ok _ =>
    let E := fresh "E" in destruct m eqn:E; cbn [bind] in H; [|discriminate H..]
  | (if ?b then _ else _) = Ok _ => let E := fresh "E" in destruct b eqn:E
  | match ?x with _ => _ end = Ok _ => let E := fresh "E" in destruct x eqn:E
  | Ok _ = Ok _ => injection H as H; try subst
  | Err _ = Ok _ => discriminate H
  | Undefined = Ok _ => discriminate H
  end.

Ltac split_results H :=
  repeat split_result H;
  repeat match goal with E : _ = Ok _ |- _ => progress split_result E end.

Lemma planned_with_this k f w :
  planned k w ->
  first_iter (f (this w)) = first_iter (this w) ->
  schedules (f (this w)) = schedules (this w) ->
  planned k (with_this f w).
Proof. intros [H1 H2] Hf Hs. split; cbn; congruence. Qed.

Lemma planned_issue k site i c w : planned k w -> planned k (issue site i c w).
Proof. done. Qed.

Lemma swap_in_planned k w w' : planned k w -> swap_in w = Ok w' -> planned k w'.
Proof.
  unfold swap_in. apply for_each_invariant. clear.
  intros j w w' HP H. split_results H; done.
Qed.

Lemma swap_out_scheduled_planned k w w' :
  planned k w -> swap_out_scheduled w = Ok w' -> planned k w'.
Proof.
  unfold swap_out_scheduled. apply for_each_invariant. clear.
  intros j w w' HP H. unfold swap_out_scheduled_body in H. split_results H; done.
Qed.

Lemma wait_for_swap_out_scheduled_planned k w w' :
  planned k w -> wait_for_swap_out_scheduled w = Ok w' -> planned k w'.
Proof.
  unfold wait_for_swap_out_scheduled. apply for_each_invariant. clear.
  intros j w w' HP H. unfold wait_for_swap_out_scheduled_body in H.
  split_results H; done.
Qed.

Lemma swap_out_step_planned k w w' :
  planned k w -> swap_out_step w = Ok w' -> planned k w'.
Proof.
  intros HP H. unfold swap_out_step, swap_out in H.
  pose proof HP as [Hfi _]. rewrite Hfi in H. cbv zeta in H. rewrite Hfi in H.
  destruct (swap_out_scheduled w) as [w1| |] eqn:H1; cbn [bind] in H; [|done..].
  apply (swap_out_scheduled_planned k) in H1; [|done].
  destruct (wait_for_swap_out_scheduled w1) as [w2| |] eqn:H2; cbn [bind] in H; [|done..].
  apply (wait_for_swap_out_scheduled_planned k) in H2; [|done].
  split_results H; done.
Qed.

Lemma swap_in_step_planned k w w' :
  planned k w -> swap_in_step w = Ok w' -> planned k w'.
Proof.
  intros HP H. unfold swap_in_step in H. cbv zeta in H.
  assert (HP1 : planned k (with_this (fun s => put_func_idx (func_idx s + 1) s) w)) by done.
  destruct (first_iter _); [by injection H as <-|].
  by eapply swap_in_planned in H.
Qed.

Lemma pre_callback_planned k w w' :
  planned k w -> pre_callback w = Ok w' -> planned k w'.
Proof.
  intros HP H. unfold pre_callback in H. cbv zeta in H.
  assert (HP0 : planned k (unset_synced_array_callback w)) by done.
  destruct (decide (func_idx (this (unset_synced_array_callback w)) > 0)).
  - destruct (swap_out_step _) as [w1| |] eqn:H1; cbn [bind] in H; [|done..].
    apply (swap_out_step_planned k) in H1; [|done].
    destruct (swap_in_step w1) as [w2| |] eqn:H2; cbn [bind] in H; [|done..].
    apply (swap_in_step_planned k) in H2; [|done].
    by injection H as <-.
  - cbn [bind] in H.
    destruct (swap_in_step _) as [w2| |] eqn:H2; cbn [bind] in H; [|done..].
    apply (swap_in_step_planned k) in H2; [|done].
    by injection H as <-.
Qed.

Lemma swap_out_wrong_order_planned k w w' :
  planned k w -> swap_out_wrong_order w = Ok w' -> planned k w'.
Proof.
  unfold swap_out_wrong_order. apply for_each_invariant. clear.
  intros j w w' HP H. unfold swap_out_wrong_order_body in H. split_results H; done.
Qed.

Lemma wait_for_swap_out_first_iter_impl_planned k w w' :
  planned k w -> wait_for_swap_out_first_iter_impl w = Ok w' -> planned k w'.
Proof.
  intros HP H. unfold wait_for_swap_out_first_iter_impl in H. cbv zeta in H.
  split_results H; try done.
  match goal with |- context [if ?b then _ else _] => destruct b end; done.
Qed.

Lemma wait_for_all_swap_out_planned k w w' :
  planned k w -> wait_for_all_swap_out w = Ok w' -> planned k w'.
Proof.
  unfold wait_for_all_swap_out. generalize (length (order (this w))). intros n.
  revert w. induction n as [|n IH]; intros w HP H; simpl in H.
  - by split_results H.
  - split_results H; [|done].
    eapply IH; [|done]. by eapply wait_for_swap_out_first_iter_impl_planned.
Qed.

Lemma finalize_planned k w w' : planned k w -> finalize w = Ok w' -> planned k w'.
Proof.
  intros HP H. unfold finalize in H.
  assert (H1 : forall w1, (if decide (func_idx (this w) > 0) then swap_out_step w else Ok w)
                          = Ok w1 -> planned k w1).
  { intros w1 H1. split_results H1; eauto using swap_out_step_planned. }
  destruct (if decide (func_idx (this w) > 0) then swap_out_step w else Ok w)
    as [w1| |]; cbn [bind] in H; [|done..].
  specialize (H1 w1 eq_refl).
  destruct (swap_out_wrong_order w1) as [w2| |] eqn:H2; cbn [bind] in H; [|done..].
  apply (swap_out_wrong_order_planned k) in H2; [|done].
  destruct (wait_for_all_swap_out w2) as [w3| |] eqn:H3; cbn [bind] in H; [|done..].
  apply (wait_for_all_swap_out_planned k) in H3; [|done].
  destruct H3 as [Hfi Hk]. rewrite Hfi in H. cbn [bind] in H.
  injection H as <-. done.
Qed.

Lemma synced_array_callback_recorder_planned k saptr func_name dtype ctx write_only w w' :
  planned k w ->
  synced_array_callback_recorder saptr func_name dtype ctx write_only w = Ok w' ->
  planned k w'.
Proof.
  intros HP H. unfold synced_array_callback_recorder in H. split_results H; done.
Qed.

Lemma synced_array_callback_tracer_planned k saptr func_name dtype ctx write_only w w' :
  planned k w ->
  synced_array_callback_tracer saptr func_name dtype ctx write_only w = Ok w' ->
  planned k w'.
Proof.
  intros HP H. unfold synced_array_callback_tracer in H.
  destruct HP as [Hfi Hk]. split_results H; done.
Qed.

Lemma step_planned k o w w' : planned k w -> step o w = Ok w' -> planned k w'.
Proof.
  intros HP H. destruct o; cbn in H.
  - by injection H as <-.
  - by eapply finalize_planned in H.
  - by injection H as <-.
  - by eapply pre_callback_planned.
  - by injection H as <-.
  - by eapply pre_callback_planned.
  - by injection H as <-.
  - destruct (callback_func (this w)) as [[]|].
    + by eapply synced_array_callback_recorder_planned.
    + by eapply synced_array_callback_tracer_planned.
    + by injection H as <-.
  - by injection H as <-.
Qed.

Lemma run_planned k ops w w' : planned k w -> run ops w = Ok w' -> planned k w'.
Proof.
  revert w. induction ops as [|o ops IH]; intros w HP H; simpl in H.
  - by injection H as <-.
  - split_results H. eauto using step_planned.
Qed.

(** After a planned iteration no call of the interface writes the
    schedules: [reset()] does not, and, [first_iter] staying off, no later
    [end_scheduling] calls [schedule()] again. *)
Lemma run_after_reset_keeps_schedules ops w w' :
  first_iter (this w) = false ->
  run (op_reset :: ops) w = Ok w' ->
  first_iter (this w') = false
  /\ swap_in_schedule (this w') = swap_in_schedule (this w)
  /\ swap_out_schedule (this w') = swap_out_schedule (this w)
  /\ wait_schedule (this w') = wait_schedule (this w).
Proof.
  intros Hfi H.
  apply (run_planned (schedules (this w))) in H; [|done].
  destruct H as [? [= H1 H2 H3]]. done.
Qed.

(** ** The tracer *)

Lemma put_sawptr_idem p r : RecType.put_sawptr p (RecType.put_sawptr p r) = RecType.put_sawptr p r.
Proof. done. Qed.

Lemma put_sawptr_same r : RecType.put_sawptr (RecType.sawptr r) r = r.
Proof. by destruct r. Qed.

Lemma replace_sawptr_lookup saptr idxs :
  forall ord,
    (forall i, i ∈ idxs -> 0 <= i < Z.of_nat (length ord)) ->
    exists ord',
      replace_sawptr saptr idxs ord = Ok ord'
      /\ length ord' = length ord
      /\ forall j r, ord !! j = Some r ->
           ord' !! j = Some (if bool_decide (Z.of_nat j ∈ idxs)
                             then RecType.put_sawptr saptr r else r).
Proof.
  induction idxs as [|i idxs IH]; intros ord Hin; cbn [replace_sawptr].
  - exists ord. split; [done|]. split; [done|]. intros j r Hj.
    rewrite bool_decide_eq_false_2; [done|]. apply not_elem_of_nil.
  - destruct (Hin i) as [Hi0 Hi1]; [by left|].
    destruct (lookup_lt_is_Some_2 ord (Z.to_nat i)) as [ri Hri]; [lia|].
    unfold at_. rewrite decide_True by done. rewrite Hri. cbn [bind].
    destruct (IH (store_at ord i (RecType.put_sawptr saptr ri))) as (ord' & Hrep & Hlen & Hlk).
    { intros k Hk. unfold store_at. rewrite length_insert. apply Hin. by right. }
    exists ord'. split; [done|]. unfold store_at in *. rewrite length_insert in Hlen.
    split; [done|]. intros j r Hj.
    destruct (decide (j = Z.to_nat i)) as [->|Hne].
    + assert (r = ri) as -> by congruence.
      rewrite (Hlk _ (RecType.put_sawptr saptr ri)).
      2: { apply list_lookup_insert_eq. by eapply lookup_lt_Some. }
      rewrite (bool_decide_eq_true_2 (_ ∈ i :: idxs)).
      2: { rewrite Z2Nat.id by done. by left. }
      by destruct (bool_decide _).
    + rewrite (Hlk _ r). 2: by rewrite list_lookup_insert_ne.
      f_equal. rewrite (bool_decide_ext (Z.of_nat j ∈ idxs) (Z.of_nat j ∈ i :: idxs)); [done|].
      rewrite elem_of_cons. split; [tauto|]. intros [Heq|?]; [|done]. lia.
Qed.

Lemma replace_sawptr_substitute saptr s id :
  index_exact s ->
  replace_sawptr saptr (order_idxs s id) (order s) = Ok (substitute saptr id (order s)).
Proof.
  intros Hex.
  destruct (replace_sawptr_lookup saptr (order_idxs s id) (order s)) as (ord' & -> & Hlen & Hlk).
  { intros i Hi. apply Hex in Hi as (Hi0 & r & Hr & _).
    apply lookup_lt_Some in Hr. lia. }
  f_equal. apply list_eq. intros j. unfold substitute. rewrite list_lookup_fmap.
  destruct (order s !! j) as [r|] eqn:Hj; simpl.
  - rewrite (Hlk _ _ Hj). f_equal.
    rewrite (bool_decide_ext (Z.of_nat j ∈ order_idxs s id) (RecType.synced_array_id r = id));
      [done|].
    rewrite (Hex id (Z.of_nat j)). rewrite Nat2Z.id, Hj. split.
    + by intros (_ & r' & [= <-] & ?).
    + intros <-. split; [lia|]. by exists r.
  - apply lookup_ge_None. rewrite Hlen. by apply lookup_ge_None.
Qed.

Lemma substitute_lookup saptr id ord j :
  substitute saptr id ord !! j
  = (fun r => if bool_decide (RecType.synced_array_id r = id)
              then RecType.put_sawptr saptr r else r) <$> ord !! j.
Proof. apply list_lookup_fmap. Qed.

(** One event inside the block, agreeing with the record it is compared
    with: the tracer appends nothing to [wrong_ordered], moves [order_idx]
    on, and, unless the array is the recorded one and still alive, rewrites
    the array of every record of that ID. *)
Lemma synced_array_callback_tracer_same_event a w rec e :
  let s := this w in
  func_idx s <> 0 ->
  not_precleared s a ->
  0 <= order_idx s ->
  order s !! Z.to_nat (order_idx s) = Some rec ->
  func_block_ends_at s (func_idx s) = Ok e ->
  order_idx s < e ->
  same_event a rec ->
  index_exact s ->
  exists s',
    synced_array_callback_tracer (a_saptr a) (a_func_name a) (a_dtype a) (a_ctx a)
      (a_write_only a) w
    = Ok {| this := s'; arrays := arrays w; issued := issued w |}
    /\ order s'
       = (if bool_decide (lock (arrays w) (RecType.sawptr rec) = true
                          /\ RecType.sawptr rec = a_saptr a)
          then order s
          else substitute (a_saptr a) (RecType.synced_array_id rec) (order s))
    /\ wrong_ordered s' = wrong_ordered s
    /\ order_idx s' = order_idx s + 1
    /\ func_idx s' = func_idx s
    /\ func_block_ends s' = func_block_ends s
    /\ synced_array_id_to_order_idx s' = synced_array_id_to_order_idx s
    /\ callback_func s' = callback_func s
    /\ (forall p, flag (precleared s') p = true -> flag (precleared s) p = true).
Proof.
  intros s Hf Hpre Hidx0 Hrec He Hlt (Htag & Hdt & Hkey) Hex.
  unfold synced_array_callback_tracer. fold s.
  rewrite decide_False by done.
  set (s1 := if flag (precleared s) (a_saptr a)
             then put_precleared (<[a_saptr a := false]> (precleared s)) s else s).
  assert (Hs1 : (if flag (precleared s) (a_saptr a) then
                   match get_tag (a_func_name a) (a_write_only a) with
                   | RecTag.CLEAR =>
                     Ok (put_precleared (<[a_saptr a := false]> (precleared s)) s)
                   | RecTag.GETCAST => Err error_code.target_specific_async
                   end
                 else Ok s) = Ok s1).
  { unfold s1. destruct (flag (precleared s) (a_saptr a)) eqn:Hfl; [|done].
    by rewrite (Hpre Hfl). }
  rewrite Hs1. cbn [bind].
  assert (Hord1 : order s1 = order s) by (unfold s1; by destruct (flag _ _)).
  assert (Hoi1 : order_idx s1 = order_idx s) by (unfold s1; by destruct (flag _ _)).
  assert (Hfi1 : func_idx s1 = func_idx s) by (unfold s1; by destruct (flag _ _)).
  assert (Hfb1 : func_block_ends_at s1 (func_idx s1) = Ok e).
  { rewrite <- He. unfold s1. by destruct (flag _ _). }
  assert (Hix1 : order_idxs s1 (RecType.synced_array_id rec)
                 = order_idxs s (RecType.synced_array_id rec)).
  { unfold s1. by destruct (flag _ _). }
  assert (Hex1 : index_exact s1).
  { unfold s1. by destruct (flag _ _). }
  unfold at_. rewrite Hoi1, Hord1, decide_True by done. rewrite Hrec. cbn [bind].
  rewrite Hfb1. cbn [bind].
  rewrite (bool_decide_eq_true_2 (order_idx s < e)) by done.
  rewrite (bool_decide_eq_true_2 (_ = RecType.tag rec)) by done.
  rewrite (bool_decide_eq_true_2 (a_dtype a = _)) by done.
  rewrite (bool_decide_eq_true_2 (get_array_key_from_context _ = _)) by done.
  rewrite (bool_decide_eq_false_2 (order_idx s >= e)) by lia.
  rewrite (bool_decide_eq_false_2 (_ <> RecType.tag rec)) by tauto.
  rewrite (bool_decide_eq_false_2 (a_dtype a <> _)) by tauto.
  rewrite (bool_decide_eq_false_2 (get_array_key_from_context _ <> _)) by tauto.
  rewrite !andb_true_r, !orb_false_r, !andb_true_l, !orb_false_l.
  destruct (decide (lock (arrays w) (RecType.sawptr rec) = true
                    /\ RecType.sawptr rec = a_saptr a)) as [Hsame|Hdiff].
  - (* the recorded array, still alive *)
    rewrite !(bool_decide_eq_false_2 (Some _ <> _)).
    2: { destruct Hsame as [-> ->]. tauto. }
    rewrite (bool_decide_eq_true_2 (_ /\ _)) by done.
    cbn [bind orb]. eexists. split; [reflexivity|]. cbn.
    rewrite Hord1, Hoi1, Hfi1. repeat split; try done; unfold s1;
      destruct (flag (precleared s) (a_saptr a)) eqn:Hfl; try done.
    intros p. cbn. unfold flag at 1. destruct (decide (p = a_saptr a)) as [->|Hne].
    + by rewrite lookup_insert_eq.
    + by rewrite lookup_insert_ne.
  - (* another array: every record of the ID is rewritten *)
    rewrite !(bool_decide_eq_true_2 (Some _ <> _)).
    2: { intros Heq. apply Hdiff. destruct (lock _ _); by simplify_eq. }
    rewrite (bool_decide_eq_false_2 (_ /\ _)) by done.
    fold (order_idxs s1 (RecType.synced_array_id rec)).
    rewrite Hix1, (replace_sawptr_substitute _ _ _ Hex). cbn [bind].
    eexists. split; [reflexivity|]. cbn.
    rewrite Hoi1, Hfi1. repeat split; try done; unfold s1;
      destruct (flag (precleared s) (a_saptr a)) eqn:Hfl; try done.
    intros p. cbn. unfold flag at 1. destruct (decide (p = a_saptr a)) as [->|Hne].
    + by rewrite lookup_insert_eq.
    + by rewrite lookup_insert_ne.
Qed.

Lemma rehandle_rehandle hnd l1 l2 ord :
  rehandle hnd l2 (rehandle hnd l1 ord) = rehandle hnd (l1 ++ l2) ord.
Proof.
  unfold rehandle. rewrite <- list_fmap_compose. apply list_fmap_ext.
  intros _ r _. cbn.
  destruct (decide (RecType.synced_array_id r ∈ l1)) as [H1|H1].
  - rewrite (bool_decide_eq_true_2 _ H1). cbn.
    rewrite (bool_decide_eq_true_2 (_ ∈ l1 ++ l2)) by (apply elem_of_app; tauto).
    by destruct (bool_decide _).
  - rewrite (bool_decide_eq_false_2 _ H1).
    rewrite (bool_decide_ext (RecType.synced_array_id r ∈ l2)
               (RecType.synced_array_id r ∈ l1 ++ l2)); [done|].
    rewrite elem_of_app. tauto.
Qed.

Lemma rehandle_one_event hnd a rec alive ord :
  one_handle ord -> rec ∈ ord ->
  a_saptr a = hnd (RecType.synced_array_id rec) ->
  (if bool_decide (alive = true /\ RecType.sawptr rec = a_saptr a)
   then ord else substitute (a_saptr a) (RecType.synced_array_id rec) ord)
  = rehandle hnd [RecType.synced_array_id rec] ord.
Proof.
  intros Hone Hrec Ha. unfold rehandle, substitute. case_bool_decide as Hsame.
  - rewrite <- (list_fmap_id ord) at 1. apply list_fmap_ext. intros j r Hr. cbn.
    apply list_elem_of_lookup_2 in Hr.
    case_bool_decide as Hid; [|done]. apply list_elem_of_singleton in Hid.
    rewrite Hid, <- Ha. destruct Hsame as [_ <-].
    rewrite <- (Hone r rec) by done. by rewrite put_sawptr_same.
  - apply list_fmap_ext. intros _ r _. cbn.
    rewrite (bool_decide_ext (RecType.synced_array_id r ∈ [RecType.synced_array_id rec])
               (RecType.synced_array_id r = RecType.synced_array_id rec))
      by apply list_elem_of_singleton.
    case_bool_decide as Hid; [|done]. by rewrite Hid, Ha.
Qed.

Lemma rehandle_one_handle hnd ids ord : one_handle ord -> one_handle (rehandle hnd ids ord).
Proof.
  intros Hone r1 r2 H1 H2. unfold rehandle in *.
  apply list_elem_of_fmap in H1 as (r1' & -> & H1).
  apply list_elem_of_fmap in H2 as (r2' & -> & H2).
  do 2 case_bool_decide; cbn; intros Hid; try congruence; auto.
Qed.

Lemma rehandle_index_exact hnd ids s s' :
  index_exact s ->
  order s' = rehandle hnd ids (order s) ->
  synced_array_id_to_order_idx s' = synced_array_id_to_order_idx s ->
  index_exact s'.
Proof.
  intros Hex Hord Hidx id i. unfold order_idxs. rewrite Hidx, Hord.
  rewrite (Hex id i). unfold rehandle. rewrite list_lookup_fmap.
  split; intros (Hi & r & Hr & Hid); (split; [done|]).
  - rewrite Hr. eexists. split; [done|]. by case_bool_decide.
  - destruct (order s !! Z.to_nat i) as [r0|]; [|done]. injection Hr as <-.
    exists r0. split; [done|]. revert Hid. by case_bool_decide.
Qed.

Lemma same_event_rehandle hnd ids evs rs :
  Forall2 same_event evs rs -> Forall2 same_event evs (rehandle hnd ids rs).
Proof.
  intros H. unfold rehandle. apply Forall2_fmap_r.
  eapply Forall2_impl; [done|]. intros a r Hs. cbn. by case_bool_decide.
Qed.

Lemma expected_cons s n rec :
  0 <= order_idx s ->
  order s !! Z.to_nat (order_idx s) = Some rec ->
  expected s (S n) = rec :: take n (drop (S (Z.to_nat (order_idx s))) (order s)).
Proof. intros _ H. unfold expected. by rewrite (drop_S _ _ _ H). Qed.

(** A stream of events inside one block, each agreeing with the record it
    meets in tag, dtype and context key and carrying the array [hnd] gives
    for the ID of that record. *)
Lemma tracer_stream hnd evs :
  forall w e,
    let s := this w in
    callback_func s = Some synced_array_callback_tracer_ ->
    func_idx s <> 0 ->
    0 <= order_idx s ->
    func_block_ends_at s (func_idx s) = Ok e ->
    order_idx s + Z.of_nat (length evs) <= e ->
    Forall2 same_event evs (expected s (length evs)) ->
    Forall2 (fun a r => a_saptr a = hnd (RecType.synced_array_id r)) evs
      (expected s (length evs)) ->
    Forall (not_precleared s) evs ->
    index_exact s ->
    one_handle (order s) ->
    exists s',
      run (op_of <$> evs) w = Ok {| this := s'; arrays := arrays w; issued := issued w |}
      /\ wrong_ordered s' = wrong_ordered s
      /\ order_idx s' = order_idx s + Z.of_nat (length evs)
      /\ order s'
         = rehandle hnd (RecType.synced_array_id <$> expected s (length evs)) (order s).
Proof.
  induction evs as [|a evs IH]; intros w e s Hcb Hf Hoi He Hle Hsame Hhnd Hpre Hex Hone.
  - exists s. cbn. destruct w. repeat split; try done; try lia.
    unfold rehandle. rewrite <- (list_fmap_id (order s)) at 1.
    apply list_fmap_ext. intros _ r _. cbn. rewrite bool_decide_eq_false_2; [done|].
    apply not_elem_of_nil.
  - cbn [length] in *.
    assert (Hrec : exists rec, order s !! Z.to_nat (order_idx s) = Some rec).
    { pose proof (Forall2_length _ _ _ Hsame) as Hlen. unfold expected in Hlen.
      rewrite length_take, length_drop in Hlen. cbn [length] in Hlen.
      apply lookup_lt_is_Some_2. lia. }
    destruct Hrec as [rec Hrec].
    rewrite (expected_cons _ _ _ Hoi Hrec) in *.
    apply Forall2_cons in Hsame as [Hsame1 Hsame].
    apply Forall2_cons in Hhnd as [Hhnd1 Hhnd].
    apply Forall_cons in Hpre as [Hpre1 Hpre].
    destruct (synced_array_callback_tracer_same_event a w rec e)
      as (s1 & Hstep & Hord1 & Hwo1 & Hoi1 & Hfi1 & Hfb1 & Hix1 & Hcb1 & Hpre1');
      try done; [fold s; lia|]. fold s in Hord1, Hwo1, Hoi1, Hfi1, Hfb1, Hix1, Hcb1, Hpre1'.
    rewrite (rehandle_one_event hnd) in Hord1;
      [|done|by eapply list_elem_of_lookup_2|done].
    assert (Hexp : expected s1 (length evs)
                   = rehandle hnd [RecType.synced_array_id rec]
                       (take (length evs) (drop (S (Z.to_nat (order_idx s))) (order s)))).
    { unfold expected. rewrite Hoi1, Hord1. unfold rehandle.
      rewrite fmap_take, fmap_drop. do 2 f_equal. lia. }
    destruct (IH {| this := s1; arrays := arrays w; issued := issued w |} e)
      as (s' & Hrun & Hwo & Hoi' & Hord'); cbn [this].
    + congruence.
    + congruence.
    + lia.
    + rewrite <- He. unfold func_block_ends_at. by rewrite Hfb1, Hfi1.
    + lia.
    + rewrite Hexp. by apply same_event_rehandle.
    + rewrite Hexp. unfold rehandle. apply Forall2_fmap_r.
      eapply Forall2_impl; [done|]. intros a' r' Ha'. cbn. by case_bool_decide.
    + eapply Forall_impl; [done|]. intros a' Ha' Hfl. apply Ha'. by apply Hpre1'.
    + by eapply (rehandle_index_exact hnd).
    + rewrite Hord1. by apply rehandle_one_handle.
    + exists s'. cbn [fmap list_fmap run step op_of]. fold s. rewrite Hcb.
      rewrite Hstep. cbn [bind]. cbn [this arrays issued] in Hrun, Hwo, Hoi', Hord'.
      split; [exact Hrun|]. split; [congruence|]. split; [lia|].
      rewrite Hord', Hord1, rehandle_rehandle. f_equal. cbn. f_equal.
      rewrite Hexp. unfold rehandle. rewrite <- list_fmap_compose.
      apply list_fmap_ext. intros _ r _. cbn. by case_bool_decide.
Qed.

(** The recorder keeps the index exact: while [order_idx] is the length of
    the trace, as it is during the recorded iteration, the position it
    lists for the new record is the position the record is pushed at. *)
Lemma synced_array_callback_recorder_index_exact saptr func_name dtype ctx write_only w w' :
  synced_array_callback_recorder saptr func_name dtype ctx write_only w = Ok w' ->
  order_idx (this w) = Z.of_nat (length (order (this w))) ->
  index_exact (this w) ->
  order_idx (this w') = Z.of_nat (length (order (this w')))
  /\ index_exact (this w').
Proof.
  unfold synced_array_callback_recorder. intros H Hidx Hex.
  destruct (decide (func_idx (this w) = 0)); [by injection H as <-|].
  cbv zeta in H. destruct (decide (_ > _)); [done|].
  destruct (IdMapper.find _ saptr) as [id|] eqn:Hid in H; [|done].
  injection H as <-. cbn. rewrite length_app. cbn. split; [lia|].
  intros id' i. unfold order_idxs, push_order_idx. cbn.
  fold (order_idxs (this w) id).
  destruct (decide (id' = id)) as [->|Hne].
  - rewrite lookup_insert_eq. cbn. rewrite elem_of_app, list_elem_of_singleton, (Hex id i).
    split.
    + intros [(Hi & r & Hr & Hrid)| ->].
      * split; [done|]. exists r. split; [|done]. by apply lookup_app_l_Some.
      * split; [lia|]. eexists. split.
        { rewrite Hidx, Nat2Z.id. by rewrite lookup_app_r, Nat.sub_diag by lia. }
        done.
    + intros (Hi & r & Hr & Hrid).
      apply lookup_app_Some in Hr as [Hr|[Hlen Hr]]; [left; split; [done|by exists r]|].
      right. apply list_lookup_singleton_Some in Hr as [Hz _]. lia.
  - rewrite lookup_insert_ne by done. fold (order_idxs (this w) id'). rewrite (Hex id' i).
    split.
    + intros (Hi & r & Hr & Hrid). split; [done|]. exists r. split; [|done].
      by apply lookup_app_l_Some.
    + intros (Hi & r & Hr & Hrid). split; [done|].
      apply lookup_app_Some in Hr as [Hr|[Hlen Hr]]; [by exists r|].
      apply list_lookup_singleton_Some in Hr as [_ <-]. done.
Qed.

(** ** Loops *)

Lemma for_nat_add {X} (body : Z -> X -> result X) a b i x :
  for_nat body (a + b) i x
  = bind (for_nat body a i x) (for_nat body b (i + Z.of_nat a)).
Proof.
  revert i x. induction a as [|a IH]; intros i x.
  - cbn. by rewrite Z.add_0_r.
  - cbn [for_nat Nat.add]. destruct (body i x) as [x'| |]; cbn [bind]; [|done..].
    rewrite IH. do 2 f_equal. lia.
Qed.

Lemma for_rounds_nat {X} (body : Z -> X -> result X) p i x :
  for_rounds body p i x = for_nat body (Pos.to_nat p) i x.
Proof.
  revert i x. induction p as [p IH|p IH|]; intros i x; cbn [for_rounds].
  - rewrite Pos2Nat.inj_xI. cbn [for_nat].
    destruct (body i x) as [x0| |]; cbn [bind]; [|done..].
    replace (2 * Pos.to_nat p)%nat with (Pos.to_nat p + Pos.to_nat p)%nat by lia.
    rewrite for_nat_add, <- IH.
    destruct (for_rounds body p (i + 1) x0) as [x'| |]; cbn [bind]; [|done..].
    rewrite IH. f_equal. lia.
  - rewrite Pos2Nat.inj_xO.
    replace (2 * Pos.to_nat p)%nat with (Pos.to_nat p + Pos.to_nat p)%nat by lia.
    rewrite for_nat_add, <- IH.
    destruct (for_rounds body p i x) as [x'| |]; cbn [bind]; [|done..].
    rewrite IH. f_equal. lia.
  - change (Pos.to_nat 1) with 1%nat. cbn [for_nat]. by destruct (body i x).
Qed.

Lemma for_loop_nat {X} (body : Z -> X -> result X) first last x :
  for_loop body first last x = for_nat body (Z.to_nat (last - first)) first x.
Proof.
  unfold for_loop. destruct (last - first) as [|p|p]; [done| |done].
  rewrite for_rounds_nat. by rewrite Z2Nat.inj_pos.
Qed.

Lemma for_nat_invariant {X} (P : Z -> X -> Prop) (body : Z -> X -> result X) n :
  forall i x x',
    (forall k y y', i <= k < i + Z.of_nat n -> P k y -> body k y = Ok y' -> P (k + 1) y') ->
    P i x -> for_nat body n i x = Ok x' -> P (i + Z.of_nat n) x'.
Proof.
  induction n as [|n IH]; intros i x x' Hbody HP H; cbn in H.
  - injection H as <-. by rewrite Z.add_0_r.
  - destruct (body i x) as [y| |] eqn:Hb; cbn [bind] in H; [|done..].
    replace (i + Z.of_nat (S n)) with (i + 1 + Z.of_nat n) by lia.
    eapply IH; [|by eapply Hbody; [lia|..]|done].
    intros k z z' Hk. apply Hbody. lia.
Qed.

(** An error of a counted loop comes out of one of its rounds. *)
Lemma for_nat_error {X} (body : Z -> X -> result X) err n :
  forall i x,
    for_nat body n i x = Err err
    <-> exists k y, (k < n)%nat /\ for_nat body k i x = Ok y
                    /\ body (i + Z.of_nat k) y = Err err.
Proof.
  induction n as [|n IH]; intros i x; cbn [for_nat].
  - split; [done|]. intros (k & y & Hk & _). lia.
  - split.
    + destruct (body i x) as [y| |] eqn:Hb; cbn [bind]; [|intros [= ->]|done].
      * intros (k & z & Hk & Hrun & Herr)%IH.
        exists (S k), z. split; [lia|]. cbn [for_nat]. rewrite Hb. cbn [bind].
        split; [done|]. rewrite <- Herr. f_equal. lia.
      * exists 0%nat, x. split; [lia|]. split; [done|]. by rewrite Z.add_0_r.
    + intros (k & z & Hk & Hrun & Herr). destruct k as [|k].
      * cbn in Hrun. injection Hrun as <-. rewrite Z.add_0_r in Herr. by rewrite Herr.
      * cbn [for_nat] in Hrun. destruct (body i x) as [y| |]; cbn [bind] in *; [|done..].
        apply IH. exists k, z. split; [lia|]. split; [done|]. rewrite <- Herr. f_equal. lia.
Qed.

(** ** Sums *)

Lemma sum_with_cons {A} (f : A -> Z) a l : sum_with f (a :: l) = f a + sum_with f l.
Proof. done. Qed.

Lemma sum_with_app {A} (f : A -> Z) l1 l2 :
  sum_with f (l1 ++ l2) = sum_with f l1 + sum_with f l2.
Proof.
  induction l1 as [|a l1 IH]; [done|].
  rewrite <- app_comm_cons, !sum_with_cons, IH. lia.
Qed.

Lemma sum_with_nonneg {A} (f : A -> Z) l :
  (forall a, a ∈ l -> 0 <= f a) -> 0 <= sum_with f l.
Proof.
  induction l as [|a l IH]; intros H; [done|]. rewrite sum_with_cons.
  assert (0 <= f a) by (apply H; by left).
  assert (0 <= sum_with f l) by (apply IH; intros b Hb; apply H; by right).
  lia.
Qed.

Lemma sum_with_ext {A} (f g : A -> Z) l :
  (forall a, a ∈ l -> f a = g a) -> sum_with f l = sum_with g l.
Proof.
  induction l as [|a l IH]; intros H; [done|]. rewrite !sum_with_cons.
  rewrite (H a) by by left. rewrite IH; [done|].
  intros b Hb. apply H. by right.
Qed.

(** Changing the summand at one element of a list without repetition. *)
Lemma sum_with_update (f g : Z -> Z) l x :
  NoDup l -> x ∈ l -> (forall y, y ∈ l -> y <> x -> g y = f y) ->
  sum_with g l = sum_with f l - f x + g x.
Proof.
  induction l as [|a l IH]; intros Hnd Hx Hext; [by apply not_elem_of_nil in Hx|].
  apply NoDup_cons in Hnd as [Ha Hnd]. rewrite !sum_with_cons.
  destruct (decide (a = x)) as [->|Hne].
  - rewrite (sum_with_ext g f l); [lia|].
    intros y Hy. apply Hext; [by right|]. intros ->. done.
  - apply elem_of_cons in Hx as [->|Hx]; [done|].
    rewrite (Hext a) by (by left || done).
    rewrite IH; [lia|done..|].
    intros y Hy. apply Hext. by right.
Qed.

Lemma sum_with_elem (f : Z -> Z) l x :
  (forall y, y ∈ l -> 0 <= f y) -> x ∈ l -> f x <= sum_with f l.
Proof.
  induction l as [|a l IH]; intros Hpos Hx; [by apply not_elem_of_nil in Hx|].
  rewrite sum_with_cons.
  assert (0 <= f a) by (apply Hpos; by left).
  assert (0 <= sum_with f l).
  { apply sum_with_nonneg. intros y Hy. apply Hpos. by right. }
  apply elem_of_cons in Hx as [->|Hx]; [lia|].
  assert (f x <= sum_with f l); [|lia].
  apply IH; [|done]. intros y Hy. apply Hpos. by right.
Qed.

(** ** Counts in the queue *)

Lemma counts_of_put_count c id d n id' :
  counts_of (put_count c id d n) id'
  = if decide (id' = id) then <[d := n]> (counts_of c id) else counts_of c id'.
Proof.
  unfold counts_of, put_count. destruct (decide (id' = id)) as [->|Hne].
  - by rewrite lookup_insert_eq.
  - by rewrite lookup_insert_ne.
Qed.

Lemma count_put_count c id d n id' d' :
  count (put_count c id d n) id' d'
  = if decide (id' = id /\ d' = d) then n else count c id' d'.
Proof.
  unfold count. rewrite counts_of_put_count.
  destruct (decide (id' = id)) as [->|Hne].
  - destruct (decide (d' = d)) as [->|Hd].
    + rewrite lookup_insert_eq. by rewrite decide_True.
    + rewrite lookup_insert_ne by done. rewrite decide_False; [done|tauto].
  - rewrite decide_False; [done|tauto].
Qed.

(** A count map with at most the key [d]. *)
Lemma one_key_map (m : gmap Z Z) d :
  (forall k, is_Some (m !! k) -> k = d) -> m = ∅ \/ exists n, m = {[ d := n ]}.
Proof.
  intros H. destruct (m !! d) as [n|] eqn:Hd.
  - right. exists n. apply map_eq. intros k. destruct (decide (k = d)) as [->|Hne].
    + by rewrite lookup_singleton_eq.
    + rewrite lookup_singleton_ne by done.
      destruct (m !! k) eqn:Hk; [|done]. exfalso. apply Hne, H. by rewrite Hk.
  - left. apply map_eq. intros k. rewrite lookup_empty.
    destruct (m !! k) eqn:Hk; [|done]. assert (k = d) as -> by (apply H; by rewrite Hk).
    congruence.
Qed.

Lemma accumulate_counts_empty : accumulate_counts ∅ = 0.
Proof. unfold accumulate_counts. by rewrite map_to_list_empty. Qed.

Lemma accumulate_counts_singleton d n : accumulate_counts {[ d := n ]} = n.
Proof. unfold accumulate_counts. by rewrite map_to_list_singleton. Qed.

Lemma bytes_of_types_empty sz : bytes_of_types sz ∅ = [].
Proof. unfold bytes_of_types. by rewrite map_to_list_empty. Qed.

Lemma bytes_of_types_singleton sz d n :
  bytes_of_types sz {[ d := n ]} = [wrap (sz * sizeof_dtype d)].
Proof. unfold bytes_of_types. by rewrite map_to_list_singleton. Qed.

(** ** What the planner does not write *)

Lemma static_lookup (ord ord0 : list RecType.t) (j : nat) r :
  static <$> ord = static <$> ord0 -> ord !! j = Some r ->
  exists r0, ord0 !! j = Some r0 /\ static r = static r0.
Proof.
  intros Hst Hj. assert (H : (static <$> ord0) !! j = Some (static r)).
  { rewrite <- Hst, list_lookup_fmap, Hj. done. }
  rewrite list_lookup_fmap in H. destruct (ord0 !! j) as [r0|]; simpl in H; [|done].
  exists r0. split; [done|]. congruence.
Qed.

Lemma static_length (ord ord0 : list RecType.t) :
  static <$> ord = static <$> ord0 -> length ord = length ord0.
Proof. intros H. apply (f_equal length) in H. by rewrite !length_fmap in H. Qed.

Lemma static_store (ord : list RecType.t) i r r' :
  ord !! Z.to_nat i = Some r -> static r' = static r ->
  static <$> store_at ord i r' = static <$> ord.
Proof.
  intros Hi Hst. unfold store_at. rewrite list_fmap_insert, Hst.
  apply list_insert_id. by rewrite list_lookup_fmap, Hi.
Qed.

Lemma at_Ok {A} (v : list A) i x :
  at_ v i = Ok x <-> 0 <= i /\ v !! Z.to_nat i = Some x.
Proof.
  unfold at_. destruct (decide (0 <= i)); [|split; [done|tauto]].
  destruct (v !! Z.to_nat i); split; try done; try tauto.
  - intros [= ->]. done.
  - by intros [_ [= ->]].
  - by intros [_ ?].
Qed.

Lemma on_device_static s s0 r r0 :
  device_ctx s = device_ctx s0 -> static r = static r0 ->
  on_device s r <-> on_device s0 r0.
Proof. unfold on_device, static. intros -> [= -> _ _ _ ->]. done. Qed.

(** ** Resident bytes *)

Lemma first_use_Some s r :
  r ∈ order s -> on_device s r ->
  exists r', first_use s (RecType.synced_array_id r) = Some r'
             /\ r' ∈ order s /\ on_device s r'
             /\ RecType.synced_array_id r' = RecType.synced_array_id r.
Proof.
  intros Hr Hdev. unfold first_use.
  destruct (List.find _ (order s)) as [r'|] eqn:Hfind.
  - apply find_some in Hfind as [Hin Hp]. apply bool_decide_eq_true in Hp as [? ?].
    exists r'. by rewrite <- list_elem_of_In in Hin.
  - exfalso. apply list_elem_of_In in Hr.
    pose proof (find_none _ _ Hfind r Hr) as Hp. cbn in Hp.
    apply bool_decide_eq_false in Hp. tauto.
Qed.

Lemma first_use_elem s id r :
  first_use s id = Some r ->
  r ∈ order s /\ on_device s r /\ RecType.synced_array_id r = id.
Proof.
  unfold first_use. intros [Hin Hp]%find_some.
  apply bool_decide_eq_true in Hp as [? ?]. by rewrite <- list_elem_of_In in Hin.
Qed.

Lemma device_ids_elem s r :
  r ∈ order s -> on_device s r -> RecType.synced_array_id r ∈ device_ids s.
Proof.
  intros Hr Hdev. unfold device_ids. apply elem_of_remove_dups, list_elem_of_fmap.
  exists r. split; [done|]. by apply list_elem_of_filter.
Qed.

Lemma resident_bytes_of_nonneg s c id :
  plannable s -> 0 <= resident_bytes_of s c id.
Proof.
  intros Hp. unfold resident_bytes_of. destruct (first_use s id) as [r|] eqn:Hf; [|done].
  apply first_use_elem in Hf as (Hr & Hdev & _).
  case_bool_decide; [|done]. by apply (plannable_bytes s Hp r).
Qed.

Lemma resident_bytes_of_record s c r :
  plannable s -> r ∈ order s -> on_device s r ->
  resident_bytes_of s c (RecType.synced_array_id r)
  = if bool_decide (0 < count c (RecType.synced_array_id r) (RecType.dtype r))
    then bytes_of r else 0.
Proof.
  intros Hp Hr Hdev. unfold resident_bytes_of.
  destruct (first_use_Some s r Hr Hdev) as (r' & -> & Hr' & Hdev' & Hid).
  destruct (plannable_one_type s Hp r' r) as [Hd Hs]; try done.
  unfold bytes_of. by rewrite Hd, Hs.
Qed.

(** Setting the count of the array of a device record. *)
Lemma resident_bytes_put_count s c r n :
  plannable s -> r ∈ order s -> on_device s r ->
  resident_bytes s (put_count c (RecType.synced_array_id r) (RecType.dtype r) n)
  = resident_bytes s c
    - (if bool_decide (0 < count c (RecType.synced_array_id r) (RecType.dtype r))
       then bytes_of r else 0)
    + (if bool_decide (0 < n) then bytes_of r else 0).
Proof.
  intros Hp Hr Hdev. unfold resident_bytes.
  rewrite (sum_with_update (resident_bytes_of s c) _ _ (RecType.synced_array_id r)).
  - rewrite !(resident_bytes_of_record s _ r) by done.
    rewrite count_put_count, decide_True by done. done.
  - apply NoDup_remove_dups.
  - by apply device_ids_elem.
  - intros id _ Hne. unfold resident_bytes_of.
    destruct (first_use s id) as [r'|]; [|done].
    rewrite count_put_count, decide_False; [done|tauto].
Qed.

Lemma resident_bytes_ge s c r :
  plannable s -> r ∈ order s -> on_device s r ->
  0 < count c (RecType.synced_array_id r) (RecType.dtype r) ->
  bytes_of r <= resident_bytes s c.
Proof.
  intros Hp Hr Hdev Hc.
  pose proof (sum_with_elem (resident_bytes_of s c) (device_ids s)
                (RecType.synced_array_id r)) as H.
  rewrite (resident_bytes_of_record s c r), bool_decide_eq_true_2 in H by done.
  apply H; [|by apply device_ids_elem].
  intros y _. by apply resident_bytes_of_nonneg.
Qed.

Lemma resident_bytes_nonneg s c : plannable s -> 0 <= resident_bytes s c.
Proof.
  intros Hp. apply sum_with_nonneg. intros y _. by apply resident_bytes_of_nonneg.
Qed.

Lemma wrap_small x : 0 <= x < 2 ^ 64 -> wrap x = x.
Proof. intros H. unfold wrap. by apply Z.mod_small. Qed.

Lemma wrap_range x : 0 <= wrap x < 2 ^ 64.
Proof. unfold wrap. apply Z.mod_pos_bound. done. Qed.

(** ** The planner keeps its invariant *)

Lemma scanned_bytes_S s h r :
  0 <= h -> order s !! Z.to_nat h = Some r ->
  scanned_bytes s (h + 1) = scanned_bytes s h + device_bytes s r.
Proof.
  intros Hh Hr. unfold scanned_bytes.
  replace (Z.to_nat (h + 1)) with (S (Z.to_nat h)) by lia.
  rewrite (take_S_r _ _ _ Hr), sum_with_app. cbn. lia.
Qed.

Lemma device_bytes_nonneg s r : plannable s -> r ∈ order s -> 0 <= device_bytes s r.
Proof.
  intros Hp Hr. unfold device_bytes. case_decide; [|done].
  by apply (plannable_bytes s Hp r).
Qed.

Lemma bytes_of_static r r0 : static r = static r0 -> bytes_of r = bytes_of r0.
Proof. unfold static, bytes_of. by intros [= _ _ -> ->]. Qed.

Lemma same_plan_input_refl s : same_plan_input s s.
Proof. by repeat split. Qed.

Lemma same_plan_input_trans s1 s2 s3 :
  same_plan_input s1 s2 -> same_plan_input s2 s3 -> same_plan_input s1 s3.
Proof.
  intros (?&?&?&?&?&?) (?&?&?&?&?&?). repeat split; congruence.
Qed.

Lemma planner_inv_same s0 s s' q :
  planner_inv s0 s q -> same_plan_input s s' ->
  used_bytes_swap_out s' = used_bytes_swap_out s ->
  planner_inv s0 s' q.
Proof.
  intros [] (?&?&?&?&?&?) Hout. constructor; try congruence; done.
Qed.

Lemma cancel_swap_out_same s id s' :
  cancel_swap_out s id = Ok s' ->
  same_plan_input s s' /\ used_bytes_swap_out s' = used_bytes_swap_out s
  /\ tail s' = tail s.
Proof.
  unfold cancel_swap_out. intros H.
  destruct (flag (swapped_out s) id); [|injection H as <-; split; [apply same_plan_input_refl|done]].
  destruct (swapped_out_r s !! id) as [j|]; [|done].
  destruct (at_ (order s) j) as [rj| |] eqn:Hj; cbn [bind] in H; [|done..].
  injection H as <-. apply at_Ok in Hj as [Hj0 Hj].
  split; [|done]. repeat split; try done. cbn. by apply (static_store _ _ rj).
Qed.

Lemma planner_inv_budget s0 s q :
  plannable s0 -> planner_inv s0 s q ->
  0 <= used_bytes_swap_in q
  /\ wrap (max_bytes_swap_in s - max_bytes_swap_out s)
     = max_bytes_swap_in s0 - max_bytes_swap_out s0
  /\ 0 <= max_bytes_swap_in s0 - max_bytes_swap_out s0 < 2 ^ 63
  /\ 0 <= max_bytes_swap_out s0.
Proof.
  intros Hp Hinv. pose proof (plannable_budget s0 Hp) as Hb.
  pose proof (plannable_half s0 Hp) as Hh.
  assert (0 <= max_bytes_swap_in s0 / 2 <= max_bytes_swap_in s0).
  { split; [apply Z.div_pos; lia|]. apply Z.div_le_upper_bound; lia. }
  split.
  { rewrite (inv_resident _ _ _ Hinv). by apply resident_bytes_nonneg. }
  rewrite (inv_max_in _ _ _ Hinv), (inv_max_out _ _ _ Hinv).
  split; [apply wrap_small|]; lia.
Qed.

(** One round of the scan of [schedule_swap_in]. *)
Lemma schedule_swap_in_body_inv s0 x f :
  plannable s0 ->
  planner_inv s0 (si_this x) (si_queue x) ->
  schedule_swap_in_body x = Ok f ->
  let y := match f with Continue y => y | Break y => y end in
  planner_inv s0 (si_this y) (si_queue y)
  /\ used_bytes_swap_out (si_this y) = used_bytes_swap_out (si_this x)
  /\ tail (si_this y) = tail (si_this x).
Proof.
  intros Hp Hinv H. unfold schedule_swap_in_body in H.
  destruct (at_ (order (si_this x)) (head (si_queue x))) as [r| |] eqn:Hr;
    cbn [bind] in H; [|done..].
  apply at_Ok in Hr as [Hh Hr].
  destruct (static_lookup _ _ _ _ (inv_static _ _ _ Hinv) Hr) as (r0 & Hr0 & Hst).
  assert (Hin0 : r0 ∈ order s0) by by eapply list_elem_of_lookup_2.
  pose proof (planner_inv_budget _ _ _ Hp Hinv) as (Hin & Hcap & Hcapr & Hmo).
  pose proof (inv_cap _ _ _ Hinv) as Hle.
  pose proof (scanned_bytes_S s0 _ _ Hh Hr0) as Hscan.
  pose proof (on_device_static _ _ _ _ (inv_device_ctx _ _ _ Hinv) Hst) as Hdev.
  destruct (RecType.tag r) eqn:Htag.
  - destruct (decide (array_class (RecType.ctx r) = array_class (device_ctx (si_this x))))
      as [Hcls|Hcls].
    + assert (Hdev0 : on_device s0 r0) by by apply Hdev.
      pose proof (plannable_bytes s0 Hp r0 Hin0 Hdev0) as Hb.
      cbv zeta in H.
      change (RecType.size r * sizeof_dtype (RecType.dtype r)) with (bytes_of r) in H.
      rewrite (bytes_of_static _ _ Hst) in H.
      rewrite (wrap_small (bytes_of r0)) in H by lia.
      rewrite Hcap in H. rewrite (wrap_small (_ + _)) in H by lia.
      destruct (decide (used_bytes_swap_in (si_queue x) + bytes_of r0
                        > max_bytes_swap_in s0 - max_bytes_swap_out s0)) as [Hbig|Hfit].
      { injection H as <-. done. }
      assert (Hst' : RecType.synced_array_id r = RecType.synced_array_id r0
                     /\ RecType.dtype r = RecType.dtype r0).
      { unfold static in Hst. by injection Hst. }
      destruct Hst' as [Hid Hdt]. rewrite Hid, Hdt in H.
      set (c0 := count (synced_array_counts (si_queue x)) (RecType.synced_array_id r0)
                   (RecType.dtype r0)) in *.
      destruct (if bool_decide (c0 = 0)
                   && negb (flag (host_uses_this_synced_array x)
                              (RecType.synced_array_id r0))
                then cancel_swap_out (si_this x) (RecType.synced_array_id r0)
                else Ok (si_this x)) as [s'| |] eqn:Hs'; cbn [bind] in H; [|done..].
      assert (Hsame : same_plan_input (si_this x) s'
                      /\ used_bytes_swap_out s' = used_bytes_swap_out (si_this x)
                      /\ tail s' = tail (si_this x)).
      { destruct (_ && _); [by apply cancel_swap_out_same in Hs'|].
        injection Hs' as <-. split; [apply same_plan_input_refl|done]. }
      destruct Hsame as (Hsame & Hout & Htail).
      injection H as <-. cbn [si_this si_queue]. split; [|done].
      pose proof (resident_bytes_put_count s0 (synced_array_counts (si_queue x)) r0
                    (c0 + 1) Hp Hin0 Hdev0) as Hres.
      fold c0 in Hres.
      pose proof (planner_inv_same _ _ _ _ Hinv Hsame Hout) as Hinv'.
      destruct Hinv'. constructor; cbn; try done.
      * intros id d. rewrite counts_of_put_count.
        destruct (decide (id = RecType.synced_array_id r0)) as [->|Hid'];
          [|by apply inv_keys0].
        destruct (decide (d = RecType.dtype r0)) as [->|Hd].
        -- intros _. by exists r0.
        -- rewrite lookup_insert_ne by done. by apply inv_keys0.
      * rewrite Hres, <- inv_resident0. unfold device_bytes in Hscan.
        repeat case_bool_decide; lia.
      * lia.
      * rewrite Hscan. unfold device_bytes. rewrite decide_True by done.
        destruct (bool_decide (c0 = 0)); lia.
      * destruct (bool_decide (c0 = 0)) eqn:Hc; [|lia].
        apply bool_decide_eq_true in Hc. lia.
    + destruct (decide (array_class (RecType.ctx r) = array_class (host_ctx (si_this x))));
        [|done].
      injection H as <-. cbn [si_this si_queue]. split; [|done].
      destruct Hinv. constructor; cbn; try done; [lia|].
      rewrite Hscan. unfold device_bytes. rewrite decide_False; [lia|].
      intros Hd. apply Hdev in Hd as [_ ?]. done.
  - injection H as <-. cbn [si_this si_queue]. split; [|done].
    destruct Hinv. constructor; cbn; try done; [lia|].
    rewrite Hscan. unfold device_bytes. rewrite decide_False; [lia|].
    intros Hd. apply Hdev in Hd as [? _]. congruence.
Qed.

Lemma schedule_swap_in_loop_inv s0 fuel :
  plannable s0 ->
  forall x y,
    planner_inv s0 (si_this x) (si_queue x) ->
    schedule_swap_in_loop fuel x = Ok y ->
    planner_inv s0 (si_this y) (si_queue y)
    /\ used_bytes_swap_out (si_this y) = used_bytes_swap_out (si_this x)
    /\ tail (si_this y) = tail (si_this x).
Proof.
  intros Hp. induction fuel as [|fuel IH]; intros x y Hinv H; cbn in H.
  - destruct (decide _); by injection H as <-.
  - destruct (decide _); [|by injection H as <-].
    destruct (schedule_swap_in_body x) as [f| |] eqn:Hb; cbn [bind] in H; [|done..].
    pose proof (schedule_swap_in_body_inv s0 x f Hp Hinv Hb) as (Hinv' & Hout & Htail).
    destruct f as [x'|x'].
    + destruct (IH x' y Hinv' H) as (? & ? & ?). split; [done|]. split; congruence.
    + by injection H as <-.
Qed.

Lemma schedule_swap_in_inv s0 s q y :
  plannable s0 -> planner_inv s0 s q ->
  schedule_swap_in s q = Ok y ->
  planner_inv s0 (si_this y) (si_queue y)
  /\ used_bytes_swap_out (si_this y) = used_bytes_swap_out s
  /\ tail (si_this y) = tail s.
Proof.
  intros Hp Hinv H. unfold schedule_swap_in in H.
  by apply (schedule_swap_in_loop_inv s0 _ Hp) in H.
Qed.

Lemma counts_of_one_key s0 s q r0 :
  plannable s0 -> planner_inv s0 s q -> r0 ∈ order s0 -> on_device s0 r0 ->
  counts_of (synced_array_counts q) (RecType.synced_array_id r0) = ∅
  \/ exists n, counts_of (synced_array_counts q) (RecType.synced_array_id r0)
               = {[ RecType.dtype r0 := n ]}.
Proof.
  intros Hp Hinv Hin Hdev. apply one_key_map. intros d Hd.
  destruct (inv_keys _ _ _ Hinv _ _ Hd) as (r & Hr & Hdevr & Hid & <-).
  by destruct (plannable_one_type s0 Hp r r0).
Qed.

(** One round of the loop of [schedule_swap_out]: the bytes that leave
    [used_bytes_swap_in] are those that enter [used_bytes_swap_out], or
    fewer. *)
Lemma schedule_swap_out_body_inv s0 i x y :
  plannable s0 ->
  planner_inv s0 (so_this x) (so_queue x) ->
  used_bytes_swap_in (so_queue x) + used_bytes_swap_out (so_this x) <= max_bytes_swap_in s0 ->
  schedule_swap_out_body i x = Ok y ->
  planner_inv s0 (so_this y) (so_queue y)
  /\ used_bytes_swap_in (so_queue y) + used_bytes_swap_out (so_this y)
     <= used_bytes_swap_in (so_queue x) + used_bytes_swap_out (so_this x)
  /\ used_bytes_swap_out (so_this x) <= used_bytes_swap_out (so_this y)
  /\ tail (so_this y) = tail (so_this x).
Proof.
  intros Hp Hinv Hsum H. unfold schedule_swap_out_body in H.
  destruct (at_ (order (so_this x)) i) as [r| |] eqn:Hr; cbn [bind] in H; [|done..].
  apply at_Ok in Hr as [Hi Hr].
  destruct (static_lookup _ _ _ _ (inv_static _ _ _ Hinv) Hr) as (r0 & Hr0 & Hst).
  assert (Hin0 : r0 ∈ order s0) by by eapply list_elem_of_lookup_2.
  pose proof (planner_inv_budget _ _ _ Hp Hinv) as (Hin & Hcap & Hcapr & Hmo).
  pose proof (plannable_budget s0 Hp) as Hbud.
  pose proof (inv_out _ _ _ Hinv) as Hout.
  pose proof (on_device_static _ _ _ _ (inv_device_ctx _ _ _ Hinv) Hst) as Hdev.
  destruct (RecType.tag r) eqn:Htag; [|injection H as <-; split; [done|lia]].
  destruct (decide (array_class (RecType.ctx r) = array_class (device_ctx (so_this x))))
    as [Hcls|Hcls].
  2: { destruct (decide _); [|done]. injection H as <-. split; [done|lia]. }
  assert (Hdev0 : on_device s0 r0) by by apply Hdev.
  pose proof (plannable_bytes s0 Hp r0 Hin0 Hdev0) as Hb.
  assert (Hst' : RecType.synced_array_id r = RecType.synced_array_id r0
                 /\ RecType.dtype r = RecType.dtype r0
                 /\ RecType.size r = RecType.size r0).
  { unfold static in Hst. by injection Hst. }
  destruct Hst' as (Hid & Hdt & Hsz). cbv zeta in H. rewrite Hid, Hdt, Hsz in H.
  injection H as <-. cbn [so_this so_queue].
  pose proof (resident_bytes_put_count s0 (synced_array_counts (so_queue x)) r0
                (count (synced_array_counts (so_queue x)) (RecType.synced_array_id r0)
                   (RecType.dtype r0) - 1) Hp Hin0 Hdev0) as Hres.
  pose proof (fun H => resident_bytes_ge s0 (synced_array_counts (so_queue x)) r0
                         Hp Hin0 Hdev0 H) as Hge.
  rewrite <- (inv_resident _ _ _ Hinv) in Hres, Hge.
  assert (Hkeys : forall n id d,
            is_Some (counts_of (put_count (synced_array_counts (so_queue x))
                       (RecType.synced_array_id r0) (RecType.dtype r0) n) id !! d) ->
            exists r1, r1 ∈ order s0 /\ on_device s0 r1
                       /\ RecType.synced_array_id r1 = id /\ RecType.dtype r1 = d).
  { intros n id d. rewrite counts_of_put_count.
    destruct (decide (id = RecType.synced_array_id r0)) as [->|Hid'];
      [|by apply (inv_keys _ _ _ Hinv)].
    destruct (decide (d = RecType.dtype r0)) as [->|Hd].
    - intros _. by exists r0.
    - rewrite lookup_insert_ne by done. by apply (inv_keys _ _ _ Hinv). }
  unfold count in Hres, Hge |- *.
  destruct (counts_of_one_key s0 _ _ r0 Hp Hinv Hin0 Hdev0) as [He|[n Hn]].
  - (* the array has no count *)
    rewrite He in *. rewrite accumulate_counts_empty, lookup_empty in *.
    cbn [default from_option] in *. unfold id in *. rewrite bool_decide_eq_false_2 in * by lia.
    cbn [andb]. rewrite !bool_decide_eq_false_2 in Hres by lia.
    split; [|cbn; lia]. destruct Hinv. constructor; cbn; try done; try lia.
    apply Hkeys.
  - rewrite Hn in *. rewrite accumulate_counts_singleton, lookup_singleton_eq in *.
    rewrite bytes_of_types_singleton. cbn [default from_option] in *. unfold id in *.
    fold (bytes_of r0). rewrite (wrap_small (bytes_of r0)) by lia.
    destruct (decide (n = 1)) as [->|Hn1].
    + (* the last pending reference: the array leaves the device *)
      rewrite bool_decide_eq_true_2 by done. cbn [andb].
      rewrite bool_decide_eq_true_2 in Hres by lia.
      rewrite bool_decide_eq_false_2 in Hres by lia.
      specialize (Hge ltac:(lia)).
      unfold sub_bytes, add_bytes. cbn [fold_left].
      rewrite (wrap_small (_ - _)) by lia.
      destruct (negb (RecType.preclear r)).
      * cbn [used_bytes_swap_out put_used_bytes_swap_out tail].
        rewrite (wrap_small (_ + _)) by lia.
        split; [|cbn; lia]. destruct Hinv. constructor; cbn; try done; try lia.
        -- by rewrite (static_store _ _ r).
        -- apply Hkeys.
      * split; [|cbn; lia]. destruct Hinv. constructor; cbn; try done; try lia.
        apply Hkeys.
    + rewrite bool_decide_eq_false_2 by done. cbn [andb].
      assert (Hsame : (if bool_decide (0 < n) then bytes_of r0 else 0)
                      = (if bool_decide (0 < n - 1) then bytes_of r0 else 0)).
      { repeat case_bool_decide; lia. }
      split; [|cbn; lia]. destruct Hinv. constructor; cbn; try done; try lia.
      apply Hkeys.
Qed.

Lemma schedule_swap_out_inv s0 s q fid y :
  plannable s0 ->
  planner_inv s0 s q ->
  used_bytes_swap_in q + used_bytes_swap_out s <= max_bytes_swap_in s0 ->
  schedule_swap_out s q fid = Ok y ->
  planner_inv s0 (so_this y) (so_queue y)
  /\ used_bytes_swap_in (so_queue y) + used_bytes_swap_out (so_this y)
     <= used_bytes_swap_in q + used_bytes_swap_out s
  /\ tail (so_this y) = tail s.
Proof.
  intros Hp Hinv Hsum H. unfold schedule_swap_out in H.
  destruct (func_block_ends_at s (fid - 1)) as [first| |]; cbn [bind] in H; [|done..].
  destruct (func_block_ends_at s fid) as [last| |]; cbn [bind] in H; [|done..].
  rewrite for_loop_nat in H.
  apply (for_nat_invariant
           (fun _ z =>
              planner_inv s0 (so_this z) (so_queue z)
              /\ used_bytes_swap_in (so_queue z) + used_bytes_swap_out (so_this z)
                 <= used_bytes_swap_in q + used_bytes_swap_out s
              /\ tail (so_this z) = tail s)) in H; [done| |done].
  intros k z z' _ (Hinvz & Hsumz & Htail) Hb.
  apply (schedule_swap_out_body_inv s0) in Hb as (? & ? & ? & ?); [|done|done|lia].
  split; [done|]. split; [lia|congruence].
Qed.

Lemma schedule_wait_for_swap_out_impl_same x y :
  schedule_wait_for_swap_out_impl x = Ok y ->
  same_plan_input x.1 y.1
  /\ (0 <= used_bytes_swap_out x.1 -> 0 <= used_bytes_swap_out y.1)
  /\ tail y.1 = tail x.1 + 1.
Proof.
  destruct x as [s sched]. unfold schedule_wait_for_swap_out_impl. intros H.
  destruct (at_ (order s) (tail s)) as [r| |] eqn:Hr; cbn [bind] in H; [|done..].
  apply at_Ok in Hr as [Ht Hr].
  destruct (RecType.swapped_out r); injection H as <-; cbn.
  - split; [|split; [|done]].
    + repeat split; try done. cbn. by rewrite (static_store _ _ r).
    + intros _. apply wrap_range.
  - split; [|done]. by repeat split.
Qed.

Lemma schedule_wait_for_swap_out_loop_same fuel :
  forall x y,
    schedule_wait_for_swap_out_loop fuel x = Ok y ->
    same_plan_input x.1 y.1
    /\ (0 <= used_bytes_swap_out x.1 -> 0 <= used_bytes_swap_out y.1)
    /\ used_bytes_swap_out y.1 <= max_bytes_swap_out y.1.
Proof.
  induction fuel as [|fuel IH]; intros x y H; cbn in H.
  - destruct (decide _); [done|]. injection H as <-.
    split; [apply same_plan_input_refl|]. split; [done|lia].
  - destruct (decide _).
    + destruct (schedule_wait_for_swap_out_impl x) as [x'| |] eqn:Hx; cbn [bind] in H;
        [|done..].
      apply schedule_wait_for_swap_out_impl_same in Hx as (? & ? & ?).
      apply IH in H as (? & ? & ?).
      split; [by eapply same_plan_input_trans|]. split; [tauto|done].
    + injection H as <-. split; [apply same_plan_input_refl|]. split; [done|lia].
Qed.

Lemma plan_swap_in_inv s0 fid x x' :
  plannable s0 -> planner_inv s0 x.1 x.2 ->
  plan_swap_in fid x = Ok x' ->
  planner_inv s0 x'.1 x'.2 /\ used_bytes_swap_out x'.1 = used_bytes_swap_out x.1.
Proof.
  intros Hp Hinv H. unfold plan_swap_in in H.
  destruct (schedule_swap_in x.1 x.2) as [y| |] eqn:Hy; cbn [bind] in H; [|done..].
  apply (schedule_swap_in_inv s0) in Hy as (Hinv' & Hout & _); [|done..].
  destruct (func_block_ends_at _ fid) as [e| |]; cbn [bind] in H; [|done..].
  destruct (decide _); [done|]. injection H as <-. cbn. split; [|done].
  destruct Hinv'. by constructor.
Qed.

Lemma plan_swap_out_inv s0 fid x x' :
  plannable s0 -> planner_inv s0 x.1 x.2 ->
  used_bytes_swap_in x.2 + used_bytes_swap_out x.1 <= max_bytes_swap_in s0 ->
  plan_swap_out fid x = Ok x' ->
  planner_inv s0 x'.1 x'.2
  /\ used_bytes_swap_in x'.2 + used_bytes_swap_out x'.1
     <= used_bytes_swap_in x.2 + used_bytes_swap_out x.1.
Proof.
  intros Hp Hinv Hsum H. unfold plan_swap_out in H.
  destruct (schedule_swap_out x.1 x.2 fid) as [y| |] eqn:Hy; cbn [bind] in H; [|done..].
  apply (schedule_swap_out_inv s0) in Hy as (Hinv' & Hsum' & _); [|done..].
  injection H as <-. cbn. split; [|done]. destruct Hinv'. by constructor.
Qed.

Lemma plan_wait_inv s0 fid x x' :
  planner_inv s0 x.1 x.2 ->
  plan_wait fid x = Ok x' ->
  planner_inv s0 x'.1 x'.2
  /\ used_bytes_swap_out x'.1 <= max_bytes_swap_out s0
  /\ x'.2 = x.2.
Proof.
  intros Hinv H. unfold plan_wait, schedule_wait_for_swap_out in H.
  destruct (schedule_wait_for_swap_out_loop _ _) as [y| |] eqn:Hy; cbn [bind] in H;
    [|done..].
  apply schedule_wait_for_swap_out_loop_same in Hy as (Hsame & Hout & Hmax).
  cbn [fst] in *. injection H as <-. cbn.
  destruct Hsame as (?&?&?&?&?&?). destruct Hinv.
  split; [constructor; cbn; try congruence; auto|]. split; [congruence|done].
Qed.

Lemma schedule_preclear_static s : static <$> order (schedule_preclear s) = static <$> order s.
Proof.
  apply list_eq. intros j. rewrite !list_lookup_fmap, schedule_preclear_order.
  destruct (order s !! j) as [r|]; [|done]. cbn. f_equal.
  unfold preclear_mark. by destruct (RecType.tag r).
Qed.

Lemma resident_bytes_empty s : resident_bytes s ∅ = 0.
Proof.
  unfold resident_bytes. induction (device_ids s) as [|id l IH]; [done|].
  rewrite sum_with_cons, IH. unfold resident_bytes_of.
  by destruct (first_use s id).
Qed.

Lemma schedule_start_inv s :
  plannable s -> planner_inv s (schedule_start s).1 (schedule_start s).2.
Proof.
  intros Hp. pose proof (plannable_budget s Hp). pose proof (plannable_half s Hp) as Hh.
  assert (0 <= max_bytes_swap_in s / 2 <= max_bytes_swap_in s).
  { split; [apply Z.div_pos; lia|]. apply Z.div_le_upper_bound; lia. }
  constructor; cbn; try done.
  - apply schedule_preclear_static.
  - intros id d. unfold counts_of. rewrite lookup_empty. cbn. rewrite lookup_empty.
    by intros [? ?].
  - by rewrite resident_bytes_empty.
  - lia.
  - by rewrite (plannable_init s Hp).
Qed.

(** What holds at every point of the loop of [schedule]. *)
Lemma planning_inv s pt x :
  plannable s -> planning s pt x ->
  planner_inv s x.1 x.2
  /\ match pt with
     | after_swap_out _ =>
       used_bytes_swap_in x.2 + used_bytes_swap_out x.1 <= max_bytes_swap_in s
     | _ => used_bytes_swap_out x.1 <= max_bytes_swap_out s
     end.
Proof.
  intros Hp Hpl. induction Hpl as [|fid x x' _ [IH1 IH2] _ H|fid x x' _ [IH1 IH2] H
                                   |fid x x' _ [IH1 IH2] H].
  - split; [by apply schedule_start_inv|]. cbn. rewrite (plannable_init s Hp).
    rewrite (plannable_half s Hp). apply Z.div_pos; [|lia].
    by destruct (plannable_budget s Hp).
  - apply (plan_swap_in_inv s) in H as [? Hout]; [|done..]. split; [done|]. by rewrite Hout.
  - pose proof (inv_cap _ _ _ IH1).
    apply (plan_swap_out_inv s) in H as [? ?]; [|done|done|lia]. split; [done|]. lia.
  - apply (plan_wait_inv s) in H as (? & ? & ?); done.
Qed.

(** C1, as amended: for a budget B below [2^63] and a trace that uses every
    array on the device in one dtype and one size, at the top of every
    round of the loop of [schedule], after [schedule_swap_in] and after
    [schedule_swap_out], [used_bytes_swap_in + used_bytes_swap_out <= B],
    neither has wrapped, and [used_bytes_swap_in <= B - B/2]; at the top of
    a round and after [schedule_swap_in], so once
    [schedule_wait_for_swap_out] has drained, [used_bytes_swap_out <= B/2].
    Between [schedule_swap_out] and the drain [used_bytes_swap_out] is
    bounded by B only. *)
Theorem C1_budget_safety s pt x :
  plannable s ->
  planning s pt x ->
  0 <= used_bytes_swap_in x.2 <= max_bytes_swap_in s - max_bytes_swap_out s
  /\ 0 <= used_bytes_swap_out x.1
  /\ used_bytes_swap_in x.2 + used_bytes_swap_out x.1 <= max_bytes_swap_in s
  /\ ((forall fid, pt <> after_swap_out fid) ->
      used_bytes_swap_out x.1 <= max_bytes_swap_out s).
Proof.
  intros Hp Hpl. destruct (planning_inv s pt x Hp Hpl) as [Hinv Hpt].
  pose proof (planner_inv_budget _ _ _ Hp Hinv) as (Hin & _ & _ & _).
  pose proof (inv_cap _ _ _ Hinv). pose proof (inv_out _ _ _ Hinv).
  split; [lia|]. split; [done|]. destruct pt as [fid|fid|fid].
  - split; [lia|]. done.
  - split; [lia|]. done.
  - split; [done|]. intros Hne. by destruct (Hne fid).
Qed.

(** ** The host pins of the prefetch scan *)

Lemma on_host_static s s0 r r0 :
  device_ctx s = device_ctx s0 -> host_ctx s = host_ctx s0 -> static r = static r0 ->
  on_host s r <-> on_host s0 r0.
Proof. unfold on_host, static. intros -> -> [= -> _ _ _ ->]. done. Qed.

Lemma flag_insert (m : gmap Z bool) k b k' :
  flag (<[k := b]> m) k' = if decide (k = k') then b else flag m k'.
Proof.
  unfold flag. destruct (decide (k = k')) as [->|Hne].
  - by rewrite lookup_insert_eq.
  - by rewrite lookup_insert_ne.
Qed.

Lemma host_use_split s a b c id :
  a <= b <= c -> host_use s a c id <-> host_use s a b id \/ host_use s b c id.
Proof.
  intros Hb. split.
  - intros (j & r & Hj & H). destruct (decide (j < b)); [left|right]; exists j, r;
      (split; [lia|done]).
  - intros [(j & r & Hj & H)|(j & r & Hj & H)]; exists j, r; (split; [lia|done]).
Qed.

Lemma host_use_one s a id :
  0 <= a ->
  host_use s a (a + 1) id
  <-> exists r, order s !! Z.to_nat a = Some r /\ on_host s r /\ RecType.synced_array_id r = id.
Proof.
  intros Ha. split.
  - intros (j & r & Hj & H). assert (j = a) as -> by lia. by exists r.
  - intros (r & H). exists a, r. split; [lia|done].
Qed.

(** One round of the scan, read for the pins and the schedule. *)
Lemma schedule_swap_in_body_pins s0 x f :
  same_plan_input s0 (si_this x) ->
  schedule_swap_in_body x = Ok f ->
  match f with
  | Break y => y = x
  | Continue y =>
    exists r0,
      0 <= head (si_queue x)
      /\ order s0 !! Z.to_nat (head (si_queue x)) = Some r0
      /\ head (si_queue y) = head (si_queue x) + 1
      /\ same_plan_input s0 (si_this y)
      /\ (forall id, flag (host_uses_this_synced_array y) id = true
                     <-> flag (host_uses_this_synced_array x) id = true
                         \/ (on_host s0 r0 /\ RecType.synced_array_id r0 = id))
      /\ (si_schedule y = si_schedule x
          \/ (si_schedule y = si_schedule x ++ [head (si_queue x)]
              /\ on_device s0 r0
              /\ flag (host_uses_this_synced_array x) (RecType.synced_array_id r0) = false))
  end.
Proof.
  intros Hsame H. unfold schedule_swap_in_body in H.
  destruct (at_ (order (si_this x)) (head (si_queue x))) as [r| |] eqn:Hr;
    cbn [bind] in H; [|done..].
  apply at_Ok in Hr as [Hh Hr].
  pose proof Hsame as (Hst & Hdc & Hhc & _).
  destruct (static_lookup _ _ _ _ Hst Hr) as (r0 & Hr0 & Hst0).
  pose proof (on_device_static _ _ _ _ Hdc Hst0) as Hdev.
  pose proof (on_host_static _ _ _ _ Hdc Hhc Hst0) as Hhost.
  assert (Hid : RecType.synced_array_id r = RecType.synced_array_id r0).
  { unfold static in Hst0. by injection Hst0. }
  destruct (RecType.tag r) eqn:Htag.
  - destruct (decide (array_class (RecType.ctx r) = array_class (device_ctx (si_this x))))
      as [Hcls|Hcls].
    + assert (Hnh : ~ on_host s0 r0).
      { intros Hho. apply Hhost in Hho as (_ & ? & _). done. }
      cbv zeta in H. destruct (decide (_ > _)); [by injection H as <-|].
      destruct (bool_decide _ && negb _) eqn:Hfetch.
      * destruct (cancel_swap_out _ _) as [s'| |] eqn:Hs'; cbn [bind] in H; [|done..].
        injection H as <-. cbn. exists r0.
        split; [done|]. split; [done|]. split; [done|]. split; [|split].
        -- apply cancel_swap_out_same in Hs' as [Hs' _].
           by apply (same_plan_input_trans _ (si_this x)).
        -- intros id. split; [by left|]. by intros [?|[? _]].
        -- right. split; [done|]. split; [by apply Hdev|].
           apply andb_true_iff in Hfetch as [_ Hf]. rewrite <- Hid.
           by apply negb_true_iff in Hf.
      * cbn [bind] in H. injection H as <-. cbn. exists r0.
        split; [done|]. split; [done|]. split; [done|]. split; [done|]. split; [|by left].
        intros id. split; [by left|]. by intros [?|[? _]].
    + destruct (decide (array_class (RecType.ctx r) = array_class (host_ctx (si_this x))));
        [|done].
      injection H as <-. cbn. exists r0.
      split; [done|]. split; [done|]. split; [done|]. split; [done|]. split; [|by left].
      intros id. rewrite flag_insert. split.
      * destruct (decide _) as [Heq|Hne]; [|by left].
        intros _. right. split; [by apply Hhost|congruence].
      * intros [Hf|[_ Hi]]; [by destruct (decide _)|].
        rewrite decide_True by congruence. done.
  - injection H as <-. cbn. exists r0.
    split; [done|]. split; [done|]. split; [done|]. split; [done|]. split; [|by left].
    intros id. split; [by left|]. intros [?|[Hg _]]; [done|].
    apply Hhost in Hg as [Hg _]. congruence.
Qed.

(** The scan from [x] on: the pins it ends with are those it started with
    and the arrays whose GETCAST to the host it has passed; what it appends
    to the schedule are device records that no pin and no such GETCAST
    precedes. *)
Lemma schedule_swap_in_loop_pins s0 fuel :
  forall x y,
    same_plan_input s0 (si_this x) ->
    schedule_swap_in_loop fuel x = Ok y ->
    same_plan_input s0 (si_this y)
    /\ head (si_queue x) <= head (si_queue y)
    /\ (forall id, flag (host_uses_this_synced_array y) id = true
                   <-> flag (host_uses_this_synced_array x) id = true
                       \/ host_use s0 (head (si_queue x)) (head (si_queue y)) id)
    /\ exists l,
         si_schedule y = si_schedule x ++ l
         /\ forall j, j ∈ l ->
              head (si_queue x) <= j < head (si_queue y)
              /\ exists r, order s0 !! Z.to_nat j = Some r /\ on_device s0 r
                   /\ flag (host_uses_this_synced_array x) (RecType.synced_array_id r) = false
                   /\ ~ host_use s0 (head (si_queue x)) j (RecType.synced_array_id r).
Proof.
  assert (Hstop : forall x : SwapIn,
    same_plan_input s0 (si_this x) ->
    same_plan_input s0 (si_this x)
    /\ head (si_queue x) <= head (si_queue x)
    /\ (forall id, flag (host_uses_this_synced_array x) id = true
                   <-> flag (host_uses_this_synced_array x) id = true
                       \/ host_use s0 (head (si_queue x)) (head (si_queue x)) id)
    /\ exists l,
         si_schedule x = si_schedule x ++ l
         /\ forall j, j ∈ l ->
              head (si_queue x) <= j < head (si_queue x)
              /\ exists r, order s0 !! Z.to_nat j = Some r /\ on_device s0 r
                   /\ flag (host_uses_this_synced_array x) (RecType.synced_array_id r) = false
                   /\ ~ host_use s0 (head (si_queue x)) j (RecType.synced_array_id r)).
  { intros x Hsame. split; [done|]. split; [lia|]. split.
    - intros id. split; [by left|]. intros [?|(j & r & ? & _)]; [done|lia].
    - exists []. split; [by rewrite app_nil_r|]. by intros j ?%not_elem_of_nil. }
  induction fuel as [|fuel IH]; intros x y Hsame H; cbn in H.
  - destruct (decide _); injection H as <-; by apply Hstop.
  - destruct (decide _); [|injection H as <-; by apply Hstop].
    destruct (schedule_swap_in_body x) as [f| |] eqn:Hb; cbn [bind] in H; [|done..].
    pose proof (schedule_swap_in_body_pins s0 x f Hsame Hb) as Hf.
    destruct f as [x'|x']; [|subst x'; injection H as <-; by apply Hstop].
    destruct Hf as (r0 & Hh & Hr0 & Hhead & Hsame' & Hpin & Hsched).
    destruct (IH x' y Hsame' H) as (Hsamey & Hle & Hpiny & l' & Hl & Hin).
    assert (Hone : forall id,
      host_use s0 (head (si_queue x)) (head (si_queue y)) id
      <-> (on_host s0 r0 /\ RecType.synced_array_id r0 = id)
          \/ host_use s0 (head (si_queue x')) (head (si_queue y)) id).
    { intros id. rewrite (host_use_split s0 _ (head (si_queue x) + 1)) by lia.
      rewrite host_use_one by done. rewrite Hhead. split.
      - intros [(r & Hr & ?)|?]; [left|by right]. by assert (r = r0) as -> by congruence.
      - intros [?|?]; [left|by right]. by exists r0. }
    split; [done|]. split; [lia|]. split.
    + intros id. rewrite Hpiny, Hpin, Hone. tauto.
    + assert (Hold : forall j, j ∈ l' ->
        head (si_queue x) <= j < head (si_queue y)
        /\ exists r, order s0 !! Z.to_nat j = Some r /\ on_device s0 r
             /\ flag (host_uses_this_synced_array x) (RecType.synced_array_id r) = false
             /\ ~ host_use s0 (head (si_queue x)) j (RecType.synced_array_id r)).
      { intros j Hj. destruct (Hin j Hj) as (Hrange & r & Hr & Hdev & Hflag & Hno).
        split; [lia|]. exists r. split; [done|]. split; [done|].
        assert (Hnot : ~ (flag (host_uses_this_synced_array x) (RecType.synced_array_id r) = true
                          \/ (on_host s0 r0
                              /\ RecType.synced_array_id r0 = RecType.synced_array_id r))).
        { rewrite <- Hpin. by rewrite Hflag. }
        split.
        { destruct (flag (host_uses_this_synced_array x) (RecType.synced_array_id r))
            eqn:Hfx; [|done].
          exfalso. apply Hnot. by left. }
        rewrite (host_use_split s0 _ (head (si_queue x) + 1)) by lia.
        rewrite host_use_one by done. rewrite <- Hhead.
        intros [(r' & Hr' & ?)|?]; [|done]. apply Hnot. right.
        by assert (r' = r0) as -> by congruence. }
      destruct Hsched as [Hs|(Hs & Hdev0 & Hflag0)].
      * exists l'. split; [congruence|done].
      * exists (head (si_queue x) :: l'). split.
        { rewrite Hl, Hs, <- app_assoc. done. }
        intros j [->|Hj]%elem_of_cons; [|by apply Hold].
        split; [lia|]. exists r0. split; [done|]. split; [done|]. split; [done|].
        intros (i & _ & ? & _). lia.
Qed.

(** C8, as amended: the pins are a local of one call of [schedule_swap_in].
    When the call returns, an array is pinned exactly if the call itself
    has scanned a GETCAST of it to the host (between the [head] it was
    given and the [head] it leaves); and every record the call schedules
    for prefetch is a GETCAST to the device whose array has no GETCAST to
    the host earlier in the same scan.  Nothing of a pin outlives the call
    and nothing erases one during it. *)
Theorem C8_host_pin_is_local_to_one_scan s q y :
  schedule_swap_in s q = Ok y ->
  (forall id, flag (host_uses_this_synced_array y) id = true
              <-> host_use s (head q) (head (si_queue y)) id)
  /\ (forall j, j ∈ si_schedule y ->
        head q <= j < head (si_queue y)
        /\ exists r, order s !! Z.to_nat j = Some r /\ on_device s r
             /\ ~ host_use s (head q) j (RecType.synced_array_id r)).
Proof.
  intros H. unfold schedule_swap_in in H.
  apply (schedule_swap_in_loop_pins s) in H; [|apply same_plan_input_refl].
  cbn in H. destruct H as (_ & _ & Hpin & l & -> & Hin). split.
  - intros id. rewrite Hpin. unfold flag. rewrite lookup_empty. cbn. split; [|by right].
    by intros [?|?].
  - intros j Hj. destruct (Hin j Hj) as (? & r & ? & ? & _ & ?). split; [done|]. by exists r.
Qed.

(** ** The window of the queue *)

Lemma scanned_uses_S s id d h r :
  0 <= h -> order s !! Z.to_nat h = Some r ->
  scanned_uses s id d (h + 1) = scanned_uses s id d h + uses s id d r.
Proof.
  intros Hh Hr. unfold scanned_uses.
  replace (Z.to_nat (h + 1)) with (S (Z.to_nat h)) by lia.
  rewrite (take_S_r _ _ _ Hr), sum_with_app. cbn. lia.
Qed.

Lemma take_past {A} (l : list A) (n : nat) : l !! n = None -> take (S n) l = take n l.
Proof. intros H%lookup_ge_None. by rewrite !take_ge by lia. Qed.

Lemma scanned_bytes_mono s a b :
  plannable s -> 0 <= a <= b -> scanned_bytes s a <= scanned_bytes s b.
Proof.
  intros Hp Hab. unfold scanned_bytes.
  rewrite <- (take_drop (Z.to_nat a) (take (Z.to_nat b) (order s))).
  rewrite take_take, sum_with_app. replace (Z.to_nat a `min` Z.to_nat b)%nat with (Z.to_nat a) by lia.
  assert (0 <= sum_with (device_bytes s) (drop (Z.to_nat a) (take (Z.to_nat b) (order s))));
    [|lia].
  apply sum_with_nonneg. intros r Hr. apply device_bytes_nonneg; [done|].
  apply list_elem_of_lookup in Hr as [i Hi]. rewrite lookup_drop in Hi.
  apply lookup_take_Some in Hi as [Hi _]. by eapply list_elem_of_lookup_2.
Qed.

(** The bytes the counts of a window hold on the device are at most the
    bytes of the device records of the window. *)
Lemma window_resident_bytes s t n :
  plannable s -> 0 <= t ->
  sum_with
    (fun id =>
       match first_use s id with
       | Some r =>
         if bool_decide (0 < scanned_uses s id (RecType.dtype r) (t + Z.of_nat n)
                             - scanned_uses s id (RecType.dtype r) t)
         then bytes_of r else 0
       | None => 0
       end) (device_ids s)
  <= scanned_bytes s (t + Z.of_nat n) - scanned_bytes s t.
Proof.
  intros Hp Ht. induction n as [|n IH].
  - rewrite Z.add_0_r, Z.sub_diag.
    rewrite (sum_with_ext _ (fun _ => 0)).
    + induction (device_ids s) as [|a l IHl]; [done|]. rewrite sum_with_cons. lia.
    + intros id _. destruct (first_use s id); [|done].
      rewrite Z.sub_diag. by rewrite bool_decide_eq_false_2 by lia.
  - replace (t + Z.of_nat (S n)) with (t + Z.of_nat n + 1) by lia.
    set (h := t + Z.of_nat n) in *.
    destruct (order s !! Z.to_nat h) as [r|] eqn:Hr.
    + rewrite (scanned_bytes_S s h r) by (done || lia).
      assert (Hin : r ∈ order s) by by eapply list_elem_of_lookup_2.
      unfold device_bytes. destruct (decide (on_device s r)) as [Hdev|Hdev].
      * destruct (first_use_Some s r Hin Hdev) as (r' & Hf & Hr' & Hdev' & Hid).
        destruct (plannable_one_type s Hp r' r) as [Hd Hs]; try done.
        assert (Hb : bytes_of r' = bytes_of r) by (unfold bytes_of; by rewrite Hd, Hs).
        pose proof (plannable_bytes s Hp r Hin Hdev) as Hpos.
        match goal with |- sum_with ?g _ <= _ => set (G := g) end.
        match type of IH with sum_with ?f _ <= _ => set (F := f) in * end.
        rewrite (sum_with_update F G (device_ids s) (RecType.synced_array_id r)).
        -- assert (0 <= F (RecType.synced_array_id r)).
           { unfold F. rewrite Hf. case_bool_decide; lia. }
           assert (G (RecType.synced_array_id r) <= bytes_of r).
           { unfold G. rewrite Hf. case_bool_decide; lia. }
           lia.
        -- apply NoDup_remove_dups.
        -- by apply device_ids_elem.
        -- intros id _ Hne. unfold G, F. destruct (first_use s id) as [r1|]; [|done].
           rewrite (scanned_uses_S s id _ h r) by (done || lia).
           unfold uses. rewrite decide_False by (intros (_ & ? & _); congruence).
           by rewrite Z.add_0_r.
      * etrans; [|etrans; [apply IH|lia]]. apply Z.eq_le_incl, sum_with_ext.
        intros id _. destruct (first_use s id) as [r1|]; [|done].
        rewrite (scanned_uses_S s id _ h r) by (done || lia).
        unfold uses. rewrite decide_False by tauto. by rewrite Z.add_0_r.
    + unfold scanned_bytes, scanned_uses in *.
      replace (Z.to_nat (h + 1)) with (S (Z.to_nat h)) by lia.
      rewrite (take_past _ _ Hr). exact IH.
Qed.

Lemma window_counts_bytes s t q :
  plannable s -> 0 <= t <= head q -> window_counts s t q ->
  resident_bytes s (synced_array_counts q) <= scanned_bytes s (head q) - scanned_bytes s t.
Proof.
  intros Hp Ht Hw.
  pose proof (window_resident_bytes s t (Z.to_nat (head q - t)) Hp) as H.
  replace (t + Z.of_nat (Z.to_nat (head q - t))) with (head q) in H by lia.
  etrans; [|apply H; lia]. apply Z.eq_le_incl, sum_with_ext.
  intros id _. unfold resident_bytes_of. destruct (first_use s id) as [r|]; [|done].
  by rewrite Hw.
Qed.

Lemma planner_inv_input s0 s q : planner_inv s0 s q -> same_plan_input s0 s.
Proof. intros []. by repeat split. Qed.

Lemma uses_static s s0 id d r r0 :
  device_ctx s = device_ctx s0 -> static r = static r0 ->
  uses s id d r = uses s0 id d r0.
Proof.
  intros Hdc Hst. unfold uses.
  pose proof (on_device_static s s0 r r0 Hdc Hst) as Hdev.
  unfold static in Hst. injection Hst as _ Hid _ Hd _.
  rewrite Hid, Hd. destruct (decide _) as [H|H]; destruct (decide _) as [H'|H']; tauto.
Qed.

(** One round of the prefetch scan, read for the counts. *)
Lemma schedule_swap_in_body_counts s0 x f :
  same_plan_input s0 (si_this x) ->
  schedule_swap_in_body x = Ok f ->
  exists r0,
    0 <= head (si_queue x)
    /\ order s0 !! Z.to_nat (head (si_queue x)) = Some r0
    /\ match f with
       | Break y => y = x
       | Continue y =>
         head (si_queue y) = head (si_queue x) + 1
         /\ forall id d,
              count (synced_array_counts (si_queue y)) id d
              = count (synced_array_counts (si_queue x)) id d + uses s0 id d r0
       end.
Proof.
  intros Hsame H. unfold schedule_swap_in_body in H.
  destruct (at_ (order (si_this x)) (head (si_queue x))) as [r| |] eqn:Hr;
    cbn [bind] in H; [|done..].
  apply at_Ok in Hr as [Hh Hr].
  pose proof Hsame as (Hst & Hdc & Hhc & _).
  destruct (static_lookup _ _ _ _ Hst Hr) as (r0 & Hr0 & Hst0).
  exists r0. split; [done|]. split; [done|].
  assert (Huses : forall id d, uses (si_this x) id d r = uses s0 id d r0).
  { intros id d. by apply uses_static. }
  destruct (RecType.tag r) eqn:Htag.
  - destruct (decide (array_class (RecType.ctx r) = array_class (device_ctx (si_this x))))
      as [Hcls|Hcls].
    + cbv zeta in H. destruct (decide (_ > _)); [by injection H as <-|].
      destruct (if bool_decide _ && negb _ then _ else _) as [s'| |];
        cbn [bind] in H; [|done..].
      injection H as <-. cbn. split; [done|]. intros id d.
      rewrite count_put_count, <- Huses. unfold uses, on_device.
      destruct (decide (id = _ /\ d = _)) as [[-> ->]|Hne].
      * by rewrite decide_True.
      * rewrite decide_False; [lia|]. intros (_ & ? & ?). apply Hne. done.
    + destruct (decide (array_class (RecType.ctx r) = array_class (host_ctx (si_this x))));
        [|done].
      injection H as <-. cbn. split; [done|]. intros id d. rewrite <- Huses.
      unfold uses, on_device. rewrite decide_False; [lia|]. by intros ([_ ?] & _).
  - injection H as <-. cbn. split; [done|]. intros id d. rewrite <- Huses.
    unfold uses, on_device. rewrite decide_False; [lia|]. intros ([? _] & _). congruence.
Qed.

(** Why the scan has returned: the trace is scanned to its end, or the
    round at [head] leaves on the budget test, or the rounds are used up. *)
Lemma schedule_swap_in_loop_window s0 t fuel :
  forall x y,
    same_plan_input s0 (si_this x) ->
    window_counts s0 t (si_queue x) ->
    schedule_swap_in_loop fuel x = Ok y ->
    window_counts s0 t (si_queue y)
    /\ head (si_queue x) <= head (si_queue y)
    /\ (Z.of_nat (length (order s0)) <= head (si_queue y)
        \/ (exists y', schedule_swap_in_body y = Ok (Break y'))
        \/ head (si_queue x) + Z.of_nat fuel <= head (si_queue y)).
Proof.
  induction fuel as [|fuel IH]; intros x y Hsame Hw H; cbn [schedule_swap_in_loop] in H.
  - destruct (decide _); injection H as <-; (split; [done|]); (split; [lia|]); right; right; lia.
  - pose proof Hsame as (Hst & _). apply static_length in Hst.
    destruct (decide _) as [Hlt|Hge].
    2:{ injection H as <-. split; [done|]. split; [lia|]. left. lia. }
    destruct (schedule_swap_in_body x) as [f| |] eqn:Hb; cbn [bind] in H; [|done..].
    destruct (schedule_swap_in_body_counts s0 x f Hsame Hb) as (r0 & Hh & Hr0 & Hf).
    destruct f as [x'|x'].
    + destruct Hf as [Hhead Hcount].
      pose proof (schedule_swap_in_body_pins s0 x _ Hsame Hb) as (_ & _ & _ & _ & Hsame' & _).
      destruct (IH x' y Hsame') as (Hw' & Hle & Hstop); [|done|].
      { intros id d. rewrite Hcount, Hw, Hhead, (scanned_uses_S s0 id d _ r0) by done. lia. }
      split; [done|]. split; [lia|].
      destruct Hstop as [?|[?|?]]; [by left|by right; left|right; right; lia].
    + subst x'. injection H as <-. split; [done|]. split; [lia|]. right. left. by exists x.
Qed.

(** The round that leaves on the budget test. *)
Lemma schedule_swap_in_body_break s0 x x' :
  plannable s0 ->
  planner_inv s0 (si_this x) (si_queue x) ->
  schedule_swap_in_body x = Ok (Break x') ->
  exists r0,
    order s0 !! Z.to_nat (head (si_queue x)) = Some r0
    /\ on_device s0 r0
    /\ used_bytes_swap_in (si_queue x) + bytes_of r0
       > max_bytes_swap_in s0 - max_bytes_swap_out s0.
Proof.
  intros Hp Hinv H. unfold schedule_swap_in_body in H.
  destruct (at_ (order (si_this x)) (head (si_queue x))) as [r| |] eqn:Hr;
    cbn [bind] in H; [|done..].
  apply at_Ok in Hr as [Hh Hr].
  destruct (static_lookup _ _ _ _ (inv_static _ _ _ Hinv) Hr) as (r0 & Hr0 & Hst).
  assert (Hin0 : r0 ∈ order s0) by by eapply list_elem_of_lookup_2.
  pose proof (planner_inv_budget _ _ _ Hp Hinv) as (Hin & Hcap & Hcapr & Hmo).
  pose proof (inv_cap _ _ _ Hinv) as Hle.
  pose proof (on_device_static _ _ _ _ (inv_device_ctx _ _ _ Hinv) Hst) as Hdev.
  destruct (RecType.tag r) eqn:Htag; [|done].
  destruct (decide (array_class (RecType.ctx r) = array_class (device_ctx (si_this x))))
    as [Hcls|Hcls].
  - assert (Hdev0 : on_device s0 r0) by by apply Hdev.
    pose proof (plannable_bytes s0 Hp r0 Hin0 Hdev0) as Hb.
    cbv zeta in H.
    change (RecType.size r * sizeof_dtype (RecType.dtype r)) with (bytes_of r) in H.
    rewrite (bytes_of_static _ _ Hst) in H.
    rewrite (wrap_small (bytes_of r0)) in H by lia.
    rewrite Hcap in H. rewrite (wrap_small (_ + _)) in H by lia.
    destruct (decide (used_bytes_swap_in (si_queue x) + bytes_of r0
                      > max_bytes_swap_in s0 - max_bytes_swap_out s0)) as [Hbig|Hfit].
    + by exists r0.
    + by destruct (if bool_decide _ && negb _ then _ else _).
  - by destruct (decide _).
Qed.

(** One round of the eviction scan, read for the counts. *)
Lemma schedule_swap_out_body_counts s0 i x y :
  same_plan_input s0 (so_this x) ->
  schedule_swap_out_body i x = Ok y ->
  same_plan_input s0 (so_this y)
  /\ head (so_queue y) = head (so_queue x)
  /\ exists r0,
       0 <= i /\ order s0 !! Z.to_nat i = Some r0
       /\ forall id d,
            count (synced_array_counts (so_queue y)) id d
            = count (synced_array_counts (so_queue x)) id d - uses s0 id d r0.
Proof.
  intros Hsame H. unfold schedule_swap_out_body in H.
  destruct (at_ (order (so_this x)) i) as [r| |] eqn:Hr; cbn [bind] in H; [|done..].
  apply at_Ok in Hr as [Hi Hr].
  pose proof Hsame as (Hst & Hdc & Hhc & Hmi & Hmo & He).
  destruct (static_lookup _ _ _ _ Hst Hr) as (r0 & Hr0 & Hst0).
  assert (Huses : forall id d, uses (so_this x) id d r = uses s0 id d r0).
  { intros id d. by apply uses_static. }
  destruct (RecType.tag r) eqn:Htag.
  - destruct (decide (array_class (RecType.ctx r) = array_class (device_ctx (so_this x))))
      as [Hcls|Hcls].
    + cbv zeta in H. injection H as <-. cbn [so_this so_queue head synced_array_counts].
      split; [|split; [done|]].
      * destruct (bool_decide _ && negb _); [|done].
        repeat split; cbn; try done. rewrite <- Hst. by apply (static_store _ _ r).
      * exists r0. split; [done|]. split; [done|]. intros id d.
        rewrite count_put_count, <- Huses. unfold uses, on_device.
        destruct (decide (id = _ /\ d = _)) as [[-> ->]|Hne].
        -- by rewrite decide_True.
        -- rewrite decide_False; [lia|]. intros (_ & ? & ?). apply Hne. done.
    + destruct (decide (array_class (RecType.ctx r) = array_class (host_ctx (so_this x))));
        [|done].
      injection H as <-. split; [done|]. split; [done|]. exists r0.
      split; [done|]. split; [done|]. intros id d. rewrite <- Huses.
      unfold uses, on_device. rewrite decide_False; [lia|]. by intros ([_ ?] & _).
  - injection H as <-. split; [done|]. split; [done|]. exists r0.
    split; [done|]. split; [done|]. intros id d. rewrite <- Huses.
    unfold uses, on_device. rewrite decide_False; [lia|]. intros ([? _] & _). congruence.
Qed.

(** ** The ends of the blocks *)

Lemma func_block_ends_at_inside s i e :
  0 <= i -> func_block_ends s !! Z.to_nat i = Some e -> func_block_ends_at s i = Ok e.
Proof. intros Hi He. unfold func_block_ends_at. by rewrite decide_True, He. Qed.

Lemma valid_ends_lookup s i :
  valid_ends s -> (i < length (func_block_ends s))%nat ->
  exists e, func_block_ends s !! i = Some e /\ 0 <= e <= Z.of_nat (length (order s)).
Proof.
  intros Hv Hi. destruct (lookup_lt_is_Some_2 (func_block_ends s) i Hi) as [e He].
  exists e. split; [done|].
  assert (e ∈ func_block_ends s) by by eapply list_elem_of_lookup_2.
  split; [by apply (ends_nonneg s Hv)|by apply (ends_inside s Hv)].
Qed.

Lemma valid_ends_length s : valid_ends s -> (0 < length (func_block_ends s))%nat.
Proof.
  intros Hv. pose proof (ends_nonempty s Hv).
  destruct (func_block_ends s); [done|cbn; lia].
Qed.

Lemma valid_ends_last_function s :
  valid_ends s -> last_function s = Z.of_nat (length (func_block_ends s)) - 1.
Proof.
  intros Hv. unfold last_function. apply wrap_small.
  pose proof (ends_size s Hv). pose proof (valid_ends_length s Hv). lia.
Qed.

Lemma valid_ends_block s fid :
  valid_ends s -> 0 <= fid < last_function s ->
  func_block_ends s !! Z.to_nat fid = Some (block_end s fid)
  /\ 0 <= block_start s fid <= block_end s fid
  /\ block_end s fid <= Z.of_nat (length (order s))
  /\ (0 < fid -> func_block_ends s !! Z.to_nat (fid - 1) = Some (block_start s fid)).
Proof.
  intros Hv Hfid. rewrite (valid_ends_last_function s Hv) in Hfid.
  destruct (valid_ends_lookup s (Z.to_nat fid) Hv) as (e & He & He0); [lia|].
  unfold block_start, block_end. rewrite He. cbn. split; [done|].
  destruct (decide (fid <= 0)) as [H0|H0].
  - split; [lia|]. split; [lia|]. intros ?. lia.
  - destruct (valid_ends_lookup s (Z.to_nat (fid - 1)) Hv) as (e' & He' & He0'); [lia|].
    rewrite He'. cbn. split; [|split; [lia|done]]. split; [lia|].
    apply (ends_sorted s Hv (Z.to_nat (fid - 1)) e' e He').
    by replace (S (Z.to_nat (fid - 1))) with (Z.to_nat fid) by lia.
Qed.

(** The rounds of the eviction scan of function [fid] are those of its
    block. *)
Lemma schedule_swap_out_rounds {X} (body : Z -> X -> result X) s0 s fid first x :
  valid_ends s0 -> func_block_ends s = func_block_ends s0 ->
  0 <= fid < last_function s0 ->
  func_block_ends_at s (fid - 1) = Ok first ->
  for_nat body (Z.to_nat (block_end s0 fid - wrap first)) (wrap first) x
  = for_nat body (Z.to_nat (block_end s0 fid - block_start s0 fid)) (block_start s0 fid) x.
Proof.
  intros Hv Hends Hfid Hfirst.
  destruct (valid_ends_block s0 fid Hv Hfid) as (He & Hse & Hlen & Hs).
  pose proof (order_size s0 Hv) as Hsize.
  destruct (decide (fid = 0)) as [->|Hpos].
  - assert (Hstart : block_start s0 0 = 0) by done. rewrite Hstart.
    destruct (ends_first s0 Hv) as [Hz|Ho].
    + assert (Hend : block_end s0 0 = 0).
      { unfold block_end. change (Z.to_nat 0) with 0%nat. by rewrite Hz. }
      pose proof (wrap_range first). rewrite Hend.
      by replace (Z.to_nat (0 - wrap first)) with 0%nat by lia.
    + unfold func_block_ends_at in Hfirst. rewrite decide_False in Hfirst by lia.
      change (0 - 1) with (-1) in Hfirst. rewrite Ho in Hfirst. by injection Hfirst as <-.
  - rewrite (func_block_ends_at_inside s (fid - 1) (block_start s0 fid)) in Hfirst
      by (lia || rewrite Hends; apply Hs; lia).
    injection Hfirst as <-. by rewrite wrap_small by lia.
Qed.

(** The eviction scan of function [fid] moves the window past its block. *)
Lemma schedule_swap_out_window s0 s q fid y :
  valid_ends s0 -> same_plan_input s0 s -> 0 <= fid < last_function s0 ->
  window_counts s0 (block_start s0 fid) q ->
  schedule_swap_out s q fid = Ok y ->
  window_counts s0 (block_end s0 fid) (so_queue y) /\ head (so_queue y) = head q.
Proof.
  intros Hv Hsame Hfid Hw H. unfold schedule_swap_out in H.
  pose proof Hsame as (_ & _ & _ & _ & _ & Hends).
  destruct (valid_ends_block s0 fid Hv Hfid) as (He & Hse & Hlen & Hs).
  destruct (func_block_ends_at s (fid - 1)) as [first| |] eqn:Hfirst; cbn [bind] in H;
    [|done..].
  rewrite (func_block_ends_at_inside s fid (block_end s0 fid)) in H
    by (lia || by rewrite Hends).
  cbn [bind] in H. rewrite for_loop_nat in H.
  rewrite (schedule_swap_out_rounds _ s0 s fid first _ Hv Hends Hfid Hfirst) in H.
  apply (for_nat_invariant
           (fun k z => same_plan_input s0 (so_this z)
                       /\ window_counts s0 k (so_queue z)
                       /\ head (so_queue z) = head q)) in H.
  - replace (block_start s0 fid + Z.of_nat (Z.to_nat (block_end s0 fid - block_start s0 fid)))
      with (block_end s0 fid) in H by lia.
    by destruct H as (_ & ? & ?).
  - intros k z z' Hk (Hsz & Hwz & Hhz) Hb.
    apply (schedule_swap_out_body_counts s0) in Hb
      as (Hsz' & Hh' & r0 & Hk0 & Hr0 & Hcount); [|done].
    split; [done|]. split; [|congruence].
    intros id d. rewrite Hcount, Hwz, Hh', (scanned_uses_S s0 id d k r0) by done. lia.
  - done.
Qed.

Lemma window_counts_start s : window_counts s 0 (schedule_start s).2.
Proof.
  intros id d. cbn. unfold count, counts_of. rewrite lookup_empty. cbn.
  rewrite lookup_empty. cbn. lia.
Qed.

(** The window at every point of the loop of [schedule]: the counts are
    those of the records between the eviction scan and [head], and [head]
    is not behind the eviction scan. *)
Lemma planning_window s pt x :
  plannable s -> valid_ends s -> planning s pt x ->
  window_counts s (front s pt) x.2
  /\ match pt with
     | at_top fid => 0 <= fid <= last_function s /\ block_start s fid <= head x.2
     | after_swap_in fid => 0 <= fid < last_function s /\ block_end s fid <= head x.2
     | after_swap_out fid => 0 <= fid < last_function s /\ block_end s fid <= head x.2
     end.
Proof.
  intros Hp Hv Hpl.
  induction Hpl as [|fid x x' Hpl [IHw [IHf IHh]] Hlt H|fid x x' Hpl [IHw [IHf IHh]] H
                    |fid x x' Hpl [IHw [IHf IHh]] H].
  - split; [apply window_counts_start|]. cbn.
    rewrite (valid_ends_last_function s Hv).
    pose proof (valid_ends_length s Hv) as H0.
    unfold block_start. rewrite decide_True by lia. lia.
  - cbn [front] in *.
    pose proof (planning_inv s _ _ Hp Hpl) as [Hinv _].
    unfold plan_swap_in in H.
    destruct (schedule_swap_in x.1 x.2) as [y| |] eqn:Hy; cbn [bind] in H; [|done..].
    pose proof (schedule_swap_in_inv s _ _ _ Hp Hinv Hy) as (Hinvy & _).
    unfold schedule_swap_in in Hy.
    apply (schedule_swap_in_loop_window s (block_start s fid)) in Hy
      as (Hwy & Hle & _); [|exact (planner_inv_input _ _ _ Hinv)|done].
    cbn [si_this si_queue] in Hle.
    destruct (valid_ends_block s fid Hv) as (He & _); [lia|].
    rewrite (func_block_ends_at_inside _ fid (block_end s fid)) in H
      by (lia || (cbn; by rewrite (inv_ends _ _ _ Hinvy))).
    cbn [bind] in H. destruct (decide _) as [|Hge]; [done|]. injection H as <-. cbn.
    split; [done|]. split; lia.
  - cbn [front] in *.
    pose proof (planning_inv s _ _ Hp Hpl) as [Hinv _].
    unfold plan_swap_out in H.
    destruct (schedule_swap_out x.1 x.2 fid) as [y| |] eqn:Hy; cbn [bind] in H; [|done..].
    apply (schedule_swap_out_window s) in Hy as [Hwy Hh];
      [|done|exact (planner_inv_input _ _ _ Hinv)|done|done].
    injection H as <-. cbn. split; [done|]. split; [done|]. by rewrite Hh.
  - cbn [front] in *. unfold plan_wait in H.
    destruct (schedule_wait_for_swap_out x.1) as [y| |]; cbn [bind] in H; [|done..].
    injection H as <-. cbn.
    assert (Hs : block_start s (fid + 1) = block_end s fid).
    { unfold block_start. rewrite decide_False by lia. f_equal. lia. }
    rewrite Hs. split; [done|]. split; [lia|done].
Qed.

(** A scan that returns with [head] inside the block of its function has
    left on the budget test, at a device record whose bytes, added to the
    bytes in the queue, exceed B - B/2 and are among those of the block. *)
Lemma schedule_swap_in_short s fid x y :
  plannable s -> valid_ends s ->
  planning s (at_top fid) x -> fid < last_function s ->
  schedule_swap_in x.1 x.2 = Ok y ->
  head (si_queue y) < block_end s fid ->
  exists r,
    order s !! Z.to_nat (head (si_queue y)) = Some r
    /\ on_device s r
    /\ used_bytes_swap_in (si_queue y) + bytes_of r
       > max_bytes_swap_in s - max_bytes_swap_out s
    /\ used_bytes_swap_in (si_queue y) + bytes_of r <= block_bytes s fid.
Proof.
  intros Hp Hv Hpl Hlt Hy Hshort.
  pose proof (planning_inv s _ _ Hp Hpl) as [Hinv _].
  pose proof (planning_window s _ _ Hp Hv Hpl) as (Hw & Hfid & Hstart). cbn [front] in Hw.
  pose proof (schedule_swap_in_inv s _ _ _ Hp Hinv Hy) as (Hinvy & _).
  destruct (valid_ends_block s fid Hv) as (He & Hse & Hlen & _); [lia|].
  unfold schedule_swap_in in Hy.
  apply (schedule_swap_in_loop_window s (block_start s fid)) in Hy
    as (Hwy & Hle & Hstop); [|exact (planner_inv_input _ _ _ Hinv)|done].
  cbn [si_this si_queue] in Hle, Hstop.
  pose proof (static_length _ _ (inv_static _ _ _ Hinv)) as Hlen'.
  pose proof (inv_head _ _ _ Hinv) as Hh0.
  destruct Hstop as [Hend|[[y' Hbreak]|Hfuel]]; [lia| |lia].
  destruct (schedule_swap_in_body_break s y y' Hp Hinvy Hbreak) as (r & Hr & Hdev & Hbig).
  exists r. split; [done|]. split; [done|]. split; [done|].
  pose proof (window_counts_bytes s (block_start s fid) (si_queue y) Hp) as Hres.
  rewrite <- (inv_resident _ _ _ Hinvy) in Hres.
  pose proof (scanned_bytes_S s (head (si_queue y)) r) as HS.
  unfold device_bytes in HS. rewrite decide_True in HS by done.
  pose proof (scanned_bytes_mono s (head (si_queue y) + 1) (block_end s fid) Hp).
  specialize (Hres ltac:(lia) Hwy). specialize (HS ltac:(lia) Hr).
  unfold block_bytes. lia.
Qed.

(** ** The errors of the planner *)

Lemma at_no_error {A} (v : list A) i e : at_ v i <> Err e.
Proof. unfold at_. destruct (decide _); [|done]. by destruct (v !! _). Qed.

Lemma func_block_ends_at_no_error s i e : func_block_ends_at s i <> Err e.
Proof.
  unfold func_block_ends_at. destruct (if decide _ then _ else _); [done|].
  by destruct (oob i).
Qed.

Lemma bind_Err {A B} (m : result A) (k : A -> result B) e :
  bind m k = Err e -> m = Err e \/ exists a, m = Ok a /\ k a = Err e.
Proof. destruct m as [a|e'|]; cbn; [|intros [= ->]; by left|done]. right. by exists a. Qed.

Lemma cancel_swap_out_no_error s id e : cancel_swap_out s id <> Err e.
Proof.
  unfold cancel_swap_out. destruct (flag _ _); [|done].
  destruct (swapped_out_r s !! id) as [j|]; [|done].
  intros [H|(a & _ & H)]%bind_Err; [by apply at_no_error in H|done].
Qed.

Lemma schedule_swap_in_body_no_memory x :
  schedule_swap_in_body x <> Err error_code.memory.
Proof.
  unfold schedule_swap_in_body.
  intros [H|(r & _ & H)]%bind_Err; [by apply at_no_error in H|].
  destruct (RecType.tag r); [|done].
  destruct (decide _); [|by destruct (decide _)].
  cbv zeta in H. destruct (decide _); [done|].
  apply bind_Err in H as [H|(a & _ & H)]; [|done].
  destruct (bool_decide _ && negb _); [|done].
  by apply cancel_swap_out_no_error in H.
Qed.

Lemma schedule_swap_in_loop_no_memory fuel :
  forall x, schedule_swap_in_loop fuel x <> Err error_code.memory.
Proof.
  induction fuel as [|fuel IH]; intros x; cbn [schedule_swap_in_loop].
  - by destruct (decide _).
  - destruct (decide _); [|done].
    intros [H|(f & _ & H)]%bind_Err; [by apply schedule_swap_in_body_no_memory in H|].
    destruct f as [x'|x']; [by apply IH in H|done].
Qed.

Lemma schedule_swap_out_body_no_memory i x :
  schedule_swap_out_body i x <> Err error_code.memory.
Proof.
  unfold schedule_swap_out_body.
  intros [H|(r & _ & H)]%bind_Err; [by apply at_no_error in H|].
  destruct (RecType.tag r); [|done].
  destruct (decide _); [done|]. by destruct (decide _).
Qed.

Lemma schedule_swap_out_no_memory s q fid :
  schedule_swap_out s q fid <> Err error_code.memory.
Proof.
  unfold schedule_swap_out.
  intros [H|(first & _ & H)]%bind_Err; [by apply func_block_ends_at_no_error in H|].
  apply bind_Err in H as [H|(last & _ & H)]; [by apply func_block_ends_at_no_error in H|].
  rewrite for_loop_nat in H. apply for_nat_error in H as (k & y & _ & _ & Hb).
  by apply schedule_swap_out_body_no_memory in Hb.
Qed.

Lemma schedule_wait_for_swap_out_impl_no_error x e :
  schedule_wait_for_swap_out_impl x <> Err e.
Proof.
  destruct x as [s l]. unfold schedule_wait_for_swap_out_impl.
  intros [H|(r & _ & H)]%bind_Err; [by apply at_no_error in H|].
  by destruct (RecType.swapped_out r).
Qed.

Lemma schedule_wait_for_swap_out_loop_no_error fuel e :
  forall x, schedule_wait_for_swap_out_loop fuel x <> Err e.
Proof.
  induction fuel as [|fuel IH]; intros x; cbn [schedule_wait_for_swap_out_loop].
  - by destruct (decide _).
  - destruct (decide _); [|done].
    intros [H|(x' & _ & H)]%bind_Err;
      [by apply schedule_wait_for_swap_out_impl_no_error in H|by apply IH in H].
Qed.

Lemma schedule_wait_for_all_swap_out_loop_no_error fuel e :
  forall x, schedule_wait_for_all_swap_out_loop fuel x <> Err e.
Proof.
  induction fuel as [|fuel IH]; intros x; cbn [schedule_wait_for_all_swap_out_loop].
  - by destruct (decide _).
  - destruct (decide _); [|done].
    intros [H|(x' & _ & H)]%bind_Err;
      [by apply schedule_wait_for_swap_out_impl_no_error in H|by apply IH in H].
Qed.

(** [plan_swap_in] is where [schedule] raises [error_code::memory]. *)
Lemma plan_swap_in_memory fid x :
  plan_swap_in fid x = Err error_code.memory
  <-> exists y e, schedule_swap_in x.1 x.2 = Ok y
                  /\ func_block_ends_at (si_this y) fid = Ok e
                  /\ head (si_queue y) < e.
Proof.
  unfold plan_swap_in. split.
  - intros [H|(y & Hy & H)]%bind_Err; [by apply schedule_swap_in_loop_no_memory in H|].
    change (func_block_ends_at (put_swap_in_schedule _ (si_this y)) fid)
      with (func_block_ends_at (si_this y) fid) in H.
    apply bind_Err in H as [H|(e & He & H)]; [by apply func_block_ends_at_no_error in H|].
    destruct (decide _); [|done]. by exists y, e.
  - intros (y & e & -> & He & Hlt). cbn [bind].
    change (func_block_ends_at (put_swap_in_schedule _ (si_this y)) fid)
      with (func_block_ends_at (si_this y) fid).
    rewrite He. cbn [bind]. by rewrite decide_True.
Qed.

Lemma schedule_round_memory fid x :
  schedule_round fid x = Err error_code.memory
  <-> plan_swap_in fid x = Err error_code.memory.
Proof.
  unfold schedule_round. split; [|by intros ->].
  intros [H|(x1 & _ & H)]%bind_Err; [done|]. exfalso.
  apply bind_Err in H as [H|(x2 & _ & H)].
  - unfold plan_swap_out in H.
    apply bind_Err in H as [H|(y & _ & H)]; [by apply schedule_swap_out_no_memory in H|done].
  - unfold plan_wait, schedule_wait_for_swap_out in H.
    apply bind_Err in H as [H|(y & _ & H)]; [|done].
    by apply schedule_wait_for_swap_out_loop_no_error in H.
Qed.

Lemma schedule_memory s :
  schedule s = Err error_code.memory
  <-> for_nat schedule_round (Z.to_nat (last_function s)) 0 (schedule_start s)
      = Err error_code.memory.
Proof.
  unfold schedule. rewrite for_loop_nat, Z.sub_0_r. split; [|by intros ->].
  intros [H|(x & _ & H)]%bind_Err; [done|]. exfalso.
  unfold schedule_wait_for_all_swap_out in H.
  apply bind_Err in H as [H|(y & _ & H)]; [|done].
  by apply schedule_wait_for_all_swap_out_loop_no_error in H.
Qed.

(** The states at the top of the rounds are those of the loop. *)
Lemma for_nat_S_r {X} (body : Z -> X -> result X) n i x :
  for_nat body (S n) i x = bind (for_nat body n i x) (body (i + Z.of_nat n)).
Proof.
  replace (S n) with (n + 1)%nat by lia. rewrite for_nat_add.
  destruct (for_nat body n i x) as [y| |]; cbn [bind for_nat]; [|done..].
  by destruct (body _ y).
Qed.

Lemma rounds_planning s n :
  forall x,
    Z.of_nat n <= last_function s ->
    for_nat schedule_round n 0 (schedule_start s) = Ok x ->
    planning s (at_top (Z.of_nat n)) x.
Proof.
  induction n as [|n IH]; intros x Hn H.
  - cbn in H. injection H as <-. apply planning_start.
  - rewrite for_nat_S_r in H.
    destruct (for_nat schedule_round n 0 (schedule_start s)) as [x0| |] eqn:H0;
      cbn [bind] in H; [|done..].
    rewrite Z.add_0_l in H. unfold schedule_round in H.
    destruct (plan_swap_in (Z.of_nat n) x0) as [x1| |] eqn:H1; cbn [bind] in H; [|done..].
    destruct (plan_swap_out (Z.of_nat n) x1) as [x2| |] eqn:H2; cbn [bind] in H; [|done..].
    replace (Z.of_nat (S n)) with (Z.of_nat n + 1) by lia.
    eapply planning_wait; [|exact H].
    eapply planning_swap_out; [|exact H2].
    eapply planning_swap_in; [|lia|exact H1].
    apply IH; [lia|done].
Qed.

Lemma planning_rounds s pt x :
  planning s pt x ->
  match pt with
  | at_top fid =>
    0 <= fid /\ for_nat schedule_round (Z.to_nat fid) 0 (schedule_start s) = Ok x
  | after_swap_in fid =>
    0 <= fid
    /\ exists x0, for_nat schedule_round (Z.to_nat fid) 0 (schedule_start s) = Ok x0
                  /\ plan_swap_in fid x0 = Ok x
  | after_swap_out fid =>
    0 <= fid
    /\ exists x0 x1, for_nat schedule_round (Z.to_nat fid) 0 (schedule_start s) = Ok x0
                     /\ plan_swap_in fid x0 = Ok x1 /\ plan_swap_out fid x1 = Ok x
  end.
Proof.
  induction 1 as [|fid x x' _ [IH0 IH] _ H|fid x x' _ [IH0 IH] H|fid x x' _ [IH0 IH] H].
  - done.
  - split; [done|]. by exists x.
  - split; [done|]. destruct IH as (x0 & ? & ?). by exists x0, x.
  - split; [lia|]. destruct IH as (x0 & x1 & Hr & H1 & H2).
    replace (Z.to_nat (fid + 1)) with (S (Z.to_nat fid)) by lia.
    rewrite for_nat_S_r, Hr. cbn [bind]. rewrite Z.add_0_l, Z2Nat.id by done.
    unfold schedule_round. rewrite H1. cbn [bind]. rewrite H2. done.
Qed.

(** C5, as amended: for a plannable trace with valid block ends,
    [schedule] raises [error_code::memory] exactly if, for some function
    [fid] of the loop, [schedule_swap_in] returns with [head] below
    [func_block_ends[fid]].  The scan has then left on its budget test, at
    a GETCAST to the device whose bytes, added to [used_bytes_swap_in],
    exceed B - B/2 (not B); these bytes are at most those of the device
    records of the block of [fid], each record counted.  So no such error
    is raised when, for every function of the loop, the bytes of the device
    records of its block are at most B - B/2. *)
Theorem C5_out_of_memory s :
  plannable s -> valid_ends s ->
  (schedule s = Err error_code.memory
   <-> exists fid x y,
         planning s (at_top fid) x /\ fid < last_function s
         /\ schedule_swap_in x.1 x.2 = Ok y
         /\ head (si_queue y) < block_end s fid)
  /\ (forall fid x y,
        planning s (at_top fid) x -> fid < last_function s ->
        schedule_swap_in x.1 x.2 = Ok y ->
        head (si_queue y) < block_end s fid ->
        exists r,
          order s !! Z.to_nat (head (si_queue y)) = Some r
          /\ on_device s r
          /\ used_bytes_swap_in (si_queue y) + bytes_of r
             > max_bytes_swap_in s - max_bytes_swap_out s
          /\ used_bytes_swap_in (si_queue y) + bytes_of r <= block_bytes s fid)
  /\ ((forall fid, 0 <= fid < last_function s ->
         block_bytes s fid <= max_bytes_swap_in s - max_bytes_swap_out s) ->
      schedule s <> Err error_code.memory).
Proof.
  intros Hp Hv.
  assert (Hends : forall fid x y,
    planning s (at_top fid) x -> fid < last_function s ->
    schedule_swap_in x.1 x.2 = Ok y ->
    0 <= fid /\ func_block_ends_at (si_this y) fid = Ok (block_end s fid)).
  { intros fid x y Hpl Hlt Hy.
    pose proof (planning_inv s _ _ Hp Hpl) as [Hinv _].
    pose proof (planning_window s _ _ Hp Hv Hpl) as (_ & Hfid & _).
    pose proof (schedule_swap_in_inv s _ _ _ Hp Hinv Hy) as (Hinvy & _).
    destruct (valid_ends_block s fid Hv) as (He & _); [lia|].
    split; [lia|]. apply func_block_ends_at_inside; [lia|].
    by rewrite (inv_ends _ _ _ Hinvy). }
  assert (Hiff : schedule s = Err error_code.memory
   <-> exists fid x y,
         planning s (at_top fid) x /\ fid < last_function s
         /\ schedule_swap_in x.1 x.2 = Ok y
         /\ head (si_queue y) < block_end s fid).
  { rewrite schedule_memory, for_nat_error. split.
    - intros (k & x & Hk & Hrun & Herr). rewrite Z.add_0_l in Herr.
      apply schedule_round_memory, plan_swap_in_memory in Herr as (y & e & Hy & He & Hlt).
      assert (Hpl : planning s (at_top (Z.of_nat k)) x) by (apply rounds_planning; [lia|done]).
      destruct (Hends _ _ _ Hpl ltac:(lia) Hy) as [_ He']. rewrite He' in He.
      injection He as <-. exists (Z.of_nat k), x, y. repeat split; [done|lia|done|done].
    - intros (fid & x & y & Hpl & Hlt & Hy & Hshort).
      destruct (Hends _ _ _ Hpl Hlt Hy) as [Hfid He].
      apply planning_rounds in Hpl as [_ Hrun].
      exists (Z.to_nat fid), x. split; [lia|]. split; [done|].
      rewrite Z.add_0_l, Z2Nat.id by done.
      apply schedule_round_memory, plan_swap_in_memory. by exists y, (block_end s fid). }
  split; [done|]. split.
  - intros fid x y Hpl Hlt Hy Hshort. by apply (schedule_swap_in_short s fid x y).
  - intros Hfit (fid & x & y & Hpl & Hlt & Hy & Hshort)%Hiff.
    pose proof (planning_window s _ _ Hp Hv Hpl) as (_ & Hfid & _).
    destruct (schedule_swap_in_short s fid x y) as (r & _ & _ & Hbig & Hle); try done.
    specialize (Hfit fid ltac:(lia)). lia.
Qed.

(** ** What the schedules hold *)

Lemma same_schedules_refl s : same_schedules s s.
Proof. done. Qed.

Lemma same_schedules_trans s1 s2 s3 :
  same_schedules s1 s2 -> same_schedules s2 s3 -> same_schedules s1 s3.
Proof. intros [? ?] [? ?]. split; congruence. Qed.

Lemma cancel_swap_out_schedules s id s' :
  cancel_swap_out s id = Ok s' -> same_schedules s s'.
Proof.
  unfold cancel_swap_out. intros H.
  destruct (flag (swapped_out s) id); [|by injection H as <-].
  destruct (swapped_out_r s !! id) as [j|]; [|done].
  destruct (at_ (order s) j) as [rj| |]; cbn [bind] in H; [|done..].
  by injection H as <-.
Qed.

(** One round of the prefetch scan, read for the schedule. *)
Lemma schedule_swap_in_body_schedule s0 x y :
  same_plan_input s0 (si_this x) ->
  schedule_swap_in_body x = Ok (Continue y) ->
  same_schedules (si_this x) (si_this y)
  /\ exists r0,
       order s0 !! Z.to_nat (head (si_queue x)) = Some r0
       /\ si_schedule y
          = if decide (on_device s0 r0
                       /\ count (synced_array_counts (si_queue x))
                            (RecType.synced_array_id r0) (RecType.dtype r0) = 0
                       /\ flag (host_uses_this_synced_array x)
                            (RecType.synced_array_id r0) = false)
            then si_schedule x ++ [head (si_queue x)] else si_schedule x.
Proof.
  intros Hsame H. unfold schedule_swap_in_body in H.
  destruct (at_ (order (si_this x)) (head (si_queue x))) as [r| |] eqn:Hr;
    cbn [bind] in H; [|done..].
  apply at_Ok in Hr as [Hh Hr].
  pose proof Hsame as (Hst & Hdc & Hhc & _).
  destruct (static_lookup _ _ _ _ Hst Hr) as (r0 & Hr0 & Hst0).
  pose proof (on_device_static _ _ _ _ Hdc Hst0) as Hdev.
  assert (Hid : RecType.synced_array_id r = RecType.synced_array_id r0
                /\ RecType.dtype r = RecType.dtype r0).
  { unfold static in Hst0. by injection Hst0. }
  destruct Hid as [Hid Hd].
  destruct (RecType.tag r) eqn:Htag.
  - destruct (decide (array_class (RecType.ctx r) = array_class (device_ctx (si_this x))))
      as [Hcls|Hcls].
    + assert (Hdev0 : on_device s0 r0) by by apply Hdev.
      cbv zeta in H. destruct (decide (_ > _)); [done|].
      rewrite Hid, Hd in H.
      destruct (bool_decide _ && negb _) eqn:Hfetch.
      * destruct (cancel_swap_out _ _) as [s'| |] eqn:Hs'; cbn [bind] in H; [|done..].
        injection H as <-. cbn. split; [by apply cancel_swap_out_schedules in Hs'|].
        exists r0. split; [done|]. rewrite decide_True; [done|].
        apply andb_true_iff in Hfetch as [Hc%bool_decide_eq_true Hf%negb_true_iff]. done.
      * cbn [bind] in H. injection H as <-. cbn. split; [done|].
        exists r0. split; [done|]. rewrite decide_False; [done|].
        intros (_ & Hc & Hf). rewrite Hf, bool_decide_eq_true_2 in Hfetch by done. done.
    + destruct (decide (array_class (RecType.ctx r) = array_class (host_ctx (si_this x))));
        [|done].
      injection H as <-. cbn. split; [done|]. exists r0. split; [done|].
      rewrite decide_False; [done|]. intros (Hd0 & _). apply Hdev in Hd0 as [_ ?]. done.
  - injection H as <-. cbn. split; [done|]. exists r0. split; [done|].
    rewrite decide_False; [done|]. intros (Hd0 & _). apply Hdev in Hd0 as [? _]. congruence.
Qed.

(** The scan from [x] on: what it appends to the schedule are, once each,
    the positions it passes that hold a GETCAST to the device of an array
    not counted in its dtype and neither pinned at [x] nor since. *)
Lemma schedule_swap_in_loop_schedule s0 t fuel :
  forall x y,
    same_plan_input s0 (si_this x) ->
    window_counts s0 t (si_queue x) ->
    schedule_swap_in_loop fuel x = Ok y ->
    same_schedules (si_this x) (si_this y)
    /\ head (si_queue x) <= head (si_queue y)
    /\ exists l,
         si_schedule y = si_schedule x ++ l
         /\ NoDup l
         /\ forall j,
              j ∈ l
              <-> head (si_queue x) <= j < head (si_queue y)
                  /\ exists r,
                       order s0 !! Z.to_nat j = Some r /\ on_device s0 r
                       /\ scanned_uses s0 (RecType.synced_array_id r) (RecType.dtype r) j
                          - scanned_uses s0 (RecType.synced_array_id r) (RecType.dtype r) t
                          = 0
                       /\ flag (host_uses_this_synced_array x) (RecType.synced_array_id r)
                          = false
                       /\ ~ host_use s0 (head (si_queue x)) j (RecType.synced_array_id r).
Proof.
  assert (Hstop : forall x : SwapIn,
    same_schedules (si_this x) (si_this x)
    /\ head (si_queue x) <= head (si_queue x)
    /\ exists l,
         si_schedule x = si_schedule x ++ l
         /\ NoDup l
         /\ forall j,
              j ∈ l
              <-> head (si_queue x) <= j < head (si_queue x)
                  /\ exists r,
                       order s0 !! Z.to_nat j = Some r /\ on_device s0 r
                       /\ scanned_uses s0 (RecType.synced_array_id r) (RecType.dtype r) j
                          - scanned_uses s0 (RecType.synced_array_id r) (RecType.dtype r) t
                          = 0
                       /\ flag (host_uses_this_synced_array x) (RecType.synced_array_id r)
                          = false
                       /\ ~ host_use s0 (head (si_queue x)) j (RecType.synced_array_id r)).
  { intros x. split; [done|]. split; [lia|]. exists []. split; [by rewrite app_nil_r|].
    split; [constructor|]. intros j. split; [by intros ?%not_elem_of_nil|]. intros [? _]. lia. }
  induction fuel as [|fuel IH]; intros x y Hsame Hw H; cbn [schedule_swap_in_loop] in H.
  - destruct (decide _); injection H as <-; by apply Hstop.
  - destruct (decide _); [|injection H as <-; by apply Hstop].
    destruct (schedule_swap_in_body x) as [f| |] eqn:Hb; cbn [bind] in H; [|done..].
    destruct f as [x'|x'].
    2:{ pose proof (schedule_swap_in_body_pins s0 x _ Hsame Hb) as ->.
        injection H as <-. by apply Hstop. }
    destruct (schedule_swap_in_body_counts s0 x _ Hsame Hb) as (r0 & Hh & Hr0 & Hhead & Hcount).
    pose proof (schedule_swap_in_body_pins s0 x _ Hsame Hb)
      as (r1 & _ & Hr1 & _ & Hsame' & Hpin & _).
    assert (r1 = r0) as -> by congruence.
    destruct (schedule_swap_in_body_schedule s0 x x' Hsame Hb) as (Hss & r2 & Hr2 & Hsched).
    assert (r2 = r0) as -> by congruence.
    assert (Hw' : window_counts s0 t (si_queue x')).
    { intros id d. rewrite Hcount, Hw, Hhead, (scanned_uses_S s0 id d _ r0) by done. lia. }
    destruct (IH x' y Hsame' Hw' H) as (Hss' & Hle & l' & Hl & Hnd & Hin).
    split; [by apply (same_schedules_trans _ (si_this x'))|]. split; [lia|].
    assert (Hone : forall id,
      host_use s0 (head (si_queue x)) (head (si_queue x) + 1) id
      <-> on_host s0 r0 /\ RecType.synced_array_id r0 = id).
    { intros id. rewrite host_use_one by done. split.
      - intros (r & Hr & ?). by assert (r = r0) as -> by congruence.
      - intros ?. by exists r0. }
    assert (Hlater : forall j id,
      head (si_queue x') <= j ->
      (flag (host_uses_this_synced_array x') id = false
       /\ ~ host_use s0 (head (si_queue x')) j id)
      <-> (flag (host_uses_this_synced_array x) id = false
           /\ ~ host_use s0 (head (si_queue x)) j id)).
    { intros j id Hj.
      rewrite (host_use_split s0 (head (si_queue x)) (head (si_queue x) + 1) j) by lia.
      rewrite Hone, <- Hhead, <- !not_true_iff_false, Hpin. tauto. }
    set (c0 := on_device s0 r0
               /\ count (synced_array_counts (si_queue x))
                    (RecType.synced_array_id r0) (RecType.dtype r0) = 0
               /\ flag (host_uses_this_synced_array x) (RecType.synced_array_id r0) = false)
      in *.
    exists ((if decide c0 then [head (si_queue x)] else []) ++ l'). split; [|split].
    + rewrite Hl, Hsched. destruct (decide c0); [by rewrite <- app_assoc|done].
    + apply NoDup_app. split; [|split; [|done]].
      * destruct (decide c0); [apply NoDup_singleton|constructor].
      * intros j Hj Hj'. apply Hin in Hj' as [? _].
        destruct (decide c0); [|by apply not_elem_of_nil in Hj].
        apply list_elem_of_singleton in Hj. lia.
    + intros j. rewrite elem_of_app, Hin. split.
      * intros [Hj|(Hrange & r & Hr & Hdev & Hsu & Hpins)].
        -- destruct (decide c0) as [(Hdev & Hc & Hf)|]; [|by apply not_elem_of_nil in Hj].
           apply list_elem_of_singleton in Hj as ->. split; [lia|].
           exists r0. split; [done|]. split; [done|]. split; [by rewrite <- Hw|].
           split; [done|]. intros (i & _ & ? & _). lia.
        -- split; [lia|]. exists r. split; [done|]. split; [done|]. split; [done|].
           apply (Hlater j); [lia|done].
      * intros (Hrange & r & Hr & Hdev & Hsu & Hpins).
        destruct (decide (j = head (si_queue x))) as [->|Hne].
        -- left. assert (r = r0) as -> by congruence.
           rewrite decide_True; [by apply list_elem_of_singleton|].
           split; [done|]. split; [by rewrite Hw|]. by destruct Hpins.
        -- right. split; [lia|]. exists r. split; [done|]. split; [done|]. split; [done|].
           apply (Hlater j); [lia|done].
Qed.

Lemma accumulate_counts_count s0 s q r0 :
  plannable s0 -> planner_inv s0 s q -> r0 ∈ order s0 -> on_device s0 r0 ->
  accumulate_counts (counts_of (synced_array_counts q) (RecType.synced_array_id r0))
  = count (synced_array_counts q) (RecType.synced_array_id r0) (RecType.dtype r0).
Proof.
  intros Hp Hinv Hin Hdev. unfold count.
  destruct (counts_of_one_key s0 s q r0 Hp Hinv Hin Hdev) as [->|[n ->]].
  - by rewrite accumulate_counts_empty, lookup_empty.
  - by rewrite accumulate_counts_singleton, lookup_singleton_eq.
Qed.

(** One round of the eviction scan, read for the schedule. *)
Lemma schedule_swap_out_body_schedule s0 i x y :
  plannable s0 ->
  planner_inv s0 (so_this x) (so_queue x) ->
  schedule_swap_out_body i x = Ok y ->
  same_schedules (so_this x) (so_this y)
  /\ exists r0,
       order s0 !! Z.to_nat i = Some r0
       /\ so_schedule y
          = if decide (on_device s0 r0
                       /\ count (synced_array_counts (so_queue x))
                            (RecType.synced_array_id r0) (RecType.dtype r0) = 1)
            then so_schedule x ++ [i] else so_schedule x.
Proof.
  intros Hp Hinv H. unfold schedule_swap_out_body in H.
  destruct (at_ (order (so_this x)) i) as [r| |] eqn:Hr; cbn [bind] in H; [|done..].
  apply at_Ok in Hr as [Hi Hr].
  destruct (static_lookup _ _ _ _ (inv_static _ _ _ Hinv) Hr) as (r0 & Hr0 & Hst).
  assert (Hin0 : r0 ∈ order s0) by by eapply list_elem_of_lookup_2.
  pose proof (on_device_static _ _ _ _ (inv_device_ctx _ _ _ Hinv) Hst) as Hdev.
  assert (Hid : RecType.synced_array_id r = RecType.synced_array_id r0).
  { unfold static in Hst. by injection Hst. }
  destruct (RecType.tag r) eqn:Htag.
  - destruct (decide (array_class (RecType.ctx r) = array_class (device_ctx (so_this x))))
      as [Hcls|Hcls].
    + assert (Hdev0 : on_device s0 r0) by by apply Hdev.
      cbv zeta in H. rewrite Hid in H.
      rewrite (accumulate_counts_count s0 (so_this x)) in H by done.
      injection H as <-. cbn [so_this so_schedule]. split.
      * by destruct (bool_decide _ && negb _).
      * exists r0. split; [done|]. case_bool_decide.
        -- by rewrite decide_True.
        -- rewrite decide_False; [done|]. by intros [_ ?].
    + destruct (decide (array_class (RecType.ctx r) = array_class (host_ctx (so_this x))));
        [|done].
      injection H as <-. split; [done|]. exists r0. split; [done|].
      rewrite decide_False; [done|]. intros (Hd0 & _). apply Hdev in Hd0 as [_ ?]. done.
  - injection H as <-. split; [done|]. exists r0. split; [done|].
    rewrite decide_False; [done|]. intros (Hd0 & _). apply Hdev in Hd0 as [? _]. congruence.
Qed.

(** The eviction scan of function [fid] schedules, once each, the positions
    of its block that hold the one use of an array left in the queue. *)
Lemma schedule_swap_out_schedule s0 s q fid y :
  plannable s0 -> valid_ends s0 ->
  planner_inv s0 s q ->
  used_bytes_swap_in q + used_bytes_swap_out s <= max_bytes_swap_in s0 ->
  0 <= fid < last_function s0 ->
  window_counts s0 (block_start s0 fid) q ->
  schedule_swap_out s q fid = Ok y ->
  same_schedules s (so_this y)
  /\ NoDup (so_schedule y)
  /\ forall i,
       i ∈ so_schedule y
       <-> block_start s0 fid <= i < block_end s0 fid
           /\ exists r,
                order s0 !! Z.to_nat i = Some r /\ on_device s0 r
                /\ scanned_uses s0 (RecType.synced_array_id r) (RecType.dtype r) (head q)
                   - scanned_uses s0 (RecType.synced_array_id r) (RecType.dtype r) i
                   = 1.
Proof.
  intros Hp Hv Hinv Hsum Hfid Hw H. unfold schedule_swap_out in H.
  destruct (valid_ends_block s0 fid Hv Hfid) as (He & Hse & Hlen & Hs).
  destruct (func_block_ends_at s (fid - 1)) as [first| |] eqn:Hfirst; cbn [bind] in H;
    [|done..].
  rewrite (func_block_ends_at_inside s fid (block_end s0 fid)) in H
    by (lia || by rewrite (inv_ends _ _ _ Hinv)).
  cbn [bind] in H. rewrite for_loop_nat in H.
  rewrite (schedule_swap_out_rounds _ s0 s fid first _ Hv (inv_ends _ _ _ Hinv) Hfid Hfirst)
    in H.
  apply (for_nat_invariant
           (fun k z =>
              planner_inv s0 (so_this z) (so_queue z)
              /\ used_bytes_swap_in (so_queue z) + used_bytes_swap_out (so_this z)
                 <= max_bytes_swap_in s0
              /\ window_counts s0 k (so_queue z)
              /\ head (so_queue z) = head q
              /\ same_schedules s (so_this z)
              /\ NoDup (so_schedule z)
              /\ forall i,
                   i ∈ so_schedule z
                   <-> block_start s0 fid <= i < k
                       /\ exists r,
                            order s0 !! Z.to_nat i = Some r /\ on_device s0 r
                            /\ scanned_uses s0 (RecType.synced_array_id r)
                                 (RecType.dtype r) (head q)
                               - scanned_uses s0 (RecType.synced_array_id r)
                                   (RecType.dtype r) i
                               = 1)) in H.
  - replace (block_start s0 fid + Z.of_nat (Z.to_nat (block_end s0 fid - block_start s0 fid)))
      with (block_end s0 fid) in H by lia.
    by destruct H as (_ & _ & _ & _ & ? & ? & ?).
  - intros k z z' Hk (Hinvz & Hsumz & Hwz & Hhz & Hssz & Hndz & Hinz) Hb.
    pose proof (schedule_swap_out_body_inv s0 k z z' Hp Hinvz Hsumz Hb)
      as (Hinvz' & Hsum' & _ & _).
    pose proof (schedule_swap_out_body_counts s0 k z z' (planner_inv_input _ _ _ Hinvz) Hb)
      as (_ & Hh' & r0 & Hk0 & Hr0 & Hcount).
    pose proof (schedule_swap_out_body_schedule s0 k z z' Hp Hinvz Hb)
      as (Hss' & r1 & Hr1 & Hsched).
    assert (r1 = r0) as -> by congruence.
    split; [done|]. split; [lia|]. split.
    { intros id d. rewrite Hcount, Hwz, Hh', (scanned_uses_S s0 id d k r0) by done. lia. }
    split; [congruence|]. split; [by apply (same_schedules_trans _ (so_this z))|].
    rewrite Hwz, Hhz in Hsched.
    destruct (decide _) as [[Hdev Hone]|Hnot] in Hsched; rewrite Hsched.
    + split.
      { apply NoDup_app. split; [done|]. split; [|apply NoDup_singleton].
        intros i Hi ->%list_elem_of_singleton. apply Hinz in Hi as [? _]. lia. }
      intros i. rewrite elem_of_app, list_elem_of_singleton, Hinz. split.
      * intros [(? & ?)| ->]; [split; [lia|done]|]. split; [lia|]. by exists r0.
      * intros (Hrange & Hr). destruct (decide (i = k)) as [->|Hne]; [by right|].
        left. split; [lia|done].
    + split; [done|]. intros i. rewrite Hinz. split.
      * intros (? & ?). split; [lia|done].
      * intros (Hrange & r & Hr & Hdev & Hone).
        destruct (decide (i = k)) as [->|Hne]; [|split; [lia|by exists r]].
        exfalso. apply Hnot. assert (r = r0) as -> by congruence. done.
  - split; [done|]. split; [done|]. split; [done|]. split; [done|]. split; [done|].
    split; [constructor|]. intros i. split; [by intros ?%not_elem_of_nil|].
    intros [? _]. lia.
Qed.

Lemma schedule_wait_for_swap_out_impl_schedules x y :
  schedule_wait_for_swap_out_impl x = Ok y -> same_schedules x.1 y.1.
Proof.
  destruct x as [s l]. unfold schedule_wait_for_swap_out_impl. intros H.
  destruct (at_ (order s) (tail s)) as [r| |]; cbn [bind] in H; [|done..].
  destruct (RecType.swapped_out r); by injection H as <-.
Qed.

Lemma schedule_wait_for_swap_out_loop_schedules fuel :
  forall x y, schedule_wait_for_swap_out_loop fuel x = Ok y -> same_schedules x.1 y.1.
Proof.
  induction fuel as [|fuel IH]; intros x y H; cbn [schedule_wait_for_swap_out_loop] in H.
  - destruct (decide _); [done|]. by injection H as <-.
  - destruct (decide _); [|by injection H as <-].
    destruct (schedule_wait_for_swap_out_impl x) as [x'| |] eqn:Hx; cbn [bind] in H; [|done..].
    apply schedule_wait_for_swap_out_impl_schedules in Hx. apply IH in H.
    by apply (same_schedules_trans _ x'.1).
Qed.

Lemma schedule_wait_for_all_swap_out_loop_schedules fuel :
  forall x y, schedule_wait_for_all_swap_out_loop fuel x = Ok y -> same_schedules x.1 y.1.
Proof.
  induction fuel as [|fuel IH]; intros x y H; cbn [schedule_wait_for_all_swap_out_loop] in H.
  - destruct (decide _); by injection H as <-.
  - destruct (decide _); [|by injection H as <-].
    destruct (schedule_wait_for_swap_out_impl x) as [x'| |] eqn:Hx; cbn [bind] in H; [|done..].
    apply schedule_wait_for_swap_out_impl_schedules in Hx. apply IH in H.
    by apply (same_schedules_trans _ x'.1).
Qed.

Lemma schedule_of_insert (m : gmap Z (list Z)) k l k' :
  schedule_of (<[k := l]> m) k' = if decide (k = k') then l else schedule_of m k'.
Proof.
  unfold schedule_of. destruct (decide (k = k')) as [->|Hne].
  - by rewrite lookup_insert_eq.
  - by rewrite lookup_insert_ne.
Qed.

Lemma schedules_inv_same s n_in n_out s1 s2 :
  schedules_inv s n_in n_out s1 -> same_schedules s1 s2 -> schedules_inv s n_in n_out s2.
Proof.
  intros [] [Hi Ho]. constructor; unfold schedule_of in *; rewrite ?Hi, ?Ho; done.
Qed.

(** The schedules at every point of the loop of [schedule]. *)
Lemma planning_schedules s pt x :
  plannable s -> valid_ends s -> planning s pt x ->
  head x.2 = scan_head s pt
  /\ schedules_inv s (rounds_in pt) (rounds_out pt) x.1.
Proof.
  intros Hp Hv Hpl.
  induction Hpl as [|fid x x' Hpl [IHh IHs] Hlt H|fid x x' Hpl [IHh IHs] H
                    |fid x x' Hpl [IHh IHs] H].
  - split; [done|]. constructor; cbn; intros fid Hfid; try done; lia.
  - pose proof (planning_inv s _ _ Hp Hpl) as [Hinv _].
    pose proof (planning_window s _ _ Hp Hv Hpl) as (Hw & Hfid & _). cbn [front] in Hw.
    pose proof (planning_rounds s _ _ Hpl) as [_ Htop].
    assert (Hend : scan_end s fid = head x'.2).
    { unfold scan_end, top. rewrite Htop. cbn [bind]. by rewrite H. }
    cbn [scan_head rounds_in rounds_out] in *. split; [done|].
    unfold plan_swap_in in H.
    destruct (schedule_swap_in x.1 x.2) as [y| |] eqn:Hy; cbn [bind] in H; [|done..].
    unfold schedule_swap_in in Hy.
    apply (schedule_swap_in_loop_schedule s (block_start s fid)) in Hy
      as (Hss & _ & l & Hl & Hnd & Hin); [|exact (planner_inv_input _ _ _ Hinv)|done].
    cbn [si_this si_queue si_schedule host_uses_this_synced_array] in Hss, Hl, Hin.
    destruct (func_block_ends_at _ fid) as [e| |]; cbn [bind] in H; [|done..].
    destruct (decide _); [done|]. injection H as <-. cbn [fst snd] in *.
    pose proof (schedules_inv_same _ _ _ _ _ IHs Hss) as [Hpre Hio Hev Hoo].
    rewrite <- Hend, IHh in Hin. cbn in Hl. subst l.
    constructor; cbn.
    + intros f Hf. rewrite schedule_of_insert. destruct (decide (fid = f)) as [<-|Hne].
      * split; [done|]. intros j. rewrite Hin. unfold prefetched.
        split.
        -- intros (? & r & ? & ? & ? & _ & ?). split; [done|]. by exists r.
        -- intros (? & r & ? & ? & ? & ?). split; [done|]. by exists r.
      * apply Hpre. lia.
    + intros f Hf. rewrite lookup_insert_ne by lia. apply Hio. lia.
    + done.
    + done.
  - pose proof (planning_inv s _ _ Hp Hpl) as [Hinv Hout].
    pose proof (inv_cap _ _ _ Hinv) as Hcap.
    pose proof (planning_window s _ _ Hp Hv Hpl) as (Hw & Hfid & _). cbn [front] in Hw.
    cbn [scan_head rounds_in rounds_out] in *.
    unfold plan_swap_out in H.
    destruct (schedule_swap_out x.1 x.2 fid) as [y| |] eqn:Hy; cbn [bind] in H; [|done..].
    pose proof (schedule_swap_out_window s _ _ _ _ Hv (planner_inv_input _ _ _ Hinv) Hfid Hw Hy)
      as [_ Hh].
    apply (schedule_swap_out_schedule s) in Hy as (Hss & Hnd & Hin); [|done|done|done|lia|done..].
    injection H as <-. cbn [fst snd]. split; [congruence|].
    pose proof (schedules_inv_same _ _ _ _ _ IHs Hss) as [Hpre Hio Hev Hoo].
    rewrite IHh in Hin.
    constructor; cbn.
    + done.
    + done.
    + intros f Hf. rewrite schedule_of_insert. destruct (decide (fid = f)) as [<-|Hne].
      * done.
      * apply Hev. lia.
    + intros f Hf. rewrite lookup_insert_ne by lia. apply Hoo. lia.
  - cbn [scan_head rounds_in rounds_out] in *. unfold plan_wait in H.
    destruct (schedule_wait_for_swap_out x.1) as [y| |] eqn:Hy; cbn [bind] in H; [|done..].
    unfold schedule_wait_for_swap_out in Hy.
    apply schedule_wait_for_swap_out_loop_schedules in Hy. cbn [fst] in Hy.
    injection H as <-. cbn [fst snd]. split.
    + rewrite IHh. unfold scan_start.
      pose proof (planning_rounds s _ _ Hpl) as [? _].
      rewrite decide_False by lia. f_equal. lia.
    + pose proof (schedules_inv_same _ _ _ _ _ IHs Hy) as []. by constructor.
Qed.

Lemma chain_mono (a b : Z -> Z) n :
  (forall f, 0 <= f < n -> a f <= b f) ->
  (forall f, 0 < f -> a f = b (f - 1)) ->
  forall f1 f2, 0 <= f1 < f2 -> f2 < n -> b f1 <= a f2.
Proof.
  intros Hab Hnext f1 f2 Hlt Hn.
  assert (H : forall k : nat, f1 + 1 + Z.of_nat k < n -> b f1 <= a (f1 + 1 + Z.of_nat k)).
  { induction k as [|k IH]; intros Hk.
    - rewrite Hnext by lia. apply Z.eq_le_incl. f_equal. lia.
    - rewrite Hnext by lia.
      replace (f1 + 1 + Z.of_nat (S k) - 1) with (f1 + 1 + Z.of_nat k) by lia.
      etrans; [apply IH; lia|]. apply Hab. lia. }
  specialize (H (Z.to_nat (f2 - f1 - 1))).
  replace (f1 + 1 + Z.of_nat (Z.to_nat (f2 - f1 - 1))) with f2 in H by lia. by apply H.
Qed.

Lemma top_prefix s n m x :
  top s n = Ok x -> (m <= n)%nat -> exists x0, top s m = Ok x0.
Proof.
  unfold top. intros H Hm. replace n with (m + (n - m))%nat in H by lia.
  rewrite for_nat_add in H.
  destruct (for_nat schedule_round m 0 (schedule_start s)) as [x0| |]; [|done..].
  by exists x0.
Qed.

(** When every round of the loop returns, the scan of a function ends at
    or after the end of its block and does not move [head] back. *)
Lemma scan_bounds s x fid :
  plannable s -> valid_ends s ->
  top s (Z.to_nat (last_function s)) = Ok x ->
  0 <= fid < last_function s ->
  scan_start s fid <= scan_end s fid /\ block_end s fid <= scan_end s fid.
Proof.
  intros Hp Hv Htop Hfid.
  destruct (top_prefix s _ (S (Z.to_nat fid)) x Htop) as [x2 H2]; [lia|].
  unfold top in H2. rewrite for_nat_S_r in H2.
  destruct (for_nat schedule_round (Z.to_nat fid) 0 (schedule_start s)) as [x0| |] eqn:H0;
    cbn [bind] in H2; [|done..].
  rewrite Z.add_0_l, Z2Nat.id in H2 by lia. unfold schedule_round in H2.
  destruct (plan_swap_in fid x0) as [x1| |] eqn:H1; cbn [bind] in H2; [|done..].
  assert (Hpl0 : planning s (at_top fid) x0).
  { rewrite <- (Z2Nat.id fid) by lia. apply rounds_planning; [lia|done]. }
  assert (Hpl1 : planning s (after_swap_in fid) x1).
  { eapply planning_swap_in; [exact Hpl0|lia|done]. }
  pose proof (planning_schedules s _ _ Hp Hv Hpl0) as [Hh0 _].
  pose proof (planning_schedules s _ _ Hp Hv Hpl1) as [Hh1 _].
  pose proof (planning_window s _ _ Hp Hv Hpl1) as (_ & _ & Hend).
  pose proof (planning_inv s _ _ Hp Hpl0) as [Hinv _].
  pose proof (planning_window s _ _ Hp Hv Hpl0) as (Hw & _ & _).
  cbn [scan_head front] in *. rewrite <- Hh0, <- Hh1. split; [|done].
  unfold plan_swap_in in H1.
  destruct (schedule_swap_in x0.1 x0.2) as [y| |] eqn:Hy; cbn [bind] in H1; [|done..].
  unfold schedule_swap_in in Hy.
  apply (schedule_swap_in_loop_window s (block_start s fid)) in Hy
    as (_ & Hle & _); [|exact (planner_inv_input _ _ _ Hinv)|done].
  destruct (func_block_ends_at _ fid) as [e| |]; cbn [bind] in H1; [|done..].
  destruct (decide _); [done|]. by injection H1 as <-.
Qed.

(** C2, as amended: when [schedule] returns for a plannable trace with
    valid block ends, then for every function [fid] of its loop
    ([fid < last_function], which leaves out the last function)
    [swap_out_schedule[fid]] holds, once each, the positions of the block
    of [fid] with a GETCAST to the device that is the one use of its array
    left in the queue, precleared or not; and [swap_in_schedule[fid]] holds,
    once each, the positions the prefetch scan of [fid] has passed with a
    GETCAST to the device whose array is not yet in the queue in that dtype
    and has no GETCAST to the host earlier in the same scan.  No position
    is in the schedules of two functions, no position of the block of the
    last function is in a [swap_out_schedule], and the other entries of
    both maps are left as they were. *)
Theorem C2_schedule_entries s s' :
  plannable s -> valid_ends s -> schedule s = Ok s' ->
  (forall fid, 0 <= fid < last_function s ->
     NoDup (schedule_of (swap_out_schedule s') fid)
     /\ forall i, i ∈ schedule_of (swap_out_schedule s') fid <-> evicted s fid i)
  /\ (forall fid, 0 <= fid < last_function s ->
        NoDup (schedule_of (swap_in_schedule s') fid)
        /\ forall j, j ∈ schedule_of (swap_in_schedule s') fid <-> prefetched s fid j)
  /\ (forall f1 f2 i, 0 <= f1 < last_function s -> 0 <= f2 < last_function s ->
        evicted s f1 i -> evicted s f2 i -> f1 = f2)
  /\ (forall f1 f2 j, 0 <= f1 < last_function s -> 0 <= f2 < last_function s ->
        prefetched s f1 j -> prefetched s f2 j -> f1 = f2)
  /\ (forall fid i, 0 <= fid < last_function s -> evicted s fid i ->
        i < block_start s (last_function s))
  /\ (forall fid, ~ 0 <= fid < last_function s ->
        swap_out_schedule s' !! fid = swap_out_schedule s !! fid
        /\ swap_in_schedule s' !! fid = swap_in_schedule s !! fid).
Proof.
  intros Hp Hv H. unfold schedule in H. rewrite for_loop_nat, Z.sub_0_r in H.
  destruct (for_nat schedule_round (Z.to_nat (last_function s)) 0 (schedule_start s))
    as [x| |] eqn:Htop; cbn [bind] in H; [|done..].
  destruct (schedule_wait_for_all_swap_out x.1) as [y| |] eqn:Hy; cbn [bind] in H; [|done..].
  unfold schedule_wait_for_all_swap_out in Hy.
  apply schedule_wait_for_all_swap_out_loop_schedules in Hy. cbn [fst] in Hy.
  injection H as <-.
  pose proof (valid_ends_last_function s Hv) as Hlast.
  pose proof (valid_ends_length s Hv) as H0.
  assert (Hpl : planning s (at_top (last_function s)) x).
  { rewrite <- (Z2Nat.id (last_function s)) by lia. apply rounds_planning; [lia|done]. }
  pose proof (planning_schedules s _ _ Hp Hv Hpl) as [_ Hs].
  apply (schedules_inv_same _ _ _ _ y.1) in Hs; [|done].
  destruct Hs as [Hpre Hio Hev Hoo]. cbn [rounds_in rounds_out] in *.
  assert (Hblocks : forall f1 f2, 0 <= f1 < f2 -> f2 <= last_function s ->
                      block_end s f1 <= block_start s f2).
  { intros f1 f2 ? ?.
    apply (chain_mono (block_start s) (block_end s) (last_function s + 1)); [| |done|lia].
    - intros f Hf. destruct (decide (f = last_function s)) as [->|Hne].
      + unfold block_start. rewrite decide_False by lia.
        destruct (valid_ends_lookup s (Z.to_nat (last_function s - 1)) Hv) as (e & He & _);
          [lia|].
        destruct (valid_ends_lookup s (Z.to_nat (last_function s)) Hv) as (e' & He' & _);
          [lia|].
        unfold block_end. rewrite He, He'. cbn.
        apply (ends_sorted s Hv _ _ _ He).
        by replace (S (Z.to_nat (last_function s - 1))) with (Z.to_nat (last_function s))
          by lia.
      + destruct (valid_ends_block s f Hv) as (_ & ? & _); lia.
    - intros f Hf. unfold block_start. by rewrite decide_False by lia. }
  assert (Hscans : forall f1 f2, 0 <= f1 < f2 -> f2 < last_function s ->
                     scan_end s f1 <= scan_start s f2).
  { apply (chain_mono (scan_start s) (scan_end s)).
    - intros f Hf. by apply (scan_bounds s x f Hp Hv Htop).
    - intros f Hf. unfold scan_start. by rewrite decide_False by lia. }
  split; [exact Hev|]. split; [exact Hpre|]. split; [|split; [|split]].
  - intros f1 f2 i Hf1 Hf2 [Hi1 _] [Hi2 _].
    destruct (Z.lt_trichotomy f1 f2) as [Hlt|[Heq|Hgt]]; [|done|].
    + pose proof (Hblocks f1 f2). lia.
    + pose proof (Hblocks f2 f1). lia.
  - intros f1 f2 j Hf1 Hf2 [Hj1 _] [Hj2 _].
    destruct (Z.lt_trichotomy f1 f2) as [Hlt|[Heq|Hgt]]; [|done|].
    + pose proof (Hscans f1 f2). lia.
    + pose proof (Hscans f2 f1). lia.
  - intros fid i Hfid [Hi _]. pose proof (Hblocks fid (last_function s)). lia.
  - intros fid Hfid. split; [by apply Hoo|by apply Hio].
Qed.

(** ** The adapter for double-buffered inputs *)

Lemma replace_sawptr_no_error saptr idxs e :
  forall ord, replace_sawptr saptr idxs ord <> Err e.
Proof.
  induction idxs as [|i idxs IH]; intros ord; cbn [replace_sawptr]; [done|].
  intros [H|(r & _ & H)]%bind_Err; [by apply at_no_error in H|by apply IH in H].
Qed.

Lemma switch_dali_no_error b idxs s e : switch_dali b idxs s <> Err e.
Proof.
  unfold switch_dali.
  intros [H|(ord0 & _ & H)]%bind_Err; [by apply replace_sawptr_no_error in H|].
  apply bind_Err in H as [H|(ord1 & _ & H)]; [by apply replace_sawptr_no_error in H|done].
Qed.

(** X1: [use_dali] throws exactly when it is not given one batch, or when,
    in the second iteration, an array of the first batch has expired; what
    it throws is [error_code::unclassified]. *)
Theorem X1_use_dali_raises data_batches d w e :
  use_dali data_batches d w = Err e
  <-> e = error_code.unclassified
      /\ (length data_batches <> 1%nat
          \/ (iter_count (this w) = 1
              /\ (lock (arrays w) (dali_sawptrs d).1.1 = false
                  \/ lock (arrays w) (dali_sawptrs d).1.2 = false))).
Proof.
  unfold use_dali. destruct data_batches as [|xt [|xt' bs]].
  - split; [intros [= <-]|intros [-> _]; done]. split; [done|]. by left.
  - cbv zeta. destruct (decide (iter_count (this w) = 0)) as [H0|H0].
    { split; [done|]. intros [_ [?|[H1 _]]]; [done|lia]. }
    destruct (decide (iter_count (this w) = 1)) as [H1|H1].
    + destruct (lock (arrays w) (dali_sawptrs d).1.1) eqn:L1; cbn [negb].
      2:{ split; [intros [= <-]|intros [-> _]; done]. split; [done|]. right. by split; [|left]. }
      destruct (lock (arrays w) (dali_sawptrs d).1.2) eqn:L2; cbn [negb].
      2:{ split; [intros [= <-]|intros [-> _]; done]. split; [done|]. right. by split; [|right]. }
      split.
      * intros [H|(s' & _ & H)]%bind_Err; [by apply switch_dali_no_error in H|done].
      * intros [_ [?|[_ [?|?]]]]; done.
    + split.
      * intros [H|(b & _ & H)]%bind_Err.
        { unfold pick in H. by repeat destruct (decide _). }
        apply bind_Err in H as [H|(s' & _ & H)]; [by apply switch_dali_no_error in H|done].
      * intros [_ [?|[? _]]]; done.
  - split; [intros [= <-]|intros [-> _]; done]. split; [done|]. left. cbn. lia.
Qed.

Lemma index_exact_ids s s' :
  index_exact s ->
  RecType.synced_array_id <$> order s' = RecType.synced_array_id <$> order s ->
  synced_array_id_to_order_idx s' = synced_array_id_to_order_idx s ->
  index_exact s'.
Proof.
  intros Hex Hord Hidx id i. unfold order_idxs. rewrite Hidx.
  fold (order_idxs s id). rewrite (Hex id i).
  assert (Hl : forall j,
    (exists r, order s !! j = Some r /\ RecType.synced_array_id r = id)
    <-> (RecType.synced_array_id <$> order s) !! j = Some id).
  { intros j. rewrite list_lookup_fmap. destruct (order s !! j) as [r|]; cbn.
    - split; [by intros (? & [= <-] & ->)|]. intros [= <-]. by exists r.
    - split; [by intros (? & ? & _)|done]. }
  assert (Hl' : forall j,
    (exists r, order s' !! j = Some r /\ RecType.synced_array_id r = id)
    <-> (RecType.synced_array_id <$> order s') !! j = Some id).
  { intros j. rewrite list_lookup_fmap. destruct (order s' !! j) as [r|]; cbn.
    - split; [by intros (? & [= <-] & ->)|]. intros [= <-]. by exists r.
    - split; [by intros (? & ? & _)|done]. }
  by rewrite Hl, Hl', Hord.
Qed.

Lemma substitute_ids saptr id ord :
  RecType.synced_array_id <$> substitute saptr id ord = RecType.synced_array_id <$> ord.
Proof.
  unfold substitute. rewrite <- list_fmap_compose. apply list_fmap_ext.
  intros _ r _. cbn. by case_bool_decide.
Qed.

Lemma switched_ids b idxs (ord : list RecType.t) :
  RecType.synced_array_id <$> (switched b idxs <$> ord) = RecType.synced_array_id <$> ord.
Proof.
  rewrite <- list_fmap_compose. apply list_fmap_ext.
  intros _ r _. cbn. unfold switched. by repeat case_bool_decide.
Qed.

(** With an exact index the two loops are a map over the trace. *)
Lemma switch_dali_switched b idxs s :
  index_exact s ->
  switch_dali b idxs s = Ok (put_order (switched b idxs <$> order s) s).
Proof.
  intros Hex. unfold switch_dali. rewrite (replace_sawptr_substitute b.1 s idxs.1 Hex).
  cbn [bind].
  pose proof (replace_sawptr_substitute b.2
                (put_order (substitute b.1 idxs.1 (order s)) s) idxs.2) as H2.
  cbn in H2. unfold order_idxs in *. cbn in H2. rewrite H2.
  - cbn [bind]. do 2 f_equal. unfold substitute. rewrite <- list_fmap_compose.
    apply list_fmap_ext. intros _ r _. cbn. unfold switched.
    destruct (bool_decide (RecType.synced_array_id r = idxs.1)); cbn;
      by destruct (bool_decide (RecType.synced_array_id r = idxs.2)).
  - apply (index_exact_ids s); [done| |done]. cbn. apply substitute_ids.
Qed.

Lemma switched_fields b idxs (ord : list RecType.t) j r :
  ord !! j = Some r ->
  exists r',
    (switched b idxs <$> ord) !! j = Some r'
    /\ but_sawptr r' = but_sawptr r
    /\ RecType.sawptr r'
       = if bool_decide (RecType.synced_array_id r = idxs.2) then b.2
         else if bool_decide (RecType.synced_array_id r = idxs.1) then b.1
              else RecType.sawptr r.
Proof.
  intros Hj. rewrite list_lookup_fmap, Hj. cbn. eexists. split; [done|].
  unfold switched. by repeat case_bool_decide.
Qed.

(** [use_dali] from the third iteration on. *)
Lemma use_dali_later xt d w :
  2 <= iter_count (this w) ->
  index_exact (this w) ->
  use_dali [xt] d w
  = Ok (d,
        {| this :=
             put_order
               (switched
                  (if decide (Z.rem (iter_count (this w)) 2 = 0)
                   then (dali_sawptrs d).1 else (dali_sawptrs d).2)
                  (dali_saptr_idxs d) <$> order (this w))
               (this w);
           arrays := arrays w; issued := issued w |}).
Proof.
  intros Hk Hex. unfold use_dali. cbv zeta.
  rewrite decide_False by lia. rewrite decide_False by lia.
  assert (Hrem : Z.rem (iter_count (this w)) 2 = 0 \/ Z.rem (iter_count (this w)) 2 = 1).
  { rewrite Z.rem_mod_nonneg by lia.
    pose proof (Z.mod_pos_bound (iter_count (this w)) 2). lia. }
  unfold pick. destruct Hrem as [-> | ->].
  - rewrite !decide_True by done. cbn [bind]. by rewrite switch_dali_switched.
  - rewrite !decide_False by done. rewrite decide_True by done. cbn [bind].
    by rewrite switch_dali_switched.
Qed.

(** X2: from the third iteration on, [use_dali] does not read the batch
    it is given and keeps its own members: in every record of the two
    remembered IDs the array becomes the one it holds for the parity of
    [iter_count] (the first batch when even, the second when odd; the
    second ID deciding when the IDs are one); every other field of the
    records, every other record and every other member of the scheduler
    are as before. *)
Theorem X2_use_dali_switches xt d w :
  2 <= iter_count (this w) ->
  index_exact (this w) ->
  exists w',
    use_dali [xt] d w = Ok (d, w')
    /\ arrays w' = arrays w
    /\ issued w' = issued w
    /\ but_order (this w') = but_order (this w)
    /\ length (order (this w')) = length (order (this w))
    /\ forall j r, order (this w) !! j = Some r ->
         exists r',
           order (this w') !! j = Some r'
           /\ but_sawptr r' = but_sawptr r
           /\ RecType.sawptr r'
              = let b := if decide (Z.rem (iter_count (this w)) 2 = 0)
                         then (dali_sawptrs d).1 else (dali_sawptrs d).2 in
                if bool_decide (RecType.synced_array_id r = (dali_saptr_idxs d).2) then b.2
                else if bool_decide (RecType.synced_array_id r = (dali_saptr_idxs d).1)
                     then b.1
                     else RecType.sawptr r.
Proof.
  intros Hk Hex. rewrite (use_dali_later xt d w Hk Hex). eexists. split; [reflexivity|].
  cbn [this arrays issued]. split; [done|]. split; [done|]. split; [done|].
  cbn [order put_order]. split; [by rewrite length_fmap|].
  intros j r Hj. by apply switched_fields.
Qed.

(** [use_dali] in the second iteration, with the arrays of the first batch
    alive. *)
Lemma use_dali_second xt d w :
  iter_count (this w) = 1 ->
  lock (arrays w) (dali_sawptrs d).1.1 = true ->
  lock (arrays w) (dali_sawptrs d).1.2 = true ->
  index_exact (this w) ->
  let id0 := find_dali_id (arrays w) (dali_sawptrs d).1.1 (order (this w))
               (dali_saptr_idxs d).1 in
  let id1 := find_dali_id (arrays w) (dali_sawptrs d).1.2 (order (this w))
               (dali_saptr_idxs d).2 in
  use_dali [xt] d w
  = Ok ({| dali_sawptrs := ((dali_sawptrs d).1, xt); dali_saptr_idxs := (id0, id1) |},
        {| this := put_order (switched xt (id0, id1) <$> order (this w)) (this w);
           arrays := arrays w; issued := issued w |}).
Proof.
  intros Hk L1 L2 Hex. cbv zeta. unfold use_dali. cbv zeta.
  rewrite decide_False by lia. rewrite decide_True by done. rewrite L1, L2. cbn [negb].
  by rewrite switch_dali_switched.
Qed.

Lemma find_dali_id_first a saptr ord old :
  first_id_of a saptr ord old (find_dali_id a saptr ord old).
Proof.
  unfold find_dali_id, first_id_of.
  induction ord as [|r0 ord IH]; cbn [List.find].
  { right. split; [|done]. by intros r ?%not_elem_of_nil. }
  destruct (lock a (RecType.sawptr r0) && bool_decide (RecType.sawptr r0 = saptr)) eqn:Hp.
  - apply andb_true_iff in Hp as [Hl Hs%bool_decide_eq_true].
    left. exists 0%nat, r0. split; [done|]. split; [done|]. split; [done|]. split; [done|].
    intros j' r' Hlt. lia.
  - assert (Hno : ~ (lock a (RecType.sawptr r0) = true /\ RecType.sawptr r0 = saptr)).
    { intros [Hl Hs]. by rewrite Hl, bool_decide_eq_true_2 in Hp. }
    destruct IH as [(j & r & Hj & Hl & Hs & Hid & Hmin)|[Hall Hid]].
    + left. exists (S j), r. split; [done|]. split; [done|]. split; [done|]. split; [done|].
      intros [|j'] r' Hlt Hj'; [by injection Hj' as <-|].
      apply (Hmin j' r'); [lia|done].
    + right. split; [|done]. intros r [->|Hr]%elem_of_cons; [done|by apply Hall].
Qed.

(** X3: in the second iteration, with the arrays of the first batch
    alive, [use_dali] remembers for each of them the ID of the first
    record whose array it is (keeping the ID it held when there is none),
    keeps the first batch and stores the batch it is given as the second,
    and in every record of the two IDs the array becomes that of the batch
    it is given (the second ID deciding when the IDs are one); every other
    field of the records, every other record and every other member of the
    scheduler are as before. *)
Theorem X3_use_dali_second_iteration xt d w :
  iter_count (this w) = 1 ->
  lock (arrays w) (dali_sawptrs d).1.1 = true ->
  lock (arrays w) (dali_sawptrs d).1.2 = true ->
  index_exact (this w) ->
  exists id0 id1 d' w',
    first_id_of (arrays w) (dali_sawptrs d).1.1 (order (this w)) (dali_saptr_idxs d).1 id0
    /\ first_id_of (arrays w) (dali_sawptrs d).1.2 (order (this w)) (dali_saptr_idxs d).2 id1
    /\ use_dali [xt] d w = Ok (d', w')
    /\ dali_sawptrs d' = ((dali_sawptrs d).1, xt)
    /\ dali_saptr_idxs d' = (id0, id1)
    /\ arrays w' = arrays w
    /\ issued w' = issued w
    /\ but_order (this w') = but_order (this w)
    /\ length (order (this w')) = length (order (this w))
    /\ forall j r, order (this w) !! j = Some r ->
         exists r',
           order (this w') !! j = Some r'
           /\ but_sawptr r' = but_sawptr r
           /\ RecType.sawptr r'
              = if bool_decide (RecType.synced_array_id r = id1) then xt.2
                else if bool_decide (RecType.synced_array_id r = id0) then xt.1
                     else RecType.sawptr r.
Proof.
  intros Hk L1 L2 Hex. pose proof (use_dali_second xt d w Hk L1 L2 Hex) as H.
  cbv zeta in H. rewrite H. do 4 eexists.
  split; [apply find_dali_id_first|]. split; [apply find_dali_id_first|].
  split; [reflexivity|]. cbn [dali_sawptrs dali_saptr_idxs this arrays issued].
  split; [done|]. split; [done|]. split; [done|]. split; [done|]. split; [done|].
  cbn [order put_order]. split; [by rewrite length_fmap|].
  intros j r Hj. by apply (switched_fields xt (_, _)).
Qed.

Lemma find_dali_id_found a saptr ord old r :
  r ∈ ord -> RecType.sawptr r = saptr -> lock a saptr = true -> one_id ord ->
  find_dali_id a saptr ord old = RecType.synced_array_id r.
Proof.
  intros Hr Hs Hl Hone. unfold find_dali_id.
  destruct (List.find _ ord) as [r'|] eqn:Hf.
  - apply find_some in Hf as [Hin Hp]. apply list_elem_of_In in Hin.
    apply andb_true_iff in Hp as [_ Hp%bool_decide_eq_true].
    apply Hone; [done..|congruence].
  - apply list_elem_of_In in Hr. pose proof (find_none _ _ Hf r Hr) as Hp. cbn in Hp.
    rewrite Hs, Hl, bool_decide_eq_true_2 in Hp by done. done.
Qed.

(** X4: so, when the trace gives every array one ID and every ID one
    array and refers to both arrays of the first batch, the second
    iteration's [use_dali] leaves every record whose array was the first
    batch's target with the target it is given, every record whose array
    was the first batch's input with the input it is given, and the
    other records with the array they had; no other field of a record
    changes. *)
Theorem X4_use_dali_replaces_first_batch xt d w d' w' :
  iter_count (this w) = 1 ->
  lock (arrays w) (dali_sawptrs d).1.1 = true ->
  lock (arrays w) (dali_sawptrs d).1.2 = true ->
  index_exact (this w) ->
  one_id (order (this w)) -> one_handle (order (this w)) ->
  (exists r, r ∈ order (this w) /\ RecType.sawptr r = (dali_sawptrs d).1.1) ->
  (exists r, r ∈ order (this w) /\ RecType.sawptr r = (dali_sawptrs d).1.2) ->
  use_dali [xt] d w = Ok (d', w') ->
  forall j r, order (this w) !! j = Some r ->
    exists r',
      order (this w') !! j = Some r'
      /\ but_sawptr r' = but_sawptr r
      /\ RecType.sawptr r'
         = if bool_decide (RecType.sawptr r = (dali_sawptrs d).1.2) then xt.2
           else if bool_decide (RecType.sawptr r = (dali_sawptrs d).1.1) then xt.1
                else RecType.sawptr r.
Proof.
  intros Hk L1 L2 Hex Hid Hhnd (r1 & Hr1 & Hs1) (r2 & Hr2 & Hs2) H j r Hj.
  rewrite (use_dali_second xt d w Hk L1 L2 Hex) in H. cbv zeta in H.
  injection H as <- <-. cbn [this order put_order].
  destruct (switched_fields xt
              (find_dali_id (arrays w) (dali_sawptrs d).1.1 (order (this w))
                 (dali_saptr_idxs d).1,
               find_dali_id (arrays w) (dali_sawptrs d).1.2 (order (this w))
                 (dali_saptr_idxs d).2)
              (order (this w)) j r Hj) as (r' & Hr' & Hb & Hs).
  exists r'. split; [done|]. split; [done|]. rewrite Hs. cbn [fst snd].
  assert (Hr : r ∈ order (this w)) by by eapply list_elem_of_lookup_2.
  rewrite (find_dali_id_found (arrays w) (dali_sawptrs d).1.1 _ _ r1) by done.
  rewrite (find_dali_id_found (arrays w) (dali_sawptrs d).1.2 _ _ r2) by done.
  rewrite (bool_decide_ext (RecType.synced_array_id r = RecType.synced_array_id r2)
             (RecType.sawptr r = (dali_sawptrs d).1.2)).
  2:{ rewrite <- Hs2. split; [by apply Hhnd|by apply Hid]. }
  rewrite (bool_decide_ext (RecType.synced_array_id r = RecType.synced_array_id r1)
             (RecType.sawptr r = (dali_sawptrs d).1.1)).
  2:{ rewrite <- Hs1. split; [by apply Hhnd|by apply Hid]. }
  done.
Qed.

Lemma switched_switched b b' idxs (ord : list RecType.t) :
  switched b' idxs <$> (switched b idxs <$> ord) = switched b' idxs <$> ord.
Proof.
  rewrite <- list_fmap_compose. apply list_fmap_ext. intros _ r _. cbn. unfold switched.
  destruct (bool_decide (RecType.synced_array_id r = idxs.2)) eqn:H2; cbn; rewrite ?H2; [done|].
  destruct (bool_decide (RecType.synced_array_id r = idxs.1)) eqn:H1; cbn; rewrite ?H2, ?H1;
    done.
Qed.

(** X5: a switch overrides the one before it: from the third iteration
    on, what [use_dali] makes of the trace in iteration [k] is the same
    whether or not an earlier call has switched the arrays. *)
Theorem X5_use_dali_switch_overrides (xt xt' : SyncedArrayPtr * SyncedArrayPtr) d w d1 w1 k :
  2 <= iter_count (this w) -> 2 <= k -> index_exact (this w) ->
  use_dali [xt] d w = Ok (d1, w1) ->
  use_dali [xt'] d1 (with_this (put_iter_count k) w1)
  = use_dali [xt'] d (with_this (put_iter_count k) w).
Proof.
  intros Hw Hk Hex H. rewrite (use_dali_later xt d w Hw Hex) in H. injection H as <- <-.
  rewrite !use_dali_later; cbn; try done.
  - by rewrite switched_switched.
  - apply (index_exact_ids (this w)); [done| |done]. cbn. apply switched_ids.
Qed.

(** ** The executor after the first iteration *)

Lemma swap_in_this w w' : swap_in w = Ok w' -> this w' = this w.
Proof.
  unfold swap_in. apply (for_each_invariant (fun w1 => this w1 = this w)); [|done].
  intros j w1 w2 HP H. split_results H; done.
Qed.

Lemma wait_for_swap_out_scheduled_this w w' :
  wait_for_swap_out_scheduled w = Ok w' -> this w' = this w.
Proof.
  unfold wait_for_swap_out_scheduled.
  apply (for_each_invariant (fun w1 => this w1 = this w)); [|done].
  intros j w1 w2 HP H. unfold wait_for_swap_out_scheduled_body in H. split_results H; done.
Qed.

Lemma put_precleared_same s : put_precleared (precleared s) s = s.
Proof. by destruct s. Qed.

Lemma put_order_idx_same s : put_order_idx (order_idx s) s = s.
Proof. by destruct s. Qed.

(** [swap_out_scheduled] writes [precleared] only, and only to flag. *)
Lemma swap_out_scheduled_this w w' :
  swap_out_scheduled w = Ok w' ->
  exists pc,
    this w' = put_precleared pc (this w)
    /\ forall p, flag (precleared (this w)) p = true -> flag pc p = true.
Proof.
  unfold swap_out_scheduled.
  apply (for_each_invariant
           (fun w1 => exists pc,
              this w1 = put_precleared pc (this w)
              /\ forall p, flag (precleared (this w)) p = true -> flag pc p = true)).
  - intros j w1 w2 (pc & Hpc & Hmono) H. unfold swap_out_scheduled_body in H.
    split_results H; try by exists pc.
    exists (<[RecType.sawptr a := true]> pc). cbn. rewrite Hpc. split; [done|].
    intros p Hp. rewrite flag_insert. destruct (decide _); [done|by apply Hmono].
  - exists (precleared (this w)). by rewrite put_precleared_same.
Qed.

(** X6: after the first iteration a pre-callback changes of the scheduler
    only [func_idx], which it increments, [order_idx], which it may move
    forward to the end of the block, [precleared], where it only sets
    flags, and the installed callback, which is [synced_array_callback]
    again.  The trace, the plan and the accounting are not written. *)
Theorem X6_pre_callback_after_first_iteration w w' :
  first_iter (this w) = false ->
  pre_callback w = Ok w' ->
  exists oi pc,
    this w'
    = put_callback_func (Some (synced_array_callback (this w)))
        (put_func_idx (func_idx (this w) + 1)
           (put_order_idx oi (put_precleared pc (this w))))
    /\ order_idx (this w) <= oi
    /\ forall p, flag (precleared (this w)) p = true -> flag pc p = true.
Proof.
  intros Hfi H. unfold pre_callback in H. cbv zeta in H.
  set (w0 := unset_synced_array_callback w) in *.
  assert (Hstep : exists w1 oi pc,
    (if decide (func_idx (this w0) > 0) then swap_out_step w0 else Ok w0) = Ok w1
    /\ this w1 = put_order_idx oi (put_precleared pc (this w0))
    /\ order_idx (this w) <= oi
    /\ forall p, flag (precleared (this w)) p = true -> flag pc p = true).
  { destruct (decide (func_idx (this w0) > 0)); cbn [bind] in H.
    - destruct (swap_out_step w0) as [w1| |] eqn:H1; cbn [bind] in H; [|done..].
      unfold swap_out_step, swap_out in H1.
      change (first_iter (this w0)) with (first_iter (this w)) in H1.
      rewrite Hfi in H1. cbv iota zeta in H1.
      change (first_iter (this w0)) with (first_iter (this w)) in H1.
      rewrite Hfi in H1.
      destruct (swap_out_scheduled w0) as [wa| |] eqn:Ha; cbn [bind] in H1; [|done..].
      destruct (wait_for_swap_out_scheduled wa) as [wb| |] eqn:Hb; cbn [bind] in H1; [|done..].
      apply swap_out_scheduled_this in Ha as (pc & Ha & Hmono).
      apply wait_for_swap_out_scheduled_this in Hb. rewrite Ha in Hb.
      destruct (func_block_ends_at (this wb) (func_idx (this wb))) as [e| |];
        cbn [bind] in H1; [|done..].
      destruct (decide (order_idx (this wb) < e)) as [Hlt|Hge]; injection H1 as <-.
      + exists (with_this (put_order_idx e) wb), e, pc. split; [done|].
        cbn [this with_this]. rewrite Hb in Hlt |- *. cbn in Hlt.
        split; [done|]. split; [lia|exact Hmono].
      + exists wb, (order_idx (this w)), pc. split; [done|]. rewrite Hb.
        split; [|split; [lia|exact Hmono]]. cbn. by destruct (this w).
    - exists w0, (order_idx (this w)), (precleared (this w)). split; [done|].
      split; [|split; [lia|done]]. cbn. by destruct (this w). }
  destruct Hstep as (w1 & oi & pc & H1 & Hw1 & Hoi & Hmono). rewrite H1 in H. cbn [bind] in H.
  destruct (swap_in_step w1) as [w2| |] eqn:H2; cbn [bind] in H; [|done..].
  injection H as <-. exists oi, pc. split; [|done].
  unfold swap_in_step in H2. cbv zeta in H2. cbn [this with_this] in H2.
  rewrite Hw1 in H2. cbn [first_iter put_func_idx put_order_idx put_precleared w0
    unset_synced_array_callback with_this this put_callback_func] in H2.
  rewrite Hfi in H2. apply swap_in_this in H2. cbn in H2 |- *. rewrite H2, Hw1. done.
Qed.

Lemma swap_in_empty_order w j l :
  order (this w) = [] ->
  schedule_of (swap_in_schedule (this w)) (func_idx (this w) - 1) = j :: l ->
  swap_in w = Undefined.
Proof.
  intros Ho Hs. unfold swap_in. rewrite Hs. cbn [for_each]. rewrite Ho.
  unfold at_. destruct (decide (0 <= j)); [|reflexivity].
  destruct (Z.to_nat j); reflexivity.
Qed.

(** [reset()] empties the trace and keeps [first_iter] and the plan. *)
Lemma reset_leaves w :
  exists wr,
    reset w = Ok wr
    /\ order (this wr) = []
    /\ first_iter (this wr) = first_iter (this w)
    /\ swap_in_schedule (this wr) = swap_in_schedule (this w).
Proof. eexists. by split. Qed.

(** After a reset the first pre-callback reads the trace through the
    plan, whatever follows it. *)
Lemma run_after_reset_undefined w j l ops :
  first_iter (this w) = false ->
  schedule_of (swap_in_schedule (this w)) 0 = j :: l ->
  run (op_reset :: op_start_scheduling :: op_pre_function_callback :: ops) w = Undefined.
Proof.
  intros Hfi Hs. cbn [run step reset start_scheduling bind].
  set (w1 := set_synced_array_callback (with_this init (with_this _ w))).
  unfold pre_callback. cbv zeta.
  assert (H0 : func_idx (this (unset_synced_array_callback w1)) = 0) by reflexivity.
  rewrite H0, decide_False by lia. cbn [bind].
  unfold swap_in_step. cbv zeta.
  set (w2 := with_this _ (unset_synced_array_callback w1)).
  assert (Hf : first_iter (this w2) = false) by exact Hfi.
  rewrite Hf, (swap_in_empty_order w2 j l); [reflexivity|reflexivity|exact Hs].
Qed.

(** X7: [reset()] empties the trace but keeps [first_iter] and the
    schedules, whose entries refer to records of the trace.  When the
    plan prefetches for the first function, the first pre-callback after a
    reset reads a record the trace no longer has. *)
Theorem X7_reset_leaves_the_plan_dangling w j l :
  first_iter (this w) = false ->
  schedule_of (swap_in_schedule (this w)) 0 = j :: l ->
  run [op_reset; op_start_scheduling; op_pre_function_callback] w = Undefined.
Proof.
  intros Hfi Hs. cbn [run step reset start_scheduling bind].
  set (w1 := set_synced_array_callback (with_this init (with_this _ w))).
  unfold pre_callback. cbv zeta.
  assert (H0 : func_idx (this (unset_synced_array_callback w1)) = 0) by reflexivity.
  rewrite H0, decide_False by lia. cbn [bind].
  unfold swap_in_step. cbv zeta.
  set (w2 := with_this _ (unset_synced_array_callback w1)).
  assert (Hf : first_iter (this w2) = false) by exact Hfi.
  rewrite Hf, (swap_in_empty_order w2 j l); [reflexivity|reflexivity|exact Hs].
Qed.

(** X8: the tracer raises in one case only: inside a function, on a
    [get] or [cast] of an array that is flagged precleared; the error is
    [error_code::target_specific_async]. *)
Theorem X8_tracer_raises saptr func_name dtype ctx write_only w e :
  synced_array_callback_tracer saptr func_name dtype ctx write_only w = Err e
  <-> e = error_code.target_specific_async
      /\ func_idx (this w) <> 0
      /\ flag (precleared (this w)) saptr = true
      /\ func_name <> SyncedArrayCallbackTag.CLEAR.
Proof.
  unfold synced_array_callback_tracer. cbv zeta.
  destruct (decide (func_idx (this w) = 0)) as [H0|H0].
  { split; [done|]. by intros (_ & ? & _). }
  destruct (flag (precleared (this w)) saptr) eqn:Hp.
  - destruct func_name; cbn [get_tag bind].
    + split; [|by intros (-> & _)]. intros H. by injection H as <-.
    + split; [|by intros (-> & _)]. intros H. by injection H as <-.
    + split; [|by intros (_ & _ & _ & ?)]. intros H. exfalso.
      apply bind_Err in H as [H|(r & _ & H)]; [by apply at_no_error in H|].
      apply bind_Err in H as [H|(e0 & _ & H)]; [by apply func_block_ends_at_no_error in H|].
      apply bind_Err in H as [H|(s2 & _ & H)]; [|done].
      destruct (_ && _) in H.
      * apply bind_Err in H as [H|(? & _ & H)]; [by apply replace_sawptr_no_error in H|done].
      * by destruct (_ || _) in H.
  - split; [|by intros (_ & _ & ? & _)]. intros H. exfalso. cbn [bind] in H.
    apply bind_Err in H as [H|(r & _ & H)]; [by apply at_no_error in H|].
    apply bind_Err in H as [H|(e0 & _ & H)]; [by apply func_block_ends_at_no_error in H|].
    apply bind_Err in H as [H|(s2 & _ & H)]; [|done].
    destruct (_ && _) in H.
    + apply bind_Err in H as [H|(? & _ & H)]; [by apply replace_sawptr_no_error in H|done].
    + by destruct (_ || _) in H.
Qed.

Lemma swap_out_wrong_order_body_this i r w w' :
  swap_out_wrong_order_body i r w = Ok w' -> this w' = this w.
Proof.
  unfold swap_out_wrong_order_body. intros H.
  destruct (RecType.tag r); [|by injection H as <-].
  destruct (decide _) in H.
  - destruct (_ && _) in H; by injection H as <-.
  - destruct (decide _) in H; [by injection H as <-|done].
Qed.

(** A record of an access on a device the scheduler does not manage. *)
Lemma swap_out_wrong_order_loop_error e l :
  forall w,
    for_each (fun ir : nat * RecType.t => swap_out_wrong_order_body ir.1 ir.2) l w = Err e
    <-> e = error_code.type
        /\ exists ir, ir ∈ l /\ RecType.tag ir.2 = RecTag.GETCAST
           /\ array_class (RecType.ctx ir.2) <> array_class (device_ctx (this w))
           /\ array_class (RecType.ctx ir.2) <> array_class (host_ctx (this w)).
Proof.
  induction l as [|[i r] l IH]; intros w; cbn [for_each fst snd].
  { split; [done|]. intros (_ & ir & Hin & _). by apply not_elem_of_nil in Hin. }
  destruct (swap_out_wrong_order_body i r w) as [w1|e1|] eqn:Hb; cbn [bind].
  - rewrite IH, (swap_out_wrong_order_body_this _ _ _ _ Hb).
    split; intros (-> & ir & Hin & Ht & Hd & Hh); (split; [done|]).
    + exists ir. split; [by apply list_elem_of_further|done].
    + exists ir. split; [|done]. apply elem_of_cons in Hin as [->|Hin]; [|done].
      exfalso. unfold swap_out_wrong_order_body in Hb. cbn [snd] in Ht, Hd, Hh.
      rewrite Ht in Hb. destruct (decide _) in Hb; [done|].
      by destruct (decide _) in Hb.
  - unfold swap_out_wrong_order_body in Hb.
    destruct (RecType.tag r) eqn:Ht; [|done].
    destruct (decide _) as [|Hd] in Hb; [by destruct (_ && _) in Hb|].
    destruct (decide _) as [|Hh] in Hb; [done|]. injection Hb as <-.
    split; [|by intros (-> & _)]. intros H. injection H as <-. split; [done|].
    exists (i, r). split; [apply list_elem_of_here|done].
  - split; [done|]. intros (_ & ir & Hin & Ht & Hd & Hh). exfalso.
    unfold swap_out_wrong_order_body in Hb.
    destruct (RecType.tag r); [|done].
    destruct (decide _) in Hb; [by destruct (_ && _) in Hb|].
    by destruct (decide _) in Hb.
Qed.

(** X9: [swap_out_wrong_order] raises exactly when some access recorded as
    out of order is a [get] or [cast] whose array class is neither the
    device's nor the host's; the error is [error_code::type]. *)
Theorem X9_swap_out_wrong_order_raises w e :
  swap_out_wrong_order w = Err e
  <-> e = error_code.type
      /\ exists r, r ∈ wrong_ordered (this w) /\ RecType.tag r = RecTag.GETCAST
         /\ array_class (RecType.ctx r) <> array_class (device_ctx (this w))
         /\ array_class (RecType.ctx r) <> array_class (host_ctx (this w)).
Proof.
  unfold swap_out_wrong_order. rewrite swap_out_wrong_order_loop_error.
  split; intros (-> & x & Hin & H); (split; [done|]).
  - apply elem_of_lookup_imap in Hin as (i & r & -> & Hr).
    exists r. split; [by eapply list_elem_of_lookup_2|done].
  - apply list_elem_of_lookup in Hin as (i & Hi).
    exists (i, x). split; [|done]. apply elem_of_lookup_imap. by exists i, x.
Qed.

Lemma swap_out_wrong_order_loop_calls s l :
  forall w w',
    this w = s ->
    for_each (fun ir : nat * RecType.t => swap_out_wrong_order_body ir.1 ir.2) l w = Ok w' ->
    this w' = s
    /\ exists new,
         issued w' = issued w ++ new
         /\ Forall
              (fun x =>
                 exists i r,
                   (i, r) ∈ l
                   /\ RecType.tag r = RecTag.GETCAST
                   /\ array_class (RecType.ctx r) = array_class (device_ctx s)
                   /\ x = (in_swap_out_wrong_order, Z.of_nat i,
                           call_cast (RecType.sawptr r) (RecType.dtype r) (host_ctx s)
                             false NONE))
              new.
Proof.
  induction l as [|[i r] l IH]; intros w w' Hs H; cbn [for_each fst snd] in H.
  { injection H as <-. split; [done|]. exists []. by rewrite app_nil_r. }
  destruct (swap_out_wrong_order_body i r w) as [w1| |] eqn:Hb; cbn [bind] in H; [|done..].
  pose proof (swap_out_wrong_order_body_this _ _ _ _ Hb) as Ht.
  apply IH in H as (Hs' & new & Hnew & Hall); [|congruence]. split; [done|].
  assert (Hweak : Forall
            (fun x =>
               exists i0 r0,
                 (i0, r0) ∈ (i, r) :: l
                 /\ RecType.tag r0 = RecTag.GETCAST
                 /\ array_class (RecType.ctx r0) = array_class (device_ctx s)
                 /\ x = (in_swap_out_wrong_order, Z.of_nat i0,
                         call_cast (RecType.sawptr r0) (RecType.dtype r0) (host_ctx s)
                           false NONE))
            new).
  { eapply Forall_impl; [exact Hall|]. intros x (i0 & r0 & Hin & Hx).
    exists i0, r0. split; [by apply list_elem_of_further|done]. }
  unfold swap_out_wrong_order_body in Hb.
  destruct (RecType.tag r) eqn:Htag.
  - destruct (decide _) as [Hd|Hd] in Hb.
    + destruct (_ && _) in Hb; injection Hb as <-.
      * exists ((in_swap_out_wrong_order, Z.of_nat i,
                 call_cast (RecType.sawptr r) (RecType.dtype r) (host_ctx s) false NONE)
                :: new).
        rewrite Hnew. cbn [issue issued]. rewrite <- app_assoc. cbn [app].
        rewrite Hs. split; [done|]. constructor; [|done].
        exists i, r. rewrite Hs in Hd. split; [apply list_elem_of_here|done].
      * by exists new.
    + destruct (decide _) in Hb; [|done]. injection Hb as <-. by exists new.
  - injection Hb as <-. by exists new.
Qed.

(** X10: when [swap_out_wrong_order] returns, the scheduler is as before,
    and every call it made is a synchronous [cast] to the host context of
    the array of a wrong-ordered [get] or [cast] on the device, with the
    recorded dtype; it clears and fetches nothing. *)
Theorem X10_swap_out_wrong_order_casts_to_host w w' :
  swap_out_wrong_order w = Ok w' ->
  this w' = this w
  /\ exists new,
       issued w' = issued w ++ new
       /\ Forall
            (fun x =>
               exists i r,
                 wrong_ordered (this w) !! i = Some r
                 /\ RecType.tag r = RecTag.GETCAST
                 /\ array_class (RecType.ctx r) = array_class (device_ctx (this w))
                 /\ x = (in_swap_out_wrong_order, Z.of_nat i,
                         call_cast (RecType.sawptr r) (RecType.dtype r)
                           (host_ctx (this w)) false NONE))
            new.
Proof.
  unfold swap_out_wrong_order. intros H.
  apply (swap_out_wrong_order_loop_calls (this w)) in H as (Hs & new & Hnew & Hall); [|done].
  split; [done|]. exists new. split; [done|].
  eapply Forall_impl; [exact Hall|]. intros x (i & r & Hin & Hx).
  apply elem_of_lookup_imap in Hin as (i' & r' & [= -> ->] & Hr). by exists i', r'.
Qed.

(** The calls of the prefetch and of the wait are [get]s. *)
Lemma swap_in_gets w w' :
  swap_in w = Ok w' ->
  forall x, x ∈ issued w' -> x ∈ issued w \/ exists p d c f, x.2 = call_get p d c f.
Proof.
  unfold swap_in.
  apply (for_each_invariant
           (fun w1 => forall x, x ∈ issued w1 ->
                        x ∈ issued w \/ exists p d c f, x.2 = call_get p d c f)); [|by left].
  intros j w1 w2 HP H. split_results H; [|done]. intros x Hx. cbn in Hx.
  apply elem_of_app in Hx as [Hx|Hx%list_elem_of_singleton]; [by apply HP|].
  right. rewrite Hx. cbn. by do 4 eexists.
Qed.

Lemma wait_for_swap_out_scheduled_gets w w' :
  wait_for_swap_out_scheduled w = Ok w' ->
  forall x, x ∈ issued w' -> x ∈ issued w \/ exists p d c f, x.2 = call_get p d c f.
Proof.
  unfold wait_for_swap_out_scheduled.
  apply (for_each_invariant
           (fun w1 => forall x, x ∈ issued w1 ->
                        x ∈ issued w \/ exists p d c f, x.2 = call_get p d c f)); [|by left].
  intros j w1 w2 HP H. unfold wait_for_swap_out_scheduled_body in H.
  split_results H; try done. intros x Hx. cbn in Hx.
  apply elem_of_app in Hx as [Hx|Hx%list_elem_of_singleton]; [by apply HP|].
  right. rewrite Hx. cbn. by do 4 eexists.
Qed.

(** Every array [swap_out_scheduled] clears is flagged in [precleared]
    when it returns. *)
Lemma swap_out_scheduled_cleared w w' :
  swap_out_scheduled w = Ok w' ->
  forall x, x ∈ issued w' ->
    x ∈ issued w \/ forall p, x.2 = call_clear p -> flag (precleared (this w')) p = true.
Proof.
  unfold swap_out_scheduled.
  apply (for_each_invariant
           (fun w1 => forall x, x ∈ issued w1 ->
                        x ∈ issued w
                        \/ forall p, x.2 = call_clear p
                                     -> flag (precleared (this w1)) p = true)); [|by left].
  intros j w1 w2 HP H. unfold swap_out_scheduled_body in H.
  split_results H; try done; intros x Hx; cbn in Hx.
  - apply elem_of_app in Hx as [Hx|Hx%list_elem_of_singleton].
    + destruct (HP x Hx) as [?|Hf]; [by left|]. right. intros p Hp. cbn.
      rewrite flag_insert. destruct (decide _); [done|by apply Hf].
    + right. intros p Hp. rewrite Hx in Hp. cbn in Hp. injection Hp as <-. cbn.
      rewrite flag_insert. by rewrite decide_True.
  - apply elem_of_app in Hx as [Hx|Hx%list_elem_of_singleton]; [by apply HP|].
    right. intros p Hp. by rewrite Hx in Hp.
Qed.

(** A pre-callback after the first iteration, taken apart. *)
Lemma pre_callback_later w w' :
  first_iter (this w) = false ->
  pre_callback w = Ok w' ->
  exists w1 oi w2,
    (if decide (func_idx (this w) > 0) then
       do wa <- swap_out_scheduled (unset_synced_array_callback w) ;;
       wait_for_swap_out_scheduled wa
     else Ok (unset_synced_array_callback w)) = Ok w1
    /\ swap_in (with_this (fun s => put_func_idx (func_idx s + 1) s)
                  (with_this (put_order_idx oi) w1)) = Ok w2
    /\ w' = set_synced_array_callback w2.
Proof.
  intros Hfi H. unfold pre_callback in H. cbv zeta in H.
  change (func_idx (this (unset_synced_array_callback w))) with (func_idx (this w)) in H.
  set (w0 := unset_synced_array_callback w) in *.
  assert (Hfi0 : first_iter (this w0) = false) by exact Hfi.
  assert (Hstep : exists w1 oi,
    (if decide (func_idx (this w) > 0) then
       do wa <- swap_out_scheduled w0 ;; wait_for_swap_out_scheduled wa
     else Ok w0) = Ok w1
    /\ first_iter (this w1) = false
    /\ (if decide (func_idx (this w) > 0) then swap_out_step w0 else Ok w0)
       = Ok (with_this (put_order_idx oi) w1)).
  { destruct (decide (func_idx (this w) > 0)); cbn [bind] in H.
    - destruct (swap_out_step w0) as [w1| |] eqn:H1; cbn [bind] in H; [|done..].
      unfold swap_out_step, swap_out in H1. rewrite Hfi0 in H1. cbv iota zeta in H1.
      rewrite Hfi0 in H1.
      destruct (swap_out_scheduled w0) as [wa| |] eqn:Ha; cbn [bind] in H1 |- *; [|done..].
      destruct (wait_for_swap_out_scheduled wa) as [wb| |] eqn:Hb; cbn [bind] in H1;
        [|done..].
      assert (Hfb : first_iter (this wb) = false).
      { apply swap_out_scheduled_this in Ha as (pc & Ha & _).
        apply wait_for_swap_out_scheduled_this in Hb. by rewrite Hb, Ha. }
      destruct (func_block_ends_at (this wb) (func_idx (this wb))) as [e| |];
        cbn [bind] in H1; [|done..].
      destruct (decide (order_idx (this wb) < e)); injection H1 as <-.
      + by exists wb, e.
      + exists wb, (order_idx (this wb)). split; [done|]. split; [done|].
        destruct wb as [s a i]. unfold with_this. cbn. by rewrite put_order_idx_same.
    - exists w0, (order_idx (this w0)). split; [done|]. split; [done|].
      unfold with_this. cbn [this arrays issued]. rewrite put_order_idx_same.
      by destruct w0. }
  destruct Hstep as (w1 & oi & H1 & Hf1 & Hs). rewrite Hs in H. cbn [bind] in H.
  exists w1, oi. unfold swap_in_step in H. cbv zeta in H.
  change (first_iter (this (with_this (fun s => put_func_idx (func_idx s + 1) s)
                              (with_this (put_order_idx oi) w1))))
    with (first_iter (this w1)) in H.
  rewrite Hf1 in H.
  destruct (swap_in _) as [w2| |] eqn:H2; cbn [bind] in H; [|done..].
  injection H as <-. by exists w2.
Qed.

(** X11: after the first iteration, an array a pre-callback has cleared
    ahead of its recorded [clear] is guarded: a [get] or [cast] of it
    that reaches the tracer next raises
    [error_code::target_specific_async]. *)
Theorem X11_precleared_array_is_guarded w w' site j p func_name dtype ctx write_only :
  first_iter (this w) = false ->
  pre_callback w = Ok w' ->
  (site, j, call_clear p) ∈ issued w' ->
  (site, j, call_clear p) ∉ issued w ->
  func_name <> SyncedArrayCallbackTag.CLEAR ->
  synced_array_callback_tracer p func_name dtype ctx write_only w'
  = Err error_code.target_specific_async.
Proof.
  intros Hfi H Hin Hnew Hfn.
  apply pre_callback_later in H as (w1 & oi & w2 & H1 & H2 & ->); [|done].
  pose proof (swap_in_this _ _ H2) as Ht2.
  pose proof (swap_in_gets _ _ H2) as Hg2.
  cbn [issued set_synced_array_callback with_this] in Hin.
  destruct (Hg2 _ Hin) as [Hin1|(? & ? & ? & ? & ?)]; [|done].
  cbn [issued with_this] in Hin1.
  destruct (decide (func_idx (this w) > 0)) as [Hpos|]; [|by injection H1 as <-].
  destruct (swap_out_scheduled (unset_synced_array_callback w)) as [wa| |] eqn:Ha;
    cbn [bind] in H1; [|done..].
  pose proof (wait_for_swap_out_scheduled_this _ _ H1) as Ht1.
  pose proof (wait_for_swap_out_scheduled_gets _ _ H1) as Hg1.
  destruct (Hg1 _ Hin1) as [Hina|(? & ? & ? & ? & ?)]; [|done].
  pose proof (swap_out_scheduled_this _ _ Ha) as (pc & Hta & _).
  pose proof (swap_out_scheduled_cleared _ _ Ha) as Hc.
  destruct (Hc _ Hina) as [?|Hflag]; [done|]. specialize (Hflag p eq_refl).
  unfold synced_array_callback_tracer. cbv zeta.
  cbn [this set_synced_array_callback with_this]. rewrite Ht2. cbn [this with_this].
  rewrite Ht1. cbn [func_idx put_callback_func put_func_idx put_order_idx precleared].
  rewrite Hflag, Hta. cbn [func_idx put_precleared this unset_synced_array_callback with_this
                            put_callback_func].
  rewrite decide_False by lia. by destruct func_name.
Qed.

Lemma ids_exact_one s : ids_exact s -> one_handle (order s) /\ one_id (order s).
Proof.
  intros (_ & _ & Hinj & Hord). split; intros r1 r2 H1 H2 Heq.
  - apply Hord in H1, H2. rewrite <- Heq in H2. by eapply Hinj.
  - apply Hord in H1, H2. rewrite Heq in H1. congruence.
Qed.

Lemma synced_array_callback_recorder_ids_exact saptr func_name dtype ctx write_only w w' :
  ids_exact (this w) ->
  synced_array_callback_recorder saptr func_name dtype ctx write_only w = Ok w' ->
  ids_exact (this w').
Proof.
  intros Hex H.
  unfold synced_array_callback_recorder in H. cbv zeta in H.
  destruct (decide (func_idx (this w) = 0)); [by injection H as <-|].
  destruct (decide (_ > _)) as [|Hsize]; [done|].
  destruct Hex as (Hpos & Hrange & Hinj & Hord).
  destruct (IdMapper.find (synced_array_id_mapper (this w)) saptr) as [id|] eqn:Hfind.
  - rewrite Hfind in H. injection H as <-.
    split; [done|]. split; [done|]. split; [done|]. cbn.
    intros r [Hr|Hr%list_elem_of_singleton]%elem_of_app; [by apply Hord|]. by rewrite Hr.
  - cbn [IdMapper.find IdMapper.insert] in H. rewrite decide_True in H by done.
    injection H as <-. unfold ids_exact. cbn.
    assert (Hmod : IdMapper.size (synced_array_id_mapper (this w)) `mod` 2 ^ 32
                   = IdMapper.size (synced_array_id_mapper (this w))).
    { apply Z.mod_small. unfold UINT_MAX in Hsize. lia. }
    rewrite Hmod. split; [lia|]. split; [|split].
    + intros p id. destruct (decide (p = saptr)); [intros [= <-]; lia|].
      intros H%Hrange. lia.
    + intros p q id. destruct (decide (p = saptr)) as [->|];
        destruct (decide (q = saptr)) as [->|]; [done|..].
      * intros [= <-] H%Hrange. lia.
      * intros H%Hrange [= <-]. lia.
      * apply Hinj.
    + intros r [Hr|Hr%list_elem_of_singleton]%elem_of_app.
      * destruct (decide (RecType.sawptr r = saptr)) as [Heq|]; [|by apply Hord].
        apply Hord in Hr. rewrite Heq in Hr. congruence.
      * rewrite Hr. cbn. by rewrite decide_True.
Qed.

(** X12: the recorder hands out IDs one to one.  While the ID map and the
    trace agree, they still agree after a recorded access, so in the trace
    the records of one ID refer to one array and one array has one ID. *)
Theorem X12_recorder_ids_one_to_one saptr func_name dtype ctx write_only w w' :
  ids_exact (this w) ->
  synced_array_callback_recorder saptr func_name dtype ctx write_only w = Ok w' ->
  ids_exact (this w') /\ one_handle (order (this w')) /\ one_id (order (this w')).
Proof.
  intros Hex H.
  apply synced_array_callback_recorder_ids_exact in H; [|done].
  split; [done|by apply ids_exact_one].
Qed.

(** ** The function counter *)

Lemma swap_out_first_iter_body_control i w w' :
  swap_out_first_iter_body i w = Ok w' ->
  func_idx (this w') = func_idx (this w) /\ first_iter (this w') = first_iter (this w).
Proof. unfold swap_out_first_iter_body. intros H. split_results H; done. Qed.

Lemma swap_out_first_iter_control w w' :
  swap_out_first_iter w = Ok w' ->
  func_idx (this w') = func_idx (this w) /\ first_iter (this w') = first_iter (this w).
Proof.
  unfold swap_out_first_iter. intros H.
  destruct (func_block_ends_at _ _) as [first| |]; cbn [bind] in H; [|done..].
  destruct (func_block_ends_at _ _) as [last| |]; cbn [bind] in H; [|done..].
  rewrite for_loop_nat in H.
  apply (for_nat_invariant
           (fun _ w1 => func_idx (this w1) = func_idx (this w)
                        /\ first_iter (this w1) = first_iter (this w))) in H; [done| |done].
  intros k y y' _ [Hf Hi] Hb. apply swap_out_first_iter_body_control in Hb as [-> ->]. done.
Qed.

Lemma wait_for_swap_out_first_iter_impl_control w w' :
  wait_for_swap_out_first_iter_impl w = Ok w' ->
  func_idx (this w') = func_idx (this w) /\ first_iter (this w') = first_iter (this w).
Proof.
  unfold wait_for_swap_out_first_iter_impl. cbv zeta. intros H.
  destruct (at_ _ _) as [r| |]; cbn [bind] in H; [|done..].
  destruct (RecType.tag r); [|by injection H as <-].
  destruct (RecType.swapped_out r); injection H as <-; [|done].
  by destruct (_ && _).
Qed.

Lemma wait_for_swap_out_first_iter_loop_control fuel :
  forall w w',
    wait_for_swap_out_first_iter_loop fuel w = Ok w' ->
    func_idx (this w') = func_idx (this w) /\ first_iter (this w') = first_iter (this w).
Proof.
  induction fuel as [|fuel IH]; intros w w' H; cbn in H.
  - destruct (decide _); [done|]. by injection H as <-.
  - destruct (decide _); [|by injection H as <-].
    destruct (wait_for_swap_out_first_iter_impl w) as [w1| |] eqn:H1; cbn [bind] in H;
      [|done..].
    apply wait_for_swap_out_first_iter_impl_control in H1 as [<- <-]. by apply IH.
Qed.

Lemma swap_out_control w w' :
  swap_out w = Ok w' ->
  func_idx (this w') = func_idx (this w) /\ first_iter (this w') = first_iter (this w).
Proof.
  unfold swap_out. intros H. destruct (first_iter (this w)) eqn:Hfi.
  - destruct (swap_out_first_iter w) as [w1| |] eqn:H1; cbn [bind] in H; [|done..].
    apply swap_out_first_iter_control in H1 as [<- Hf].
    apply wait_for_swap_out_first_iter_loop_control in H as [-> ->]. by rewrite Hf.
  - destruct (swap_out_scheduled w) as [w1| |] eqn:H1; cbn [bind] in H; [|done..].
    apply swap_out_scheduled_this in H1 as (pc & H1 & _).
    apply wait_for_swap_out_scheduled_this in H. rewrite H, H1. by rewrite <- Hfi.
Qed.

Lemma swap_out_step_control w w' :
  swap_out_step w = Ok w' ->
  func_idx (this w') = func_idx (this w) /\ first_iter (this w') = first_iter (this w).
Proof.
  unfold swap_out_step. cbv zeta. intros H.
  destruct (swap_out _) as [w1| |] eqn:H1; cbn [bind] in H; [|done..].
  apply swap_out_control in H1 as [Hf Hi].
  assert (func_idx (this w1) = func_idx (this w) /\ first_iter (this w1) = first_iter (this w))
    as [Hf' Hi'].
  { rewrite Hf, Hi. by destruct (first_iter (this w)) eqn:E. }
  destruct (func_block_ends_at _ _) as [e| |]; cbn [bind] in H; [|done..].
  destruct (decide _); by injection H as <-.
Qed.

Lemma pre_callback_control w w' :
  pre_callback w = Ok w' ->
  func_idx (this w') = func_idx (this w) + 1 /\ first_iter (this w') = first_iter (this w).
Proof.
  unfold pre_callback. cbv zeta. intros H.
  destruct (if decide _ then _ else _) as [w1| |] eqn:H1; cbn [bind] in H; [|done..].
  assert (func_idx (this w1) = func_idx (this w) /\ first_iter (this w1) = first_iter (this w))
    as [Hf Hi].
  { destruct (decide _) in H1; [by apply swap_out_step_control in H1|by injection H1 as <-]. }
  destruct (swap_in_step w1) as [w2| |] eqn:H2; cbn [bind] in H; [|done..].
  injection H as <-. unfold swap_in_step in H2. cbv zeta in H2.
  destruct (first_iter _) in H2; [by injection H2 as <-; cbn; rewrite Hf, Hi|].
  apply swap_in_this in H2. cbn. rewrite H2. cbn. by rewrite Hf, Hi.
Qed.

Lemma synced_array_callback_recorder_control saptr func_name dtype ctx write_only w w' :
  synced_array_callback_recorder saptr func_name dtype ctx write_only w = Ok w' ->
  func_idx (this w') = func_idx (this w) /\ first_iter (this w') = first_iter (this w).
Proof. unfold synced_array_callback_recorder. intros H. split_results H; done. Qed.

Lemma synced_array_callback_tracer_control saptr func_name dtype ctx write_only w w' :
  synced_array_callback_tracer saptr func_name dtype ctx write_only w = Ok w' ->
  func_idx (this w') = func_idx (this w) /\ first_iter (this w') = first_iter (this w).
Proof.
  unfold synced_array_callback_tracer. cbv zeta. intros H.
  destruct (decide _); [by injection H as <-|].
  destruct (if flag _ _ then _ else _) as [s1| |] eqn:H1; cbn [bind] in H; [|done..].
  assert (func_idx s1 = func_idx (this w) /\ first_iter s1 = first_iter (this w)) as [Hf Hi].
  { destruct (flag _ _) in H1; [|by injection H1 as <-].
    destruct (get_tag _ _) in H1; [done|]. by injection H1 as <-. }
  destruct (at_ _ _) as [rec| |]; cbn [bind] in H; [|done..].
  destruct (func_block_ends_at _ _) as [e| |]; cbn [bind] in H; [|done..].
  destruct (_ && _) in H.
  - destruct (replace_sawptr _ _ _) as [ord| |]; cbn [bind] in H; [|done..].
    by injection H as <-.
  - destruct (_ || _) in H; by injection H as <-.
Qed.

(** X13: between [start_scheduling] and [end_scheduling], [func_idx] counts
    the pre-callbacks: a run of callbacks, accesses and changes of the
    store that returns has advanced it by the number of pre-function and
    pre-update callbacks, in the first iteration and in the later ones
    alike, and has left [first_iter] as it was. *)
Theorem X13_func_idx_counts_pre_callbacks ops :
  forall w w',
    forallb inside_iteration ops = true ->
    run ops w = Ok w' ->
    func_idx (this w')
    = func_idx (this w) + Z.of_nat (length (filter (fun o => is_pre_callback o = true) ops))
    /\ first_iter (this w') = first_iter (this w).
Proof.
  induction ops as [|o ops IH]; intros w w' Hin H; cbn [run] in H.
  { injection H as <-. cbn. split; [lia|done]. }
  cbn [forallb] in Hin. apply andb_prop in Hin as [Ho Hin].
  destruct (step o w) as [w1| |] eqn:H1; cbn [bind] in H; [|done..].
  apply IH in H as [-> ->]; [|done].
  destruct o; cbn [inside_iteration] in Ho; try done; cbn [step] in H1.
  - apply pre_callback_control in H1 as [-> ->].
    rewrite filter_cons_True by done. cbn [length]. split; [lia|done].
  - injection H1 as <-. rewrite filter_cons_False by done. split; [lia|done].
  - apply pre_callback_control in H1 as [-> ->].
    rewrite filter_cons_True by done. cbn [length]. split; [lia|done].
  - injection H1 as <-. rewrite filter_cons_False by done. split; [lia|done].
  - rewrite filter_cons_False by done.
    destruct (callback_func (this w)) as [[]|].
    + apply synced_array_callback_recorder_control in H1 as [-> ->]. split; [lia|done].
    + apply synced_array_callback_tracer_control in H1 as [-> ->]. split; [lia|done].
    + injection H1 as <-. split; [lia|done].
  - injection H1 as <-. rewrite filter_cons_False by done. cbn. split; [lia|done].
Qed.

(** ** Waiting for the swap-outs of the first iteration *)

(** One round of the wait: the record at [tail] is no longer marked as
    swapped out, the others are as before. *)
Lemma wait_for_swap_out_first_iter_impl_waits w :
  0 <= tail (this w) < Z.of_nat (length (order (this w))) ->
  exists w',
    wait_for_swap_out_first_iter_impl w = Ok w'
    /\ tail (this w') = tail (this w) + 1
    /\ length (order (this w')) = length (order (this w))
    /\ (forall i, i <> Z.to_nat (tail (this w)) ->
          order (this w') !! i = order (this w) !! i)
    /\ (forall r, order (this w') !! Z.to_nat (tail (this w)) = Some r ->
          RecType.tag r = RecTag.GETCAST -> RecType.swapped_out r = false).
Proof.
  intros Ht. unfold wait_for_swap_out_first_iter_impl, at_. cbv zeta.
  rewrite decide_True by lia.
  destruct (order (this w) !! Z.to_nat (tail (this w))) as [r|] eqn:Hr.
  2: { apply lookup_ge_None in Hr. lia. }
  cbn [bind]. destruct (RecType.tag r) eqn:Htag.
  - destruct (RecType.swapped_out r) eqn:Hso.
    + eexists. split; [done|]. unfold store_at.
      destruct (_ && _); cbn; rewrite length_insert;
        (split; [done|]; split; [done|]; split;
         [by intros i Hi; rewrite list_lookup_insert_ne|]);
        (rewrite list_lookup_insert_eq by lia; by intros ? [= <-]).
    + eexists. split; [done|]. cbn. split; [done|]. split; [done|]. split; [done|].
      intros r' Hr' _. congruence.
  - eexists. split; [done|]. cbn. split; [done|]. split; [done|]. split; [done|].
    intros r' Hr' Hg. congruence.
Qed.

Lemma wait_for_all_swap_out_loop_drains fuel :
  forall w,
    0 <= tail (this w) ->
    Z.of_nat (length (order (this w))) - tail (this w) <= Z.of_nat fuel ->
    exists w',
      wait_for_all_swap_out_loop fuel w = Ok w'
      /\ tail (this w') = Z.max (tail (this w)) (Z.of_nat (length (order (this w))))
      /\ length (order (this w')) = length (order (this w))
      /\ (forall i, Z.of_nat i < tail (this w) ->
            order (this w') !! i = order (this w) !! i)
      /\ (forall i r, tail (this w) <= Z.of_nat i -> order (this w') !! i = Some r ->
            RecType.tag r = RecTag.GETCAST -> RecType.swapped_out r = false).
Proof.
  induction fuel as [|fuel IH]; intros w Ht Hfuel; cbn [wait_for_all_swap_out_loop].
  - rewrite decide_False by lia. exists w. split; [done|]. split; [lia|].
    split; [done|]. split; [done|]. intros i r Hi Hr%lookup_lt_Some. lia.
  - destruct (decide (tail (this w) < Z.of_nat (length (order (this w))))) as [Hlt|Hge].
    2: { exists w. split; [done|]. split; [lia|]. split; [done|]. split; [done|].
         intros i r Hi Hr%lookup_lt_Some. lia. }
    destruct (wait_for_swap_out_first_iter_impl_waits w ltac:(lia))
      as (w1 & -> & Ht1 & Hl1 & Hne1 & Hat1).
    cbn [bind].
    destruct (IH w1 ltac:(lia) ltac:(lia)) as (w' & -> & Ht' & Hl' & Hlow & Hhigh).
    exists w'. split; [done|]. split; [lia|]. split; [congruence|]. split.
    + intros i Hi. rewrite Hlow by lia. apply Hne1. lia.
    + intros i r Hi Hr Hg.
      destruct (decide (i = Z.to_nat (tail (this w)))) as [->|Hne].
      * rewrite Hlow in Hr by lia. by apply Hat1.
      * apply (Hhigh i r); [lia|done..].
Qed.

(** X14: [wait_for_all_swap_out], called with a [tail] that is not
    negative, returns with [tail] at the end of the trace; no [get] or
    [cast] record from the old [tail] on is marked as swapped out any
    more, and the records before it are as they were. *)
Theorem X14_wait_for_all_swap_out_drains w :
  0 <= tail (this w) ->
  exists w',
    wait_for_all_swap_out w = Ok w'
    /\ tail (this w') = Z.max (tail (this w)) (Z.of_nat (length (order (this w))))
    /\ length (order (this w')) = length (order (this w))
    /\ (forall i, Z.of_nat i < tail (this w) ->
          order (this w') !! i = order (this w) !! i)
    /\ (forall i r, tail (this w) <= Z.of_nat i -> order (this w') !! i = Some r ->
          RecType.tag r = RecTag.GETCAST -> RecType.swapped_out r = false).
Proof.
  intros Ht. unfold wait_for_all_swap_out. apply wait_for_all_swap_out_loop_drains; lia.
Qed.

Lemma accesses_outside_functions ops :
  forall w, func_idx (this w) = 0 -> forallb is_access ops = true -> run ops w = Ok w.
Proof.
  induction ops as [|o ops IH]; intros w Hf Hops; [done|].
  cbn [forallb] in Hops. apply andb_prop in Hops as [Ho Hops].
  destruct o; try done. cbn [run step].
  assert (Hstep : match callback_func (this w) with
                  | None => Ok w
                  | Some synced_array_callback_recorder_ =>
                    synced_array_callback_recorder saptr func_name dtype ctx write_only w
                  | Some synced_array_callback_tracer_ =>
                    synced_array_callback_tracer saptr func_name dtype ctx write_only w
                  end = Ok w).
  { destruct (callback_func (this w)) as [[]|]; [| |done].
    - unfold synced_array_callback_recorder. by rewrite decide_True.
    - unfold synced_array_callback_tracer. by rewrite decide_True. }
  rewrite Hstep. cbn [bind]. by apply IH.
Qed.

(** X15: the accesses made between [start_scheduling] and the first
    pre-callback are neither recorded nor traced, and none of them raises:
    the scheduler is as [start_scheduling] left it. *)
Theorem X15_accesses_before_the_first_function ops w :
  forallb is_access ops = true ->
  run (op_start_scheduling :: ops) w = start_scheduling w.
Proof.
  intros Hops. cbn [run step]. unfold start_scheduling. cbn [bind].
  by apply accesses_outside_functions.
Qed.

(** X16: what the recorder builds.  A block of accesses that reach the
    recorder, from a state where [order_idx] is the length of the trace,
    the index lists for every ID the positions of its records and the ID
    map agrees with the trace, ends in such a state: the trace it leaves
    has one array per ID, one ID per array, and an exact index. *)
Theorem X16_recorded_block_is_consistent ops :
  forall w w',
    forallb is_access ops = true ->
    callback_func (this w) = Some synced_array_callback_recorder_ ->
    order_idx (this w) = Z.of_nat (length (order (this w))) ->
    index_exact (this w) ->
    ids_exact (this w) ->
    run ops w = Ok w' ->
    order_idx (this w') = Z.of_nat (length (order (this w')))
    /\ index_exact (this w')
    /\ ids_exact (this w')
    /\ one_handle (order (this w'))
    /\ one_id (order (this w')).
Proof.
  induction ops as [|o ops IH]; intros w w' Hops Hcb Hidx Hex Hids H; cbn [run] in H.
  { injection H as <-. split; [done|]. split; [done|]. split; [done|].
    by apply ids_exact_one. }
  cbn [forallb] in Hops. apply andb_prop in Hops as [Ho Hops].
  destruct o; try done. cbn [step] in H. rewrite Hcb in H.
  destruct (synced_array_callback_recorder _ _ _ _ _ w) as [w1| |] eqn:H1; cbn [bind] in H;
    [|done..].
  apply (IH w1); [done| | | | |done].
  - rewrite <- Hcb. clear -H1. unfold synced_array_callback_recorder in H1.
    split_results H1; done.
  - by apply (synced_array_callback_recorder_index_exact _ _ _ _ _ _ _ H1).
  - by apply (synced_array_callback_recorder_index_exact _ _ _ _ _ _ _ H1).
  - by eapply synced_array_callback_recorder_ids_exact.
Qed.


(** ** The errors of the entry points *)

Lemma for_each_error {A} (P : error_code.t -> Prop) (body : A -> World -> result World) l :
  (forall a w e, body a w = Err e -> P e) ->
  forall w e, for_each body l w = Err e -> P e.
Proof.
  intros Hb. induction l as [|a l IH]; intros w e H; cbn [for_each] in H; [done|].
  apply bind_Err in H as [H|(w1 & _ & H)]; [by eapply Hb|by eapply IH].
Qed.

Lemma for_loop_error {X} (P : error_code.t -> Prop) (body : Z -> X -> result X)
    first last x e :
  (forall i y e, body i y = Err e -> P e) ->
  for_loop body first last x = Err e -> P e.
Proof.
  intros Hb H. rewrite for_loop_nat in H.
  apply for_nat_error in H as (k & y & _ & _ & H). by eapply Hb.
Qed.

Lemma swap_in_no_error w e : swap_in w <> Err e.
Proof.
  intros H. unfold swap_in in H.
  apply (for_each_error (fun _ => False)) in H; [done|]. clear. intros j w e H.
  apply bind_Err in H as [H|(r & _ & H)]; [by apply at_no_error in H|].
  by destruct (lock _ _).
Qed.

Lemma swap_out_scheduled_no_error w e : swap_out_scheduled w <> Err e.
Proof.
  intros H. unfold swap_out_scheduled in H.
  apply (for_each_error (fun _ => False)) in H; [done|]. clear. intros j w e H.
  apply bind_Err in H as [H|(r & _ & H)]; [by apply at_no_error in H|].
  cbv zeta in H. destruct (lock _ _); [|done].
  destruct (RecType.preclear r); [done|]. by destruct (negb _).
Qed.

Lemma wait_for_swap_out_scheduled_no_error w e : wait_for_swap_out_scheduled w <> Err e.
Proof.
  intros H. unfold wait_for_swap_out_scheduled in H.
  apply (for_each_error (fun _ => False)) in H; [done|]. clear. intros j w e H.
  apply bind_Err in H as [H|(r & _ & H)]; [by apply at_no_error in H|].
  destruct (RecType.no_need_swap_out r); [done|]. cbv zeta in H. by destruct (_ && _).
Qed.

Lemma wait_for_swap_out_first_iter_impl_no_error w e :
  wait_for_swap_out_first_iter_impl w <> Err e.
Proof.
  intros H. unfold wait_for_swap_out_first_iter_impl in H. cbv zeta in H.
  apply bind_Err in H as [H|(r & _ & H)]; [by apply at_no_error in H|].
  destruct (RecType.tag r); [|done]. by destruct (RecType.swapped_out r).
Qed.

Lemma wait_for_swap_out_first_iter_loop_no_error fuel e :
  forall w, wait_for_swap_out_first_iter_loop fuel w <> Err e.
Proof.
  induction fuel as [|fuel IH]; intros w H; cbn in H; (destruct (decide _); [|done]);
    [done|].
  apply bind_Err in H as [H|(w1 & _ & H)];
    [by apply wait_for_swap_out_first_iter_impl_no_error in H|by apply IH in H].
Qed.

Lemma wait_for_all_swap_out_no_error w e : wait_for_all_swap_out w <> Err e.
Proof.
  unfold wait_for_all_swap_out. generalize (length (order (this w))). intros fuel.
  revert w. induction fuel as [|fuel IH]; intros w H; cbn in H;
    (destruct (decide _); [|done]); [done|].
  apply bind_Err in H as [H|(w1 & _ & H)];
    [by apply wait_for_swap_out_first_iter_impl_no_error in H|by apply IH in H].
Qed.

Lemma wait_for_all_swap_out_control w w' :
  wait_for_all_swap_out w = Ok w' -> first_iter (this w') = first_iter (this w).
Proof.
  unfold wait_for_all_swap_out. generalize (length (order (this w))). intros fuel.
  revert w. induction fuel as [|fuel IH]; intros w H; cbn in H;
    (destruct (decide _); [|by injection H as <-]); [by injection H as <-|].
  destruct (wait_for_swap_out_first_iter_impl w) as [w1| |] eqn:H1; cbn [bind] in H;
    [|done..].
  apply wait_for_swap_out_first_iter_impl_control in H1 as [_ <-]. by apply IH.
Qed.

Lemma swap_out_first_iter_error w e : swap_out_first_iter w = Err e -> e = error_code.type.
Proof.
  unfold swap_out_first_iter. intros H.
  apply bind_Err in H as [H|(first & _ & H)]; [by apply func_block_ends_at_no_error in H|].
  apply bind_Err in H as [H|(last & _ & H)]; [by apply func_block_ends_at_no_error in H|].
  apply (for_loop_error (fun e => e = error_code.type)) in H; [done|]. clear.
  intros i w e H. unfold swap_out_first_iter_body in H. cbv zeta in H.
  apply bind_Err in H as [H|(r & _ & H)]; [by apply at_no_error in H|].
  destruct (RecType.tag r); [|done].
  destruct (decide _) in H; [by destruct (_ && _) in H|].
  destruct (decide _) in H; [done|]. by injection H as <-.
Qed.

(** The post-step of a function raises in the first iteration only. *)
Lemma swap_out_step_error w e :
  swap_out_step w = Err e -> e = error_code.type /\ first_iter (this w) = true.
Proof.
  unfold swap_out_step. cbv zeta. intros H.
  apply bind_Err in H as [H|(w1 & _ & H)].
  - unfold swap_out in H. destruct (first_iter (this w)) eqn:Hfi.
    + cbn [this with_this first_iter put_func_block_ends] in H. rewrite Hfi in H.
      apply bind_Err in H as [H|(w1 & _ & H)]; [by apply swap_out_first_iter_error in H|].
      by apply wait_for_swap_out_first_iter_loop_no_error in H.
    + rewrite Hfi in H.
      apply bind_Err in H as [H|(w1 & _ & H)]; [by apply swap_out_scheduled_no_error in H|].
      by apply wait_for_swap_out_scheduled_no_error in H.
  - apply bind_Err in H as [H|(e0 & _ & H)]; [by apply func_block_ends_at_no_error in H|].
    by destruct (decide _).
Qed.

(** X18: a pre-callback raises nothing but [error_code::type], and only
    in the first iteration, when it swaps out the arrays of the function
    before. *)
Theorem X18_pre_callback_raises w e :
  pre_callback w = Err e ->
  e = error_code.type /\ first_iter (this w) = true /\ func_idx (this w) > 0.
Proof.
  unfold pre_callback. cbv zeta. intros H.
  apply bind_Err in H as [H|(w1 & _ & H)].
  - destruct (decide _) as [Hpos|] in H; [|done].
    apply swap_out_step_error in H as [-> Hfi]. done.
  - apply bind_Err in H as [H|(w2 & _ & H)]; [|done].
    unfold swap_in_step in H. cbv zeta in H. destruct (first_iter _) in H; [done|].
    by apply swap_in_no_error in H.
Qed.

(** The planner raises [error_code::type] and [error_code::memory] only. *)
Lemma schedule_swap_in_error s q e : schedule_swap_in s q = Err e -> e = error_code.type.
Proof.
  unfold schedule_swap_in. generalize (length (order s)). intros fuel.
  generalize {| si_this := s; si_queue := q; host_uses_this_synced_array := ∅;
                si_schedule := [] |}.
  induction fuel as [|fuel IH]; intros x H; cbn in H; (destruct (decide _); [|done]);
    [done|].
  apply bind_Err in H as [H|([x'|x'] & _ & H)]; [|by apply IH in H|done].
  unfold schedule_swap_in_body in H. cbv zeta in H.
  apply bind_Err in H as [H|(r & _ & H)]; [by apply at_no_error in H|].
  destruct (RecType.tag r); [|done].
  destruct (decide _) in H.
  - destruct (decide _) in H; [done|].
    apply bind_Err in H as [H|(s' & _ & H)]; [|done].
    destruct (_ && _) in H; [by apply cancel_swap_out_no_error in H|done].
  - destruct (decide _) in H; [done|]. by injection H as <-.
Qed.

Lemma schedule_swap_out_error s q fid e :
  schedule_swap_out s q fid = Err e -> e = error_code.type.
Proof.
  unfold schedule_swap_out. intros H.
  apply bind_Err in H as [H|(first & _ & H)]; [by apply func_block_ends_at_no_error in H|].
  apply bind_Err in H as [H|(last & _ & H)]; [by apply func_block_ends_at_no_error in H|].
  apply (for_loop_error (fun e => e = error_code.type)) in H; [done|]. clear.
  intros i x e H. unfold schedule_swap_out_body in H. cbv zeta in H.
  apply bind_Err in H as [H|(r & _ & H)]; [by apply at_no_error in H|].
  destruct (RecType.tag r); [|done].
  destruct (decide _) in H; [done|].
  destruct (decide _) in H; [done|]. by injection H as <-.
Qed.

Lemma schedule_error s e :
  schedule s = Err e -> e = error_code.type \/ e = error_code.memory.
Proof.
  unfold schedule. intros H.
  apply bind_Err in H as [H|(x & _ & H)].
  - apply (for_loop_error (fun e => e = error_code.type \/ e = error_code.memory)) in H;
      [done|]. clear. intros fid x e H. unfold schedule_round in H.
    apply bind_Err in H as [H|(x1 & _ & H)].
    { unfold plan_swap_in in H. cbv zeta in H.
      apply bind_Err in H as [H|(y & _ & H)]; [left; by eapply schedule_swap_in_error|].
      apply bind_Err in H as [H|(e0 & _ & H)];
        [by apply func_block_ends_at_no_error in H|].
      destruct (decide _) in H; [|done]. injection H as <-. by right. }
    apply bind_Err in H as [H|(x2 & _ & H)].
    { unfold plan_swap_out in H.
      apply bind_Err in H as [H|(y & _ & H)]; [left; by eapply schedule_swap_out_error|done]. }
    unfold plan_wait in H.
    apply bind_Err in H as [H|(y & _ & H)]; [|done].
    by apply schedule_wait_for_swap_out_loop_no_error in H.
  - apply bind_Err in H as [H|(y & _ & H)]; [|done].
    by apply schedule_wait_for_all_swap_out_loop_no_error in H.
Qed.

(** X19: [end_scheduling] raises nothing but [error_code::type] and
    [error_code::memory], and after the first iteration, when it does not
    plan, only [error_code::type], for an access out of order on a device
    the scheduler does not manage. *)
Theorem X19_end_scheduling_raises w e :
  end_scheduling w = Err e ->
  (first_iter (this w) = true /\ (e = error_code.type \/ e = error_code.memory))
  \/ (first_iter (this w) = false /\ e = error_code.type
      /\ exists r, r ∈ wrong_ordered (this w) /\ RecType.tag r = RecTag.GETCAST
         /\ array_class (RecType.ctx r) <> array_class (device_ctx (this w))
         /\ array_class (RecType.ctx r) <> array_class (host_ctx (this w))).
Proof.
  unfold end_scheduling, finalize. intros H.
  set (w0 := unset_synced_array_callback w) in *.
  assert (Hfi0 : first_iter (this w0) = first_iter (this w)) by done.
  apply bind_Err in H as [H|(w1 & H1 & H)].
  { destruct (decide _) in H; [|done]. apply swap_out_step_error in H as [-> Hfi].
    left. rewrite <- Hfi0. by split; [|left]. }
  assert (Hw1 : first_iter (this w1) = first_iter (this w)
                /\ (first_iter (this w) = false ->
                    wrong_ordered (this w1) = wrong_ordered (this w)
                    /\ device_ctx (this w1) = device_ctx (this w)
                    /\ host_ctx (this w1) = host_ctx (this w))).
  { destruct (decide _) in H1; [|by injection H1 as <-].
    pose proof (swap_out_step_control _ _ H1) as [_ Hf]. split; [congruence|].
    intros Hfi. unfold swap_out_step, swap_out in H1. cbv zeta in H1.
    rewrite Hfi0, Hfi in H1. cbv iota in H1. rewrite Hfi0, Hfi in H1.
    destruct (swap_out_scheduled w0) as [wa| |] eqn:Ha; cbn [bind] in H1; [|done..].
    destruct (wait_for_swap_out_scheduled wa) as [wb| |] eqn:Hb; cbn [bind] in H1;
      [|done..].
    apply swap_out_scheduled_this in Ha as (pc & Ha & _).
    apply wait_for_swap_out_scheduled_this in Hb. rewrite Ha in Hb.
    destruct (func_block_ends_at _ _) as [e0| |]; cbn [bind] in H1; [|done..].
    destruct (decide _) in H1; injection H1 as <-; cbn; by rewrite Hb. }
  destruct Hw1 as [Hf1 Hlater].
  apply bind_Err in H as [H|(w2 & H2 & H)].
  { destruct (first_iter (this w)) eqn:Hfi.
    - left. split; [done|]. left.
      unfold swap_out_wrong_order in H. by apply swap_out_wrong_order_loop_error in H as [-> _].
    - right. split; [done|]. destruct (Hlater eq_refl) as (Hwo & Hd & Hh).
      unfold swap_out_wrong_order in H.
      apply swap_out_wrong_order_loop_error in H as (-> & x & Hin & Hx). split; [done|].
      apply elem_of_lookup_imap in Hin as (i & r & -> & Hr).
      exists r. rewrite <- Hwo, <- Hd, <- Hh.
      split; [by eapply list_elem_of_lookup_2|done]. }
  apply bind_Err in H as [H|(w3 & H3 & H)]; [by apply wait_for_all_swap_out_no_error in H|].
  apply bind_Err in H as [H|(w4 & _ & H)]; [|done].
  assert (Hf3 : first_iter (this w3) = first_iter (this w)).
  { apply wait_for_all_swap_out_control in H3. rewrite H3.
    unfold swap_out_wrong_order in H2.
    apply (swap_out_wrong_order_loop_calls (this w1)) in H2 as [-> _]; done. }
  rewrite Hf3 in H. destruct (first_iter (this w)); [|done].
  left. split; [done|].
  apply bind_Err in H as [H|(s & _ & H)]; [by apply schedule_error in H|done].
Qed.

(** ** What the planner keeps *)

Lemma planner_frame_refl s : planner_frame s s.
Proof. done. Qed.

Lemma planner_frame_trans s1 s2 s3 :
  planner_frame s1 s2 -> planner_frame s2 s3 -> planner_frame s1 s3.
Proof. intros [? ?] [? ?]. split; congruence. Qed.

Lemma recorded_part_store (ord : list RecType.t) i r r' :
  at_ ord i = Ok r -> recorded_part r' = recorded_part r ->
  recorded_part <$> store_at ord i r' = recorded_part <$> ord.
Proof.
  intros [_ Hi]%at_Ok Hst. unfold store_at. rewrite list_fmap_insert, Hst.
  apply list_insert_id. by rewrite list_lookup_fmap, Hi.
Qed.

Lemma cancel_swap_out_frame s id s' : cancel_swap_out s id = Ok s' -> planner_frame s s'.
Proof.
  unfold cancel_swap_out. intros H.
  destruct (flag (swapped_out s) id); [|by injection H as <-].
  destruct (swapped_out_r s !! id) as [j|]; [|done].
  destruct (at_ (order s) j) as [rj| |] eqn:Hj; cbn [bind] in H; [|done..].
  injection H as <-. split; [|done]. cbn. by apply (recorded_part_store _ _ rj).
Qed.

Lemma schedule_swap_in_frame s q y :
  schedule_swap_in s q = Ok y -> planner_frame s (si_this y).
Proof.
  unfold schedule_swap_in. generalize (length (order s)). intros fuel.
  change s with (si_this {| si_this := s; si_queue := q;
                            host_uses_this_synced_array := ∅; si_schedule := [] |}) at 2.
  generalize {| si_this := s; si_queue := q; host_uses_this_synced_array := ∅;
                si_schedule := [] |}.
  induction fuel as [|fuel IH]; intros x H; cbn in H;
    (destruct (decide _); [|by injection H as <-]); [by injection H as <-|].
  destruct (schedule_swap_in_body x) as [[x'|x']| |] eqn:Hb; cbn [bind] in H; [| |done..].
  2: { injection H as <-. unfold schedule_swap_in_body in Hb. cbv zeta in Hb.
       split_results Hb; done. }
  apply IH in H. eapply planner_frame_trans; [|exact H]. clear H IH.
  unfold schedule_swap_in_body in Hb. cbv zeta in Hb.
  destruct (at_ _ _) as [r| |]; cbn [bind] in Hb; [|done..].
  destruct (RecType.tag r); [|by injection Hb as <-].
  destruct (decide _) in Hb.
  - destruct (decide _) in Hb; [done|].
    destruct (_ && _) in Hb; cbn [bind] in Hb.
    + destruct (cancel_swap_out _ _) as [s'| |] eqn:Hc; cbn [bind] in Hb; [|done..].
      injection Hb as <-. by apply cancel_swap_out_frame in Hc.
    + by injection Hb as <-.
  - destruct (decide _) in Hb; [|done]. by injection Hb as <-.
Qed.

Lemma schedule_swap_out_body_frame i x y :
  schedule_swap_out_body i x = Ok y -> planner_frame (so_this x) (so_this y).
Proof.
  unfold schedule_swap_out_body. cbv zeta. intros H.
  destruct (at_ _ _) as [r| |] eqn:Hr; cbn [bind] in H; [|done..].
  destruct (RecType.tag r); [|by injection H as <-].
  destruct (decide _) in H.
  - injection H as <-. cbn [so_this]. destruct (_ && _); [|done].
    split; [|done]. cbn. by apply (recorded_part_store _ _ r).
  - destruct (decide _) in H; [|done]. by injection H as <-.
Qed.

Lemma schedule_swap_out_frame s q fid y :
  schedule_swap_out s q fid = Ok y -> planner_frame s (so_this y).
Proof.
  unfold schedule_swap_out. intros H.
  destruct (func_block_ends_at _ _) as [first| |]; cbn [bind] in H; [|done..].
  destruct (func_block_ends_at _ _) as [last| |]; cbn [bind] in H; [|done..].
  rewrite for_loop_nat in H.
  apply (for_nat_invariant (fun _ x => planner_frame s (so_this x))) in H; [done| |done].
  intros k x x' _ Hx Hb. apply schedule_swap_out_body_frame in Hb.
  by eapply planner_frame_trans.
Qed.

Lemma schedule_wait_for_swap_out_impl_frame x y :
  schedule_wait_for_swap_out_impl x = Ok y -> planner_frame x.1 y.1.
Proof.
  destruct x as [s sched]. unfold schedule_wait_for_swap_out_impl. intros H.
  destruct (at_ (order s) (tail s)) as [r| |] eqn:Hr; cbn [bind] in H; [|done..].
  destruct (RecType.swapped_out r); injection H as <-; [|done].
  split; [|done]. cbn. by apply (recorded_part_store _ _ r).
Qed.

Lemma schedule_wait_for_swap_out_loop_frame fuel :
  forall x y, schedule_wait_for_swap_out_loop fuel x = Ok y -> planner_frame x.1 y.1.
Proof.
  induction fuel as [|fuel IH]; intros x y H; cbn in H;
    (destruct (decide _); [|by injection H as <-]); [done|].
  destruct (schedule_wait_for_swap_out_impl x) as [x'| |] eqn:Hx; cbn [bind] in H; [|done..].
  apply schedule_wait_for_swap_out_impl_frame in Hx. apply IH in H.
  by eapply planner_frame_trans.
Qed.

Lemma schedule_wait_for_all_swap_out_loop_frame fuel :
  forall x y, schedule_wait_for_all_swap_out_loop fuel x = Ok y -> planner_frame x.1 y.1.
Proof.
  induction fuel as [|fuel IH]; intros x y H; cbn in H;
    (destruct (decide _); [|by injection H as <-]); [by injection H as <-|].
  destruct (schedule_wait_for_swap_out_impl x) as [x'| |] eqn:Hx; cbn [bind] in H; [|done..].
  apply schedule_wait_for_swap_out_impl_frame in Hx. apply IH in H.
  by eapply planner_frame_trans.
Qed.

Lemma plan_swap_in_frame fid x x' : plan_swap_in fid x = Ok x' -> planner_frame x.1 x'.1.
Proof.
  unfold plan_swap_in. cbv zeta. intros H.
  destruct (schedule_swap_in _ _) as [y| |] eqn:Hy; cbn [bind] in H; [|done..].
  destruct (func_block_ends_at _ _) as [e| |]; cbn [bind] in H; [|done..].
  destruct (decide _); [done|]. injection H as <-. by apply schedule_swap_in_frame in Hy.
Qed.

Lemma plan_swap_out_frame fid x x' : plan_swap_out fid x = Ok x' -> planner_frame x.1 x'.1.
Proof.
  unfold plan_swap_out. intros H.
  destruct (schedule_swap_out _ _ _) as [y| |] eqn:Hy; cbn [bind] in H; [|done..].
  injection H as <-. by apply schedule_swap_out_frame in Hy.
Qed.

Lemma plan_wait_frame fid x x' : plan_wait fid x = Ok x' -> planner_frame x.1 x'.1.
Proof.
  unfold plan_wait, schedule_wait_for_swap_out. intros H.
  destruct (schedule_wait_for_swap_out_loop _ _) as [y| |] eqn:Hy; cbn [bind] in H;
    [|done..].
  injection H as <-. by apply schedule_wait_for_swap_out_loop_frame in Hy.
Qed.

Lemma schedule_preclear_frame s : planner_frame s (schedule_preclear s).
Proof.
  split; [|done]. apply list_eq. intros j.
  rewrite !list_lookup_fmap, schedule_preclear_order.
  destruct (order s !! j) as [r|]; [|done]. cbn. f_equal.
  unfold preclear_mark. by destruct (RecType.tag r).
Qed.

Lemma schedule_rounds_frame s n :
  forall x, for_nat schedule_round n 0 (schedule_start s) = Ok x -> planner_frame s x.1.
Proof.
  intros x H.
  apply (for_nat_invariant (fun _ x => planner_frame s x.1)) in H;
    [done| |apply schedule_preclear_frame].
  clear. intros k y y' _ Hy Hr. unfold schedule_round in Hr.
  destruct (plan_swap_in k y) as [x1| |] eqn:H1; cbn [bind] in Hr; [|done..].
  destruct (plan_swap_out k x1) as [x2| |] eqn:H2; cbn [bind] in Hr; [|done..].
  apply plan_swap_in_frame in H1. apply plan_swap_out_frame in H2.
  apply plan_wait_frame in Hr.
  eapply planner_frame_trans; [exact Hy|]. eapply planner_frame_trans; [exact H1|].
  by eapply planner_frame_trans.
Qed.

(** X20: what the planner keeps.  When [schedule] returns, every record
    of the trace has the tag, ID, array, size, dtype and context it had,
    and the scheduler's contexts, budgets, block ends, counters, ID maps,
    [precleared], [wrong_ordered], [first_iter], [iter_count] and callbacks
    are as before: the planner writes the schedules, the four planning
    fields of the records, [tail], [used_bytes_swap_out] and the two
    [swapped_out] maps only. *)
Theorem X20_schedule_keeps_the_recorded_trace s s' :
  schedule s = Ok s' -> planner_frame s s'.
Proof.
  unfold schedule. intros H. rewrite for_loop_nat in H.
  destruct (for_nat _ _ _ _) as [x| |] eqn:Hx; cbn [bind] in H; [|done..].
  apply schedule_rounds_frame in Hx.
  unfold schedule_wait_for_all_swap_out in H.
  destruct (schedule_wait_for_all_swap_out_loop _ _) as [y| |] eqn:Hy; cbn [bind] in H;
    [|done..].
  apply schedule_wait_for_all_swap_out_loop_frame in Hy. injection H as <-.
  eapply planner_frame_trans; [exact Hx|]. eapply planner_frame_trans; [exact Hy|]. done.
Qed.

Lemma off_device_frame s s' :
  planner_frame s s' ->
  (exists r, r ∈ order s' /\ off_device s' r) -> exists r, r ∈ order s /\ off_device s r.
Proof.
  intros [Hord Hun] (r' & Hin & Ht & Hd & Hh).
  apply list_elem_of_lookup in Hin as (j & Hj).
  assert (Hr : (recorded_part <$> order s) !! j = Some (recorded_part r')).
  { by rewrite <- Hord, list_lookup_fmap, Hj. }
  rewrite list_lookup_fmap in Hr. destruct (order s !! j) as [r|] eqn:Hj0; [|done].
  injection Hr as Htag _ _ _ _ Hctx.
  assert (device_ctx s' = device_ctx s /\ host_ctx s' = host_ctx s) as [Hdc Hhc].
  { unfold unplanned in Hun. by injection Hun as -> ->. }
  exists r. split; [by eapply list_elem_of_lookup_2|].
  unfold off_device. rewrite Htag, Hctx, <- Hdc, <- Hhc. done.
Qed.

Lemma schedule_swap_in_off_device s q :
  schedule_swap_in s q = Err error_code.type -> exists r, r ∈ order s /\ off_device s r.
Proof.
  unfold schedule_swap_in. generalize (length (order s)). intros fuel.
  change s with (si_this {| si_this := s; si_queue := q;
                            host_uses_this_synced_array := ∅; si_schedule := [] |}) at 2 3.
  generalize {| si_this := s; si_queue := q; host_uses_this_synced_array := ∅;
                si_schedule := [] |}.
  induction fuel as [|fuel IH]; intros x H; cbn in H; (destruct (decide _); [|done]);
    [done|].
  destruct (schedule_swap_in_body x) as [[x'|x']| |] eqn:Hb; cbn [bind] in H; [|done| |done].
  - apply IH in H. eapply off_device_frame; [|exact H]. clear H IH.
    unfold schedule_swap_in_body in Hb. cbv zeta in Hb.
    destruct (at_ _ _) as [r| |]; cbn [bind] in Hb; [|done..].
    destruct (RecType.tag r); [|by injection Hb as <-].
    destruct (decide _) in Hb.
    + destruct (decide _) in Hb; [done|].
      destruct (_ && _) in Hb; cbn [bind] in Hb.
      * destruct (cancel_swap_out _ _) as [s'| |] eqn:Hc; cbn [bind] in Hb; [|done..].
        injection Hb as <-. by apply cancel_swap_out_frame in Hc.
      * by injection Hb as <-.
    + destruct (decide _) in Hb; [|done]. by injection Hb as <-.
  - clear H IH. unfold schedule_swap_in_body in Hb. cbv zeta in Hb.
    apply bind_Err in Hb as [Hb|(r & Hr & Hb)]; [by apply at_no_error in Hb|].
    apply at_Ok in Hr as [_ Hr].
    destruct (RecType.tag r) eqn:Ht; [|done].
    destruct (decide _) as [|Hd] in Hb.
    + destruct (decide _) in Hb; [done|].
      apply bind_Err in Hb as [Hb|(s' & _ & Hb)]; [|done].
      destruct (_ && _) in Hb; [by apply cancel_swap_out_no_error in Hb|done].
    + destruct (decide _) as [|Hh] in Hb; [done|].
      exists r. split; [by eapply list_elem_of_lookup_2|done].
Qed.

Lemma schedule_swap_out_off_device s q fid :
  schedule_swap_out s q fid = Err error_code.type ->
  exists r, r ∈ order s /\ off_device s r.
Proof.
  unfold schedule_swap_out. intros H.
  apply bind_Err in H as [H|(first & _ & H)]; [by apply func_block_ends_at_no_error in H|].
  apply bind_Err in H as [H|(last & _ & H)]; [by apply func_block_ends_at_no_error in H|].
  rewrite for_loop_nat in H. apply for_nat_error in H as (k & y & _ & Hy & H).
  apply (for_nat_invariant (fun _ x => planner_frame s (so_this x))) in Hy; [| |done].
  2: { intros k' x x' _ Hx Hb. apply schedule_swap_out_body_frame in Hb.
       by eapply planner_frame_trans. }
  eapply off_device_frame; [exact Hy|].
  unfold schedule_swap_out_body in H. cbv zeta in H.
  apply bind_Err in H as [H|(r & Hr & H)]; [by apply at_no_error in H|].
  apply at_Ok in Hr as [_ Hr].
  destruct (RecType.tag r) eqn:Ht; [|done].
  destruct (decide _) as [|Hd] in H; [done|].
  destruct (decide _) as [|Hh] in H; [done|].
  exists r. split; [by eapply list_elem_of_lookup_2|done].
Qed.

(** X21: the planner raises [error_code::type] only for a trace that has
    a [get] or [cast] on an array class that is neither the device's nor
    the host's. *)
Theorem X21_schedule_raises_type s :
  schedule s = Err error_code.type -> exists r, r ∈ order s /\ off_device s r.
Proof.
  unfold schedule. intros H. rewrite for_loop_nat in H.
  apply bind_Err in H as [H|(x & _ & H)].
  2: { apply bind_Err in H as [H|(y & _ & H)]; [|done].
       by apply schedule_wait_for_all_swap_out_loop_no_error in H. }
  apply for_nat_error in H as (k & y & _ & Hy & H).
  apply schedule_rounds_frame in Hy. rewrite Z.add_0_l in H.
  unfold schedule_round in H.
  apply bind_Err in H as [H|(x1 & H1 & H)].
  { eapply off_device_frame; [exact Hy|]. unfold plan_swap_in in H. cbv zeta in H.
    apply bind_Err in H as [H|(z & _ & H)]; [by eapply schedule_swap_in_off_device|].
    apply bind_Err in H as [H|(e0 & _ & H)]; [by apply func_block_ends_at_no_error in H|].
    by destruct (decide _). }
  apply plan_swap_in_frame in H1.
  apply bind_Err in H as [H|(x2 & _ & H)].
  { eapply off_device_frame; [exact Hy|]. eapply off_device_frame; [exact H1|].
    unfold plan_swap_out in H.
    apply bind_Err in H as [H|(z & _ & H)]; [by eapply schedule_swap_out_off_device|done]. }
  unfold plan_wait in H. apply bind_Err in H as [H|(z & _ & H)]; [|done].
  by apply schedule_wait_for_swap_out_loop_no_error in H.
Qed.

(** ** Replaying the trace *)

Lemma put_order_idx_put_order_idx i j s : put_order_idx i (put_order_idx j s) = put_order_idx i s.
Proof. done. Qed.

(** The recorded access, made again at its position: the tracer moves on. *)
Lemma synced_array_callback_tracer_in_order w rec e :
  let s := this w in
  func_idx s <> 0 ->
  flag (precleared s) (RecType.sawptr rec) = false ->
  at_ (order s) (order_idx s) = Ok rec ->
  func_block_ends_at s (func_idx s) = Ok e ->
  order_idx s < e ->
  lock (arrays w) (RecType.sawptr rec) = true ->
  step (access_of rec) (with_this (put_callback_func (Some synced_array_callback_tracer_)) w)
  = Ok (with_this (put_callback_func (Some synced_array_callback_tracer_))
          (with_this (put_order_idx (order_idx s + 1)) w)).
Proof.
  intros s Hf Hp Hrec He Hlt Hl. subst s. unfold access_of. cbn [step].
  cbn [this with_this callback_func put_callback_func].
  unfold synced_array_callback_tracer. cbv zeta.
  cbn [this with_this func_idx precleared order order_idx put_callback_func arrays].
  rewrite decide_False by done. rewrite Hp. cbn [bind].
  cbn [order order_idx func_idx put_callback_func]. rewrite Hrec. cbn [bind].
  assert (He' : func_block_ends_at
                  (put_callback_func (Some synced_array_callback_tracer_) (this w))
                  (func_idx (this w)) = Ok e) by exact He.
  rewrite He'. cbn [bind]. rewrite Hl.
  assert (Htag : get_tag match RecType.tag rec with
                         | RecTag.GETCAST => SyncedArrayCallbackTag.GET
                         | RecTag.CLEAR => SyncedArrayCallbackTag.CLEAR
                         end false = RecType.tag rec) by (by destruct (RecType.tag rec)).
  rewrite Htag.
  rewrite (bool_decide_eq_true_2 (order_idx (this w) < e)) by done.
  rewrite (bool_decide_eq_false_2 (order_idx (this w) >= e)) by lia.
  rewrite (bool_decide_eq_false_2 (Some (RecType.sawptr rec) <> Some (RecType.sawptr rec)))
    by (intros H; by apply H).
  rewrite (bool_decide_eq_false_2 (RecType.tag rec <> RecType.tag rec))
    by (intros H; by apply H).
  rewrite (bool_decide_eq_false_2 (RecType.dtype rec <> RecType.dtype rec))
    by (intros H; by apply H).
  rewrite (bool_decide_eq_false_2
             (get_array_key_from_context (RecType.ctx rec)
              <> get_array_key_from_context (RecType.ctx rec)))
    by (intros H; by apply H).
  rewrite !andb_false_r. cbn [andb orb bind]. done.
Qed.

(** X22: replaying the trace.  After the first iteration, inside a
    function, a run of accesses that repeats the records from [order_idx]
    on, within the block of the function, on arrays that are alive and not
    precleared, is traced as in order: the tracer moves [order_idx] past
    them and changes nothing else; nothing is put in [wrong_ordered] and no
    record is rewritten. *)
Theorem X22_replayed_trace_is_in_order rs :
  forall w e,
    let s := this w in
    callback_func s = Some synced_array_callback_tracer_ ->
    func_idx s <> 0 ->
    func_block_ends_at s (func_idx s) = Ok e ->
    0 <= order_idx s ->
    order_idx s + Z.of_nat (length rs) <= e ->
    (forall k r, rs !! k = Some r ->
       order s !! (Z.to_nat (order_idx s) + k)%nat = Some r
       /\ lock (arrays w) (RecType.sawptr r) = true
       /\ flag (precleared s) (RecType.sawptr r) = false) ->
    run (access_of <$> rs) w
    = Ok (with_this (put_order_idx (order_idx s + Z.of_nat (length rs))) w).
Proof.
  induction rs as [|r rs IH]; intros w e s Hcb Hf He H0 Hle Hrs; subst s.
  { cbn. rewrite Z.add_0_r. destruct w as [s a i]. unfold with_this. cbn.
    by rewrite put_order_idx_same. }
  cbn [fmap list_fmap run]. cbn [length] in Hle.
  destruct (Hrs 0%nat r eq_refl) as (Hr & Hl & Hp). rewrite Nat.add_0_r in Hr.
  assert (Hw : w = with_this (put_callback_func (Some synced_array_callback_tracer_)) w).
  { destruct w as [s a i]. unfold with_this. cbn in *. f_equal.
    destruct s. cbn in *. by rewrite Hcb. }
  rewrite Hw at 1.
  rewrite (synced_array_callback_tracer_in_order w r e); try done; [|by apply at_Ok|lia].
  cbn [bind].
  set (w1 := with_this (put_order_idx (order_idx (this w) + 1)) w).
  assert (Hw1 : with_this (put_callback_func (Some synced_array_callback_tracer_)) w1 = w1).
  { unfold w1. destruct w as [s a i]. unfold with_this. cbn in *. f_equal.
    destruct s. cbn in *. by rewrite Hcb. }
  rewrite Hw1.
  assert (Hrs1 : forall k r', rs !! k = Some r' ->
            order (this w1) !! (Z.to_nat (order_idx (this w1)) + k)%nat = Some r'
            /\ lock (arrays w1) (RecType.sawptr r') = true
            /\ flag (precleared (this w1)) (RecType.sawptr r') = false).
  { intros k r' Hk. destruct (Hrs (S k) r' Hk) as (Hr' & Hl' & Hp').
    split; [|done]. unfold w1. cbn. rewrite <- Hr'. f_equal. lia. }
  assert (Hi1 : order_idx (this w1) = order_idx (this w) + 1) by done.
  rewrite (IH w1 e Hcb Hf He ltac:(lia) ltac:(lia) Hrs1).
  f_equal. rewrite Hi1. unfold w1. destruct w as [s a i]. unfold with_this. cbn.
  f_equal. rewrite put_order_idx_put_order_idx. f_equal. lia.
Qed.

(** ** The arrays of the rewritten records *)

Lemma substitute_fields saptr id ord j r :
  ord !! j = Some r ->
  exists r',
    substitute saptr id ord !! j = Some r'
    /\ but_sawptr r' = but_sawptr r
    /\ RecType.sawptr r'
       = if bool_decide (RecType.synced_array_id r = id) then saptr else RecType.sawptr r.
Proof.
  intros Hj. rewrite substitute_lookup, Hj. cbn. eexists. split; [done|].
  by case_bool_decide.
Qed.

Lemma rehandle_fields hnd ids ord j r :
  ord !! j = Some r ->
  exists r',
    rehandle hnd ids ord !! j = Some r'
    /\ but_sawptr r' = but_sawptr r
    /\ RecType.sawptr r'
       = if bool_decide (RecType.synced_array_id r ∈ ids)
         then hnd (RecType.synced_array_id r) else RecType.sawptr r.
Proof.
  intros Hj. unfold rehandle. rewrite list_lookup_fmap, Hj. cbn. eexists. split; [done|].
  by case_bool_decide.
Qed.

(** ** The tracer over an iteration *)

Lemma synced_array_callback_tracer_callback saptr func_name dtype ctx write_only w w' :
  synced_array_callback_tracer saptr func_name dtype ctx write_only w = Ok w' ->
  synced_array_callback (this w') = synced_array_callback (this w).
Proof.
  unfold synced_array_callback_tracer. cbv zeta. intros H.
  destruct (decide _); [by injection H as <-|].
  destruct (if flag _ _ then _ else _) as [s1| |] eqn:H1; cbn [bind] in H; [|done..].
  assert (Hs : synced_array_callback s1 = synced_array_callback (this w)).
  { destruct (flag _ _) in H1; [|by injection H1 as <-].
    destruct (get_tag _ _) in H1; [done|]. by injection H1 as <-. }
  destruct (at_ _ _) as [rec| |]; cbn [bind] in H; [|done..].
  destruct (func_block_ends_at _ _) as [e| |]; cbn [bind] in H; [|done..].
  destruct (_ && _) in H.
  - destruct (replace_sawptr _ _ _) as [ord| |]; cbn [bind] in H; [|done..].
    by injection H as <-.
  - destruct (_ || _) in H; by injection H as <-.
Qed.

(** After the first iteration a pre-callback leaves the trace, the index
    and [wrong_ordered] as they are and installs [synced_array_callback]. *)
Lemma pre_callback_trace w w' :
  first_iter (this w) = false ->
  pre_callback w = Ok w' ->
  order (this w') = order (this w)
  /\ wrong_ordered (this w') = wrong_ordered (this w)
  /\ synced_array_id_to_order_idx (this w') = synced_array_id_to_order_idx (this w)
  /\ first_iter (this w') = false
  /\ synced_array_callback (this w') = synced_array_callback (this w)
  /\ callback_func (this w') = Some (synced_array_callback (this w)).
Proof.
  intros Hfi H. apply pre_callback_later in H as (w1 & oi & w2 & H1 & H2 & ->); [|done].
  apply swap_in_this in H2.
  assert (Hw1 : exists pc, this w1 = put_precleared pc (this (unset_synced_array_callback w))).
  { destruct (decide _) in H1.
    - destruct (swap_out_scheduled _) as [wa| |] eqn:Ha; cbn [bind] in H1; [|done..].
      apply swap_out_scheduled_this in Ha as (pc & Ha & _).
      apply wait_for_swap_out_scheduled_this in H1. exists pc. by rewrite H1.
    - injection H1 as <-. exists (precleared (this (unset_synced_array_callback w))).
      by rewrite put_precleared_same. }
  destruct Hw1 as (pc & Hw1).
  cbn [this set_synced_array_callback with_this]. rewrite H2. cbn [this with_this].
  rewrite Hw1. cbn. by rewrite Hfi.
Qed.

Lemma tracer_run hnd ops :
  forall w w',
    first_iter (this w) = false ->
    synced_array_callback (this w) = synced_array_callback_tracer_ ->
    callback_func (this w) = Some synced_array_callback_tracer_ ->
    index_exact (this w) ->
    one_handle (order (this w)) ->
    stream_agrees hnd ops w ->
    run ops w = Ok w' ->
    wrong_ordered (this w') = wrong_ordered (this w)
    /\ order (this w') = rehandle hnd (met_ids ops w) (order (this w)).
Proof.
  induction ops as [|o ops IH]; intros w w' Hfi Hsc Hcb Hex Hone Hag H; cbn [run] in H.
  { injection H as <-. split; [done|]. cbn. unfold rehandle.
    rewrite <- (list_fmap_id (order (this w))) at 1.
    apply list_fmap_ext. intros _ r _. cbn. rewrite bool_decide_eq_false_2; [done|].
    apply not_elem_of_nil. }
  destruct (step o w) as [w1| |] eqn:H1; cbn [bind] in H; [|done..].
  cbn [stream_agrees] in Hag. destruct Hag as [Ho Hag]. specialize (Hag w1 H1).
  cbn [met_ids]. rewrite H1.
  assert (Hframe : forall ids,
            first_iter (this w1) = false ->
            synced_array_callback (this w1) = synced_array_callback_tracer_ ->
            callback_func (this w1) = Some synced_array_callback_tracer_ ->
            wrong_ordered (this w1) = wrong_ordered (this w) ->
            synced_array_id_to_order_idx (this w1) = synced_array_id_to_order_idx (this w) ->
            order (this w1) = rehandle hnd ids (order (this w)) ->
            wrong_ordered (this w') = wrong_ordered (this w)
            /\ order (this w') = rehandle hnd (ids ++ met_ids ops w1) (order (this w))).
  { intros ids Hfi1 Hsc1 Hcb1 Hwo1 Hix1 Hord1.
    destruct (IH w1 w') as [Hwo Hord]; try done.
    - by eapply (rehandle_index_exact hnd).
    - rewrite Hord1. by apply rehandle_one_handle.
    - split; [congruence|]. by rewrite Hord, Hord1, rehandle_rehandle. }
  assert (Hnil : forall ord : list RecType.t, ord = rehandle hnd [] ord).
  { intros ord. unfold rehandle. rewrite <- (list_fmap_id ord) at 1.
    apply list_fmap_ext. intros _ r _. cbn. rewrite bool_decide_eq_false_2; [done|].
    apply not_elem_of_nil. }
  destruct o; try done; cbn [step is_access] in *.
  - apply pre_callback_trace in H1 as (Ho1 & Hw1 & Hi1 & Hf1 & Hs1 & Hc1); [|done].
    apply (Hframe []); [congruence..|]. rewrite Ho1. apply Hnil.
  - injection H1 as <-. apply (Hframe []); [done..|]. apply Hnil.
  - apply pre_callback_trace in H1 as (Ho1 & Hw1 & Hi1 & Hf1 & Hs1 & Hc1); [|done].
    apply (Hframe []); [congruence..|]. rewrite Ho1. apply Hnil.
  - injection H1 as <-. apply (Hframe []); [done..|]. apply Hnil.
  - rewrite Hcb in H1.
    destruct Ho as (Hf & Hpre & Hoi & rec & e & Hrec & He & Hlt & Hsame & Hhnd).
    cbn [this a_saptr] in *.
    pose proof (synced_array_callback_tracer_control _ _ _ _ _ _ _ H1) as [_ Hf1].
    pose proof (synced_array_callback_tracer_callback _ _ _ _ _ _ _ H1) as Hs1.
    destruct (synced_array_callback_tracer_same_event
                {| a_saptr := saptr; a_func_name := func_name; a_dtype := dtype;
                   a_ctx := ctx; a_write_only := write_only |} w rec e)
      as (s1 & Hstep & Hord1 & Hwo1 & _ & _ & _ & Hix1 & Hcb1 & _); try done.
    cbn [a_saptr a_func_name a_dtype a_ctx a_write_only] in Hstep.
    rewrite Hstep in H1. injection H1 as <-. cbn [this] in *.
    rewrite (rehandle_one_event hnd) in Hord1;
      [|done|by eapply list_elem_of_lookup_2|done].
    rewrite Hrec. apply (Hframe [RecType.synced_array_id rec]); congruence.
  - injection H1 as <-. apply (Hframe []); [done..|]. apply Hnil.
Qed.

(** C7: inside a function of an iteration after the first, an event that
    agrees with the record at [order[order_idx]] in tag, dtype and context
    key, with [order_idx] below the bound [func_block_ends[func_idx]] the
    tracer tests, but with another array, makes the tracer rewrite the
    array of every record of that record's ID: the array of such a record
    is then the array of the event, every other field of it and every
    other record are as before; nothing is appended to [wrong_ordered] and
    [order_idx] moves on.  Consequently a stream of such events that gives
    every ID one array ([hnd]) leaves every record of the IDs it meets
    with that array, the other records as they were, and [wrong_ordered]
    as it was: for the events of one block, where the run is shown to
    return, and for a run over the functions of an iteration, with its
    callbacks between the events, when the callbacks return. *)
Theorem C7_tracer_identity_repair :
  (forall a w rec e,
     let s := this w in
     func_idx s <> 0 ->
     not_precleared s a ->
     0 <= order_idx s ->
     order s !! Z.to_nat (order_idx s) = Some rec ->
     func_block_ends_at s (func_idx s) = Ok e ->
     order_idx s < e ->
     same_event a rec ->
     ~ (lock (arrays w) (RecType.sawptr rec) = true /\ RecType.sawptr rec = a_saptr a) ->
     index_exact s ->
     exists s',
       synced_array_callback_tracer (a_saptr a) (a_func_name a) (a_dtype a) (a_ctx a)
         (a_write_only a) w
       = Ok {| this := s'; arrays := arrays w; issued := issued w |}
       /\ (forall j r, order s !! j = Some r ->
             exists r',
               order s' !! j = Some r'
               /\ but_sawptr r' = but_sawptr r
               /\ RecType.sawptr r'
                  = if bool_decide (RecType.synced_array_id r = RecType.synced_array_id rec)
                    then a_saptr a else RecType.sawptr r)
       /\ length (order s') = length (order s)
       /\ wrong_ordered s' = wrong_ordered s
       /\ order_idx s' = order_idx s + 1)
  /\ (forall hnd evs w e,
        let s := this w in
        callback_func s = Some synced_array_callback_tracer_ ->
        func_idx s <> 0 ->
        0 <= order_idx s ->
        func_block_ends_at s (func_idx s) = Ok e ->
        order_idx s + Z.of_nat (length evs) <= e ->
        Forall2 same_event evs (expected s (length evs)) ->
        Forall2 (fun a r => a_saptr a = hnd (RecType.synced_array_id r)) evs
          (expected s (length evs)) ->
        Forall (not_precleared s) evs ->
        index_exact s ->
        one_handle (order s) ->
        exists s',
          run (op_of <$> evs) w
          = Ok {| this := s'; arrays := arrays w; issued := issued w |}
          /\ wrong_ordered s' = wrong_ordered s
          /\ order_idx s' = order_idx s + Z.of_nat (length evs)
          /\ length (order s') = length (order s)
          /\ forall j r, order s !! j = Some r ->
               exists r',
                 order s' !! j = Some r'
                 /\ but_sawptr r' = but_sawptr r
                 /\ RecType.sawptr r'
                    = if bool_decide (RecType.synced_array_id r
                                      ∈ RecType.synced_array_id <$> expected s (length evs))
                      then hnd (RecType.synced_array_id r) else RecType.sawptr r)
  /\ (forall hnd ops w w',
        let s := this w in
        first_iter s = false ->
        synced_array_callback s = synced_array_callback_tracer_ ->
        callback_func s = Some synced_array_callback_tracer_ ->
        index_exact s ->
        one_handle (order s) ->
        stream_agrees hnd ops w ->
        run ops w = Ok w' ->
        wrong_ordered (this w') = wrong_ordered s
        /\ length (order (this w')) = length (order s)
        /\ forall j r, order s !! j = Some r ->
             exists r',
               order (this w') !! j = Some r'
               /\ but_sawptr r' = but_sawptr r
               /\ RecType.sawptr r'
                  = if bool_decide (RecType.synced_array_id r ∈ met_ids ops w)
                    then hnd (RecType.synced_array_id r) else RecType.sawptr r).
Proof.
  split; [|split].
  - intros a w rec e s Hf Hpre Hoi Hrec He Hlt Hsame Hdiff Hex.
    destruct (synced_array_callback_tracer_same_event a w rec e)
      as (s' & Hstep & Hord & Hwo & Hoi' & _); try done.
    fold s in Hord, Hwo, Hoi'. rewrite bool_decide_eq_false_2 in Hord by done.
    exists s'. split; [done|]. rewrite Hord. split; [|split; [|done]].
    + intros j r Hj. by apply substitute_fields.
    + unfold substitute. by rewrite length_fmap.
  - intros hnd evs w e s Hcb Hf Hoi He Hle Hsame Hhnd Hpre Hex Hone.
    destruct (tracer_stream hnd evs w e) as (s' & Hrun & Hwo & Hoi' & Hord); try done.
    fold s in Hwo, Hoi', Hord.
    exists s'. split; [done|]. split; [done|]. split; [done|]. rewrite Hord. split.
    + unfold rehandle. by rewrite length_fmap.
    + intros j r Hj. by apply rehandle_fields.
  - intros hnd ops w w' s Hfi Hsc Hcb Hex Hone Hag H.
    destruct (tracer_run hnd ops w w') as [Hwo Hord]; try done.
    split; [done|]. rewrite Hord. split.
    + unfold rehandle. by rewrite length_fmap.
    + intros j r Hj. by apply rehandle_fields.
Qed.

End Scheduler.

Arguments this {Store} w.
Arguments arrays {Store} w.
Arguments issued {Store} w.
Arguments Build_World {Store} this arrays issued.
Arguments op_start_scheduling {Store}.
Arguments op_end_scheduling {Store}.
Arguments op_reset {Store}.
Arguments op_pre_function_callback {Store}.
Arguments op_post_function_callback {Store}.
Arguments op_pre_update_callback {Store}.
Arguments op_post_update_callback {Store}.
Arguments op_access {Store} saptr func_name dtype ctx write_only.
Arguments op_store {Store} a.
Arguments op_of {Store} a.
Arguments issued_since {Store} P w w'.

(** ** Construction *)

(** The constructor (lines 26-37).  Modelled from the spec: the members the
    constructor does not initialise take the defaults of their declarations
    in the header, which is not part of the sources; the vectors and maps
    start empty, the counters at zero and [first_iter] at [true], as
    sections 3 and 4 describe the first iteration. *)
Definition new_SwapInOutScheduler (h_ctx d_ctx : Context) (bytes : Z) : SwapInOutScheduler :=
  {| host_ctx := h_ctx; device_ctx := d_ctx;
     max_bytes_swap_in := wrap bytes; max_bytes_swap_out := wrap bytes / 2;
     order := []; wrong_ordered := []; func_block_ends := [];
     order_idx := 0; func_idx := 0; tail := 0; used_bytes_swap_out := 0;
     first_iter := true; iter_count := 0;
     synced_array_id_mapper := IdMapper.clear;
     synced_array_id_to_order_idx := ∅; precleared := ∅;
     swapped_out := ∅; swapped_out_r := ∅;
     swap_in_schedule := ∅; swap_out_schedule := ∅; wait_schedule := ∅;
     synced_array_callback := synced_array_callback_recorder_;
     callback_func := None |}.

(** ** Concrete traces *)

Definition cpu : Context := {| array_class := "CpuArray"; device_id := "0" |}.
Definition cuda : Context := {| array_class := "CudaArray"; device_id := "0" |}.

(** A record as the recorder appends it. *)
Definition getcast (id size dtype : Z) (c : Context) : RecType.t :=
  RecType.mk RecTag.GETCAST id id size dtype c false false 0 false.

Definition clear (id size dtype : Z) (c : Context) : RecType.t :=
  RecType.mk RecTag.CLEAR id id size dtype c false false 0 false.

(** The scheduler as [finalize] hands it to [schedule]: budget [bytes], the
    recorded [order] and [func_block_ends]. *)
Definition recorded (bytes : Z) (ord : list RecType.t) (ends : list Z) : SwapInOutScheduler :=
  put_func_block_ends ends (put_order ord (new_SwapInOutScheduler cpu cuda bytes)).

(** The dtype is its own size in bytes in the examples. *)
Definition sizeof_id (d : dtypes) : Z := d.

(** A tensor store for the examples: it has no state of its own; every
    array is alive, holds one array of one 4-byte element on the device. *)
Definition lock1 (_ : unit) (_ : SyncedArrayPtr) : bool := true.
Definition get_num_arrays1 (_ : unit) (_ : SyncedArrayPtr) : Z := 1.
Definition array_dtype1 (_ : unit) (_ : SyncedArrayPtr) : dtypes := 4.
Definition array_size1 (_ : unit) (_ : SyncedArrayPtr) : Z := 1.
Definition head_array_class1 (_ : unit) (_ : SyncedArrayPtr) : string := "CudaArray".
Definition perform1 (_ : Call) (a : unit) : unit := a.

Definition array_key (c : Context) : string := device_id c +:+ ":" +:+ array_class c.

Definition world (s : SwapInOutScheduler) : World unit :=
  {| this := s; arrays := tt; issued := [] |}.

(** Runs over that store, with the dtype its own size in bytes. *)
Abbreviation run1 oob :=
  (run sizeof_id oob unit lock1 get_num_arrays1 array_dtype1 array_size1
     head_array_class1 perform1 array_key).

(** A read outside [func_block_ends] loses the run. *)
Definition trap (_ : Z) : option Z := None.

(** A read outside [func_block_ends] yields zero. *)
Definition zeros (_ : Z) : option Z := Some 0.

(** * The properties at concrete inputs *)

(** ** Preclear marking *)

Lemma C3_preclear_witness :
  let s := recorded 16 [getcast 0 1 4 cuda; clear 0 1 4 cuda] [1; 2] in
  let r := RecType.put_preclear true (getcast 0 1 4 cuda) in
  order (schedule_preclear s) !! 0%nat = Some r
  /\ exists r0,
       order s !! 0%nat = Some r0
       /\ r = RecType.put_preclear (RecType.preclear r) r0
       /\ (RecType.tag r = RecTag.GETCAST ->
           (RecType.preclear r = true
            <-> exists r', next_event (order s) 0 (RecType.synced_array_id r) = Some r'
                           /\ RecType.tag r' = RecTag.CLEAR))
       /\ (RecType.tag r = RecTag.CLEAR -> RecType.preclear r = RecType.preclear r0).
Proof.
  split; [reflexivity|].
  exact (C3_preclear_marks_getcast
           (recorded 16 [getcast 0 1 4 cuda; clear 0 1 4 cuda] [1; 2]) 0%nat
           (RecType.put_preclear true (getcast 0 1 4 cuda)) eq_refl).
Defined.

(** Two CLEARs of one array in a row: the next event on the array of the
    first is a CLEAR, and its [preclear] is [false]. *)
Lemma C3_preclear_counterexample :
  let s := recorded 16 [clear 0 1 4 cuda; clear 0 1 4 cuda] [1; 2] in
  exists r r',
    order (schedule_preclear s) !! 0%nat = Some r
    /\ next_event (order s) 0 (RecType.synced_array_id r) = Some r'
    /\ RecType.tag r' = RecTag.CLEAR
    /\ RecType.preclear r = false.
Proof. exists (clear 0 1 4 cuda), (clear 0 1 4 cuda). by vm_compute. Qed.

(** ** The recorder *)

(** A mapper that knows [2^32] arrays, the most the recorder lets it grow to. *)
Definition full_mapper : IdMapper.t :=
  {| IdMapper.find := fun p => if decide (0 <= p < 2 ^ 32) then Some p else None;
     IdMapper.size := 2 ^ 32 |}.

Definition full_world : World unit :=
  world (put_synced_array_id_mapper full_mapper
           (put_func_idx 1 (new_SwapInOutScheduler cpu cuda 16))).

Lemma C9_recorder_witness :
  synced_array_callback_recorder unit array_size1 (2 ^ 32)
    SyncedArrayCallbackTag.GET 4 cuda false full_world
  = Err error_code.unclassified
  <-> IdMapper.size (synced_array_id_mapper (this full_world)) > UINT_MAX.
Proof.
  apply (C9_recorder_too_many_arrays unit array_size1 (2 ^ 32)
           SyncedArrayCallbackTag.GET 4 cuda false full_world).
  by vm_compute.
Defined.

(** With [2^32] arrays known, the recorder throws, and what it throws is
    not of the exhaustion kind. *)
Lemma C9_recorder_counterexample :
  IdMapper.size (synced_array_id_mapper (this full_world)) > UINT_MAX
  /\ synced_array_callback_recorder unit array_size1 (2 ^ 32)
       SyncedArrayCallbackTag.GET 4 cuda false full_world
     <> Err error_code.exhaustion.
Proof. split; by vm_compute. Qed.

(** ** Reads of [func_block_ends] *)

(** C4: the executor and the planner read [func_block_ends] outside its
    range.  After [start_scheduling()] and two pre-function hooks
    [swap_out_step] has pushed one end and [swap_out_first_iter] reads
    [func_block_ends[1]]; a recording with no function at all makes
    [schedule] read [func_block_ends[0]] of an empty vector; and whatever the
    vector holds, [schedule_swap_out] reads [func_block_ends[-1]] when it is
    called with [fid = 0]. *)
Theorem C4_func_block_ends_read_outside :
  run1 trap [op_start_scheduling; op_pre_function_callback; op_pre_function_callback]
    (world (new_SwapInOutScheduler cpu cuda 16)) = Undefined
  /\ run1 trap [op_start_scheduling; op_end_scheduling]
       (world (new_SwapInOutScheduler cpu cuda 16)) = Undefined
  /\ forall s q, schedule_swap_out sizeof_id trap s q 0 = Undefined.
Proof. split; [by vm_compute|]. split; [by vm_compute|]. done. Qed.

(** ** Cancelled evictions *)

(** Three functions that use the arrays 0 and 1 in turn, after a first
    function that uses none; a budget of 16 bytes. *)
Definition alternating : SwapInOutScheduler :=
  recorded 16
    [getcast 0 1 4 cuda; getcast 1 1 4 cuda; getcast 0 1 4 cuda;
     getcast 1 1 4 cuda; getcast 0 1 4 cuda; getcast 1 1 4 cuda]
    [0; 2; 4; 6].

(** The plan for it, taken into the post-step of the function the records
    0 and 1 belong to. *)
Definition alternating_planned : World unit :=
  match schedule sizeof_id zeros alternating with
  | Ok s => world (put_func_idx 2 s)
  | _ => world alternating
  end.

Lemma C6_cancelled_eviction_witness :
  let w := alternating_planned in
  let r := RecType.put_no_need_swap_out true (getcast 0 1 4 cuda) in
  (0 <= 0 /\ order (this w) !! Z.to_nat 0 = Some r /\ RecType.no_need_swap_out r = true)
  /\ (forall w', swap_out_scheduled unit lock1 array_dtype1 perform1 w = Ok w' ->
        issued_since (fun x => x.1.2 = 0 -> is_cast x.2 = false) w w')
  /\ (forall w', wait_for_swap_out_scheduled unit lock1 get_num_arrays1 array_dtype1
                   head_array_class1 perform1 w = Ok w' ->
        issued_since (fun x => x.1.2 <> 0) w w').
Proof.
  split; [by vm_compute|].
  apply (C6_cancelled_eviction_is_not_executed unit lock1 get_num_arrays1 array_dtype1
           head_array_class1 perform1 alternating_planned 0
           (RecType.put_no_need_swap_out true (getcast 0 1 4 cuda))).
  - done.
  - by vm_compute.
  - reflexivity.
Defined.

(** ** A reset after a planned iteration *)

(** An iteration of one function, which gets one array on the device,
    followed by the update of the solver. *)
Definition device_iteration : list (Op unit) :=
  [op_start_scheduling; op_pre_function_callback;
   op_access 7 SyncedArrayCallbackTag.GET 4 cuda false;
   op_post_function_callback; op_pre_update_callback; op_post_update_callback;
   op_end_scheduling].

Definition after (ops : list (Op unit)) (w : World unit) : World unit :=
  match run1 zeros ops w with
  | Ok w' => w'
  | _ => w
  end.

(** C10: on a fresh scheduler the iteration is recorded and planned, with
    a prefetch of the array for the first function.  [reset()] then
    empties the trace but leaves [first_iter] off and the schedules, whose
    entries refer to the records of the trace, as they are; so no run that
    returns after it plans again, and the same iteration made again does
    not return: its first pre-callback reads, through [swap_in_schedule],
    a record the trace no longer has, whatever a read outside
    [func_block_ends] yields. *)
Theorem C10_reset_then_iteration_is_undefined :
  let w0 := world (new_SwapInOutScheduler cpu cuda 16) in
  let w := after device_iteration w0 in
  run1 zeros device_iteration w0 = Ok w
  /\ first_iter (this w) = false
  /\ length (order (this w)) = 1%nat
  /\ swap_in_schedule (this w) !! 0 = Some [0]
  /\ (exists wr,
        reset unit w = Ok wr
        /\ order (this wr) = []
        /\ first_iter (this wr) = false
        /\ swap_in_schedule (this wr) = swap_in_schedule (this w))
  /\ (forall ops w',
        run1 zeros (op_reset :: ops) w = Ok w' ->
        first_iter (this w') = false
        /\ swap_in_schedule (this w') = swap_in_schedule (this w)
        /\ swap_out_schedule (this w') = swap_out_schedule (this w)
        /\ wait_schedule (this w') = wait_schedule (this w))
  /\ (forall oob,
        run1 oob (op_reset :: device_iteration) w = Undefined).
Proof.
  intros w0 w.
  assert (Hfi : first_iter (this w) = false) by (by vm_compute).
  assert (Hs : schedule_of (swap_in_schedule (this w)) 0 = [0]) by (by vm_compute).
  split; [by vm_compute|]. split; [exact Hfi|]. split; [by vm_compute|].
  split; [by vm_compute|]. split.
  { destruct (reset_leaves unit w) as (wr & Hr & Ho & Hf & Hsi).
    exists wr. split; [exact Hr|]. split; [exact Ho|]. split; [|exact Hsi].
    rewrite Hf. exact Hfi. }
  split.
  - intros ops w'.
    exact (run_after_reset_keeps_schedules sizeof_id zeros unit lock1 get_num_arrays1
             array_dtype1 array_size1 head_array_class1 perform1 array_key ops w w' Hfi).
  - intros oob.
    exact (run_after_reset_undefined sizeof_id oob unit lock1 get_num_arrays1 array_dtype1
             array_size1 head_array_class1 perform1 array_key w 0 [] _ Hfi Hs).
Qed.

(** ** The tracer *)

(** One recorded GETCAST of array 0 in the first of two functions, and the
    scheduler inside that function in a later iteration. *)
Definition traced : World unit :=
  world (put_callback_func (Some synced_array_callback_tracer_)
           (put_func_idx 1
              (put_synced_array_id_to_order_idx {[ 0 := [0] ]}
                 (recorded 16 [getcast 0 1 4 cuda] [1; 1])))).

(** The same access on another array. *)
Definition access9 : Access :=
  {| a_saptr := 9; a_func_name := SyncedArrayCallbackTag.GET; a_dtype := 4;
     a_ctx := cuda; a_write_only := false |}.

Lemma traced_index_exact : index_exact (this traced).
Proof.
  intros id i. unfold order_idxs. cbn.
  destruct (decide (id = 0)) as [->|Hid].
  - rewrite lookup_singleton_eq. cbn. rewrite list_elem_of_singleton. split.
    + intros ->. split; [done|]. by eexists.
    + intros (Hi & r & Hr & _). apply lookup_lt_Some in Hr. cbn in Hr. lia.
  - rewrite lookup_singleton_ne by done. cbn. split.
    + by intros ?%not_elem_of_nil.
    + intros (Hi & r & Hr & Hr'). destruct (Z.to_nat i); [|done].
      injection Hr as <-. done.
Qed.

(** ** The budget during planning *)

(** [computed t E] evaluates the closed term [t] and records the result
    as the equation [E]. *)
Ltac computed t E :=
  let r := eval vm_compute in t in
  assert (E : t = r) by (vm_compute; reflexivity).

(** One array of 6 bytes, used by the second of three functions; a budget
    of 11 bytes, so 6 for prefetches and 5 for evictions. *)
Definition one_array : SwapInOutScheduler :=
  recorded 11 [getcast 0 6 1 cuda] [0; 1; 1].

(** The plan for it when the second round has called [schedule_swap_out]:
    the array was prefetched in the first round and is now evicted. *)
Definition one_array_evicted : SwapInOutScheduler * Queue :=
  match
    (do x1 <- schedule_round sizeof_id zeros 0 (schedule_start one_array) ;;
     do x2 <- plan_swap_in sizeof_id zeros 1 x1 ;;
     plan_swap_out sizeof_id zeros 1 x2)
  with
  | Ok x => x
  | _ => schedule_start one_array
  end.

Lemma one_array_planning :
  planning sizeof_id zeros one_array (after_swap_out 1) one_array_evicted.
Proof.
  pose proof (planning_start sizeof_id zeros one_array) as H.
  computed (plan_swap_in sizeof_id zeros 0 (schedule_start one_array)) E.
  pose proof (planning_swap_in _ _ _ 0 _ _ H ltac:(by vm_compute) E) as H1.
  clear H E.
  match type of H1 with planning _ _ _ _ ?x => computed (plan_swap_out sizeof_id zeros 0 x) E end.
  pose proof (planning_swap_out _ _ _ 0 _ _ H1 E) as H2.
  clear H1 E.
  match type of H2 with planning _ _ _ _ ?x => computed (plan_wait 0 x) E end.
  pose proof (planning_wait _ _ _ 0 _ _ H2 E) as H3.
  clear H2 E.
  match type of H3 with planning _ _ _ _ ?x => computed (plan_swap_in sizeof_id zeros 1 x) E end.
  pose proof (planning_swap_in _ _ _ 1 _ _ H3 ltac:(by vm_compute) E) as H4.
  clear H3 E.
  match type of H4 with planning _ _ _ _ ?x => computed (plan_swap_out sizeof_id zeros 1 x) E end.
  pose proof (planning_swap_out _ _ _ 1 _ _ H4 E) as H5.
  clear H4 E.
  match type of H5 with planning _ _ _ _ ?x =>
    replace one_array_evicted with x by (vm_compute; reflexivity) end.
  exact H5.
Qed.

Lemma one_array_plannable : plannable sizeof_id one_array.
Proof.
  constructor.
  - by vm_compute.
  - by vm_compute.
  - by vm_compute.
  - intros r ->%list_elem_of_singleton _. by vm_compute.
  - by intros r1 r2 ->%list_elem_of_singleton ->%list_elem_of_singleton.
Qed.

Lemma C1_budget_witness :
  0 <= used_bytes_swap_in one_array_evicted.2
    <= max_bytes_swap_in one_array - max_bytes_swap_out one_array
  /\ 0 <= used_bytes_swap_out one_array_evicted.1
  /\ used_bytes_swap_in one_array_evicted.2 + used_bytes_swap_out one_array_evicted.1
     <= max_bytes_swap_in one_array
  /\ ((forall fid, after_swap_out 1 <> after_swap_out fid) ->
      used_bytes_swap_out one_array_evicted.1 <= max_bytes_swap_out one_array).
Proof.
  exact (C1_budget_safety sizeof_id zeros one_array (after_swap_out 1) one_array_evicted
           one_array_plannable one_array_planning).
Defined.

(** Between [schedule_swap_out] and the drain the 6 bytes of the array
    await eviction, more than the 5 bytes of B/2. *)
Lemma C1_budget_counterexample :
  planning sizeof_id zeros one_array (after_swap_out 1) one_array_evicted
  /\ used_bytes_swap_out one_array_evicted.1 = 6
  /\ max_bytes_swap_out one_array = 5.
Proof. split; [apply one_array_planning|]. by vm_compute. Qed.

(** ** The host pins *)

(** Array 0 is used on the device in dtype 4, then on the host, then on
    the device in dtype 2; array 1 fills the prefetch budget of 8 bytes
    until the second function has evicted it. *)
Definition two_dtypes : SwapInOutScheduler :=
  recorded 16
    [getcast 1 1 4 cuda; getcast 0 1 4 cuda; getcast 0 1 4 cpu; getcast 0 1 2 cuda]
    [0; 1; 4; 4].

Definition scan_of (x : SwapInOutScheduler * Queue) : SwapIn :=
  match schedule_swap_in sizeof_id x.1 x.2 with
  | Ok y => y
  | _ => {| si_this := x.1; si_queue := x.2; host_uses_this_synced_array := ∅;
            si_schedule := [] |}
  end.

(** The scan of the first round, and the state at the top of the third
    round with the scan that starts there. *)
Definition first_scan : SwapIn := scan_of (schedule_start two_dtypes).

Definition third_top : SwapInOutScheduler * Queue :=
  match
    (do x1 <- schedule_round sizeof_id zeros 0 (schedule_start two_dtypes) ;;
     schedule_round sizeof_id zeros 1 x1)
  with
  | Ok x => x
  | _ => schedule_start two_dtypes
  end.

Definition third_scan : SwapIn := scan_of third_top.

Lemma first_scan_returns :
  schedule_swap_in sizeof_id (schedule_start two_dtypes).1 (schedule_start two_dtypes).2
  = Ok first_scan.
Proof. by vm_compute. Qed.

Lemma third_top_planning : planning sizeof_id zeros two_dtypes (at_top 2) third_top.
Proof.
  pose proof (planning_start sizeof_id zeros two_dtypes) as H.
  computed (plan_swap_in sizeof_id zeros 0 (schedule_start two_dtypes)) E.
  pose proof (planning_swap_in _ _ _ 0 _ _ H ltac:(by vm_compute) E) as H1.
  clear H E.
  match type of H1 with planning _ _ _ _ ?x => computed (plan_swap_out sizeof_id zeros 0 x) E end.
  pose proof (planning_swap_out _ _ _ 0 _ _ H1 E) as H2.
  clear H1 E.
  match type of H2 with planning _ _ _ _ ?x => computed (plan_wait 0 x) E end.
  pose proof (planning_wait _ _ _ 0 _ _ H2 E) as H3.
  clear H2 E.
  match type of H3 with planning _ _ _ _ ?x => computed (plan_swap_in sizeof_id zeros 1 x) E end.
  pose proof (planning_swap_in _ _ _ 1 _ _ H3 ltac:(by vm_compute) E) as H4.
  clear H3 E.
  match type of H4 with planning _ _ _ _ ?x => computed (plan_swap_out sizeof_id zeros 1 x) E end.
  pose proof (planning_swap_out _ _ _ 1 _ _ H4 E) as H5.
  clear H4 E.
  match type of H5 with planning _ _ _ _ ?x => computed (plan_wait 1 x) E end.
  pose proof (planning_wait _ _ _ 1 _ _ H5 E) as H6.
  clear H5 E.
  match type of H6 with planning _ _ _ _ ?x =>
    replace third_top with x by (vm_compute; reflexivity) end.
  exact H6.
Qed.

Lemma C8_host_pin_witness :
  let s := (schedule_start two_dtypes).1 in
  let q := (schedule_start two_dtypes).2 in
  (forall id, flag (host_uses_this_synced_array first_scan) id = true
              <-> host_use s (head q) (head (si_queue first_scan)) id)
  /\ (forall j, j ∈ si_schedule first_scan ->
        head q <= j < head (si_queue first_scan)
        /\ exists r, order s !! Z.to_nat j = Some r /\ on_device s r
             /\ ~ host_use s (head q) j (RecType.synced_array_id r)).
Proof.
  exact (C8_host_pin_is_local_to_one_scan sizeof_id zeros _ _ first_scan first_scan_returns).
Defined.

(** The scan of the first round passes the GETCAST of array 0 to the host
    (position 2) and pins the array.  Array 0 stays counted in the queue
    (dtype 4, count 1) up to the third round, whose function is the one
    that uses it on the host; yet the scan of the third round starts
    without the pin and schedules position 3, a GETCAST of array 0 to the
    device, for prefetch. *)
Lemma C8_host_pin_counterexample :
  planning sizeof_id zeros two_dtypes (at_top 2) third_top
  /\ schedule_swap_in sizeof_id third_top.1 third_top.2 = Ok third_scan
  /\ flag (host_uses_this_synced_array first_scan) 0 = true
  /\ head (si_queue first_scan) = 3
  /\ count (synced_array_counts third_top.2) 0 4 = 1
  /\ count (synced_array_counts (si_queue third_scan)) 0 4 = 1
  /\ flag (host_uses_this_synced_array third_scan) 0 = false
  /\ si_schedule third_scan = [3]
  /\ order two_dtypes !! 3%nat = Some (getcast 0 1 2 cuda).
Proof. split; [apply third_top_planning|]. by vm_compute. Qed.

(** ** The out-of-memory error *)

Lemma one_array_valid_ends : valid_ends zeros one_array.
Proof.
  constructor.
  - by left.
  - done.
  - intros e He. cbn in He. rewrite !elem_of_cons, elem_of_nil in He. lia.
  - intros i e e' H1 H2.
    do 3 (destruct i as [|i]; [cbn in H1, H2; simplify_eq; lia|]). done.
  - intros e He. cbn in He. rewrite !elem_of_cons, elem_of_nil in He. cbn. lia.
  - by vm_compute.
  - by vm_compute.
Qed.

Lemma C5_out_of_memory_witness :
  let s := one_array in
  (schedule sizeof_id zeros s = Err error_code.memory
   <-> exists fid x y,
         planning sizeof_id zeros s (at_top fid) x /\ fid < last_function s
         /\ schedule_swap_in sizeof_id x.1 x.2 = Ok y
         /\ head (si_queue y) < block_end s fid)
  /\ (forall fid x y,
        planning sizeof_id zeros s (at_top fid) x -> fid < last_function s ->
        schedule_swap_in sizeof_id x.1 x.2 = Ok y ->
        head (si_queue y) < block_end s fid ->
        exists r,
          order s !! Z.to_nat (head (si_queue y)) = Some r
          /\ on_device s r
          /\ used_bytes_swap_in (si_queue y) + bytes_of sizeof_id r
             > max_bytes_swap_in s - max_bytes_swap_out s
          /\ used_bytes_swap_in (si_queue y) + bytes_of sizeof_id r
             <= block_bytes sizeof_id s fid)
  /\ ((forall fid, 0 <= fid < last_function s ->
         block_bytes sizeof_id s fid <= max_bytes_swap_in s - max_bytes_swap_out s) ->
      schedule sizeof_id zeros s <> Err error_code.memory).
Proof.
  exact (C5_out_of_memory sizeof_id zeros one_array one_array_plannable
           one_array_valid_ends).
Defined.

(** One array of 8 bytes, used by the first of two functions, and a budget
    of 10 bytes: the working set of every function fits in B, yet
    8 > 10 - 10/2, the first scan stops at [head = 0] and the planner raises
    [error_code::memory], before any read of [func_block_ends] outside the
    vector. *)
Definition tight : SwapInOutScheduler :=
  recorded 10 [getcast 0 8 1 cuda] [1; 1].

Lemma C5_out_of_memory_counterexample :
  schedule sizeof_id trap tight = Err error_code.memory
  /\ schedule sizeof_id zeros tight = Err error_code.memory
  /\ last_function tight = 1
  /\ block_bytes sizeof_id tight 0 = 8
  /\ max_bytes_swap_in tight = 10.
Proof. by vm_compute. Qed.

(** ** The entries of the schedules *)

Definition plan_of (s : SwapInOutScheduler) : SwapInOutScheduler :=
  match schedule sizeof_id zeros s with
  | Ok s' => s'
  | _ => s
  end.

Lemma one_array_schedule : schedule sizeof_id zeros one_array = Ok (plan_of one_array).
Proof. by vm_compute. Qed.

Lemma C2_schedule_entries_witness :
  let s := one_array in
  let s' := plan_of one_array in
  (forall fid, 0 <= fid < last_function s ->
     NoDup (schedule_of (swap_out_schedule s') fid)
     /\ forall i, i ∈ schedule_of (swap_out_schedule s') fid
                  <-> evicted sizeof_id zeros s fid i)
  /\ (forall fid, 0 <= fid < last_function s ->
        NoDup (schedule_of (swap_in_schedule s') fid)
        /\ forall j, j ∈ schedule_of (swap_in_schedule s') fid
                     <-> prefetched sizeof_id zeros s fid j)
  /\ (forall f1 f2 i, 0 <= f1 < last_function s -> 0 <= f2 < last_function s ->
        evicted sizeof_id zeros s f1 i -> evicted sizeof_id zeros s f2 i -> f1 = f2)
  /\ (forall f1 f2 j, 0 <= f1 < last_function s -> 0 <= f2 < last_function s ->
        prefetched sizeof_id zeros s f1 j -> prefetched sizeof_id zeros s f2 j -> f1 = f2)
  /\ (forall fid i, 0 <= fid < last_function s -> evicted sizeof_id zeros s fid i ->
        i < block_start s (last_function s))
  /\ (forall fid, ~ 0 <= fid < last_function s ->
        swap_out_schedule s' !! fid = swap_out_schedule s !! fid
        /\ swap_in_schedule s' !! fid = swap_in_schedule s !! fid).
Proof.
  exact (C2_schedule_entries sizeof_id zeros one_array (plan_of one_array)
           one_array_plannable one_array_valid_ends one_array_schedule).
Defined.

(** Array 0 is used on the device and cleared by the first function, array
    1 is used on the device by the second and last function. *)
Definition cleared_then_used : SwapInOutScheduler :=
  recorded 16 [getcast 0 1 4 cuda; clear 0 1 4 cuda; getcast 1 1 4 cuda] [0; 2; 3].

(** The plan: position 0, marked for preclear, is in a [swap_out_schedule];
    position 2, a GETCAST to the device in the block of the last function
    and not marked, is in none. *)
Lemma C2_schedule_entries_counterexample :
  schedule sizeof_id zeros cleared_then_used = Ok (plan_of cleared_then_used)
  /\ swap_out_schedule (plan_of cleared_then_used) = {[ 0 := []; 1 := [0] ]}
  /\ RecType.preclear <$> order (plan_of cleared_then_used) = [true; false; false]
  /\ static <$> order (plan_of cleared_then_used)
     = static <$> [getcast 0 1 4 cuda; clear 0 1 4 cuda; getcast 1 1 4 cuda]
  /\ last_function cleared_then_used = 2.
Proof. by vm_compute. Qed.

(** ** The adapter for double-buffered inputs *)

(** The trace of an iteration that used the arrays 0 and 1 of the first
    batch, with its index, when [use_dali] is called the second time. *)
Definition dali_world : World unit :=
  world (put_iter_count 1
           (put_synced_array_id_to_order_idx (<[0 := [0; 2]]> (<[1 := [1]]> ∅))
              (recorded 16
                 [getcast 0 1 4 cuda; getcast 1 1 4 cuda; getcast 0 1 4 cuda] [0; 3]))).

(** The members after the first call, which kept the batch (0, 1). *)
Definition first_batch : Dali :=
  {| dali_sawptrs := ((0, 1), (0, 0)); dali_saptr_idxs := (0, 0) |}.

(** The members after the second call, which was given the batch (20, 21). *)
Definition both_batches : Dali :=
  {| dali_sawptrs := ((0, 1), (20, 21)); dali_saptr_idxs := (0, 1) |}.

Lemma dali_world_index_exact : index_exact (this dali_world).
Proof.
  intros id i. unfold order_idxs. cbn.
  destruct (decide (id = 0)) as [->|H0]; [|destruct (decide (id = 1)) as [->|H1]].
  - rewrite lookup_insert_eq. cbn. rewrite !elem_of_cons. split.
    + intros [->|[->|[]%not_elem_of_nil]]; (split; [lia|by eexists]).
    + intros (Hi & r & Hr & Hid).
      destruct (Z.to_nat i) as [|[|[|n]]] eqn:E; cbn in Hr; [| |right; left|done];
        [left; lia| |lia]. injection Hr as <-. done.
  - rewrite lookup_insert_ne, lookup_insert_eq by done. cbn. rewrite list_elem_of_singleton.
    split.
    + intros ->. split; [lia|by eexists].
    + intros (Hi & r & Hr & Hid).
      destruct (Z.to_nat i) as [|[|[|n]]] eqn:E; cbn in Hr; [|lia| |done];
        by injection Hr as <-.
  - rewrite !lookup_insert_ne, lookup_empty by done. cbn. split.
    + by intros ?%not_elem_of_nil.
    + intros (Hi & r & Hr & Hid). exfalso.
      destruct (Z.to_nat i) as [|[|[|n]]]; cbn in Hr; [| | |done];
        injection Hr as <-; cbn in Hid; congruence.
Qed.

Lemma dali_world_one_id : one_id (order (this dali_world)).
Proof.
  intros r1 r2 H1 H2 Heq. cbn in H1, H2.
  repeat (apply elem_of_cons in H1 as [->|H1]); [..|by apply not_elem_of_nil in H1];
    (repeat (apply elem_of_cons in H2 as [->|H2]); [..|by apply not_elem_of_nil in H2]);
    done.
Qed.

Lemma dali_world_one_handle : one_handle (order (this dali_world)).
Proof.
  intros r1 r2 H1 H2 Heq. cbn in H1, H2.
  repeat (apply elem_of_cons in H1 as [->|H1]); [..|by apply not_elem_of_nil in H1];
    (repeat (apply elem_of_cons in H2 as [->|H2]); [..|by apply not_elem_of_nil in H2]);
    done.
Qed.

Lemma X3_use_dali_second_iteration_witness :
  let w := dali_world in
  let d := first_batch in
  (iter_count (this w) = 1
   /\ lock1 (arrays w) (dali_sawptrs d).1.1 = true
   /\ lock1 (arrays w) (dali_sawptrs d).1.2 = true
   /\ index_exact (this w))
  /\ (exists w',
        use_dali unit lock1 [(20, 21)] d w = Ok (both_batches, w')
        /\ RecType.sawptr <$> order (this w) = [0; 1; 0]
        /\ RecType.sawptr <$> order (this w') = [20; 21; 20])
  /\ exists id0 id1 d' w',
       first_id_of unit lock1 (arrays w) (dali_sawptrs d).1.1 (order (this w))
         (dali_saptr_idxs d).1 id0
       /\ first_id_of unit lock1 (arrays w) (dali_sawptrs d).1.2 (order (this w))
            (dali_saptr_idxs d).2 id1
       /\ use_dali unit lock1 [(20, 21)] d w = Ok (d', w')
       /\ dali_sawptrs d' = ((dali_sawptrs d).1, (20, 21))
       /\ dali_saptr_idxs d' = (id0, id1)
       /\ arrays w' = arrays w
       /\ issued w' = issued w
       /\ but_order (this w') = but_order (this w)
       /\ length (order (this w')) = length (order (this w))
       /\ forall j r, order (this w) !! j = Some r ->
            exists r',
              order (this w') !! j = Some r'
              /\ but_sawptr r' = but_sawptr r
              /\ RecType.sawptr r'
                 = if bool_decide (RecType.synced_array_id r = id1) then (20, 21).2
                   else if bool_decide (RecType.synced_array_id r = id0) then (20, 21).1
                        else RecType.sawptr r.
Proof.
  intros w d.
  pose proof (X3_use_dali_second_iteration sizeof_id zeros unit lock1 (20, 21) d w
                eq_refl eq_refl eq_refl dali_world_index_exact) as H.
  split; [|split; [|exact H]].
  - split; [done|]. split; [done|]. split; [done|]. apply dali_world_index_exact.
  - eexists. split; [by vm_compute|]. split; by vm_compute.
Defined.

Lemma X4_use_dali_replaces_first_batch_witness :
  let w := dali_world in
  let d := first_batch in
  let w' :=
    world (put_order
             (RecType.mk RecTag.GETCAST 0 20 1 4 cuda false false 0 false
              :: RecType.mk RecTag.GETCAST 1 21 1 4 cuda false false 0 false
              :: RecType.mk RecTag.GETCAST 0 20 1 4 cuda false false 0 false :: [])
             (this w)) in
  (iter_count (this w) = 1
   /\ lock1 (arrays w) (dali_sawptrs d).1.1 = true
   /\ lock1 (arrays w) (dali_sawptrs d).1.2 = true
   /\ index_exact (this w)
   /\ one_id (order (this w)) /\ one_handle (order (this w))
   /\ (exists r, r ∈ order (this w) /\ RecType.sawptr r = (dali_sawptrs d).1.1)
   /\ (exists r, r ∈ order (this w) /\ RecType.sawptr r = (dali_sawptrs d).1.2)
   /\ use_dali unit lock1 [(20, 21)] d w = Ok (both_batches, w')
   /\ order (this w) !! 1%nat = Some (getcast 1 1 4 cuda))
  /\ exists r',
       order (this w') !! 1%nat = Some r'
       /\ but_sawptr r' = but_sawptr (getcast 1 1 4 cuda)
       /\ RecType.sawptr r'
          = if bool_decide (RecType.sawptr (getcast 1 1 4 cuda) = (dali_sawptrs d).1.2)
            then (20, 21).2
            else if bool_decide (RecType.sawptr (getcast 1 1 4 cuda) = (dali_sawptrs d).1.1)
                 then (20, 21).1
                 else RecType.sawptr (getcast 1 1 4 cuda).
Proof.
  intros w d w'.
  assert (Hx : exists r, r ∈ order (this w) /\ RecType.sawptr r = (dali_sawptrs d).1.1).
  { exists (getcast 0 1 4 cuda). split; [apply list_elem_of_here|done]. }
  assert (Ht : exists r, r ∈ order (this w) /\ RecType.sawptr r = (dali_sawptrs d).1.2).
  { exists (getcast 1 1 4 cuda).
    split; [apply list_elem_of_further, list_elem_of_here|done]. }
  assert (Hu : use_dali unit lock1 [(20, 21)] d w = Ok (both_batches, w')) by (by vm_compute).
  pose proof (X4_use_dali_replaces_first_batch sizeof_id zeros unit lock1 (20, 21) d w
                both_batches w' eq_refl eq_refl eq_refl dali_world_index_exact
                dali_world_one_id dali_world_one_handle Hx Ht Hu 1%nat
                (getcast 1 1 4 cuda) eq_refl) as H.
  split; [|exact H].
  split; [done|]. split; [done|]. split; [done|]. split; [apply dali_world_index_exact|].
  split; [apply dali_world_one_id|]. split; [apply dali_world_one_handle|]. done.
Defined.

(** The third call, in the iteration after: the trace has the second
    batch, and is switched back to the first. *)
Definition dali_world_later : World unit :=
  world (put_iter_count 2
           (put_order
              [RecType.mk RecTag.GETCAST 0 20 1 4 cuda false false 0 false;
               RecType.mk RecTag.GETCAST 1 21 1 4 cuda false false 0 false;
               RecType.mk RecTag.GETCAST 0 20 1 4 cuda false false 0 false]
              (this dali_world))).

Lemma dali_world_later_index_exact : index_exact (this dali_world_later).
Proof.
  intros id i. pose proof (dali_world_index_exact id i) as H.
  unfold order_idxs in *. cbn in *. rewrite H. clear H.
  split; intros (Hi & r & Hr & Hid); (split; [done|]);
    destruct (Z.to_nat i) as [|[|[|n]]]; cbn in Hr |- *; [| | |done| | | |done];
    injection Hr as <-; by eexists.
Qed.

Lemma X2_use_dali_switches_witness :
  let w := dali_world_later in
  let d := both_batches in
  (2 <= iter_count (this w) /\ index_exact (this w))
  /\ (exists w',
        use_dali unit lock1 [(30, 31)] d w = Ok (d, w')
        /\ RecType.sawptr <$> order (this w) = [20; 21; 20]
        /\ RecType.sawptr <$> order (this w') = [0; 1; 0])
  /\ exists w',
       use_dali unit lock1 [(30, 31)] d w = Ok (d, w')
       /\ arrays w' = arrays w
       /\ issued w' = issued w
       /\ but_order (this w') = but_order (this w)
       /\ length (order (this w')) = length (order (this w))
       /\ forall j r, order (this w) !! j = Some r ->
            exists r',
              order (this w') !! j = Some r'
              /\ but_sawptr r' = but_sawptr r
              /\ RecType.sawptr r'
                 = let b := if decide (Z.rem (iter_count (this w)) 2 = 0)
                            then (dali_sawptrs d).1 else (dali_sawptrs d).2 in
                   if bool_decide (RecType.synced_array_id r = (dali_saptr_idxs d).2)
                   then b.2
                   else if bool_decide (RecType.synced_array_id r = (dali_saptr_idxs d).1)
                        then b.1
                        else RecType.sawptr r.
Proof.
  intros w d.
  assert (Hi : 2 <= iter_count (this w)) by (cbn; lia).
  split; [split; [done|apply dali_world_later_index_exact]|]. split.
  - eexists. split; [by vm_compute|]. split; by vm_compute.
  - exact (X2_use_dali_switches sizeof_id zeros unit lock1 (30, 31) d w Hi
             dali_world_later_index_exact).
Defined.

(** The world after that third call. *)
Definition dali_world_switched : World unit :=
  world (put_order
           [getcast 0 1 4 cuda; getcast 1 1 4 cuda; getcast 0 1 4 cuda]
           (this dali_world_later)).

Lemma X5_use_dali_switch_overrides_witness :
  let w := dali_world_later in
  let d := both_batches in
  let w1 := dali_world_switched in
  (2 <= iter_count (this w) /\ 2 <= 3 /\ index_exact (this w)
   /\ use_dali unit lock1 [(30, 31)] d w = Ok (d, w1))
  /\ use_dali unit lock1 [(40, 41)] d (with_this unit (put_iter_count 3) w1)
     = use_dali unit lock1 [(40, 41)] d (with_this unit (put_iter_count 3) w).
Proof.
  intros w d w1.
  assert (Hi : 2 <= iter_count (this w)) by (cbn; lia).
  assert (Hk : 2 <= 3) by lia.
  assert (Hu : use_dali unit lock1 [(30, 31)] d w = Ok (d, w1)) by (by vm_compute).
  split; [split; [done|]; split; [done|]; split; [apply dali_world_later_index_exact|done]|].
  exact (X5_use_dali_switch_overrides sizeof_id zeros unit lock1 (30, 31) (40, 41) d w d w1 3
           Hi Hk dali_world_later_index_exact Hu).
Defined.

(** ** The executor after the first iteration *)

(** The plan for a trace whose first array is cleared ahead of its
    recorded [clear], run into the pre-callback of the third function. *)
Definition guarded : World unit :=
  world (put_first_iter false (put_func_idx 2 (plan_of cleared_then_used))).

Definition guarded_next : World unit :=
  match
    pre_callback sizeof_id zeros unit lock1 get_num_arrays1 array_dtype1 array_size1
      head_array_class1 perform1 guarded
  with
  | Ok w' => w'
  | _ => guarded
  end.

Lemma guarded_pre_callback :
  pre_callback sizeof_id zeros unit lock1 get_num_arrays1 array_dtype1 array_size1
    head_array_class1 perform1 guarded
  = Ok guarded_next.
Proof. by vm_compute. Qed.

Lemma X6_pre_callback_after_first_iteration_witness :
  let w := guarded in
  let w' := guarded_next in
  (first_iter (this w) = false
   /\ pre_callback sizeof_id zeros unit lock1 get_num_arrays1 array_dtype1 array_size1
        head_array_class1 perform1 w = Ok w')
  /\ exists oi pc,
       this w'
       = put_callback_func (Some (synced_array_callback (this w)))
           (put_func_idx (func_idx (this w) + 1)
              (put_order_idx oi (put_precleared pc (this w))))
       /\ order_idx (this w) <= oi
       /\ forall p, flag (precleared (this w)) p = true -> flag pc p = true.
Proof.
  intros w w'.
  assert (Hfi : first_iter (this w) = false) by (by vm_compute).
  split; [split; [done|apply guarded_pre_callback]|].
  exact (X6_pre_callback_after_first_iteration sizeof_id zeros unit lock1 get_num_arrays1
           array_dtype1 array_size1 head_array_class1 perform1 w w' Hfi
           guarded_pre_callback).
Defined.

Lemma X11_precleared_array_is_guarded_witness :
  let w := guarded in
  let w' := guarded_next in
  (first_iter (this w) = false
   /\ pre_callback sizeof_id zeros unit lock1 get_num_arrays1 array_dtype1 array_size1
        head_array_class1 perform1 w = Ok w'
   /\ (in_swap_out_scheduled, 0, call_clear 0) ∈ issued w'
   /\ ((in_swap_out_scheduled, 0, call_clear 0) ∉ issued w)
   /\ SyncedArrayCallbackTag.GET <> SyncedArrayCallbackTag.CLEAR)
  /\ synced_array_callback_tracer zeros unit lock1 array_size1 array_key 0
       SyncedArrayCallbackTag.GET 4 cuda false w'
     = Err error_code.target_specific_async.
Proof.
  intros w w'.
  assert (Hfi : first_iter (this w) = false) by (by vm_compute).
  assert (Hin : (in_swap_out_scheduled, 0, call_clear 0) ∈ issued w').
  { replace (issued w') with [(in_swap_out_scheduled, 0, call_clear 0)] by (by vm_compute).
    apply list_elem_of_here. }
  assert (Hnew : (in_swap_out_scheduled, 0, call_clear 0) ∉ issued w)
    by apply not_elem_of_nil.
  assert (Hfn : SyncedArrayCallbackTag.GET <> SyncedArrayCallbackTag.CLEAR) by done.
  split; [split; [done|]; split; [apply guarded_pre_callback|done]|].
  exact (X11_precleared_array_is_guarded sizeof_id zeros unit lock1 get_num_arrays1
           array_dtype1 array_size1 head_array_class1 perform1 array_key w w'
           in_swap_out_scheduled 0 0 SyncedArrayCallbackTag.GET 4 cuda false
           Hfi guarded_pre_callback Hin Hnew Hfn).
Defined.

(** ** A reset after the plan is made *)

Lemma X7_reset_leaves_the_plan_dangling_witness :
  let w := world (put_first_iter false (plan_of cleared_then_used)) in
  (first_iter (this w) = false
   /\ schedule_of (swap_in_schedule (this w)) 0 = [0; 2])
  /\ run1 zeros [op_reset; op_start_scheduling; op_pre_function_callback] w = Undefined.
Proof.
  intros w.
  assert (Hfi : first_iter (this w) = false) by (by vm_compute).
  assert (Hs : schedule_of (swap_in_schedule (this w)) 0 = [0; 2]) by (by vm_compute).
  split; [exact (conj Hfi Hs)|].
  exact (X7_reset_leaves_the_plan_dangling sizeof_id zeros unit lock1 get_num_arrays1
           array_dtype1 array_size1 head_array_class1 perform1 array_key w 0 [2] Hfi Hs).
Defined.

(** ** The accesses out of order *)

(** Three accesses were out of order: a [get] on the device, a [clear]
    and a [get] on the host. *)
Definition out_of_order : World unit :=
  world (put_wrong_ordered [getcast 5 1 4 cuda; clear 6 1 4 cuda; getcast 7 1 4 cpu]
           (new_SwapInOutScheduler cpu cuda 16)).

Definition out_of_order_swapped : World unit :=
  {| this := this out_of_order; arrays := tt;
     issued := [(in_swap_out_wrong_order, 0, call_cast 5 4 cpu false NONE)] |}.

Lemma X10_swap_out_wrong_order_casts_to_host_witness :
  let w := out_of_order in
  let w' := out_of_order_swapped in
  swap_out_wrong_order unit lock1 get_num_arrays1 perform1 w = Ok w'
  /\ this w' = this w
  /\ exists new,
       issued w' = issued w ++ new
       /\ Forall
            (fun x =>
               exists i r,
                 wrong_ordered (this w) !! i = Some r
                 /\ RecType.tag r = RecTag.GETCAST
                 /\ array_class (RecType.ctx r) = array_class (device_ctx (this w))
                 /\ x = (in_swap_out_wrong_order, Z.of_nat i,
                         call_cast (RecType.sawptr r) (RecType.dtype r)
                           (host_ctx (this w)) false NONE))
            new.
Proof.
  intros w w'.
  assert (H : swap_out_wrong_order unit lock1 get_num_arrays1 perform1 w = Ok w')
    by (by vm_compute).
  split; [done|].
  exact (X10_swap_out_wrong_order_casts_to_host unit lock1 get_num_arrays1 perform1 w w' H).
Defined.

(** ** The recorder *)

(** A scheduler inside the first function of its first iteration. *)
Definition recording : World unit :=
  world (put_callback_func (Some synced_array_callback_recorder_)
           (put_func_idx 1 (new_SwapInOutScheduler cpu cuda 16))).

Lemma recording_ids_exact : ids_exact (this recording).
Proof.
  unfold ids_exact. cbn. split; [lia|]. split; [done|]. split; [done|].
  intros r Hr. by apply not_elem_of_nil in Hr.
Qed.

Lemma recording_index_exact : index_exact (this recording).
Proof.
  intros id i. unfold order_idxs. cbn. rewrite lookup_empty. cbn. split.
  - by intros ?%not_elem_of_nil.
  - intros (_ & r & Hr & _). by rewrite lookup_nil in Hr.
Qed.

Definition recording_next (ops : list (Op unit)) : World unit := after ops recording.

Lemma X12_recorder_ids_one_to_one_witness :
  let w := recording in
  let w' := recording_next [op_access 7 SyncedArrayCallbackTag.GET 4 cuda false] in
  (ids_exact (this w)
   /\ synced_array_callback_recorder unit array_size1 7 SyncedArrayCallbackTag.GET 4 cuda
        false w = Ok w')
  /\ ids_exact (this w') /\ one_handle (order (this w')) /\ one_id (order (this w')).
Proof.
  intros w w'.
  assert (H : synced_array_callback_recorder unit array_size1 7 SyncedArrayCallbackTag.GET 4
                cuda false w = Ok w') by (by vm_compute).
  split; [split; [apply recording_ids_exact|done]|].
  exact (X12_recorder_ids_one_to_one unit array_size1 7 SyncedArrayCallbackTag.GET 4 cuda
           false w w' recording_ids_exact H).
Defined.

(** Two arrays, the first of them used twice. *)
Definition block : list (Op unit) :=
  [op_access 7 SyncedArrayCallbackTag.GET 4 cuda false;
   op_access 8 SyncedArrayCallbackTag.CAST 4 cuda true;
   op_access 7 SyncedArrayCallbackTag.CLEAR 4 cuda false].

Lemma X16_recorded_block_is_consistent_witness :
  let w := recording in
  let w' := recording_next block in
  (forallb (is_access unit) block = true
   /\ callback_func (this w) = Some synced_array_callback_recorder_
   /\ order_idx (this w) = Z.of_nat (length (order (this w)))
   /\ index_exact (this w)
   /\ ids_exact (this w)
   /\ run1 zeros block w = Ok w')
  /\ order_idx (this w') = Z.of_nat (length (order (this w')))
  /\ index_exact (this w')
  /\ ids_exact (this w')
  /\ one_handle (order (this w'))
  /\ one_id (order (this w')).
Proof.
  intros w w'.
  assert (H : run1 zeros block w = Ok w') by (by vm_compute).
  split.
  { split; [done|]. split; [done|]. split; [done|]. split; [apply recording_index_exact|].
    split; [apply recording_ids_exact|done]. }
  exact (X16_recorded_block_is_consistent sizeof_id zeros unit lock1 get_num_arrays1
           array_dtype1 array_size1 head_array_class1 perform1 array_key block w w'
           eq_refl eq_refl eq_refl recording_index_exact recording_ids_exact H).
Defined.

(** ** The function counter *)

(** Two functions and an update, with an access in each function. *)
Definition three_steps : list (Op unit) :=
  [op_pre_function_callback; op_access 7 SyncedArrayCallbackTag.GET 4 cuda false;
   op_post_function_callback;
   op_pre_function_callback; op_access 8 SyncedArrayCallbackTag.GET 4 cuda false;
   op_post_function_callback;
   op_pre_update_callback; op_post_update_callback].

Definition started : World unit :=
  after [op_start_scheduling] (world (new_SwapInOutScheduler cpu cuda 16)).

Lemma X13_func_idx_counts_pre_callbacks_witness :
  let w := started in
  let w' := after three_steps started in
  (forallb (inside_iteration unit) three_steps = true
   /\ run1 zeros three_steps w = Ok w')
  /\ func_idx (this w')
     = func_idx (this w)
       + Z.of_nat (length (filter (fun o => is_pre_callback unit o = true) three_steps))
  /\ first_iter (this w') = first_iter (this w).
Proof.
  intros w w'.
  assert (H : run1 zeros three_steps w = Ok w') by (by vm_compute).
  split; [done|].
  exact (X13_func_idx_counts_pre_callbacks sizeof_id zeros unit lock1 get_num_arrays1
           array_dtype1 array_size1 head_array_class1 perform1 array_key three_steps w w'
           eq_refl H).
Defined.

Lemma X15_accesses_before_the_first_function_witness :
  let w := world (new_SwapInOutScheduler cpu cuda 16) in
  forallb (is_access unit) block = true
  /\ run1 zeros (op_start_scheduling :: block) w = start_scheduling unit w.
Proof.
  intros w. split; [done|].
  exact (X15_accesses_before_the_first_function sizeof_id zeros unit lock1 get_num_arrays1
           array_dtype1 array_size1 head_array_class1 perform1 array_key block w eq_refl).
Defined.

(** ** Waiting for the swap-outs of the first iteration *)

(** Both arrays of the trace are being swapped out, and the wait for the
    first of them is over. *)
Definition swapping_out : World unit :=
  world (put_tail 1
           (put_order
              [getcast 0 1 4 cuda;
               RecType.put_swapped_out_bytes 4 (RecType.put_swapped_out true
                                                  (getcast 1 1 4 cuda));
               clear 0 1 4 cuda]
              (new_SwapInOutScheduler cpu cuda 16))).

Lemma X14_wait_for_all_swap_out_drains_witness :
  let w := swapping_out in
  0 <= tail (this w)
  /\ exists w',
       wait_for_all_swap_out unit lock1 get_num_arrays1 array_dtype1 head_array_class1
         perform1 w = Ok w'
       /\ tail (this w') = Z.max (tail (this w)) (Z.of_nat (length (order (this w))))
       /\ length (order (this w')) = length (order (this w))
       /\ (forall i, Z.of_nat i < tail (this w) ->
             order (this w') !! i = order (this w) !! i)
       /\ (forall i r, tail (this w) <= Z.of_nat i -> order (this w') !! i = Some r ->
             RecType.tag r = RecTag.GETCAST -> RecType.swapped_out r = false).
Proof.
  intros w.
  assert (Ht : 0 <= tail (this w)) by (cbn; lia).
  split; [done|].
  exact (X14_wait_for_all_swap_out_drains unit lock1 get_num_arrays1 array_dtype1
           head_array_class1 perform1 w Ht).
Defined.

(** ** The tracer *)


(** ** The errors of the entry points *)

(** A device the scheduler does not manage. *)
Definition other : Context := {| array_class := "CudaCachedArray"; device_id := "0" |}.

(** The first function of the first iteration has used an array there. *)
Definition unmanaged : World unit :=
  world (put_order_idx 1 (put_func_idx 1 (recorded 16 [getcast 0 1 4 other] [0]))).

Lemma X18_pre_callback_raises_witness :
  let w := unmanaged in
  pre_callback sizeof_id zeros unit lock1 get_num_arrays1 array_dtype1 array_size1
    head_array_class1 perform1 w = Err error_code.type
  /\ error_code.type = error_code.type
  /\ first_iter (this w) = true
  /\ func_idx (this w) > 0.
Proof.
  intros w.
  assert (H : pre_callback sizeof_id zeros unit lock1 get_num_arrays1 array_dtype1
                array_size1 head_array_class1 perform1 w = Err error_code.type)
    by (by vm_compute).
  split; [exact H|].
  exact (X18_pre_callback_raises sizeof_id zeros unit lock1 get_num_arrays1 array_dtype1
           array_size1 head_array_class1 perform1 w error_code.type H).
Defined.

(** After the first iteration, an access out of order was made there. *)
Definition unmanaged_later : World unit :=
  world (put_first_iter false
           (put_wrong_ordered [clear 4 1 4 cuda; getcast 5 1 4 other]
              (new_SwapInOutScheduler cpu cuda 16))).

Lemma X19_end_scheduling_raises_witness :
  let w := unmanaged_later in
  let e := error_code.type in
  end_scheduling sizeof_id zeros unit lock1 get_num_arrays1 array_dtype1 array_size1
    head_array_class1 perform1 w = Err e
  /\ ((first_iter (this w) = true /\ (e = error_code.type \/ e = error_code.memory))
      \/ (first_iter (this w) = false /\ e = error_code.type
          /\ exists r, r ∈ wrong_ordered (this w) /\ RecType.tag r = RecTag.GETCAST
             /\ array_class (RecType.ctx r) <> array_class (device_ctx (this w))
             /\ array_class (RecType.ctx r) <> array_class (host_ctx (this w)))).
Proof.
  intros w e.
  assert (H : end_scheduling sizeof_id zeros unit lock1 get_num_arrays1 array_dtype1
                array_size1 head_array_class1 perform1 w = Err e) by (by vm_compute).
  split; [exact H|].
  exact (X19_end_scheduling_raises sizeof_id zeros unit lock1 get_num_arrays1 array_dtype1
           array_size1 head_array_class1 perform1 w e H).
Defined.

(** ** What the planner keeps *)

Lemma X20_schedule_keeps_the_recorded_trace_witness :
  schedule sizeof_id zeros one_array = Ok (plan_of one_array)
  /\ planner_frame one_array (plan_of one_array).
Proof.
  split; [exact one_array_schedule|].
  exact (X20_schedule_keeps_the_recorded_trace sizeof_id zeros one_array (plan_of one_array)
           one_array_schedule).
Defined.

(** The second function has used an array on a device the scheduler does
    not manage. *)
Definition unmanaged_trace : SwapInOutScheduler :=
  recorded 16 [getcast 0 1 4 cuda; getcast 1 1 4 other] [0; 1; 2].

Lemma X21_schedule_raises_type_witness :
  schedule sizeof_id zeros unmanaged_trace = Err error_code.type
  /\ exists r, r ∈ order unmanaged_trace /\ off_device unmanaged_trace r.
Proof.
  assert (H : schedule sizeof_id zeros unmanaged_trace = Err error_code.type)
    by (by vm_compute).
  split; [exact H|].
  exact (X21_schedule_raises_type sizeof_id zeros unmanaged_trace H).
Defined.

(** ** Replaying the trace *)

Lemma X22_replayed_trace_is_in_order_witness :
  let w := traced in
  let s := this w in
  let rs := [getcast 0 1 4 cuda] in
  (callback_func s = Some synced_array_callback_tracer_
   /\ func_idx s <> 0
   /\ func_block_ends_at zeros s (func_idx s) = Ok 1
   /\ 0 <= order_idx s
   /\ order_idx s + Z.of_nat (length rs) <= 1
   /\ (forall k r, rs !! k = Some r ->
         order s !! (Z.to_nat (order_idx s) + k)%nat = Some r
         /\ lock1 (arrays w) (RecType.sawptr r) = true
         /\ flag (precleared s) (RecType.sawptr r) = false))
  /\ run1 zeros (access_of unit <$> rs) w
     = Ok (with_this unit (put_order_idx (order_idx s + Z.of_nat (length rs))) w).
Proof.
  intros w s rs.
  assert (Hcb : callback_func s = Some synced_array_callback_tracer_) by done.
  assert (Hf : func_idx s <> 0) by done.
  assert (He : func_block_ends_at zeros s (func_idx s) = Ok 1) by done.
  assert (H0 : 0 <= order_idx s) by done.
  assert (Hle : order_idx s + Z.of_nat (length rs) <= 1) by done.
  assert (Hrs : forall k r, rs !! k = Some r ->
            order s !! (Z.to_nat (order_idx s) + k)%nat = Some r
            /\ lock1 (arrays w) (RecType.sawptr r) = true
            /\ flag (precleared s) (RecType.sawptr r) = false).
  { intros [|k] r Hk; [|done]. injection Hk as <-. done. }
  split; [done|].
  exact (X22_replayed_trace_is_in_order sizeof_id zeros unit lock1 get_num_arrays1
           array_dtype1 array_size1 head_array_class1 perform1 array_key rs w 1
           Hcb Hf He H0 Hle Hrs).
Defined.

(** ** The tracer over an iteration *)

(** A planned trace of two functions with one array each, at the start of
    a later iteration, and the accesses of that iteration, made on two
    other arrays. *)
Definition traced_two : World unit :=
  world (put_callback_func (Some synced_array_callback_tracer_)
           (put_synced_array_callback synced_array_callback_tracer_
              (put_first_iter false
                 (put_synced_array_id_to_order_idx (<[0 := [0]]> (<[1 := [1]]> ∅))
                    (plan_of (recorded 16 [getcast 0 1 4 cuda; getcast 1 1 4 cuda]
                                [0; 1; 2])))))).

Definition two_functions : list (Op unit) :=
  [op_pre_function_callback; op_access 9 SyncedArrayCallbackTag.GET 4 cuda false;
   op_post_function_callback;
   op_pre_function_callback; op_access 8 SyncedArrayCallbackTag.GET 4 cuda false;
   op_post_function_callback].

Definition other_arrays (id : Z) : SyncedArrayPtr := if decide (id = 0) then 9 else 8.

Lemma traced_two_index_exact : index_exact (this traced_two).
Proof.
  intros id i. unfold order_idxs.
  replace (synced_array_id_to_order_idx (this traced_two))
    with (<[0 := [0]]> (<[1 := [1]]> (∅ : gmap Z (list Z)))) by (by vm_compute).
  replace (order (this traced_two))
    with [RecType.put_swapped_out_bytes 0
            (RecType.put_swapped_out false (getcast 0 1 4 cuda));
          getcast 1 1 4 cuda] by (by vm_compute).
  destruct (decide (id = 0)) as [->|H0]; [|destruct (decide (id = 1)) as [->|H1]].
  - rewrite lookup_insert_eq. cbn. rewrite list_elem_of_singleton. split.
    + intros ->. split; [lia|by eexists].
    + intros (Hi & r & Hr & Hid).
      destruct (Z.to_nat i) as [|[|n]] eqn:E; cbn in Hr; [lia| |done].
      by injection Hr as <-.
  - rewrite lookup_insert_ne, lookup_insert_eq by done. cbn. rewrite list_elem_of_singleton.
    split.
    + intros ->. split; [lia|by eexists].
    + intros (Hi & r & Hr & Hid).
      destruct (Z.to_nat i) as [|[|n]] eqn:E; cbn in Hr; [|lia|done].
      by injection Hr as <-.
  - rewrite !lookup_insert_ne, lookup_empty by done. cbn. split.
    + by intros ?%not_elem_of_nil.
    + intros (Hi & r & Hr & Hid). exfalso.
      destruct (Z.to_nat i) as [|[|n]]; cbn in Hr; [| |done];
        injection Hr as <-; cbn in Hid; congruence.
Qed.

Lemma traced_two_one_handle : one_handle (order (this traced_two)).
Proof.
  replace (order (this traced_two))
    with [RecType.put_swapped_out_bytes 0
            (RecType.put_swapped_out false (getcast 0 1 4 cuda));
          getcast 1 1 4 cuda] by (by vm_compute).
  intros r1 r2 H1 H2 Heq.
  repeat (apply elem_of_cons in H1 as [->|H1]); [..|by apply not_elem_of_nil in H1];
    (repeat (apply elem_of_cons in H2 as [->|H2]); [..|by apply not_elem_of_nil in H2]);
    done.
Qed.

Lemma traced_two_agrees :
  stream_agrees sizeof_id zeros unit lock1 get_num_arrays1 array_dtype1 array_size1
    head_array_class1 perform1 array_key other_arrays two_functions traced_two.
Proof.
  unfold two_functions. cbn [stream_agrees].
  split; [done|]. intros w1 H1. vm_compute in H1. injection H1 as <-.
  split.
  { split; [done|]. split; [by intros ?|]. split; [done|].
    exists (RecType.put_swapped_out_bytes 0
              (RecType.put_swapped_out false (getcast 0 1 4 cuda))), 1.
    by repeat split. }
  intros w2 H2. vm_compute in H2. injection H2 as <-.
  split; [done|]. intros w3 H3. vm_compute in H3. injection H3 as <-.
  split; [done|]. intros w4 H4. vm_compute in H4. injection H4 as <-.
  split.
  { split; [done|]. split; [by intros ?|]. split; [done|].
    exists (getcast 1 1 4 cuda), 2. by repeat split. }
  intros w5 H5. vm_compute in H5. injection H5 as <-.
  split; [done|]. intros w6 H6. vm_compute in H6. injection H6 as <-. done.
Qed.

Lemma C7_tracer_witness :
  (exists s',
     synced_array_callback_tracer zeros unit lock1 array_size1 array_key
       9 SyncedArrayCallbackTag.GET 4 cuda false traced
     = Ok {| this := s'; arrays := tt; issued := [] |}
     /\ (forall j r, order (this traced) !! j = Some r ->
           exists r',
             order s' !! j = Some r'
             /\ but_sawptr r' = but_sawptr r
             /\ RecType.sawptr r' = if bool_decide (RecType.synced_array_id r = 0)
                                    then 9 else RecType.sawptr r)
     /\ length (order s') = length (order (this traced))
     /\ wrong_ordered s' = wrong_ordered (this traced)
     /\ order_idx s' = order_idx (this traced) + 1)
  /\ (exists s',
        run1 zeros (op_of <$> [access9]) traced
        = Ok {| this := s'; arrays := tt; issued := [] |}
        /\ wrong_ordered s' = wrong_ordered (this traced)
        /\ order_idx s' = order_idx (this traced) + Z.of_nat (length [access9])
        /\ length (order s') = length (order (this traced))
        /\ forall j r, order (this traced) !! j = Some r ->
             exists r',
               order s' !! j = Some r'
               /\ but_sawptr r' = but_sawptr r
               /\ RecType.sawptr r'
                  = if bool_decide
                         (RecType.synced_array_id r
                          ∈ RecType.synced_array_id
                              <$> expected (this traced) (length [access9]))
                    then 9 else RecType.sawptr r)
  /\ (let w := traced_two in
      let w' := after two_functions traced_two in
      run1 zeros two_functions w = Ok w'
      /\ RecType.sawptr <$> order (this w) = [0; 1]
      /\ RecType.sawptr <$> order (this w') = [9; 8]
      /\ wrong_ordered (this w') = wrong_ordered (this w)
      /\ length (order (this w')) = length (order (this w))
      /\ forall j r, order (this w) !! j = Some r ->
           exists r',
             order (this w') !! j = Some r'
             /\ but_sawptr r' = but_sawptr r
             /\ RecType.sawptr r'
                = if bool_decide
                       (RecType.synced_array_id r
                        ∈ met_ids sizeof_id zeros unit lock1 get_num_arrays1 array_dtype1
                            array_size1 head_array_class1 perform1 array_key
                            two_functions w)
                  then other_arrays (RecType.synced_array_id r) else RecType.sawptr r).
Proof.
  pose proof (C7_tracer_identity_repair sizeof_id zeros unit lock1 get_num_arrays1
                array_dtype1 array_size1 head_array_class1 perform1 array_key)
    as (HA & HB & HC).
  split; [|split].
  - apply (HA access9 traced (getcast 0 1 4 cuda) 1); try done.
    + by intros [_ ?].
    + apply traced_index_exact.
  - apply (HB (fun _ => 9) [access9] traced 1); try done.
    + by repeat constructor.
    + by repeat constructor.
    + by repeat constructor.
    + apply traced_index_exact.
    + intros r1 r2 ->%list_elem_of_singleton ->%list_elem_of_singleton. done.
  - intros w w'.
    assert (Hrun : run1 zeros two_functions w = Ok w') by (by vm_compute).
    split; [exact Hrun|]. split; [by vm_compute|]. split; [by vm_compute|].
    assert (Hfi : first_iter (this w) = false) by (by vm_compute).
    assert (Hsc : synced_array_callback (this w) = synced_array_callback_tracer_)
      by (by vm_compute).
    assert (Hcb : callback_func (this w) = Some synced_array_callback_tracer_)
      by (by vm_compute).
    exact (HC other_arrays two_functions w w' Hfi Hsc Hcb traced_two_index_exact
             traced_two_one_handle traced_two_agrees Hrun).
Defined.
